(* ===== verification/_CoqProject ===== *)
-Q . S2P
Prelude.v
GoLib.v
Types.v
StateDB.v
Crypto.v
IavlState.v
Codec.v
State.v
Transaction.v
App.v
StateFacts.v
ProcessKeys.v
Invariant.v
Genesis.v
Concrete.v
Safety.v
Refinement.v
Operations.v
Queries.v
Database.v
Scrutinizer.v
ScrutinizerFacts.v
Results.v
KeyKeeper.v
KeyKeeperFacts.v
Api.v
Graviton.v
Trie.v
Census.v
CensusConcrete.v
TrieFacts.v
CensusFacts.v
VochainInfo.v
CensusDownloader.v
Node.v
Router.v
RouterFacts.v
EthEvents.v
EthFacts.v
Ipfs.v
Iden3Tree.v
IpfsSync.v
IpfsSyncFacts.v
Keys.v
SubPub.v
SubPubFacts.v
Client.v
ClientFacts.v
KeysCli.v
Ens.v
Startup.v
StartupFacts.v
Json.v
Networks.v
Election.v
Replies.v
Net.v
NetFacts.v
EthNode.v
EthNodeFacts.v
Config.v
ConfigFacts.v
NodeMain.v
NodeMainFacts.v
