(* ===== verification/Prelude.v ===== *)
(** * go-dvote: a verification library for the Vocdoni voting node

    go-dvote runs a voting blockchain, the vochain, as an ABCI application on
    Tendermint, and the gateways around it.  Oracles create voting processes
    in it after events of an Ethereum contract; voters send votes that carry a
    merkle proof of being in the census of the process; the key keepers, a
    kind of oracle, publish the encryption keys of a process before it starts
    and reveal them after it ends; the scrutinizer counts the ballots; gateways
    keep the census trees and answer the queries of clients.

    ** Conventions

    A Go call is a [res] (value, error or panic) and stateful code a [GM],
    a function from a state to a result and the state after it, also when the
    call fails.  Bytes are lists of [Byte.byte], Go strings Rocq strings,
    integers [Z] with the wrap-around of [int32], [int64] and [uint64] written
    out where the code computes ([i32], [i64], [u64]).  Maps are [gmap]s; where
    Go ranges over a map in an order it leaves open, the model takes the order
    of [map_to_list], or the order is an argument ([ep_next]).  A
    goroutine started by a handler is a task of the state, run later as a step
    of its own; locks are not modelled and every call is atomic, except in
    [SubPub], where a call that waits with the lock on the peers is a state of
    its own, and in [Net], where the goroutines of a gateway meet at channels.
    The end of the process ([log.Fatal]) is a panic.  Logging is left out; the time of day is an argument.

    Libraries outside the repository are classes of operations with, next to
    them, a class of the documented laws the theorems use: [CryptoLib] and
    [CryptoLaws], [SignLaws] (secp256k1, keccak, nacl boxes, Poseidon), [Iavl] and [IavlLaws]
    (tendermint/iavl), [Graviton] and [GravitonLaws] (deroproject/graviton),
    [AminoLib] and [AminoLaws] (go-amino), [TxJSON], [GenesisJSON],
    [OracleJSONLaws], [ScrutinizerCodec], [CensusEnv], [RouterEnv],
    [EthereumEnv], [AddressText], [Mempool], [NodeSync], [KeyKeeperEnv] (JSON
    documents, remote storage, zstd, the contract, the Tendermint node),
    [Iden3] and [Iden3Laws] (the sparse merkle tree of go-iden3-core),
    [IpfsCore], [SyncJSON], [EcdsaKeys], [Secretbox], [ClientLib], [EnsLib],
    [TendermintLib], [GenesisCodec], [HttpEnv] (servers behind the proxy),
    [EthLib] (go-ethereum), [ViperLib] (viper and YAML), [NodeEnv] and their laws.
    [Concrete], [CensusConcrete] and the ends of the other files of facts
    hold instances that run in the kernel, so that every theorem with such a
    hypothesis is applied to a concrete run.

    ** The vochain

    - [GoLib]: hexadecimal, [fmt], [strconv] and [util/helpers.go].
    - [Types]: [types/vochain.go], [types/consts.go].
    - [StateDB]: the interface of [statedb/statedb.go] as a class, and
      [StateDBSpec], its contract; [IavlState] models
      [statedb/iavlstate/iavlstate.go] and discharges the contract;
      [Refinement] shows that the store answers any sequence of calls as two
      maps do.
    - [Crypto]: [crypto/ethereum], [crypto/nacl], [crypto/snarks].
    - [Codec], [State], [Transaction], [App]: [vochain/state.go], [cache.go],
      [transaction.go], [apputils.go], [app.go].  [State] is proved against
      [StateDB] and an arbitrary [EventListener].
    - [StateFacts], [ProcessKeys], [Invariant], [Genesis]: the effect of each
      operation on the store, the invariant and its preservation by every ABCI
      call.
    - [Safety]: from an empty database, through any calls: the invariant,
      permanence of votes, evolution of processes, one vote per voter, who is
      admitted to vote, and what the vote cache breaks.
    - [Operations]: each kind of transaction, on success and on its errors.
    - [Queries]: vote counts and lists, exact but for identifiers ending in
      0xFF.
    - [Node]: [SendTX], the way the gateway and the oracle reach the mempool.

    ** The listeners of the vochain

    - [Database]: [db/badger.go].  [Scrutinizer], [ScrutinizerFacts],
      [Results]: [vochain/scrutinizer]: live and final results are the counts
      of the ballots, the pruned result is the full one without trailing
      zeros; what panics or is counted twice.  [Election]: on a node run from
      its genesis the live result is the recount of the committed votes; the
      other listeners are [SilentListener]s, which do not touch the store.
    - [KeyKeeper], [KeyKeeperFacts]: [vochain/keykeeper]: the stored keys are
      read back, published keys can be revealed, reveals are scheduled and
      submitted.
    - [CensusDownloader]: [vochain/censusdownloader]: which censuses a block
      makes a gateway fetch.
    - [VochainInfo]: [vochain/vochaininfo]: the block time averages.

    ** The gateway

    - [Api]: [types/api.go].
    - [Graviton], [Trie], [TrieFacts]: [statedb/gravitonstate], [trie]: a claim
      added to a census can be proved to the vochain, a dump imports to the
      same root.
    - [Census], [CensusFacts]: [census]: what a request and an import may
      change, what [CheckAuth] accepts.
    - [Router], [RouterFacts]: [router]: no API message changes the chain,
      census changes are signed, what a status query answers.
    - [Replies]: an API message gets at most one answer, on its own
      connection, and exactly one when it can be decoded and handled.
    - [Net], [NetFacts]: [net/proxy.go], [http.go], [websocket.go],
      [httpws.go]: the routes, the forwarding and the bridges; requests,
      websockets, channels and the router as steps that interleave, in every
      order of which a response holds at most the one answer to its request,
      and a waiting request can be brought to its answer in nine steps.
    - [EthEvents], [EthFacts]: [chain/ethevents], part of
      [chain/contractWrappers.go]: an event of the contract becomes a process
      of the vochain; the event queue keeps only the last event.

    ** Storage and the peer-to-peer network

    - [Ipfs]: [data/ipfs.go], [data/data.go]: the storage of a gateway.
    - [Iden3Tree], [IpfsSync], [IpfsSyncFacts]: [tree], [ipfssync]: the nodes
      of a group keep the pins they hear of in a tree; no pin is ever lost, and
      a node that hears an update ends up with the pins of its sender.
    - [Keys]: the import and export of keys of [crypto/ethereum].
    - [SubPub], [SubPubFacts]: [subpub], [net/subpub.go]: the messages of the
      group come out of a stream as they went in; the goroutines are a step
      relation, in every run of which each peer has a channel of its own that
      is never overfull; the collector of peers; a call that stalls the node.

    ** Clients and start-up

    - [Client], [ClientFacts]: [client]: a voter of the census can vote, a
      sealed ballot is opened by the scrutinizer, and what a client learns of
      a vote is what the chain has committed; each of these runs through the
      client, the gateway or the census, and the chain.
    - [KeysCli]: [cmd/keykeepercli]: the tool that recovers results computes
      those of the scrutinizer.
    - [Ens]: the names of [chain/contractWrappers.go]: the hash is the one of
      the standard; resolution and its retries.
    - [Startup], [StartupFacts]: [vochain/start.go], the keys and the genesis
      of [vochain/apputils.go], the choice of the genesis of
      [service/vochain.go]: Tendermint runs on the document that was chosen,
      and a new network starts with the oracles and validators it was made
      with.
    - [Json], [Networks]: the documents of [vochain/genesis.go], read by a
      small reader of JSON: each of the three networks starts with its own
      chain identifier, oracles and validators.
    - [EthNode], [EthNodeFacts]: [chain/blockchains.go], [chain/chain.go],
      [service/ethereum.go]: a node that came up is on the chain of its
      configuration; what a synchronised node has seen; the restart that ends
      the process, the port that nobody listens on.
    - [Config], [ConfigFacts]: [config/config.go] and [newConfig] of
      [cmd/dvotenode]: flags win over the environment and the file, every flag
      reaches a field, and a second run has the configuration of the first.
    - [NodeMain], [NodeMainFacts]: [main] of [cmd/dvotenode], the services of
      [service] and the route of [metrics]: each mode comes up with its
      services, and the API offers the methods of the interfaces switched on.

    ** Fuel

    [SplitBytes] has one more unit than the length of the buffer
    ([SplitBytes_terminates] shows it is enough), the loop of the collector of
    peers as many as there are peers ([collect_loop_fuel], [peers_collected]),
    and the division of the keys of a new census into requests as many as there
    are keys ([chunks_all]).  The reader of [Json] has twice the length of the
    text and one more, since each call consumes a character or is followed by
    one that does; [builtin_networks_start] and [goerli_genesis] show that the
    documents of the source are read to their end.  The retries of [Ens] and
    [EthNode] are the bounds of the code.  Two loops of the start have no bound
    in the code: the draw of a free port ([random_port_found]: it ends with the
    first port that is free) and the wait for the Ethereum node
    ([wait_ethereum]); their fuel is an argument of [main].  Every other loop is
    structural.

    ** Not modelled

    - Network, process and file system I/O below the libraries: the
      certificates and the middleware of the proxy, the websocket handshake,
      the libp2p host and its routing, the IPFS daemon ([ipfs]), [log] and the
      collectors of [metrics], the web3 subscription.  The other commands of
      [cmd] read flags and call the components above.
    - The bindings of [chain/contracts] are generated; the calls that are used
      are parameters of [Ens] and [EthEvents].
    - Of the client, the waiting loops around its load test; of the start of
      the vochain, the logger, the guess of the public address and the wait for
      synchronisation.  Paths are compared as they are written.
    - Of the router, the health figure (floating-point load of the machine) is
      a parameter and the metrics are left out; of the census manager, the
      iden3 storage it opens and does not read.
    - Data races: a gateway handles each message in a goroutine; the model
      interleaves the messages but runs the handling of one as one step.
    - The time of the last access of the trees of [tree], [db/table.go],
      [db/iden3.go], [crypto/json.go]. *)

From stdpp Require Import base gmap strings list fin_maps sorting pretty.
From Stdlib Require Import ZArith Lia.

(** ** Results of Go calls

    A Go call returns a value, returns a non-nil [error], or panics.  The
    panicking outcome also stands for [log.Fatal], which ends the process.
    An [error] is its message; formatted arguments are left out of it, since
    the code only ever compares the sentinel errors, which have none. *)
Definition error := string.

Inductive res (A : Type) : Type :=
  | Ok (a : A)
  | Err (e : error)
  | Panic (why : string).
Arguments Ok {A} a.
Arguments Err {A} e.
Arguments Panic {A} why.

#[export] Instance res_ret : MRet res := @Ok.
#[export] Instance res_bind : MBind res := λ A B f m,
  match m with Ok a => f a | Err e => Err e | Panic w => Panic w end.
#[export] Instance res_fmap : FMap res := λ A B f m,
  match m with Ok a => Ok (f a) | Err e => Err e | Panic w => Panic w end.

#[export] Instance res_eq_dec {A} `{EqDecision A} : EqDecision (res A).
Proof. solve_decision. Defined.

Definition is_ok {A} (r : res A) : bool := match r with Ok _ => true | _ => false end.
Definition is_panic {A} (r : res A) : bool := match r with Panic _ => true | _ => false end.
Lemma Ok_inj {A} (a b : A) : Ok a = Ok b → a = b.
Proof. by intros [= ->]. Qed.

(** [of_option e o] is the idiom [if o == nil { return e }]. *)
Definition of_option {A} (e : error) (o : option A) : res A :=
  match o with Some a => Ok a | None => Err e end.

(** [guard_err c e] is [if c { return e }]. *)
Definition guard_err (c : bool) (e : error) : res () := if c then Err e else Ok ().

(** ** Stateful Go code

    A method on a pointer receiver both returns and mutates: the mutation
    made before an error (or a panic) stays. *)
Definition GM (S A : Type) : Type := S → res A * S.

#[export] Instance GM_ret {S} : MRet (GM S) := λ A a s, (Ok a, s).
#[export] Instance GM_bind {S} : MBind (GM S) := λ A B f m s,
  match m s with
  | (Ok a, s') => f a s'
  | (Err e, s') => (Err e, s')
  | (Panic w, s') => (Panic w, s')
  end.

Definition get_st {S} : GM S S := λ s, (Ok s, s).
Definition modify {S} (f : S → S) : GM S () := λ s, (Ok (), f s).
Definition lift {S A} (r : res A) : GM S A := λ s, (r, s).
Definition reads {S A} (f : S → res A) : GM S A := λ s, (f s, s).

(** [updates f]: an operation on the state that either yields the new state
    or fails and leaves it as it was. *)
Definition updates {S} (f : S → res S) : GM S () := λ s,
  match f s with
  | Ok s' => (Ok (), s')
  | Err e => (Err e, s)
  | Panic w => (Panic w, s)
  end.

(** [try m] hands the error of [m] to the caller as a value
    ([if err := m(); err != nil {...}]); a panic still propagates. *)
Definition try_ {S A} (m : GM S A) : GM S (res A) := λ s,
  match m s with
  | (Ok a, s') => (Ok (Ok a), s')
  | (Err e, s') => (Ok (Err e), s')
  | (Panic w, s') => (Panic w, s')
  end.

(** A call whose error is only logged. *)
Definition logged {S} (m : GM S ()) : GM S () := r ← try_ m; mret ().

(** [deferred d m]: [defer d()] registered just before [m] runs. *)
Definition deferred {S A} (d : S → S) (m : GM S A) : GM S A := λ s,
  let '(r, s') := m s in (r, d s').

(** [for_each xs f]: a [for range] loop whose body may return early. *)
Fixpoint for_each {S A} (xs : list A) (f : A → GM S ()) : GM S () :=
  match xs with
  | [] => mret ()
  | x :: xs' => _ ← f x; for_each xs' f
  end.

Lemma res_bind_Ok {A B} (m : res A) (f : A → res B) b :
  (m ≫= f) = Ok b ↔ ∃ a, m = Ok a ∧ f a = Ok b.
Proof. split; [destruct m; simpl; naive_solver|]. intros (a & -> & H). done. Qed.

Lemma GM_bind_Ok {S A B} (m : GM S A) (f : A → GM S B) s b s' :
  (m ≫= f) s = (Ok b, s') ↔ ∃ a s1, m s = (Ok a, s1) ∧ f a s1 = (Ok b, s').
Proof.
  unfold mbind, GM_bind. split.
  - destruct (m s) as [[a|e|w] s1] eqn:E; intros H; [|done|done]. eauto.
  - intros (a & s1 & -> & H). done.
Qed.

(** One step of a block. *)
Lemma GM_run {S A B} (m : GM S A) (f : A → GM S B) s :
  (m ≫= f) s = match m s with
               | (Ok a, s') => f a s'
               | (Err e, s') => (Err e, s')
               | (Panic w, s') => (Panic w, s')
               end.
Proof. done. Qed.

Lemma logged_run {S} (m : GM S ()) s s' r : m s = (r, s') → is_panic r = false →
  logged m s = (Ok (), s').
Proof. intros Hm Hr. unfold logged, try_. rewrite GM_run, Hm. by destruct r. Qed.

Lemma for_each_app {S A} (xs ys : list A) (f : A → GM S ()) s s' : for_each xs f s = (Ok (), s') →
  for_each (xs ++ ys) f s = for_each ys f s'.
Proof.
  revert s. induction xs as [|x xs IH]; intros s; simpl; [by intros [= ->]|]. rewrite !GM_run.
  destruct (f x s) as [[[]| |] s1]; [apply IH|done|done].
Qed.

(** ** Frames

    [stays R m]: whatever the outcome of [m], the state before it is related
    by [R] to the state after it.  [R] is a preorder: "the parts I care about
    have not changed", "what was committed is still there". *)
Section stays.
Context {S : Type} (R : S → S → Prop) `{!Reflexive R} `{!Transitive R}.
Definition stays {A} (m : GM S A) : Prop := ∀ s, R s (m s).2.

Lemma stays_run {A} (m : GM S A) s r s' : stays m → m s = (r, s') → R s s'.
Proof. intros Hm E. specialize (Hm s). by rewrite E in Hm. Qed.
Lemma stays_after {A B} (m : GM S A) (f : A → GM S B) s :
  R s (m s).2 → (∀ a, stays (f a)) → R s ((m ≫= f) s).2.
Proof.
  intros Hm Hf. rewrite GM_run. destruct (m s) as [[a|e|w] s1]; [|done|done].
  etransitivity; [exact Hm|apply Hf].
Qed.
Lemma stays_bind {A B} (m : GM S A) (f : A → GM S B) : stays m → (∀ a, stays (f a)) → stays (m ≫= f).
Proof. intros Hm Hf s. by apply stays_after. Qed.
(** With what is known of the value and of the state it was read from. *)
Lemma stays_get {B} (f : S → GM S B) : (∀ s, R s (f s s).2) → stays (get_st ≫= f).
Proof. intros Hf s. apply Hf. Qed.
Lemma stays_mret {A} (a : A) : stays (mret a).
Proof. by intros s. Qed.
Lemma stays_lift {A} (r : res A) : stays (lift r).
Proof. by intros s. Qed.
Lemma stays_get_st : stays get_st.
Proof. by intros s. Qed.
Lemma stays_reads {A} (f : S → res A) : stays (reads f).
Proof. by intros s. Qed.
Lemma stays_modify (f : S → S) : (∀ s, R s (f s)) → stays (modify f).
Proof. by intros Hf s. Qed.
Lemma stays_updates (f : S → res S) : (∀ s s', f s = Ok s' → R s s') → stays (updates f).
Proof. intros Hf s. unfold updates. destruct (f s) eqn:E; [by apply Hf|done|done]. Qed.
Lemma stays_try {A} (m : GM S A) : stays m → stays (try_ m).
Proof. intros Hm s. specialize (Hm s). unfold try_. by destruct (m s) as [[]]. Qed.
Lemma stays_logged (m : GM S ()) : stays m → stays (logged m).
Proof. intros Hm. apply stays_bind; [by apply stays_try|]. intros. apply stays_mret. Qed.
Lemma stays_for_each {A} (xs : list A) (f : A → GM S ()) : (∀ x, stays (f x)) → stays (for_each xs f).
Proof. intros Hf. induction xs; [apply stays_mret|]. by apply stays_bind. Qed.
End stays.
Create HintDb stays.
#[export] Hint Resolve stays_mret stays_lift stays_get_st stays_reads stays_try stays_logged : stays.
#[export] Hint Extern 0 (Reflexive _) => typeclasses eauto : stays.
#[export] Hint Extern 0 (Transitive _) => typeclasses eauto : stays.
(** Goes through a block, one statement at a time. *)
Ltac stays_step :=
  first
    [ solve [auto with stays]
    | lazymatch goal with
      | |- stays ?R (_ ≫= _) => apply (stays_bind R); [|intros ?]
      | |- stays ?R (try_ _) => apply (stays_try R)
      | |- stays ?R (logged _) => apply (stays_logged R)
      | |- stays ?R (for_each _ _) => apply (stays_for_each R); intros ?
      | |- stays ?R (updates _) => apply (stays_updates R); intros ? ? ?
      | |- stays ?R (modify _) => apply (stays_modify R); intros ?
      | |- stays _ _ => case_match
      end ].
Ltac stays_tac := repeat stays_step.

Lemma guard_err_Ok c e : guard_err c e = Ok () ↔ c = false.
Proof. destruct c; simpl; split; done. Qed.
Lemma of_option_Ok {A} e (o : option A) a : of_option e o = Ok a ↔ o = Some a.
Proof. destruct o; simpl; split; intros; simplify_eq; done. Qed.

(** ** Tactics

    [go_inv H] takes a successful run of a monadic block apart, one bind at a
    time, down to equations about the calls it made. *)
Ltac go_inv_step H :=
  let a := fresh "a" in let s1 := fresh "s" in
  let H1 := fresh "Hrun" in
  lazymatch type of H with
  | (_ ≫= _) _ = (Ok _, _) => apply GM_bind_Ok in H as (a & s1 & H1 & H)
  | (_ ≫= _) = Ok _ => apply res_bind_Ok in H as (a & H1 & H)
  end.
Ltac go_simpl :=
  repeat match goal with
  | H : lift _ _ = (_, _) |- _ => unfold lift in H; simplify_eq
  | H : reads _ _ = (_, _) |- _ => unfold reads in H; simplify_eq
  | H : mret _ _ = (_, _) |- _ => unfold mret, GM_ret in H; simplify_eq
  | H : mret _ = Ok _ |- _ => unfold mret, res_ret in H; simplify_eq
  | H : get_st _ = (_, _) |- _ => unfold get_st in H; simplify_eq
  | H : modify _ _ = (_, _) |- _ => unfold modify in H; simplify_eq
  | H : guard_err _ _ = Ok _ |- _ => apply guard_err_Ok in H
  | H : of_option _ _ = Ok _ |- _ => apply of_option_Ok in H
  | H : Ok _ = Ok _ |- _ => injection H as H; try subst
  | H : Err _ = Ok _ |- _ => discriminate H
  | H : Panic _ = Ok _ |- _ => discriminate H
  | u : () |- _ => destruct u
  end.
Ltac go_inv H := repeat (go_inv_step H; cbv beta in H; go_simpl); go_simpl.

(** [go_bool] reflects the boolean guards in the context. *)
Ltac go_bool :=
  repeat match goal with
  | H : bool_decide _ = false |- _ => apply bool_decide_eq_false in H
  | H : bool_decide _ = true |- _ => apply bool_decide_eq_true in H
  | H : _ || _ = false |- _ => apply orb_false_iff in H as [? ?]
  | H : _ && _ = true |- _ => apply andb_true_iff in H as [? ?]
  | H : negb _ = false |- _ => apply negb_false_iff in H
  | H : negb _ = true |- _ => apply negb_true_iff in H
  end.

(** ** Machine integers

    Go's [int] (64 bits on the supported platforms) and [int64] are [Z] with
    two's-complement wrap-around at every arithmetic operation; [int32] and
    [uint32] likewise at their width. *)
Open Scope Z_scope.
Definition i64 (z : Z) : Z := (z + 2^63) mod 2^64 - 2^63.
Definition i32 (z : Z) : Z := (z + 2^31) mod 2^32 - 2^31.
Definition u32 (z : Z) : Z := z mod 2^32.
Definition in_i64 (z : Z) : Prop := - 2^63 ≤ z < 2^63.
Definition in_u32 (z : Z) : Prop := 0 ≤ z < 2^32.

Lemma i64_id z : in_i64 z → i64 z = z.
Proof. unfold in_i64, i64. intros. rewrite Z.mod_small; lia. Qed.
Lemma i64_range z : in_i64 (i64 z).
Proof. unfold in_i64, i64. pose proof (Z.mod_pos_bound (z + 2^63) (2^64)). lia. Qed.
Lemma i64_over z : 2^63 ≤ z < 2^63 + 2^64 → i64 z = z - 2^64.
Proof.
  intros. unfold i64.
  rewrite <- (Z.mod_unique (z + 2^63) (2^64) 1 (z + 2^63 - 2^64)); lia.
Qed.
Lemma u32_id z : in_u32 z → u32 z = z.
Proof. unfold in_u32, u32. intros. apply Z.mod_small. lia. Qed.
Lemma u32_range z : in_u32 (u32 z).
Proof. unfold in_u32, u32. apply Z.mod_pos_bound. lia. Qed.
Lemma u32_u32_add a b : u32 (u32 a + b) = u32 (a + b).
Proof. unfold u32. apply Z.add_mod_idemp_l. lia. Qed.

(** ** Slices

    [s[i]] and [s[i] = x] panic outside [0 <= i < len(s)]. *)
Definition go_index {A} (l : list A) (i : Z) : res A :=
  if decide (0 ≤ i) then
    match l !! Z.to_nat i with Some a => Ok a | None => Panic "index out of range" end
  else Panic "index out of range".

Definition go_set_index {A} (l : list A) (i : Z) (x : A) : res (list A) :=
  if decide (0 ≤ i < Z.of_nat (length l)) then Ok (<[Z.to_nat i := x]> l)
  else Panic "index out of range".

(** [s[:n]] and [s[n:]]. *)
Definition go_slice_to {A} (l : list A) (n : Z) : res (list A) :=
  if decide (0 ≤ n ≤ Z.of_nat (length l)) then Ok (take (Z.to_nat n) l)
  else Panic "slice bounds out of range".
Definition go_slice_from {A} (l : list A) (n : Z) : res (list A) :=
  if decide (0 ≤ n ≤ Z.of_nat (length l)) then Ok (drop (Z.to_nat n) l)
  else Panic "slice bounds out of range".

Definition glen {A} (l : list A) : Z := Z.of_nat (length l).
Definition slen (s : string) : Z := Z.of_nat (String.length s).

Lemma go_index_Ok {A} (l : list A) i a :
  go_index l i = Ok a ↔ 0 ≤ i ∧ l !! Z.to_nat i = Some a.
Proof.
  unfold go_index. case_decide; [|naive_solver].
  destruct (l !! Z.to_nat i); naive_solver.
Qed.
Lemma go_index_in_range {A} (l : list A) i :
  0 ≤ i < glen l → ∃ a, go_index l i = Ok a ∧ l !! Z.to_nat i = Some a.
Proof.
  unfold glen. intros. destruct (lookup_lt_is_Some_2 l (Z.to_nat i)) as [a Ha]; [lia|].
  exists a. split; [|done]. apply go_index_Ok. split; [lia|done].
Qed.
Lemma go_index_out_of_range {A} (l : list A) i :
  i < 0 ∨ glen l ≤ i → go_index l i = Panic "index out of range".
Proof.
  unfold go_index, glen. intros H. case_decide; [|done].
  rewrite (proj2 (lookup_ge_None l (Z.to_nat i))); [done|lia].
Qed.
Lemma go_index_not_Err {A} (l : list A) i e : go_index l i ≠ Err e.
Proof. unfold go_index. case_decide; [|done]. by case_match. Qed.
Lemma go_set_index_Ok {A} (l : list A) i x l' :
  go_set_index l i x = Ok l' ↔ 0 ≤ i < glen l ∧ l' = <[Z.to_nat i := x]> l.
Proof. unfold go_set_index, glen. case_decide; naive_solver. Qed.

Lemma go_index_eq {A} (l : list A) i a : 0 ≤ i → l !! Z.to_nat i = Some a → go_index l i = Ok a.
Proof. intros. by apply go_index_Ok. Qed.
Lemma go_set_index_eq {A} (l : list A) i x : 0 ≤ i < glen l →
  go_set_index l i x = Ok (<[Z.to_nat i := x]> l).
Proof. intros. by apply go_set_index_Ok. Qed.

(** [copy(s[i:], s[i+1:]); s = s[:len(s)-1]]: removal of the element at [i]. *)
Fixpoint remove_at {A} (i : nat) (l : list A) : list A :=
  match l, i with
  | [], _ => []
  | _ :: l', O => l'
  | x :: l', S i' => x :: remove_at i' l'
  end.

(** First index whose element satisfies a test, as a searching [for range]. *)
Fixpoint find_index {A} (f : A → bool) (l : list A) : option nat :=
  match l with
  | [] => None
  | x :: l' => if f x then Some O else S <$> find_index f l'
  end.

Lemma find_index_Some {A} (f : A → bool) l i :
  find_index f l = Some i → ∃ l1 x l2,
    l = l1 ++ x :: l2 ∧ length l1 = i ∧ f x = true ∧ Forall (λ y, f y = false) l1.
Proof.
  revert i. induction l as [|y l IH]; intros i; simpl; [done|].
  destruct (f y) eqn:E; [intros [= <-]; by exists [], y, l|].
  destruct (find_index f l) as [j|] eqn:Ej; [|done]. intros [= <-].
  destruct (IH _ eq_refl) as (l1 & x & l2 & -> & <- & Hx & Hl1).
  exists (y :: l1), x, l2. repeat split; auto.
Qed.
Lemma find_index_None {A} (f : A → bool) l :
  find_index f l = None ↔ Forall (λ y, f y = false) l.
Proof.
  induction l as [|y l IH]; simpl; [by split|].
  rewrite Forall_cons. destruct (f y) eqn:E; [naive_solver|].
  destruct (find_index f l); simpl; naive_solver.
Qed.
Lemma remove_at_app {A} (l1 : list A) x l2 : remove_at (length l1) (l1 ++ x :: l2) = l1 ++ l2.
Proof. induction l1; simpl; congruence. Qed.

Create HintDb godvote.
Create Rewrite HintDb godvote.
#[export] Hint Rewrite @go_index_Ok @go_set_index_Ok @remove_at_app : godvote.
