(* ===== verification/GoLib.v ===== *)
(** * Go strings, byte slices and hexadecimal; [util/helpers.go]

    What the node uses of Go's [encoding/hex], [bytes], [fmt] and [strconv],
    and the helpers of [util/helpers.go] built on them: [TrimHex], [IsHex],
    [IsHexEncodedStringWithLength], [SplitBytes].  A Go [string] is a
    [String.string] and a [[]byte] a [list byte]; the two conversions are the
    standard library's. *)

From Stdlib Require Import Ascii.
From stdpp Require Import base gmap strings list fin_maps sorting pretty.
From Stdlib Require Import ZArith Lia.
From Stdlib Require Import Strings.Byte.
From S2P Require Import Prelude.
Open Scope Z_scope.

Abbreviation byte := Byte.byte.
Abbreviation bytes := (list byte).

#[export] Instance byte_eq_dec : EqDecision byte := Byte.byte_eq_dec.
#[export] Instance byte_countable : Countable byte :=
  inj_countable Byte.to_N Byte.of_N Byte.of_to_N.

Definition b2z (b : byte) : Z := Z.of_N (Byte.to_N b).
(** Go's [byte(n)] conversion. *)
Definition z2b (z : Z) : byte :=
  match Byte.of_N (Z.to_N (z mod 256)) with Some b => b | None => x00 end.

(** [[]byte(s)] and [string(b)]. *)
Definition s2b (s : string) : bytes := String.list_byte_of_string s.
Definition b2s (b : bytes) : string := String.string_of_list_byte b.

Lemma s2b_b2s b : s2b (b2s b) = b.
Proof. apply String.list_byte_of_string_of_list_byte. Qed.
Lemma b2s_s2b s : b2s (s2b s) = s.
Proof. apply String.string_of_list_byte_of_string. Qed.
Lemma length_s2b s : length (s2b s) = String.length s.
Proof. induction s; simpl; [done|]. by f_equal. Qed.
Lemma length_b2s b : String.length (b2s b) = length b.
Proof. by rewrite <- length_s2b, s2b_b2s. Qed.
Lemma s2b_inj s1 s2 : s2b s1 = s2b s2 → s1 = s2.
Proof. intros H. rewrite <- (b2s_s2b s1), <- (b2s_s2b s2). by f_equal. Qed.
Lemma b2s_inj b1 b2 : b2s b1 = b2s b2 → b1 = b2.
Proof. intros H. rewrite <- (s2b_b2s b1), <- (s2b_b2s b2). by f_equal. Qed.

Lemma b2z_range b : 0 ≤ b2z b < 256.
Proof. unfold b2z. pose proof (Byte.to_N_bounded b). lia. Qed.
Lemma z2b_b2z b : z2b (b2z b) = b.
Proof.
  unfold z2b. rewrite Z.mod_small by apply b2z_range.
  unfold b2z. by rewrite N2Z.id, Byte.of_to_N.
Qed.
Lemma b2z_z2b z : b2z (z2b z) = z mod 256.
Proof.
  unfold z2b. pose proof (Z.mod_pos_bound z 256 ltac:(lia)).
  destruct (Byte.of_N (Z.to_N (z mod 256))) as [b|] eqn:E.
  - apply Byte.to_of_N in E. unfold b2z. rewrite E. lia.
  - apply Byte.of_N_None_iff in E. lia.
Qed.
Lemma b2z_inj a b : b2z a = b2z b → a = b.
Proof. intros H. rewrite <- (z2b_b2z a), <- (z2b_b2z b). by f_equal. Qed.

(** ** Lexicographic order: [bytes.Compare] *)
Fixpoint bytes_compare (a b : bytes) : comparison :=
  match a, b with
  | [], [] => Eq
  | [], _ => Lt
  | _, [] => Gt
  | x :: a', y :: b' =>
      match Z.compare (b2z x) (b2z y) with Eq => bytes_compare a' b' | c => c end
  end.
Definition bytes_ltb (a b : bytes) : bool :=
  match bytes_compare a b with Lt => true | _ => false end.
Definition bytes_leb (a b : bytes) : bool := negb (bytes_ltb b a).

(** [bytes.HasPrefix]. *)
Fixpoint has_prefix (p k : bytes) : bool :=
  match p, k with
  | [], _ => true
  | _ :: _, [] => false
  | x :: p', y :: k' => bool_decide (x = y) && has_prefix p' k'
  end.

Lemma s2b_app s t : s2b (s +:+ t) = s2b s ++ s2b t.
Proof.
  unfold s2b, String.list_byte_of_string. rewrite <- map_app. f_equal.
  induction s as [|c s IH]; [done|]. simpl. by f_equal.
Qed.
Lemma has_prefix_spec p k : has_prefix p k = true ↔ ∃ q, k = p ++ q.
Proof.
  revert k. induction p as [|x p IH]; intros k; simpl; [naive_solver|].
  destruct k as [|y k]; [split; [done|by intros [? [=]]]|].
  rewrite andb_true_iff, bool_decide_eq_true, IH. naive_solver.
Qed.
Lemma bytes_compare_refl a : bytes_compare a a = Eq.
Proof. induction a; simpl; [done|]. by rewrite Z.compare_refl. Qed.
Lemma bytes_compare_Eq a b : bytes_compare a b = Eq ↔ a = b.
Proof.
  revert b. induction a as [|x a IH]; intros [|y b]; simpl; try done.
  destruct (Z.compare_spec (b2z x) (b2z y)) as [E|E|E].
  - apply b2z_inj in E as ->. rewrite IH. naive_solver.
  - split; [done|]. intros [= -> ->]. lia.
  - split; [done|]. intros [= -> ->]. lia.
Qed.
Lemma bytes_compare_antisym a b : bytes_compare b a = CompOpp (bytes_compare a b).
Proof.
  revert b. induction a as [|x a IH]; intros [|y b]; simpl; try done.
  rewrite (Z.compare_antisym (b2z x)). destruct (b2z x ?= b2z y); simpl; auto.
Qed.
Lemma bytes_compare_app_l p a b : bytes_compare (p ++ a) (p ++ b) = bytes_compare a b.
Proof. induction p; simpl; [done|]. by rewrite Z.compare_refl. Qed.
Lemma bytes_compare_trans a b c :
  bytes_compare a b = Lt → bytes_compare b c = Lt → bytes_compare a c = Lt.
Proof.
  revert b c. induction a as [|x a IH]; intros [|y b] [|z c]; simpl; try done.
  destruct (Z.compare_spec (b2z x) (b2z y)), (Z.compare_spec (b2z y) (b2z z));
    intros; try done; destruct (Z.compare_spec (b2z x) (b2z z)); try lia; eauto.
Qed.

Definition bytes_le (a b : bytes) : Prop := bytes_leb a b = true.
#[export] Instance bytes_le_dec : RelDecision bytes_le.
Proof. intros a b. unfold bytes_le. apply _. Defined.

Lemma bytes_leb_compare a b : bytes_leb a b = true ↔ bytes_compare a b ≠ Gt.
Proof.
  unfold bytes_leb, bytes_ltb. rewrite bytes_compare_antisym.
  destruct (bytes_compare a b); simpl; naive_solver.
Qed.
#[export] Instance bytes_le_total : Total bytes_le.
Proof.
  intros a b. unfold bytes_le. rewrite !bytes_leb_compare, (bytes_compare_antisym a b).
  destruct (bytes_compare a b); simpl; naive_solver.
Qed.
#[export] Instance bytes_le_trans : Transitive bytes_le.
Proof.
  intros a b c. unfold bytes_le. rewrite !bytes_leb_compare. intros Hab Hbc.
  destruct (bytes_compare a b) eqn:E1; [| |done].
  - by apply bytes_compare_Eq in E1 as ->.
  - destruct (bytes_compare b c) eqn:E2; [| |done].
    + apply bytes_compare_Eq in E2 as <-. congruence.
    + by rewrite (bytes_compare_trans _ _ _ E1 E2).
Qed.

(** ** [encoding/hex] *)
(** [fromHexChar]. *)
Definition from_hex_char (c : byte) : option Z :=
  let n := b2z c in
  if decide (48 ≤ n ≤ 57) then Some (n - 48)
  else if decide (97 ≤ n ≤ 102) then Some (n - 97 + 10)
  else if decide (65 ≤ n ≤ 70) then Some (n - 65 + 10)
  else None.

(** [hex.DecodeString]: pairs of digits; an odd length is an error. *)
Fixpoint hex_decode_bytes (s : bytes) : res bytes :=
  match s with
  | [] => Ok []
  | [c] => match from_hex_char c with
           | None => Err "encoding/hex: invalid byte"
           | Some _ => Err "encoding/hex: odd length hex string"
           end
  | c1 :: c2 :: s' =>
      match from_hex_char c1, from_hex_char c2 with
      | Some a, Some b => r ← hex_decode_bytes s'; Ok (z2b (16 * a + b) :: r)
      | _, _ => Err "encoding/hex: invalid byte"
      end
  end.
Definition hex_DecodeString (s : string) : res bytes := hex_decode_bytes (s2b s).

Definition hex_digit (n : Z) : byte := z2b (if decide (n < 10) then 48 + n else 87 + n).
Fixpoint hex_encode_bytes (b : bytes) : bytes :=
  match b with
  | [] => []
  | x :: b' => hex_digit (b2z x / 16) :: hex_digit (b2z x mod 16) :: hex_encode_bytes b'
  end.
(** [fmt.Sprintf("%x", b)] on a byte slice, and [hex.EncodeToString]. *)
Definition sprintf_x (b : bytes) : string := b2s (hex_encode_bytes b).

Lemma from_hex_digit n : 0 ≤ n < 16 → from_hex_char (hex_digit n) = Some n.
Proof.
  intros Hn. unfold from_hex_char, hex_digit. cbv zeta. rewrite b2z_z2b.
  destruct (decide (n < 10)); rewrite Z.mod_small by lia;
    repeat case_decide; try lia; f_equal; lia.
Qed.
Lemma hex_decode_encode_bytes b : hex_decode_bytes (hex_encode_bytes b) = Ok b.
Proof.
  induction b as [|x b IH]; [done|]. cbn [hex_encode_bytes hex_decode_bytes].
  pose proof (b2z_range x).
  rewrite !from_hex_digit by
    first [apply Z.mod_pos_bound; lia
          |split; [apply Z.div_pos; lia|apply Z.div_lt_upper_bound; lia]].
  rewrite IH. simpl. rewrite <- Z.div_mod by lia. by rewrite z2b_b2z.
Qed.
Lemma length_hex_encode_bytes b : length (hex_encode_bytes b) = (2 * length b)%nat.
Proof. induction b; simpl; lia. Qed.

Lemma list_ind2 {A} (P : list A → Prop) :
  P [] → (∀ x, P [x]) → (∀ x y l, P l → P (x :: y :: l)) → ∀ l, P l.
Proof. intros H0 H1 H2. fix IH 1. intros [|x [|y l]]; [apply H0|apply H1|apply H2, IH]. Qed.

Lemma hex_decode_bytes_length s b :
  hex_decode_bytes s = Ok b → length s = (2 * length b)%nat.
Proof.
  revert b. induction s as [|c|c1 c2 s IH] using list_ind2; intros b H; simpl in H.
  - by simplify_eq.
  - by destruct (from_hex_char c).
  - destruct (from_hex_char c1), (from_hex_char c2); try done.
    destruct (hex_decode_bytes s) as [r|e|w]; simpl in H; simplify_eq.
    specialize (IH _ eq_refl). simpl. lia.
Qed.

(** [hex.DecodeString] inverts [%x] printing. *)
Lemma hex_DecodeString_sprintf_x b : hex_DecodeString (sprintf_x b) = Ok b.
Proof. unfold hex_DecodeString, sprintf_x. rewrite s2b_b2s. apply hex_decode_encode_bytes. Qed.
Lemma sprintf_x_inj a b : sprintf_x a = sprintf_x b → a = b.
Proof.
  intros H. enough (Ok a = Ok b) by congruence.
  by rewrite <- !hex_DecodeString_sprintf_x, H.
Qed.
Lemma hex_DecodeString_length s b :
  hex_DecodeString s = Ok b → String.length s = (2 * length b)%nat.
Proof. intros H%hex_decode_bytes_length. by rewrite <- length_s2b. Qed.
Lemma hex_DecodeString_no_panic s w : hex_DecodeString s ≠ Panic w.
Proof.
  unfold hex_DecodeString. induction (s2b s) as [|c|c1 c2 l IH] using list_ind2; simpl.
  - done.
  - by destruct (from_hex_char c).
  - destruct (from_hex_char c1), (from_hex_char c2); try done.
    destruct (hex_decode_bytes l); naive_solver.
Qed.

(** ** [util/helpers.go] *)
Definition TrimHex (s : string) : string :=
  match s with
  | String c1 (String c2 s') =>
      if bool_decide (c1 = "0"%char) && (bool_decide (c2 = "x"%char) || bool_decide (c2 = "X"%char))
      then s' else s
  | _ => s
  end.

(** The regular expression [^([0-9a-fA-F])+$]. *)
Definition IsHex (s : string) : bool :=
  match s2b s with
  | [] => false
  | l => forallb (λ c, match from_hex_char c with Some _ => true | None => false end) l
  end.

(** [hex.DecodedLen(len(s))] is [len(s) / 2], rounding down. *)
Definition IsHexEncodedStringWithLength (s : string) (len : Z) : bool :=
  let s := TrimHex s in
  bool_decide (slen s / 2 = len) && IsHex s.

Lemma hex_decode_all_digits s b : hex_decode_bytes s = Ok b →
  forallb (λ c, match from_hex_char c with Some _ => true | None => false end) s = true.
Proof.
  revert b. induction s as [|c|c1 c2 s IH] using list_ind2; intros b H; simpl in *; [done|by destruct (from_hex_char c)|].
  destruct (from_hex_char c1), (from_hex_char c2); try done.
  destruct (hex_decode_bytes s) as [r|e|w]; simpl in *; simplify_eq. by apply (IH r).
Qed.

(** The loop of [SplitBytes]; [None] when the fuel is spent. *)
Fixpoint SplitBytes_loop (fuel : nat) (buf : bytes) (lim : nat) : option (list bytes) :=
  match fuel with
  | O => None
  | S fuel' =>
      if decide (lim ≤ length buf)%nat
      then (λ cs, take lim buf :: cs) <$> SplitBytes_loop fuel' (drop lim buf) lim
      else Some (match buf with [] => [] | _ => [buf] end)
  end.

(** [len(buf)/lim+1] divides by zero for [lim = 0], and [buf[:lim]] is out of
    bounds for a negative [lim]. *)
Definition SplitBytes (buf : bytes) (lim : Z) : res (list bytes) :=
  if decide (lim ≤ 0) then Panic "SplitBytes: lim must be positive"
  else match SplitBytes_loop (S (length buf)) buf (Z.to_nat lim) with
       | Some cs => Ok cs
       | None => Panic "out of fuel"
       end.

Lemma SplitBytes_loop_total fuel buf lim :
  (0 < lim)%nat → (length buf < fuel)%nat → is_Some (SplitBytes_loop fuel buf lim).
Proof.
  revert buf. induction fuel as [|fuel IH]; intros buf Hl Hf; [lia|]. simpl.
  case_decide; [|by eexists].
  destruct (IH (drop lim buf)) as [cs ->]; [done|rewrite length_drop; lia|by eexists].
Qed.
Lemma SplitBytes_loop_concat fuel buf lim cs :
  SplitBytes_loop fuel buf lim = Some cs → concat cs = buf.
Proof.
  revert buf cs. induction fuel as [|fuel IH]; intros buf cs; simpl; [done|].
  case_decide.
  - destruct (SplitBytes_loop fuel (drop lim buf) lim) as [cs'|] eqn:E; [|done].
    intros [= <-]. simpl. rewrite (IH _ _ E). apply take_drop.
  - intros [= <-]. destruct buf; simpl; by rewrite ?app_nil_r.
Qed.
Lemma SplitBytes_loop_chunks fuel cs lim :
  (0 < lim)%nat → Forall (λ c, length c = lim) cs → (length (concat cs) < fuel)%nat →
  SplitBytes_loop fuel (concat cs) lim = Some cs.
Proof.
  revert cs. induction fuel as [|fuel IH]; intros cs Hl Hcs Hf; [lia|].
  destruct cs as [|c cs]; simpl.
  - rewrite decide_False by lia. done.
  - apply Forall_cons in Hcs as [<- Hcs]. simpl in Hf. rewrite length_app in Hf.
    rewrite decide_True by (rewrite length_app; lia).
    rewrite drop_app_length, take_app_length, IH; [done|done|done|lia].
Qed.
Lemma SplitBytes_loop_sizes fuel buf lim cs : (0 < lim)%nat → SplitBytes_loop fuel buf lim = Some cs →
  Forall (λ c, 0 < length c ≤ lim)%nat cs ∧ Forall (λ c, length c = lim) (removelast cs).
Proof.
  intros Hl. revert buf cs. induction fuel as [|fuel IH]; intros buf cs; simpl; [done|]. case_decide.
  - destruct (SplitBytes_loop fuel (drop lim buf) lim) as [cs'|] eqn:E; [|done].
    intros [= <-]. destruct (IH _ _ E) as [Hs Hr]. assert (length (take lim buf) = lim) by (rewrite length_take; lia).
    split; [constructor; [lia|done]|]. destruct cs'; [constructor|]. by constructor.
  - intros [= <-]. destruct buf; simpl in *; split; try constructor; simpl; try lia; constructor.
Qed.

(** Splitting a buffer always comes to an end: the chunks are not empty,
    all but the last have the size asked for, none is longer, and together
    they are the buffer. *)
Theorem SplitBytes_terminates buf lim : 0 < lim →
  ∃ cs, SplitBytes buf lim = Ok cs ∧ concat cs = buf ∧
    Forall (λ c, 0 < length c ≤ Z.to_nat lim)%nat cs ∧ Forall (λ c, length c = Z.to_nat lim) (removelast cs).
Proof.
  intros Hl. unfold SplitBytes. rewrite decide_False by lia.
  destruct (SplitBytes_loop_total (S (length buf)) buf (Z.to_nat lim)) as [cs Hcs]; [lia..|]. rewrite Hcs.
  exists cs. split; [done|]. split; [by eapply SplitBytes_loop_concat|]. eapply SplitBytes_loop_sizes; [|exact Hcs]. lia.
Qed.
Lemma SplitBytes_terminates_witness : ∃ cs,
  SplitBytes [Byte.x01; Byte.x02; Byte.x03] 2 = Ok cs ∧ cs = [[Byte.x01; Byte.x02]; [Byte.x03]].
Proof.
  destruct (SplitBytes_terminates [Byte.x01; Byte.x02; Byte.x03] 2) as (cs & E & _); [lia|].
  exists cs. split; [exact E|]. vm_compute in E. by injection E as <-.
Defined.

(** A string of hexadecimal digits never starts with [0x], so trimming it
    changes nothing. *)
Lemma hex_digit_not_x n : 0 ≤ n < 16 → b2z (hex_digit n) ≠ 120 ∧ b2z (hex_digit n) ≠ 88.
Proof.
  intros. unfold hex_digit. rewrite b2z_z2b.
  destruct (decide (n < 10)); rewrite Z.mod_small by lia; lia.
Qed.
Lemma TrimHex_sprintf_x b : TrimHex (sprintf_x b) = sprintf_x b.
Proof.
  destruct b as [|x b]; [done|]. unfold sprintf_x.
  cbn [hex_encode_bytes b2s String.string_of_list_byte].
  pose proof (b2z_range x).
  assert (0 ≤ b2z x mod 16 < 16) as Hm by (apply Z.mod_pos_bound; lia).
  destruct (hex_digit_not_x _ Hm) as [Hx HX]. revert Hx HX.
  generalize (hex_digit (b2z x mod 16)) as c2, (hex_digit (b2z x / 16)) as c1.
  intros c2 c1 Hx HX. unfold b2s. simpl. 
  rewrite (bool_decide_eq_false_2 (ascii_of_byte c2 = "x"%char)).
  2:{ intros E. apply Hx. apply (f_equal byte_of_ascii) in E.
      rewrite byte_of_ascii_of_byte in E. by subst. }
  rewrite (bool_decide_eq_false_2 (ascii_of_byte c2 = "X"%char)).
  2:{ intros E. apply HX. apply (f_equal byte_of_ascii) in E.
      rewrite byte_of_ascii_of_byte in E. by subst. }
  by rewrite andb_false_r.
Qed.
Lemma slen_sprintf_x b : slen (sprintf_x b) = 2 * glen b.
Proof. unfold slen, sprintf_x, glen. rewrite length_b2s, length_hex_encode_bytes. lia. Qed.
Lemma IsHex_sprintf_x b : b ≠ [] → IsHex (sprintf_x b) = true.
Proof.
  intros Hb. unfold IsHex, sprintf_x. rewrite s2b_b2s. pose proof (hex_decode_all_digits _ _ (hex_decode_encode_bytes b)).
  by destruct b.
Qed.
Lemma hex_size b n : length b = n → n ≠ 0%nat →
  IsHexEncodedStringWithLength (sprintf_x b) (Z.of_nat n) = true.
Proof.
  intros Hb Hn. unfold IsHexEncodedStringWithLength. rewrite TrimHex_sprintf_x, IsHex_sprintf_x, andb_true_r.
  - apply bool_decide_eq_true. rewrite slen_sprintf_x. unfold glen. rewrite Hb, Z.mul_comm. apply Z.div_mul. lia.
  - by intros ->.
Qed.
(** A string that decodes has no [0x] in front. *)
Lemma TrimHex_decodable s b : hex_DecodeString s = Ok b → TrimHex s = s.
Proof.
  destruct s as [|c1 [|c2 s]]; [done|done|]. unfold hex_DecodeString, TrimHex. simpl.
  destruct (decide (c2 = "x"%char)) as [->|Hx].
  { destruct (from_hex_char (byte_of_ascii c1)); done. }
  destruct (decide (c2 = "X"%char)) as [->|HX].
  { destruct (from_hex_char (byte_of_ascii c1)); done. }
  intros _. by rewrite !(bool_decide_eq_false_2 (c2 = _)), andb_false_r by done.
Qed.
