(* ===== verification/Types.v ===== *)
(** * The vochain data types: [types/vochain.go], [types/consts.go]

    One [Record] per Go struct, fields in the order of the source and with its
    names behind a prefix that says which struct they belong to.  The [json]
    tags play no role here; [SignedBytes], which is not serialised, is a field
    like the others. *)

From stdpp Require Import base gmap strings list fin_maps.
From Stdlib Require Import ZArith Lia.
From S2P Require Import Prelude GoLib.
Open Scope Z_scope.

(** ** Constants ([types/consts.go]) *)
Definition ProcessIDsize : Z := 32.
Definition EntityIDsize : Z := 20.
Definition EntityIDsizeV2 : Z := 32.
Definition VoteNullifierSize : Z := 32.
Definition MaxKeyIndex : Z := 16.
Definition ScrutinizerLiveProcessPrefix : byte := Byte.x21.
Definition ScrutinizerEntityPrefix : byte := Byte.x22.
Definition ScrutinizerResultsPrefix : byte := Byte.x24.
Definition ScrutinizerProcessEndingPrefix : byte := Byte.x25.

Definition PetitionSign : string := "petition-sign".
Definition PollVote : string := "poll-vote".
Definition EncryptedPoll : string := "encrypted-poll".
Definition SnarkVote : string := "snark-vote".

Definition TxVote : string := "vote".
Definition TxNewProcess : string := "newProcess".
Definition TxCancelProcess : string := "cancelProcess".
Definition TxAddValidator : string := "addValidator".
Definition TxRemoveValidator : string := "removeValidator".
Definition TxAddOracle : string := "addOracle".
Definition TxRemoveOracle : string := "removeOracle".
Definition TxAddProcessKeys : string := "addProcessKeys".
Definition TxRevealProcessKeys : string := "revealProcessKeys".

(** ** Votes *)
Record Vote := mkVote {
  v_EncryptionKeyIndexes : list Z;
  v_Height : Z;
  v_Nullifier : bytes;
  v_ProcessID : bytes;
  v_VotePackage : string }.

(** [Created] is a time in nanoseconds. *)
Record VoteProof := mkVoteProof {
  vp_Proof : string;
  vp_PubKey : string;
  vp_PubKeyDigest : bytes;
  vp_Nullifier : bytes;
  vp_Created : Z }.

(** The decoded content of a ballot ([types/api.go]). *)
Record VotePackage := mkVotePackage {
  vpk_Nonce : string;
  vpk_Votes : list Z }.

(** ** Processes *)
Record Process := mkProcess {
  p_Canceled : bool;
  p_CommitmentKeys : list string;
  p_EncryptionPrivateKeys : list string;
  p_EncryptionPublicKeys : list string;
  p_EntityID : bytes;
  p_KeyIndex : Z;
  p_MkRoot : string;
  p_NumberOfBlocks : Z;
  p_Paused : bool;
  p_RevealKeys : list string;
  p_StartBlock : Z;
  p_Type : string }.

(** A Go map lookup yields [false] for a missing key. *)
Definition ProcessRequireKeys (t : string) : bool :=
  if decide (t = PollVote) then false
  else if decide (t = PetitionSign) then false
  else if decide (t = EncryptedPoll) then true
  else if decide (t = SnarkVote) then true
  else false.
Definition ProcessIsEncrypted (t : string) : bool :=
  if decide (t = PollVote) then false
  else if decide (t = PetitionSign) then false
  else if decide (t = EncryptedPoll) then true
  else if decide (t = SnarkVote) then true
  else false.
Definition RequireKeys (p : Process) : bool := ProcessRequireKeys (p_Type p).
Definition IsEncrypted (p : Process) : bool := ProcessIsEncrypted (p_Type p).

Definition set_Canceled (b : bool) (p : Process) : Process :=
  mkProcess b (p_CommitmentKeys p) (p_EncryptionPrivateKeys p) (p_EncryptionPublicKeys p)
    (p_EntityID p) (p_KeyIndex p) (p_MkRoot p) (p_NumberOfBlocks p) (p_Paused p)
    (p_RevealKeys p) (p_StartBlock p) (p_Type p).
Definition set_Paused (b : bool) (p : Process) : Process :=
  mkProcess (p_Canceled p) (p_CommitmentKeys p) (p_EncryptionPrivateKeys p)
    (p_EncryptionPublicKeys p) (p_EntityID p) (p_KeyIndex p) (p_MkRoot p)
    (p_NumberOfBlocks p) b (p_RevealKeys p) (p_StartBlock p) (p_Type p).
Definition set_KeyIndex (k : Z) (p : Process) : Process :=
  mkProcess (p_Canceled p) (p_CommitmentKeys p) (p_EncryptionPrivateKeys p)
    (p_EncryptionPublicKeys p) (p_EntityID p) k (p_MkRoot p) (p_NumberOfBlocks p)
    (p_Paused p) (p_RevealKeys p) (p_StartBlock p) (p_Type p).
Definition set_PublicKeys (commit pub : list string) (p : Process) : Process :=
  mkProcess (p_Canceled p) commit (p_EncryptionPrivateKeys p) pub (p_EntityID p)
    (p_KeyIndex p) (p_MkRoot p) (p_NumberOfBlocks p) (p_Paused p) (p_RevealKeys p)
    (p_StartBlock p) (p_Type p).
Definition set_SecretKeys (reveal priv : list string) (p : Process) : Process :=
  mkProcess (p_Canceled p) (p_CommitmentKeys p) priv (p_EncryptionPublicKeys p)
    (p_EntityID p) (p_KeyIndex p) (p_MkRoot p) (p_NumberOfBlocks p) (p_Paused p)
    reveal (p_StartBlock p) (p_Type p).

(** ** Transactions *)
Record VoteTx := mkVoteTx {
  vt_EncryptionKeyIndexes : list Z;
  vt_Nonce : string;
  vt_Nullifier : string;
  vt_ProcessID : string;
  vt_Proof : string;
  vt_Signature : string;
  vt_Type : string;
  vt_VotePackage : string;
  vt_SignedBytes : bytes }.

Record NewProcessTx := mkNewProcessTx {
  np_EntityID : string;
  np_MkRoot : string;
  np_MkURI : string;
  np_NumberOfBlocks : Z;
  np_ProcessID : string;
  np_ProcessType : string;
  np_Signature : string;
  np_StartBlock : Z;
  np_Type : string;
  np_SignedBytes : bytes }.

Record CancelProcessTx := mkCancelProcessTx {
  cp_ProcessID : string;
  cp_Signature : string;
  cp_Type : string;
  cp_SignedBytes : bytes }.

Record AdminTx := mkAdminTx {
  at_Address : string;
  at_CommitmentKey : string;
  at_EncryptionPrivateKey : string;
  at_EncryptionPublicKey : string;
  at_KeyIndex : Z;
  at_Nonce : string;
  at_Power : Z;
  at_ProcessID : string;
  at_PubKey : string;
  at_RevealKey : string;
  at_Signature : string;
  at_Type : string;
  at_SignedBytes : bytes }.

(** [GenericTX] with the dynamic types that implement it; [TxType]. *)
Inductive GenericTX :=
  | GVoteTx (tx : VoteTx)
  | GAdminTx (tx : AdminTx)
  | GCancelProcessTx (tx : CancelProcessTx)
  | GNewProcessTx (tx : NewProcessTx).

Definition TxType (g : GenericTX) : string :=
  match g with
  | GVoteTx _ => "VoteTx"
  | GAdminTx _ => "AdminTx"
  | GCancelProcessTx _ => "CancelProcessTx"
  | GNewProcessTx _ => "NewProcessTx"
  end.

(** The first 32 characters of the signature, for the three process types
    whose votes are signed. *)
Definition UniqID (tx : VoteTx) (processType : string) : string :=
  if bool_decide (processType = PollVote) || bool_decide (processType = PetitionSign)
     || bool_decide (processType = EncryptedPoll)
  then if decide (32 < slen (vt_Signature tx))
       then String.substring 0 32 (vt_Signature tx) else ""
  else "".

(** [ValidTypes] and [ValidateType]. *)
Definition ValidateType (t : string) : string :=
  if decide (t = TxVote) then "VoteTx"
  else if decide (t = TxNewProcess) then "NewProcessTx"
  else if decide (t = TxCancelProcess) then "CancelProcessTx"
  else if decide (t = TxAddValidator) then "AdminTx"
  else if decide (t = TxRemoveValidator) then "AdminTx"
  else if decide (t = TxAddOracle) then "AdminTx"
  else if decide (t = TxRemoveOracle) then "AdminTx"
  else if decide (t = TxAddProcessKeys) then "AdminTx"
  else if decide (t = TxRevealProcessKeys) then "AdminTx"
  else "".

(** ** Genesis and block data *)
Record GenesisValidator := mkGenesisValidator {
  gv_Address : bytes;
  gv_PubKey : bytes;
  gv_Power : Z;
  gv_Name : string }.

Record GenesisAppState := mkGenesisAppState {
  gas_Validators : list GenesisValidator;
  gas_Oracles : list string }.

(** The fields of the Tendermint block header the node reads.  [BeginBlock]
    stores the ABCI header and [Header] reads it back as a Tendermint one; the
    two agree on these fields. *)
Record Header := mkHeader {
  h_Height : Z;
  h_Time : Z;
  h_AppHash : bytes }.

#[export] Instance Vote_eq_dec : EqDecision Vote.
Proof. solve_decision. Defined.
#[export] Instance VoteProof_eq_dec : EqDecision VoteProof.
Proof. solve_decision. Defined.
#[export] Instance Process_eq_dec : EqDecision Process.
Proof. solve_decision. Defined.
#[export] Instance GenesisValidator_eq_dec : EqDecision GenesisValidator.
Proof. solve_decision. Defined.
#[export] Instance Header_eq_dec : EqDecision Header.
Proof. solve_decision. Defined.

Lemma RequireKeys_type p : RequireKeys p = true ↔ p_Type p = EncryptedPoll ∨ p_Type p = SnarkVote.
Proof.
  unfold RequireKeys, ProcessRequireKeys. split.
  - repeat case_decide; auto; discriminate.
  - by intros [-> | ->].
Qed.

Lemma UniqID_length tx t : UniqID tx t ≠ "" → String.length (UniqID tx t) = 32%nat.
Proof.
  unfold UniqID. case_match; [|congruence].
  destruct (decide (32 < slen (vt_Signature tx))) as [Hl|]; [|congruence]. intros _.
  assert (32 ≤ String.length (vt_Signature tx))%nat as Hle by (unfold slen in Hl; lia).
  revert Hle. generalize (vt_Signature tx) as s. generalize 32%nat.
  induction n as [|n IH]; intros s Hle; destruct s; simpl in *; try lia.
  f_equal. apply IH. lia.
Qed.
