(* ===== verification/StateDB.v ===== *)
(** * The versioned store interface: [statedb/statedb.go]

    [StateDB] lists the operations the vochain state calls on the Go interface
    [statedb.StateDB] and, through [Tree] and [ImmutableTree], on
    [statedb.StateTree].  [StateDBSpec] is the contract the vochain relies on:
    a store holds, for each named tree, a working and a committed map; reads
    and writes go to the working one, [Commit] publishes it, [Rollback] drops
    it.  The vochain's theorems are proved against this contract and
    [IavlState.v] discharges it for the implementation in use. *)

From stdpp Require Import base gmap strings list fin_maps sorting.
From Stdlib Require Import ZArith Lia.
From S2P Require Import Prelude GoLib.
Open Scope Z_scope.

Abbreviation kvmap := (gmap bytes bytes).

(** [Tree(name)] and [ImmutableTree(name)] dereference a nil pointer for an
    unknown name, so their users may panic.  A nil [[]byte] value is [None].
    [Iterate] offers the listed entries to its callback, in order, until the
    callback returns [true] (see [iterate_cb]). *)
Class StateDB (DB : Type) := {
  TreeGet : DB → string → bytes → res (option bytes);
  TreeAdd : DB → string → bytes → option bytes → res DB;
  TreeIterate : DB → string → bytes → res (list (bytes * bytes));
  TreeCount : DB → string → res Z;
  ITreeGet : DB → string → bytes → res (option bytes);
  ITreeIterate : DB → string → bytes → res (list (bytes * bytes));
  ITreeCount : DB → string → res Z;
  DBCommit : GM DB bytes;
  DBRollback : GM DB ();
  DBHash : DB → res bytes }.

(** A callback [func(key, value []byte) bool] with its captured variables
    [st]: [true] stops the iteration. *)
Fixpoint iterate_cb {S} (cb : bytes → bytes → S → res (bool * S))
    (items : list (bytes * bytes)) (st : S) : res S :=
  match items with
  | [] => Ok st
  | (k, v) :: items' =>
      '(stop, st') ← cb k v st;
      if (stop : bool) then Ok st' else iterate_cb cb items' st'
  end.

(** ** Ordered ranges of a map *)
Definition kv_le (x y : bytes * bytes) : Prop := bytes_le x.1 y.1.
#[export] Instance kv_le_dec : RelDecision kv_le.
Proof. intros x y. unfold kv_le. apply _. Defined.
#[export] Instance kv_le_total : Total kv_le.
Proof. intros x y. apply bytes_le_total. Qed.
#[export] Instance kv_le_trans : Transitive kv_le.
Proof. intros x y z. apply bytes_le_trans. Qed.

Definition in_range (lo : bytes) (hi : option bytes) (k : bytes) : bool :=
  bytes_leb lo k && match hi with None => true | Some h => bytes_ltb k h end.

(** The entries with keys in [[lo, hi)] in ascending key order. *)
Definition range_items (m : kvmap) (lo : bytes) (hi : option bytes) : list (bytes * bytes) :=
  filter (λ kv, in_range lo hi kv.1 = true) (merge_sort kv_le (map_to_list m)).

Definition prefix_items (m : kvmap) (p : bytes) : list (bytes * bytes) :=
  filter (λ kv, has_prefix p kv.1 = true) (map_to_list m).

Lemma range_items_perm m lo hi :
  range_items m lo hi ≡ₚ filter (λ kv, in_range lo hi kv.1 = true) (map_to_list m).
Proof. unfold range_items. f_equiv. apply merge_sort_Permutation. Qed.

(** A prefix whose last byte can be incremented: the ones for which every
    implementation of [Iterate] visits exactly the keys with the prefix. *)
Definition good_prefix (p : bytes) : Prop := ∃ q b, p = q ++ [b] ∧ b ≠ Byte.xff.

(** ** The contract *)
Class StateDBSpec (DB : Type) `{StateDB DB} := {
  db_work : DB → gmap string kvmap;
  db_comm : DB → gmap string kvmap;
  (** [db_fresh]: the trees are there and nothing was ever committed;
      [db_ok]: something was. *)
  db_fresh : DB → Prop;
  db_ok : DB → Prop;
  db_get d n t k : db_fresh d ∨ db_ok d → db_work d !! n = Some t → TreeGet d n k = Ok (t !! k);
  db_iget d n t k : db_ok d → db_comm d !! n = Some t → ITreeGet d n k = Ok (t !! k);
  db_add d n t k v : db_ok d → db_work d !! n = Some t →
    ∃ d', TreeAdd d n k (Some v) = Ok d' ∧ db_ok d' ∧
          db_work d' = <[n := <[k := v]> t]> (db_work d) ∧ db_comm d' = db_comm d;
  db_add_fresh d n t k v : db_fresh d → db_work d !! n = Some t →
    ∃ d', TreeAdd d n k (Some v) = Ok d' ∧ db_fresh d' ∧
          db_work d' = <[n := <[k := v]> t]> (db_work d);
  db_add_nil d n t k : db_fresh d ∨ db_ok d → db_work d !! n = Some t → ∃ e, TreeAdd d n k None = Err e;
  db_iterate d n t p : db_ok d → db_work d !! n = Some t → good_prefix p →
    ∃ l, TreeIterate d n p = Ok l ∧ l ≡ₚ prefix_items t p;
  db_iiterate d n t p : db_ok d → db_comm d !! n = Some t → good_prefix p →
    ∃ l, ITreeIterate d n p = Ok l ∧ l ≡ₚ prefix_items t p;
  db_count d n t : db_ok d → db_work d !! n = Some t → TreeCount d n = Ok (Z.of_nat (size t));
  db_icount d n t : db_ok d → db_comm d !! n = Some t → ITreeCount d n = Ok (Z.of_nat (size t));
  db_commit d : db_fresh d ∨ db_ok d →
    ∃ h d', DBCommit d = (Ok h, d') ∧ db_ok d' ∧ db_work d' = db_work d ∧ db_comm d' = db_work d;
  db_rollback d : db_ok d →
    ∃ d', DBRollback d = (Ok (), d') ∧ db_ok d' ∧ db_work d' = db_comm d ∧ db_comm d' = db_comm d }.
