(* ===== verification/Crypto.v ===== *)
(** * Signatures, hashes and sealed boxes: [crypto/ethereum], [crypto/nacl], [crypto/snarks]

    The primitives come from go-ethereum, iden3 and golang.org/x/crypto, which
    are not part of the repository: [CryptoLib] lists the functions the node
    calls, [CryptoLaws] the documented facts about their sizes and encodings
    that the theorems rely on.  Nothing is assumed about the hardness of
    forging signatures or finding collisions. *)

From stdpp Require Import base gmap strings list fin_maps.
From Stdlib Require Import ZArith Lia.
From Stdlib Require Import DecimalString DecimalN DecimalFacts.
From S2P Require Import Prelude GoLib.
Open Scope Z_scope.

(** ** Decimal printing and parsing ([strconv], [fmt]'s [%d]) *)
Definition format_uint (z : Z) : string :=
  NilZero.string_of_uint (N.to_uint (Z.to_N z)).
Definition sprintf_d (z : Z) : string :=
  if decide (z < 0) then "-" +:+ format_uint (- z) else format_uint z.
(** [strconv.ParseUint(s, 10, 64)]. *)
Definition parse_uint (s : string) : res Z :=
  match NilZero.uint_of_string s with
  | None => Err "strconv.ParseUint: invalid syntax"
  | Some u => let z := Z.of_N (N.of_uint u) in
      if decide (z < 2^64) then Ok z else Err "strconv.ParseUint: value out of range"
  end.

Lemma N_to_uint_nonnil n : N.to_uint n ≠ Decimal.Nil.
Proof.
  intros H. pose proof (DecimalN.Unsigned.of_to n) as E. rewrite H in E. simpl in E.
  subst n. discriminate H.
Qed.
Lemma parse_format_uint z : 0 ≤ z < 2^64 → parse_uint (format_uint z) = Ok z.
Proof.
  intros. unfold parse_uint, format_uint.
  rewrite NilZero.usu by apply N_to_uint_nonnil.
  rewrite DecimalN.Unsigned.of_to, Z2N.id by lia. by rewrite decide_True by lia.
Qed.
Lemma format_uint_inj a b : 0 ≤ a → 0 ≤ b → format_uint a = format_uint b → a = b.
Proof.
  intros Ha Hb H. unfold format_uint in H.
  apply (f_equal NilZero.uint_of_string) in H.
  rewrite !NilZero.usu in H by apply N_to_uint_nonnil. injection H as H.
  apply (f_equal N.of_uint) in H. rewrite !DecimalN.Unsigned.of_to in H. lia.
Qed.

(** ** The libraries *)
Class CryptoLib := {
  ecdsa_PublicKey : Type;
  ecdsa_PrivateKey : Type;
  Keccak256 : bytes → bytes;
  SigToPub : bytes → bytes → option ecdsa_PublicKey;
  ecdsa_Sign : bytes → ecdsa_PrivateKey → option bytes;
  VerifySignature : bytes → bytes → bytes → bool;
  CompressPubkey : ecdsa_PublicKey → bytes;
  DecompressPubkey : bytes → option ecdsa_PublicKey;
  FromECDSAPub : ecdsa_PublicKey → bytes;
  UnmarshalPubkey : bytes → option ecdsa_PublicKey;
  PubkeyToAddress : ecdsa_PublicKey → bytes;
  PrivateBytes : ecdsa_PrivateKey → bytes;
  HexToAddress : string → bytes;
  PoseidonHash : bytes → bytes;
  X25519 : bytes → option bytes;
  OpenAnonymous : bytes → bytes → bytes → option bytes;
  (** [graviton.Proof]: parsing and membership against a 32-byte root. *)
  graviton_proof : Type;
  graviton_Unmarshal : bytes → option graviton_proof;
  graviton_VerifyMembership : graviton_proof → bytes → bytes → bool;
  (** Tendermint ed25519 addresses and [HexBytes.String]. *)
  tm_Address : bytes → bytes;
  tm_HexString : bytes → string }.

Class CryptoLaws `{CryptoLib} := {
  law_Keccak_len b : length (Keccak256 b) = 32%nat;
  law_Poseidon_len b : length (PoseidonHash b) = 32%nat;
  law_Compress pk : DecompressPubkey (CompressPubkey pk) = Some pk;
  law_Compress_len pk : length (CompressPubkey pk) = 33%nat;
  law_FromECDSAPub pk : UnmarshalPubkey (FromECDSAPub pk) = Some pk;
  law_FromECDSAPub_len pk : length (FromECDSAPub pk) = 65%nat;
  law_X25519_len k pub : X25519 k = Some pub → length pub = 32%nat;
  law_HexString_inj a b : tm_HexString a = tm_HexString b → a = b }.

(** ** [crypto/ethereum/ethereum.go] *)
Module ethereum.
Section ethereum.
Context `{CryptoLib}.

Definition SignatureLength : Z := 130.
Definition PubKeyLength : Z := 66.
Definition PubKeyLengthUncompressed : Z := 130.
(** ["\u0019Ethereum Signed Message:\n"]. *)
Definition SigningPrefix : bytes := Byte.x19 :: s2b "Ethereum Signed Message:" ++ [Byte.x0a].

Record SignKeys := mkSignKeys {
  sk_Private : option ecdsa_PrivateKey;
  sk_Authorized : gset bytes }.
Definition NewSignKeys : SignKeys := mkSignKeys None ∅.
Definition AddAuthKey (address : bytes) (k : SignKeys) : SignKeys :=
  mkSignKeys (sk_Private k) ({[address]} ∪ sk_Authorized k).

Definition HashRaw (data : bytes) : bytes := Keccak256 data.
(** [fmt.Fprintf(&buf, "%s%d%s", SigningPrefix, len(data), data)]. *)
Definition Hash (data : bytes) : bytes :=
  HashRaw (SigningPrefix ++ s2b (sprintf_d (glen data)) ++ data).

Definition DecompressPubKey (pubHexComp : string) : res string :=
  let pubHexComp := TrimHex pubHexComp in
  if decide (PubKeyLength < slen pubHexComp) then Ok pubHexComp
  else
    pubBytes ← hex_DecodeString pubHexComp;
    pub ← of_option "invalid public key" (DecompressPubkey pubBytes);
    Ok (sprintf_x (FromECDSAPub pub)).

Definition Sign (k : SignKeys) (message : bytes) : res string :=
  priv ← of_option "no private key available" (sk_Private k);
  signature ← of_option "sign error" (ecdsa_Sign (Hash message) priv);
  Ok (sprintf_x signature).

(** The recovery byte may carry Ethereum's offset of 27; the subtraction is
    on an unsigned byte. *)
Definition normalise_recovery (sig : bytes) : res bytes :=
  v ← go_index sig 64;
  let v' := if decide (1 < b2z v) then z2b (b2z v - 27) else v in
  _ ← guard_err (bool_decide (1 < b2z v')) "bad recover ID byte";
  Ok (<[64%nat := v']> sig).

Definition PubKeyFromSignature (msg : bytes) (sigHex : string) : res string :=
  let sigHex := TrimHex sigHex in
  _ ← guard_err (bool_decide (slen sigHex < SignatureLength) ||
                 bool_decide (SignatureLength + 12 < slen sigHex))
        "signature length not correct";
  sig ← hex_DecodeString sigHex;
  sig ← normalise_recovery sig;
  pubKey ← of_option "recovery failed" (SigToPub (Hash msg) sig);
  DecompressPubKey (sprintf_x (CompressPubkey pubKey)).

Definition hexToPubKey (pubHex : string) : res ecdsa_PublicKey :=
  pubBytes ← hex_DecodeString (TrimHex pubHex);
  if decide (slen pubHex ≤ PubKeyLength)
  then of_option "invalid public key" (DecompressPubkey pubBytes)
  else of_option "invalid public key" (UnmarshalPubkey pubBytes).

Definition AddrFromPublicKey (pubHex : string) : res bytes :=
  pubHexDesc ← (if decide (slen pubHex ≤ PubKeyLength) then DecompressPubKey pubHex else Ok pubHex);
  pubBytes ← hex_DecodeString pubHexDesc;
  pub ← of_option "invalid public key" (UnmarshalPubkey pubBytes);
  Ok (PubkeyToAddress pub).

Definition AddrFromSignature (msg : bytes) (sigHex : string) : res bytes :=
  pubHex ← PubKeyFromSignature msg sigHex;
  pub ← hexToPubKey pubHex;
  Ok (PubkeyToAddress pub).

(** The recovered address comes with the verdict. *)
Definition VerifySender (k : SignKeys) (msg : bytes) (sigHex : string) : res (bool * bytes) :=
  recoveredAddr ← AddrFromSignature msg sigHex;
  Ok (bool_decide (recoveredAddr ∈ sk_Authorized k), recoveredAddr).

(** The method [SignKeys.Verify]; the receiver is not used. *)
Definition SignKeys_Verify (message : bytes) (signHex : string) : res bool :=
  pubHex ← PubKeyFromSignature message signHex;
  signature ← hex_DecodeString signHex;
  pub ← hex_DecodeString pubHex;
  sig64 ← go_slice_to signature 64;
  Ok (VerifySignature pub (Hash message) sig64).

(** The standalone [Verify]. *)
Definition Verify (message : bytes) (signHex pubHex : string) : res bool :=
  SignKeys_Verify message signHex.

(** ** Facts about key recovery *)
Context `{!CryptoLaws}.

Lemma DecompressPubKey_compressed pk :
  DecompressPubKey (sprintf_x (CompressPubkey pk)) = Ok (sprintf_x (FromECDSAPub pk)).
Proof.
  unfold DecompressPubKey. rewrite TrimHex_sprintf_x, slen_sprintf_x. unfold glen.
  rewrite law_Compress_len, decide_False by (unfold PubKeyLength; lia).
  rewrite hex_DecodeString_sprintf_x. simpl. by rewrite law_Compress.
Qed.

(** The key recovered from a signature is printed uncompressed. *)
Lemma PubKeyFromSignature_Ok msg sig p :
  PubKeyFromSignature msg sig = Ok p → ∃ pk, p = sprintf_x (FromECDSAPub pk).
Proof.
  unfold PubKeyFromSignature. intros Hr. go_inv Hr.
  rewrite DecompressPubKey_compressed in Hr. go_simpl. eauto.
Qed.

Lemma hexToPubKey_uncompressed pk : hexToPubKey (sprintf_x (FromECDSAPub pk)) = Ok pk.
Proof.
  unfold hexToPubKey. rewrite TrimHex_sprintf_x, hex_DecodeString_sprintf_x. simpl.
  rewrite slen_sprintf_x. unfold glen. rewrite law_FromECDSAPub_len.
  rewrite decide_False by (unfold PubKeyLength; lia). by rewrite law_FromECDSAPub.
Qed.

Lemma AddrFromPublicKey_uncompressed pk :
  AddrFromPublicKey (sprintf_x (FromECDSAPub pk)) = Ok (PubkeyToAddress pk).
Proof.
  unfold AddrFromPublicKey. rewrite slen_sprintf_x. unfold glen.
  rewrite law_FromECDSAPub_len, decide_False by (unfold PubKeyLength; lia).
  simpl. rewrite hex_DecodeString_sprintf_x. simpl. by rewrite law_FromECDSAPub.
Qed.

(** The two routes from a signature to an address agree: the one voters are
    identified by ([AddrFromPublicKey] of the recovered key) and the one
    oracles are authorised by ([AddrFromSignature]). *)
Lemma AddrFromPublicKey_of_signature msg sig p :
  PubKeyFromSignature msg sig = Ok p → AddrFromPublicKey p = AddrFromSignature msg sig.
Proof.
  intros Hp. unfold AddrFromSignature. rewrite Hp.
  destruct (PubKeyFromSignature_Ok _ _ _ Hp) as [pk ->]. simpl.
  by rewrite hexToPubKey_uncompressed, AddrFromPublicKey_uncompressed.
Qed.

Lemma VerifySender_authorized k msg sig addr :
  VerifySender k msg sig = Ok (true, addr) →
  AddrFromSignature msg sig = Ok addr ∧ addr ∈ sk_Authorized k.
Proof.
  unfold VerifySender. intros Hr. go_inv Hr. simplify_eq.
  split; [done|]. by eapply bool_decide_eq_true.
Qed.
End ethereum.
End ethereum.

(** ** [crypto/nacl/nacl.go] *)
Module nacl.
Section nacl.
Context `{CryptoLib}.
Definition KeyLength : Z := 32.
Record privateKey := mkPrivateKey { priv_bytes : bytes; pub_bytes : bytes }.

Definition key_decode (hexkey : string) : res bytes :=
  b ← hex_DecodeString hexkey;
  _ ← guard_err (bool_decide (glen b ≠ KeyLength)) "key length must be 32";
  Ok b.
(** [decode] then [derivePublic]. *)
Definition DecodePrivate (hexkey : string) : res privateKey :=
  b ← key_decode hexkey;
  pub ← of_option "bad input point: low order point" (X25519 b);
  Ok (mkPrivateKey b pub).
Definition DecodePublic (hexkey : string) : res bytes := key_decode hexkey.
Definition Decrypt (priv : privateKey) (cipher : bytes) : res bytes :=
  of_option "could not open box" (OpenAnonymous cipher (pub_bytes priv) (priv_bytes priv)).
End nacl.
End nacl.

(** ** Census proofs: [gravitonstate.Verify] and [trie.CheckProof] *)
Section proofs.
Context `{CryptoLib}.

(** The standalone [Verify] of [statedb/gravitonstate/graviton.go]. *)
Definition gravitonstate_Verify (key proof root : bytes) : res bool :=
  p ← of_option "cannot unmarshal proof" (graviton_Unmarshal proof);
  _ ← guard_err (bool_decide (glen root ≠ 32)) "root hash size is not correct";
  Ok (graviton_VerifyMembership p root key).

(** The standalone [CheckProof] of [trie/trie.go]; [value] is not used. *)
Definition trie_CheckProof (root mpHex : string) (index value : bytes) : res bool :=
  p ← hex_DecodeString mpHex;
  r ← hex_DecodeString root;
  gravitonstate_Verify index p r.
End proofs.
