(* ===== verification/IavlState.v ===== *)
(** * The IAVL store: [statedb/iavlstate/iavlstate.go]

    The state of the store the vochain runs on: named IAVL trees, a tree that
    records the version of each at every commit, and immutable views of the
    last saved versions.  The IAVL library itself (github.com/tendermint/iavl)
    is the parameter [Iavl]; [IavlLaws] states its documented behaviour in
    terms of the map a tree holds and the maps it has saved by version. *)

From stdpp Require Import base gmap strings list fin_maps sorting.
From Stdlib Require Import ZArith Lia DecimalString DecimalN.
From S2P Require Import Prelude GoLib StateDB Crypto.
Open Scope Z_scope.

(** ** The library *)
Class Iavl (mtree itree : Type) := {
  (** A database of the given storage type, directory and name, opened and
      wrapped by [NewMutableTree]. *)
  iavl_open : string → string → string → res mtree;
  mt_Get : mtree → bytes → option bytes;
  mt_Set : bytes → bytes → mtree → mtree;
  mt_Version : mtree → Z;
  mt_Hash : mtree → bytes;
  mt_Size : mtree → Z;
  mt_IterateRange : mtree → bytes → option bytes → list (bytes * bytes);
  mt_SaveVersion : mtree → res (Z * mtree);
  mt_Rollback : mtree → mtree;
  mt_Load : mtree → res (Z * mtree);
  mt_LoadVersion : Z → mtree → res (Z * mtree);
  mt_LoadVersionForOverwriting : Z → mtree → res (Z * mtree);
  mt_GetImmutable : mtree → Z → res itree;
  (** The embedded [ImmutableTree] field of a mutable tree. *)
  mt_ImmutableTree : mtree → itree;
  im_Get : itree → bytes → option bytes;
  im_Version : itree → Z;
  im_Hash : itree → bytes;
  im_Size : itree → Z;
  im_IterateRange : itree → bytes → option bytes → list (bytes * bytes) }.

Class IavlLaws (mtree itree : Type) `{Iavl mtree itree} := {
  mt_work : mtree → kvmap;
  mt_saved : mtree → gmap Z kvmap;
  im_kv : itree → kvmap;
  law_Get t k : mt_Get t k = mt_work t !! k;
  law_Size t : mt_Size t = Z.of_nat (size (mt_work t));
  law_Range t lo hi : mt_IterateRange t lo hi = range_items (mt_work t) lo hi;
  law_Set_work k v t : mt_work (mt_Set k v t) = <[k := v]> (mt_work t);
  law_Set_saved k v t : mt_saved (mt_Set k v t) = mt_saved t;
  law_Set_Version k v t : mt_Version (mt_Set k v t) = mt_Version t;
  law_Save t : mt_saved t !! (mt_Version t + 1) = None →
    ∃ t', mt_SaveVersion t = Ok (mt_Version t + 1, t') ∧ mt_work t' = mt_work t ∧
          mt_saved t' = <[mt_Version t + 1 := mt_work t]> (mt_saved t) ∧
          mt_Version t' = mt_Version t + 1;
  law_Rollback_work t : mt_work (mt_Rollback t) = default ∅ (mt_saved t !! mt_Version t);
  law_Rollback_saved t : mt_saved (mt_Rollback t) = mt_saved t;
  law_Rollback_Version t : mt_Version (mt_Rollback t) = mt_Version t;
  law_LoadOver v t m : mt_saved t !! v = Some m →
    ∃ t', mt_LoadVersionForOverwriting v t = Ok (v, t') ∧ mt_Version t' = v ∧
          mt_work t' = m ∧ mt_saved t' = filter (λ kv, kv.1 ≤ v) (mt_saved t);
  law_Load t m : mt_saved t !! mt_Version t = Some m →
    (∀ v, is_Some (mt_saved t !! v) → v ≤ mt_Version t) →
    ∃ t', mt_Load t = Ok (mt_Version t, t') ∧ mt_Version t' = mt_Version t ∧
          mt_work t' = m ∧ mt_saved t' = mt_saved t;
  (** Loading a database that holds no version. *)
  law_Load_empty t : mt_saved t = ∅ → mt_work t = ∅ → mt_Version t = 0 →
    ∃ t', mt_Load t = Ok (0, t') ∧ mt_saved t' = ∅ ∧ mt_work t' = ∅ ∧ mt_Version t' = 0;
  law_LoadOver_empty t : mt_saved t = ∅ → mt_work t = ∅ → mt_Version t = 0 →
    ∃ t', mt_LoadVersionForOverwriting 0 t = Ok (0, t') ∧ mt_saved t' = ∅ ∧ mt_work t' = ∅ ∧
          mt_Version t' = 0;
  law_GetImmutable t v m : mt_saved t !! v = Some m →
    ∃ i, mt_GetImmutable t v = Ok i ∧ im_kv i = m;
  law_im_Get i k : im_Get i k = im_kv i !! k;
  law_im_Size i : im_Size i = Z.of_nat (size (im_kv i));
  law_im_Range i lo hi : im_IterateRange i lo hi = range_items (im_kv i) lo hi }.

Section iavl.
Context {mtree itree : Type} `{Iavl mtree itree} `{CryptoLib}.

(** ** State

    [it_itree = None] while no version has been saved: the Go field then
    aliases the mutable tree's own embedded view. *)
Record IavlTree := mkIavlTree {
  it_tree : mtree;
  it_itree : option itree;
  it_lastCommitedVersion : Z }.

Record IavlState := mkIavlState {
  is_dataDir : string;
  is_storageType : string;
  is_trees : gmap string IavlTree;
  is_versionTree : mtree }.

Definition set_trees (ts : gmap string IavlTree) (s : IavlState) : IavlState :=
  mkIavlState (is_dataDir s) (is_storageType s) ts (is_versionTree s).
Definition set_versionTree (t : mtree) (s : IavlState) : IavlState :=
  mkIavlState (is_dataDir s) (is_storageType s) (is_trees s) t.
Definition put_tree (name : string) (t : IavlTree) (s : IavlState) : IavlState :=
  set_trees (<[name := t]> (is_trees s)) s.
Definition set_tree (m : mtree) (t : IavlTree) : IavlTree :=
  mkIavlTree m (it_itree t) (it_lastCommitedVersion t).

(** [range i.trees]: the iteration order of a Go map is unspecified and no
    result here depends on it. *)
Definition each_tree (f : string → IavlTree → GM IavlState ()) : GM IavlState () :=
  s ← get_st; for_each (map_to_list (is_trees s)) (λ nt, f nt.1 nt.2).

(** ** Views of one tree: [Tree], [ImmutableTree] and the methods of [IavlTree] *)
Inductive view :=
  | Mutable (t : mtree)
  | Immutable (i : itree).

Definition Tree (s : IavlState) (name : string) : res view :=
  match is_trees s !! name with
  | Some t => Ok (Mutable (it_tree t))
  | None => Panic "nil pointer dereference"
  end.
Definition current_itree (t : IavlTree) : itree :=
  match it_itree t with Some i => i | None => mt_ImmutableTree (it_tree t) end.
Definition ImmutableTree (s : IavlState) (name : string) : res view :=
  match is_trees s !! name with
  | Some t => Ok (Immutable (current_itree t))
  | None => Panic "nil pointer dereference"
  end.

Definition Get (v : view) (key : bytes) : option bytes :=
  match v with Mutable t => mt_Get t key | Immutable i => im_Get i key end.

Definition Add (v : view) (key : bytes) (value : option bytes) : res mtree :=
  match v with
  | Immutable _ => Err "cannot add values to a immutable tree"
  | Mutable t =>
      match value with
      | None => Err "value cannot be nil"
      | Some val => Ok (mt_Set key val t)
      end
  end.

(** The loop that computes the end of the range: from the last byte down,
    skip the bytes [0xFF], increment the first other one and stop.  The bytes
    skipped keep their value, and the test [i == -1] inside the loop never
    holds, so an all-[0xFF] prefix is its own end. *)
Fixpoint bump_rev (l : bytes) : bytes :=
  match l with
  | [] => []
  | b :: l' => if decide (b = Byte.xff) then b :: bump_rev l' else z2b (b2z b + 1) :: l'
  end.
Definition iterate_until (prefix : bytes) : bytes := rev (bump_rev (rev prefix)).

Definition Iterate (v : view) (prefix : bytes) : list (bytes * bytes) :=
  match v with
  | Immutable i => im_IterateRange i prefix (Some (iterate_until prefix))
  | Mutable t => mt_IterateRange t prefix (Some (iterate_until prefix))
  end.

Definition view_Hash (v : view) : bytes :=
  match v with Mutable t => mt_Hash t | Immutable i => im_Hash i end.
Definition Count (v : view) : Z :=
  match v with Mutable t => mt_Size t | Immutable i => im_Size i end.
Definition view_Version (v : view) : Z :=
  match v with Mutable t => mt_Version t | Immutable i => im_Version i end.

(** ** The store *)
Definition updateImmutables : GM IavlState () :=
  each_tree (λ name t,
    let v := mt_Version (it_tree t) in
    if decide (0 < v) then
      i ← lift (mt_GetImmutable (it_tree t) v);
      modify (put_tree name (mkIavlTree (it_tree t) (Some i) (it_lastCommitedVersion t)))
    else modify (put_tree name (mkIavlTree (it_tree t) None (it_lastCommitedVersion t)))).

(** [vt, _ := strconv.ParseUint(string(vb), 10, 64)]: the error is dropped;
    the value of a failed parse is 0 for bad syntax and the largest [uint64]
    for a number out of range. *)
Definition recorded_version (vb : option bytes) : Z :=
  match NilZero.uint_of_string (b2s (default [] vb)) with
  | None => 0
  | Some u => Z.min (Z.of_N (N.of_uint u)) (2^64 - 1)
  end.

(** [t.tree.LoadVersionForOverwriting(int64(vt))], its error ignored. *)
Definition reload_tree (vtree : mtree) (name : string) (t : IavlTree) : GM IavlState () :=
  let vt := recorded_version (mt_Get vtree (s2b name)) in
  match mt_LoadVersionForOverwriting (i64 vt) (it_tree t) with
  | Ok (_, t') => modify (put_tree name (set_tree t' t))
  | Err _ => mret ()
  | Panic w => lift (Panic w)
  end.

Definition load_err : error := "cannot load last version tree state".

(** The version-tree part of [LoadVersion(v)] for [v <> 0]: the version to go
    back to. *)
Definition pick_version (v : Z) : GM IavlState Z :=
  s ← get_st;
  if decide (v = -1) then
    match mt_Load (is_versionTree s) with
    | Ok (v, t) => _ ← modify (set_versionTree t); mret (if decide (0 < v) then v - 1 else v)
    | Err _ => lift (Err load_err)
    | Panic w => lift (Panic w)
    end
  else if decide (0 < v) then
    match mt_LoadVersion v (is_versionTree s) with
    | Ok (_, t) => _ ← modify (set_versionTree t); mret v
    | Err _ => lift (Err load_err)
    | Panic w => lift (Panic w)
    end
  else lift (Err "loading versions below -1 is not supported").

Definition LoadVersion (v : Z) : GM IavlState () :=
  v ← (if decide (v = 0) then mret 0 else
         v ← pick_version v;
         s ← get_st;
         _ ← each_tree (reload_tree (is_versionTree s));
         match mt_LoadVersionForOverwriting v (is_versionTree s) with
         | Ok (_, t) => _ ← modify (set_versionTree t); mret v
         | Err _ => lift (Err "cannot load version number")
         | Panic w => lift (Panic w)
         end);
  _ ← (if decide (v = 0) then
         _ ← each_tree (λ name t,
               '(_, t') ← lift (mt_Load (it_tree t)); modify (put_tree name (set_tree t' t)));
         s ← get_st;
         match mt_Load (is_versionTree s) with
         | Ok (_, t) => modify (set_versionTree t)
         | Err _ => lift (Err "cannot load versions tree")
         | Panic w => lift (Panic w)
         end
       else mret ());
  updateImmutables.

(** [Init] on a fresh receiver. *)
Definition Init (storagePath storageType : string) : res IavlState :=
  st ← (if bool_decide (storageType = "disk") || bool_decide (storageType = "") then Ok "disk"
        else if bool_decide (storageType = "mem") then Ok "mem"
        else Err "storageType not supported");
  vt ← iavl_open st storagePath "versions";
  match LoadVersion 0 (mkIavlState storagePath st ∅ vt) with
  | (Ok _, s) => Ok s
  | (Err e, _) => Err e
  | (Panic w, _) => Panic w
  end.

Definition AddTree (name : string) : GM IavlState () :=
  s ← get_st;
  t ← lift (iavl_open (is_storageType s) (is_dataDir s) name);
  modify (put_tree name (mkIavlTree t None (mt_Version t))).

Definition Version (s : IavlState) : Z := mt_Version (is_versionTree s).

(** The trees' hashes, concatenated in the order of their sorted names. *)
Definition string_le (a b : string) : Prop := bytes_le (s2b a) (s2b b).
#[export] Instance string_le_dec : RelDecision string_le.
Proof. intros a b. unfold string_le. apply _. Defined.
Definition getHash (s : IavlState) : bytes :=
  let keys := merge_sort string_le ((map_to_list (is_trees s)).*1) in
  ethereum.HashRaw (concat ((λ k, match is_trees s !! k with
                                  | Some t => mt_Hash (it_tree t)
                                  | None => []
                                  end) <$> keys)).
Definition Hash (s : IavlState) : bytes := getHash s.

(** One round of the commit loop: record the version the tree had at the
    previous commit, save the tree, remember its new version. *)
Definition commit_tree (name : string) (t : IavlTree) : GM IavlState () :=
  _ ← modify (λ s, set_versionTree
        (mt_Set (s2b name) (s2b (format_uint (it_lastCommitedVersion t))) (is_versionTree s)) s);
  '(v, t') ← lift (mt_SaveVersion (it_tree t));
  modify (put_tree name (mkIavlTree t' (it_itree t) v)).

Definition Commit : GM IavlState bytes :=
  _ ← each_tree commit_tree;
  s ← get_st;
  _ ← match mt_SaveVersion (is_versionTree s) with
      | Ok (_, t) => modify (set_versionTree t)
      | Err _ => lift (Err "cannot save version state tree")
      | Panic w => lift (Panic w)
      end;
  _ ← updateImmutables;
  reads (λ s, Ok (getHash s)).

Definition Rollback : GM IavlState () :=
  each_tree (λ name t, modify (put_tree name (set_tree (mt_Rollback (it_tree t)) t))).

(** ** The interface *)
#[export] Instance IavlState_StateDB : StateDB IavlState := {|
  TreeGet s n k := v ← Tree s n; Ok (Get v k);
  TreeAdd s n k val :=
    v ← Tree s n; t' ← Add v k val;
    match is_trees s !! n with
    | Some t => Ok (put_tree n (set_tree t' t) s)
    | None => Panic "nil pointer dereference"
    end;
  TreeIterate s n p := v ← Tree s n; Ok (Iterate v p);
  TreeCount s n := v ← Tree s n; Ok (Count v);
  ITreeGet s n k := v ← ImmutableTree s n; Ok (Get v k);
  ITreeIterate s n p := v ← ImmutableTree s n; Ok (Iterate v p);
  ITreeCount s n := v ← ImmutableTree s n; Ok (Count v);
  DBCommit := Commit;
  DBRollback := Rollback;
  DBHash s := Ok (Hash s) |}.

(** ** Correctness of the store *)
Context `{!IavlLaws mtree itree}.

Definition tree_ok (t : IavlTree) : Prop :=
  0 < mt_Version (it_tree t) ∧
  (∀ v, is_Some (mt_saved (it_tree t) !! v) → v ≤ mt_Version (it_tree t)) ∧
  ∃ i, it_itree t = Some i ∧ mt_saved (it_tree t) !! mt_Version (it_tree t) = Some (im_kv i).
Definition vtree_ok (t : mtree) : Prop :=
  ∀ v, is_Some (mt_saved t !! v) → v ≤ mt_Version t.
(** Every tree has been saved at least once and its immutable view is the
    last saved version. *)
Definition iavl_ok (s : IavlState) : Prop :=
  map_Forall (λ _ t, tree_ok t) (is_trees s) ∧ vtree_ok (is_versionTree s).

(** No tree has been saved yet. *)
Definition tree_fresh (t : IavlTree) : Prop :=
  mt_Version (it_tree t) = 0 ∧ mt_saved (it_tree t) = ∅ ∧ it_itree t = None.
Definition iavl_fresh (s : IavlState) : Prop :=
  map_Forall (λ _ t, tree_fresh t) (is_trees s) ∧ vtree_ok (is_versionTree s).
(** What a commit needs. *)
Definition savable (t : IavlTree) : Prop := 0 ≤ mt_Version (it_tree t) ∧ vtree_ok (it_tree t).
Definition iavl_savable (s : IavlState) : Prop :=
  map_Forall (λ _ t, savable t) (is_trees s) ∧ vtree_ok (is_versionTree s).

Lemma iavl_savable_intro s : iavl_fresh s ∨ iavl_ok s → iavl_savable s.
Proof.
  intros [[Hf Hv]|[Hf Hv]]; (split; [|done]); intros n t Ht; specialize (Hf n t Ht).
  - destruct Hf as (Hv0 & Hs & _). split; [lia|]. intros v. rewrite Hs, lookup_empty.
    by intros [? ?].
  - destruct Hf as (Hpos & Hmax & _). split; [lia|done].
Qed.

Definition iavl_work (s : IavlState) : gmap string kvmap := (λ t, mt_work (it_tree t)) <$> is_trees s.
Definition iavl_comm (s : IavlState) : gmap string kvmap := (λ t, im_kv (current_itree t)) <$> is_trees s.

(** A loop over the trees whose body rewrites its own tree and may touch the
    version tree, [P] being an invariant of the latter. *)
Lemma for_each_pointwise (P : mtree → Prop) (g : string → IavlTree → IavlTree) f l s :
  NoDup l.*1 → P (is_versionTree s) →
  (∀ n t s', (n, t) ∈ l → P (is_versionTree s') → ∃ v', P v' ∧
     f n t s' = (Ok (), put_tree n (g n t) (set_versionTree v' s'))) →
  ∃ s', for_each l (λ nt, f nt.1 nt.2) s = (Ok (), s') ∧ P (is_versionTree s') ∧
    (∀ n t, (n, t) ∈ l → is_trees s' !! n = Some (g n t)) ∧
    (∀ n, n ∉ l.*1 → is_trees s' !! n = is_trees s !! n).
Proof.
  revert s. induction l as [|[n t] l IH]; intros s Hnd HP Hf.
  { exists s. split_and!; auto. by intros n t ?%not_elem_of_nil. }
  apply NoDup_cons in Hnd as [Hn Hnd].
  destruct (Hf n t s) as (v' & HP' & Hs); [left|done|].
  destruct (IH (put_tree n (g n t) (set_versionTree v' s))) as (s' & Hrun & HPs & Hin & Hout);
    [done|done|intros; apply Hf; [by right|done]|].
  exists s'. split_and!; [|done| |].
  - simpl. unfold mbind, GM_bind. simpl. by rewrite Hs.
  - intros n' t' [[= -> ->]|]%elem_of_cons; [|by apply Hin].
    rewrite Hout by done. unfold put_tree. simpl. by rewrite lookup_insert_eq.
  - intros n' Hn'. rewrite fmap_cons, not_elem_of_cons in Hn'. destruct Hn' as [? ?].
    rewrite Hout by done. unfold put_tree. simpl. by rewrite lookup_insert_ne.
Qed.

Lemma each_tree_pointwise (P : mtree → Prop) (g : string → IavlTree → IavlTree) f s :
  P (is_versionTree s) →
  (∀ n t s', is_trees s !! n = Some t → P (is_versionTree s') → ∃ v', P v' ∧
     f n t s' = (Ok (), put_tree n (g n t) (set_versionTree v' s'))) →
  ∃ s', each_tree f s = (Ok (), s') ∧ P (is_versionTree s') ∧
    is_trees s' = map_imap (λ n t, Some (g n t)) (is_trees s).
Proof.
  intros HP Hf.
  destruct (for_each_pointwise P g f (map_to_list (is_trees s)) s)
    as (s' & Hrun & HPs & Hin & Hout); [apply NoDup_fst_map_to_list|done| |].
  { intros n t s' Hl. apply Hf. by apply elem_of_map_to_list. }
  exists s'. split_and!; [done|done|]. apply map_eq. intros n. rewrite map_lookup_imap.
  destruct (is_trees s !! n) as [t|] eqn:E; simpl.
  - apply Hin. by apply elem_of_map_to_list.
  - rewrite Hout; [done|]. intros Hk.
    apply list_elem_of_fmap in Hk as ([n' t] & -> & Ht%elem_of_map_to_list).
    simpl in *. congruence.
Qed.

Lemma updateImmutables_ok (P : mtree → Prop) s :
  P (is_versionTree s) →
  (∀ n t, is_trees s !! n = Some t → 0 < mt_Version (it_tree t) ∧
     is_Some (mt_saved (it_tree t) !! mt_Version (it_tree t))) →
  ∃ s', updateImmutables s = (Ok (), s') ∧ P (is_versionTree s') ∧
    ∀ n, option_Forall2 (λ t t', it_tree t' = it_tree t ∧
           it_lastCommitedVersion t' = it_lastCommitedVersion t ∧
           ∃ i, it_itree t' = Some i ∧
             mt_saved (it_tree t) !! mt_Version (it_tree t) = Some (im_kv i))
         (is_trees s !! n) (is_trees s' !! n).
Proof.
  intros HP Hv.
  set (g := λ (n : string) t, match mt_GetImmutable (it_tree t) (mt_Version (it_tree t)) with
                 | Ok i => mkIavlTree (it_tree t) (Some i) (it_lastCommitedVersion t)
                 | _ => t end).
  destruct (each_tree_pointwise P g (λ name t,
    if decide (0 < mt_Version (it_tree t)) then
      i ← lift (mt_GetImmutable (it_tree t) (mt_Version (it_tree t)));
      modify (put_tree name (mkIavlTree (it_tree t) (Some i) (it_lastCommitedVersion t)))
    else modify (put_tree name (mkIavlTree (it_tree t) None (it_lastCommitedVersion t)))) s)
    as (s' & Hrun & HPs & Htrees); [done| |].
  { intros n t s' [Hpos [m Hm]]%Hv HP'. exists (is_versionTree s'). split; [done|].
    rewrite decide_True by done. destruct (law_GetImmutable _ _ _ Hm) as (i & Hi & _).
    unfold g. rewrite Hi. by destruct s'. }
  exists s'. split_and!; [done|done|]. intros n. rewrite Htrees, map_lookup_imap.
  destruct (is_trees s !! n) as [t|] eqn:E; simpl; constructor.
  destruct (Hv _ _ E) as [_ [m Hm]]. destruct (law_GetImmutable _ _ _ Hm) as (i & Hi & <-).
  unfold g. rewrite Hi. simpl. eauto.
Qed.

(** Saving a tree whose version is its last saved one. *)
Lemma SaveVersion_ok t : vtree_ok t → ∃ t',
  mt_SaveVersion t = Ok (mt_Version t + 1, t') ∧ mt_work t' = mt_work t ∧
  mt_Version t' = mt_Version t + 1 ∧ vtree_ok t' ∧
  mt_saved t' !! mt_Version t' = Some (mt_work t).
Proof.
  intros Hmax. destruct (law_Save t) as (t' & Hs & Hw & Hsd & Hv).
  { apply eq_None_not_Some. intros Hi%Hmax. lia. }
  exists t'. split_and!; [done|done|done| |by rewrite Hsd, Hv, lookup_insert_eq].
  intros v [m Hm]. rewrite Hsd in Hm.
  apply lookup_insert_Some in Hm as [[<- _]|[_ Hm]]; [lia|].
  pose proof (Hmax v (mk_is_Some _ _ Hm)). lia.
Qed.

(** What the commit loop and the refresh of the views make of one tree. *)
Definition committed_from (t t' : IavlTree) : Prop :=
  tree_ok t' ∧ mt_work (it_tree t') = mt_work (it_tree t) ∧
  im_kv (current_itree t') = mt_work (it_tree t) ∧
  it_lastCommitedVersion t' = mt_Version (it_tree t').

Definition saved_tree (t : IavlTree) : IavlTree :=
  match mt_SaveVersion (it_tree t) with
  | Ok (v, t') => mkIavlTree t' (it_itree t) v
  | _ => t
  end.

Lemma commit_loop_ok s : iavl_savable s → ∃ s', each_tree commit_tree s = (Ok (), s') ∧
  vtree_ok (is_versionTree s') ∧
  is_trees s' = map_imap (λ _ t, Some (saved_tree t)) (is_trees s).
Proof.
  intros [Htr Hvt]. apply each_tree_pointwise; [done|]. intros n t s' Ht Hv'.
  exists (mt_Set (s2b n) (s2b (format_uint (it_lastCommitedVersion t))) (is_versionTree s')).
  split; [intros v; rewrite law_Set_saved, law_Set_Version; apply Hv'|].
  destruct (Htr _ _ Ht) as (_ & Hmax).
  destruct (SaveVersion_ok _ Hmax) as (t' & Hs & _).
  unfold commit_tree, saved_tree. by rewrite Hs.
Qed.

Lemma saved_tree_committed t t2 i : savable t →
  it_tree t2 = it_tree (saved_tree t) →
  it_lastCommitedVersion t2 = it_lastCommitedVersion (saved_tree t) → it_itree t2 = Some i →
  mt_saved (it_tree t2) !! mt_Version (it_tree t2) = Some (im_kv i) → committed_from t t2.
Proof.
  intros (Hpos & Hmax) Ht Hl Hi Hs. destruct (SaveVersion_ok _ Hmax) as (t' & Hr & Hw & Hv & Hok & Hsd).
  unfold saved_tree in Ht, Hl. rewrite Hr in Ht, Hl. simpl in Ht, Hl.
  unfold committed_from, tree_ok, current_itree. rewrite Hi, Ht. rewrite Ht in Hs.
  split_and!; [lia|done|eauto|done|congruence|congruence].
Qed.

Lemma Commit_trees s : iavl_savable s → ∃ s', Commit s = (Ok (getHash s'), s') ∧
  vtree_ok (is_versionTree s') ∧
  ∀ n, option_Forall2 committed_from (is_trees s !! n) (is_trees s' !! n).
Proof.
  intros Hok. destruct (commit_loop_ok s Hok) as (s1 & Hrun1 & Hvt1 & Htr1).
  destruct (SaveVersion_ok _ Hvt1) as (vt' & Hsv & _ & _ & Hvt' & _).
  destruct (updateImmutables_ok vtree_ok (set_versionTree vt' s1)) as (s2 & Hrun2 & Hvt2 & Htr2);
    [done| |].
  { simpl. rewrite Htr1. intros n t Hl. rewrite map_lookup_imap in Hl.
    destruct (is_trees s !! n) as [t0|] eqn:E; simplify_eq/=.
    destruct (proj1 Hok _ _ E) as (Hpos & Hmax).
    destruct (SaveVersion_ok _ Hmax) as (t' & Hr & _ & Hv & _ & Hsd).
    unfold saved_tree. rewrite Hr. simpl. rewrite Hsd. split; [lia|done]. }
  exists s2. split_and!; [|done|].
  - unfold Commit, mbind, GM_bind. rewrite Hrun1. simpl. rewrite Hsv. simpl.
    unfold modify. by rewrite Hrun2.
  - intros n. specialize (Htr2 n). simpl in Htr2. rewrite Htr1, map_lookup_imap in Htr2.
    destruct (is_trees s !! n) as [t0|] eqn:E;
      inversion Htr2 as [? t2 (Ht & Hl & i & Hi & Hs)|]; subst; constructor.
    apply (saved_tree_committed t0 t2 i); auto; [by apply (proj1 Hok n)|by rewrite Ht].
Qed.

Lemma Commit_ok s : iavl_fresh s ∨ iavl_ok s →
  ∃ h s', Commit s = (Ok h, s') ∧ iavl_ok s' ∧ iavl_work s' = iavl_work s ∧ iavl_comm s' = iavl_work s.
Proof.
  intros (s' & Hrun & Hvt & Htr)%iavl_savable_intro%Commit_trees. exists (getHash s'), s'. split_and!; [done| | |].
  - split; [|done]. intros n t Ht. specialize (Htr n). rewrite Ht in Htr.
    by inversion Htr as [? ? (? & _)|].
  - apply map_eq. intros n. unfold iavl_work. rewrite !lookup_fmap.
    destruct (Htr n) as [t t' (_ & Hw & _)|]; simpl; congruence.
  - apply map_eq. intros n. unfold iavl_work, iavl_comm. rewrite !lookup_fmap.
    destruct (Htr n) as [t t' (_ & _ & Hc & _)|]; simpl; congruence.
Qed.

Lemma Rollback_ok s : iavl_ok s →
  ∃ s', Rollback s = (Ok (), s') ∧ iavl_ok s' ∧ iavl_work s' = iavl_comm s ∧ iavl_comm s' = iavl_comm s.
Proof.
  intros [Htr Hvt].
  destruct (each_tree_pointwise vtree_ok (λ _ t, set_tree (mt_Rollback (it_tree t)) t)
    (λ name t, modify (put_tree name (set_tree (mt_Rollback (it_tree t)) t))) s)
    as (s' & Hrun & Hvt' & Htr'); [done| |].
  { intros n t s' _ Hv. exists (is_versionTree s'). split; [done|]. by destruct s'. }
  exists s'. split_and!; [done| | |].
  - split; [|done]. intros n t. rewrite Htr', map_lookup_imap.
    destruct (is_trees s !! n) as [t0|] eqn:E; simpl; [|done]. intros [= <-].
    unfold tree_ok. simpl. rewrite law_Rollback_Version, law_Rollback_saved. by apply Htr in E.
  - apply map_eq. intros n. unfold iavl_work, iavl_comm.
    rewrite !lookup_fmap, Htr', map_lookup_imap.
    destruct (is_trees s !! n) as [t0|] eqn:E; simpl; [|done].
    destruct (Htr _ _ E) as (_ & _ & i & Hi & Hs). unfold current_itree.
    by rewrite law_Rollback_work, Hs, Hi.
  - apply map_eq. intros n. unfold iavl_comm. rewrite !lookup_fmap, Htr', map_lookup_imap.
    destruct (is_trees s !! n) as [t0|] eqn:E; simpl; [|done].
    destruct (Htr _ _ E) as (_ & _ & i & Hi & Hs). unfold current_itree. simpl. by rewrite Hi.
Qed.

(** ** Ranges and prefixes *)
Lemma iterate_until_good q b : b ≠ Byte.xff → iterate_until (q ++ [b]) = q ++ [z2b (b2z b + 1)].
Proof.
  intros Hb. unfold iterate_until. rewrite rev_app_distr. simpl.
  rewrite decide_False by done. simpl. by rewrite rev_involutive.
Qed.
Lemma b2z_succ b : b ≠ Byte.xff → b2z (z2b (b2z b + 1)) = b2z b + 1.
Proof.
  intros Hb. rewrite b2z_z2b, Z.mod_small; [done|]. pose proof (b2z_range b).
  assert (b2z b ≠ 255); [|lia]. intros E. apply Hb. apply b2z_inj. by rewrite E.
Qed.
Lemma in_range_prefix q b k : b ≠ Byte.xff →
  in_range (q ++ [b]) (Some (iterate_until (q ++ [b]))) k = has_prefix (q ++ [b]) k.
Proof.
  intros Hb. rewrite iterate_until_good by done. revert k.
  induction q as [|y q IH]; intros [|x k]; try done.
  - unfold in_range, bytes_leb, bytes_ltb. simpl. rewrite b2z_succ by done.
    destruct (Z.compare_spec (b2z x) (b2z b)) as [E|E|E].
    + apply b2z_inj in E as ->. rewrite bool_decide_eq_true_2 by done.
      destruct (Z.compare_spec (b2z b) (b2z b + 1)); [lia| |lia]. by destruct k.
    + rewrite bool_decide_eq_false_2; [done|]. intros ->. lia.
    + rewrite bool_decide_eq_false_2 by (intros ->; lia).
      destruct (Z.compare_spec (b2z x) (b2z b + 1)); [|lia|by destruct k]. by destruct k.
  - revert IH. unfold in_range, bytes_leb, bytes_ltb. intros IH. simpl.
    destruct (Z.compare_spec (b2z x) (b2z y)) as [E|E|E].
    + apply b2z_inj in E as ->. rewrite bool_decide_eq_true_2 by done. apply IH.
    + rewrite bool_decide_eq_false_2; [done|]. intros ->. lia.
    + rewrite bool_decide_eq_false_2; [done|]. intros ->. lia.
Qed.

Lemma range_items_prefix m p : good_prefix p →
  range_items m p (Some (iterate_until p)) ≡ₚ prefix_items m p.
Proof.
  intros (q & b & -> & Hb). rewrite range_items_perm. unfold prefix_items.
  erewrite list_filter_iff; [done|]. intros [k v]. simpl. by rewrite in_range_prefix.
Qed.

Lemma iavl_work_lookup s n m : iavl_work s !! n = Some m →
  ∃ t, is_trees s !! n = Some t ∧ m = mt_work (it_tree t).
Proof. unfold iavl_work. rewrite lookup_fmap. destruct (is_trees s !! n); naive_solver. Qed.
Lemma iavl_comm_lookup s n m : iavl_comm s !! n = Some m →
  ∃ t, is_trees s !! n = Some t ∧ m = im_kv (current_itree t).
Proof. unfold iavl_comm. rewrite lookup_fmap. destruct (is_trees s !! n); naive_solver. Qed.

Lemma TreeAdd_ok s n m k v : iavl_ok s → iavl_work s !! n = Some m →
  ∃ s', TreeAdd s n k (Some v) = Ok s' ∧ iavl_ok s' ∧
        iavl_work s' = <[n := <[k := v]> m]> (iavl_work s) ∧ iavl_comm s' = iavl_comm s.
Proof.
  intros [Htr Hvt] (t & Ht & ->)%iavl_work_lookup.
  exists (put_tree n (set_tree (mt_Set k v (it_tree t)) t) s). simpl. unfold Tree. rewrite Ht.
  simpl. split_and!; [done| | |].
  - split; [|done]. simpl. apply map_Forall_insert_2; [|done]. specialize (Htr _ _ Ht).
    unfold tree_ok in *. simpl. by rewrite law_Set_saved, law_Set_Version.
  - unfold iavl_work. simpl. rewrite fmap_insert. simpl. by rewrite law_Set_work.
  - unfold iavl_comm. simpl. rewrite fmap_insert. apply map_eq. intros n'.
    rewrite lookup_insert. case_decide; [subst|done]. rewrite lookup_fmap, Ht. simpl.
    destruct (Htr _ _ Ht) as (_ & _ & i & Hi & _). unfold current_itree. simpl. by rewrite Hi.
Qed.

Lemma TreeAdd_fresh s n m k v : iavl_fresh s → iavl_work s !! n = Some m →
  ∃ s', TreeAdd s n k (Some v) = Ok s' ∧ iavl_fresh s' ∧
        iavl_work s' = <[n := <[k := v]> m]> (iavl_work s).
Proof.
  intros [Htr Hvt] (t & Ht & ->)%iavl_work_lookup.
  exists (put_tree n (set_tree (mt_Set k v (it_tree t)) t) s). simpl. unfold Tree. rewrite Ht.
  simpl. split_and!; [done| |].
  - split; [|done]. simpl. apply map_Forall_insert_2; [|done]. specialize (Htr _ _ Ht).
    unfold tree_fresh in *. simpl. by rewrite law_Set_saved, law_Set_Version.
  - unfold iavl_work. simpl. rewrite fmap_insert. simpl. by rewrite law_Set_work.
Qed.

#[export] Instance iavl_refines_StateDB : StateDBSpec IavlState.
Proof.
  refine {| db_work := iavl_work; db_comm := iavl_comm; db_fresh := iavl_fresh; db_ok := iavl_ok;
            db_add_fresh := TreeAdd_fresh;
            db_add := TreeAdd_ok; db_commit := Commit_ok; db_rollback := Rollback_ok |}.
  - intros d n m k _ (t & Ht & ->)%iavl_work_lookup. simpl. unfold Tree. rewrite Ht. simpl.
    by rewrite law_Get.
  - intros d n m k _ (t & Ht & ->)%iavl_comm_lookup. simpl. unfold ImmutableTree. rewrite Ht.
    simpl. by rewrite law_im_Get.
  - intros d n m k _ (t & Ht & ->)%iavl_work_lookup. simpl. unfold Tree. rewrite Ht. simpl. eauto.
  - intros d n m p _ (t & Ht & ->)%iavl_work_lookup Hp. simpl. unfold Tree. rewrite Ht. simpl.
    rewrite law_Range. eexists. split; [done|]. by apply range_items_prefix.
  - intros d n m p _ (t & Ht & ->)%iavl_comm_lookup Hp. simpl. unfold ImmutableTree. rewrite Ht.
    simpl. rewrite law_im_Range. eexists. split; [done|]. by apply range_items_prefix.
  - intros d n m _ (t & Ht & ->)%iavl_work_lookup. simpl. unfold Tree. rewrite Ht. simpl.
    by rewrite law_Size.
  - intros d n m _ (t & Ht & ->)%iavl_comm_lookup. simpl. unfold ImmutableTree. rewrite Ht. simpl.
    by rewrite law_im_Size.
Defined.
End iavl.
