(* ===== verification/Codec.v ===== *)
(** * The binary codec and the listener interface of the vochain state

    [Codec] is tendermint's go-amino, a library the repository only calls: a
    marshalling and an unmarshalling function per type, whose round trip on
    non-default values is documented behaviour ([AminoLaws]).  A value all of
    whose fields are zero may marshal to no bytes at all, which go-amino
    refuses to decode, so the laws ask for one field that is not zero.

    [EventListener] is the Go interface of [vochain/state.go] through which
    the state tells the scrutinizer, the key keeper and the census downloader
    what happens in a block. *)

From stdpp Require Import base gmap strings list fin_maps.
From Stdlib Require Import ZArith Lia.
From S2P Require Import Prelude GoLib Types.
Open Scope Z_scope.

Class Codec (A : Type) := {
  MarshalBinaryBare : A → res (option bytes);
  UnmarshalBinaryBare : option bytes → res A }.

Definition roundtrips {A} `{Codec A} (x : A) : Prop :=
  ∃ b, MarshalBinaryBare x = Ok (Some b) ∧ b ≠ [] ∧ UnmarshalBinaryBare (Some b) = Ok x.

(** The bytes of a marshalled value; nil is the empty value. *)
Definition marshal {A} `{Codec A} (x : A) : res bytes := b ← MarshalBinaryBare x; Ok (default [] b).

Class AminoLib := {
  codec_process :: Codec Process;
  codec_vote :: Codec Vote;
  codec_header :: Codec Header;
  codec_strings :: Codec (list string);
  codec_validators :: Codec (list GenesisValidator) }.

Class AminoLaws `{AminoLib} := {
  law_amino_process (p : Process) : p_Type p ≠ "" → roundtrips p;
  law_amino_vote (v : Vote) : v_ProcessID v ≠ [] → roundtrips v;
  law_amino_header (h : Header) : h_Height h ≠ 0 ∨ h_Time h ≠ 0 → roundtrips h;
  law_amino_strings (l : list string) : l ≠ [] → roundtrips l;
  law_amino_validators (l : list GenesisValidator) : l ≠ [] → roundtrips l;
  (** "cannot decode empty bytes". *)
  law_amino_nil_strings : ∃ e, UnmarshalBinaryBare (A := list string) None = Err e;
  law_amino_nil_validators : ∃ e, UnmarshalBinaryBare (A := list GenesisValidator) None = Err e;
  law_amino_nil_header : ∃ e, UnmarshalBinaryBare (A := Header) None = Err e }.

(** [DB] is the store the listener reads through the state it keeps a pointer
    to, at the moment of the call. *)
Class EventListener (DB L : Type) := {
  OnVote : DB → Vote → L → res L;
  OnProcess : DB → bytes → bytes → string → string → L → res L;
  OnCancel : DB → bytes → L → res L;
  OnProcessKeys : DB → bytes → string → string → L → res L;
  OnRevealKeys : DB → bytes → string → string → L → res L;
  ListenerCommit : DB → Z → L → res L;
  ListenerRollback : DB → L → res L }.

(** The slice [eventListeners], as a nested pair: no listener, or one listener
    called before the rest. *)
#[export] Instance no_listener {DB} : EventListener DB () := {|
  OnVote _ _ := Ok; OnProcess _ _ _ _ _ := Ok; OnCancel _ _ := Ok;
  OnProcessKeys _ _ _ _ := Ok; OnRevealKeys _ _ _ _ := Ok;
  ListenerCommit _ _ := Ok; ListenerRollback _ := Ok |}.

Definition both {L1 L2} (f : L1 → res L1) (g : L2 → res L2) (l : L1 * L2) : res (L1 * L2) :=
  l1 ← f l.1; l2 ← g l.2; Ok (l1, l2).
#[export] Instance pair_listener {DB L1 L2} `{EventListener DB L1} `{EventListener DB L2} :
    EventListener DB (L1 * L2) := {|
  OnVote d v := both (OnVote d v) (OnVote d v);
  OnProcess d p e r u := both (OnProcess d p e r u) (OnProcess d p e r u);
  OnCancel d p := both (OnCancel d p) (OnCancel d p);
  OnProcessKeys d p k c := both (OnProcessKeys d p k c) (OnProcessKeys d p k c);
  OnRevealKeys d p k c := both (OnRevealKeys d p k c) (OnRevealKeys d p k c);
  ListenerCommit d h := both (ListenerCommit d h) (ListenerCommit d h);
  ListenerRollback d := both (ListenerRollback d) (ListenerRollback d) |}.
