(* ===== verification/State.v ===== *)
(** * The vochain state: [vochain/state.go], [vochain/cache.go]

    [State] holds the store, the in-memory vote cache and the listeners.
    Methods that only read the store take it as an argument; methods that
    change the state are computations in [GM (State DB L)].  The model is
    sequential: each method is one atomic step, which is what the locks of
    the source give, except that a read followed by a write is not one
    critical section there. *)

From stdpp Require Import base gmap strings list fin_maps.
From Stdlib Require Import ZArith Lia.
From S2P Require Import Prelude GoLib Types StateDB Crypto IavlState Codec.
Open Scope Z_scope.

Definition AppTree : string := "app".
Definition ProcessTree : string := "process".
Definition VoteTree : string := "vote".
(** 600 seconds, in nanoseconds. *)
Definition voteCachePurgeThreshold : Z := 600 * 10^9.
Definition headerKey : bytes := s2b "header".
Definition oracleKey : bytes := s2b "oracle".
Definition validatorKey : bytes := s2b "validator".
Definition ErrProcessNotFound : error := "process not found".

Record State (DB L : Type) := mkState {
  Store : DB;
  voteCache : gmap string VoteProof;
  eventListeners : L }.
Arguments mkState {DB L}.
Arguments Store {DB L}.
Arguments voteCache {DB L}.
Arguments eventListeners {DB L}.

Definition set_Store {DB L} (d : DB) (s : State DB L) : State DB L :=
  mkState d (voteCache s) (eventListeners s).
Definition set_voteCache {DB L} (c : gmap string VoteProof) (s : State DB L) : State DB L :=
  mkState (Store s) c (eventListeners s).
Definition set_listeners {DB L} (l : L) (s : State DB L) : State DB L :=
  mkState (Store s) (voteCache s) l.

(** [AddEventListener] appends to the slice: the listener is called last. *)
Definition AddEventListener {DB L L'} (l : L') (s : State DB L) : State DB (L * L') :=
  mkState (Store s) (voteCache s) (eventListeners s, l).

Section reads.
Context {DB : Type} `{StateDB DB} `{AminoLib} `{CryptoLib}.

(** [if isQuery { ImmutableTree(t).Get(k) } else { Tree(t).Get(k) }]. *)
Definition tree_get (isQuery : bool) (d : DB) (t : string) (k : bytes) : res (option bytes) :=
  if isQuery then ITreeGet d t k else TreeGet d t k.

Definition Oracles (d : DB) (isQuery : bool) : res (list string) :=
  oraclesBytes ← tree_get isQuery d AppTree oracleKey;
  UnmarshalBinaryBare oraclesBytes.

Definition Validators (d : DB) (isQuery : bool) : res (list GenesisValidator) :=
  validatorBytes ← tree_get isQuery d AppTree validatorKey;
  UnmarshalBinaryBare validatorBytes.

(** The result of an unmarshalling whose error is ignored: the variable keeps
    its zero value. *)
Definition or_nil {A} (r : res (list A)) : res (list A) :=
  match r with Err _ => Ok [] | _ => r end.

(** [None] is the nil header returned when nothing can be decoded. *)
Definition Header_ (d : DB) (isQuery : bool) : res (option Header) :=
  headerBytes ← tree_get isQuery d AppTree headerKey;
  match UnmarshalBinaryBare headerBytes with
  | Ok h => Ok (Some h)
  | Err _ => Ok None
  | Panic w => Panic w
  end.

Definition AppHash (d : DB) (isQuery : bool) : res bytes :=
  headerBytes ← tree_get isQuery d AppTree headerKey;
  match UnmarshalBinaryBare (A := Header) headerBytes with
  | Ok h => Ok (h_AppHash h)
  | Err _ => Ok []
  | Panic w => Panic w
  end.

Definition Process_ (d : DB) (pid : bytes) (isQuery : bool) : res Process :=
  processBytes ← tree_get isQuery d ProcessTree pid;
  match processBytes with
  | None => Err ErrProcessNotFound
  | Some b => match UnmarshalBinaryBare (Some b) with
              | Ok p => Ok p
              | Err _ => Err "cannot unmarshal process with id"
              | Panic w => Panic w
              end
  end.

Definition CountProcesses (d : DB) (isQuery : bool) : res Z :=
  if isQuery then ITreeCount d ProcessTree else TreeCount d ProcessTree.

(** [voteID = processID ++ nullifier], both of 32 bytes. *)
Definition voteID (pid nullifier : bytes) : res bytes :=
  if decide (glen pid ≠ ProcessIDsize) then Err "wrong processID size"
  else if decide (glen nullifier ≠ VoteNullifierSize) then Err "wrong nullifier size"
  else Ok (pid ++ nullifier).

(** The deferred [recover] turns a panic of the tree into an error. *)
Definition recovered {A} (r : res A) : res A :=
  match r with Panic _ => Err "recovered panic" | _ => r end.

Definition Envelope (d : DB) (processID nullifier : bytes) (isQuery : bool) : res Vote :=
  recovered (
    vid ← voteID processID nullifier;
    voteBytes ← tree_get isQuery d VoteTree vid;
    match voteBytes with
    | None => Err "vote with id does not exist"
    | Some b => match UnmarshalBinaryBare (Some b) with
                | Ok v => Ok v
                | Err _ => Err "cannot unmarshal vote with id"
                | Panic w => Panic w
                end
    end).

(** Always the immutable tree: the votes of the block being built are not
    seen. *)
Definition EnvelopeExists (d : DB) (processID nullifier : bytes) : res bool :=
  match voteID processID nullifier with
  | Ok vid => b ← ITreeGet d VoteTree vid; Ok (bool_decide (0 < glen (default [] b)))
  | Err _ => Ok false
  | Panic w => Panic w
  end.

Definition iterateProcessID (d : DB) (processID : bytes) (isQuery : bool) : res (list (bytes * bytes)) :=
  if isQuery then ITreeIterate d VoteTree processID else TreeIterate d VoteTree processID.

Definition CountVotes (d : DB) (processID : bytes) (isQuery : bool) : res Z :=
  items ← iterateProcessID d processID isQuery;
  iterate_cb (λ _ _ count, Ok (false, i64 (count + 1))) items 0.

(** The callback of [EnvelopeList]; [key[32:]] panics on a short key, and the
    recovered panic leaves what was collected so far. *)
Fixpoint envelope_list_loop (items : list (bytes * bytes)) (idx from listSize : Z)
    (nullifiers : list bytes) : list bytes :=
  match items with
  | [] => nullifiers
  | (key, _) :: items' =>
      if decide (i64 (from + listSize) ≤ idx) then nullifiers
      else if decide (from ≤ idx) then
        match go_slice_from key 32 with
        | Ok n => envelope_list_loop items' (i64 (idx + 1)) from listSize (nullifiers ++ [n])
        | _ => nullifiers
        end
      else envelope_list_loop items' (i64 (idx + 1)) from listSize nullifiers
  end.
Definition EnvelopeList (d : DB) (processID : bytes) (from listSize : Z) (isQuery : bool) : list bytes :=
  match iterateProcessID d processID isQuery with
  | Ok items => envelope_list_loop items 0 from listSize []
  | _ => []
  end.

Definition hexPubKeyToTendermintEd25519 (pubKey : string) : res bytes :=
  pubKeyBytes ← hex_DecodeString pubKey;
  _ ← guard_err (bool_decide (glen pubKeyBytes ≠ 32)) "pubKey lenght is invalid";
  Ok pubKeyBytes.
End reads.

Section writes.
Context {DB L : Type} `{StateDB DB} `{AminoLib} `{CryptoLib} `{!EventListener DB L}.
Implicit Types s : State DB L.
Abbreviation M := (GM (State DB L)).

Definition store_add (t : string) (k : bytes) (v : option bytes) : M () :=
  updates (λ s, d ← TreeAdd (Store s) t k v; Ok (set_Store d s)).
Definition on_store {A} (f : DB → res A) : M A := reads (λ s, f (Store s)).
(** [for _, l := range v.eventListeners { l.f(...) }]. *)
Definition notify (f : DB → L → res L) : M () :=
  updates (λ s, l ← f (Store s) (eventListeners s); Ok (set_listeners l s)).
(** A marshalling whose error is replaced. *)
Definition marshal_or {A} `{Codec A} (e : error) (x : A) : res (option bytes) :=
  match MarshalBinaryBare x with Err _ => Err e | r => r end.

(** ** Oracles and validators *)
Definition AddOracle (address : string) : M () :=
  let address := TrimHex address in
  oracles ← on_store (λ d, b ← TreeGet d AppTree oracleKey; or_nil (UnmarshalBinaryBare b));
  if decide (address ∈ oracles) then lift (Err "oracle already added")
  else
    newOraclesBytes ← lift (marshal_or "cannot marshal oracles" (oracles ++ [address]));
    store_add AppTree oracleKey newOraclesBytes.

Definition RemoveOracle (address : string) : M () :=
  let address := TrimHex address in
  oracles ← on_store (λ d, b ← TreeGet d AppTree oracleKey; or_nil (UnmarshalBinaryBare b));
  match find_index (λ o, bool_decide (o = address)) oracles with
  | Some i =>
      newOraclesBytes ← lift (marshal_or "cannot marshal oracles" (remove_at i oracles));
      store_add AppTree oracleKey newOraclesBytes
  | None => lift (Err "oracle not found")
  end.

Definition AddValidator (pubKey : bytes) (power : Z) : M () :=
  let addr := tm_HexString (tm_Address pubKey) in
  validators ← on_store (λ d, b ← TreeGet d AppTree validatorKey; or_nil (UnmarshalBinaryBare b));
  if existsb (λ v, bool_decide (tm_HexString (tm_Address (gv_PubKey v)) = addr)) validators
  then mret ()
  else
    let newVal := mkGenesisValidator (tm_Address pubKey) pubKey power "" in
    validatorsBytes ← lift (marshal_or "cannot marshal validators" (validators ++ [newVal]));
    store_add AppTree validatorKey validatorsBytes.

Definition RemoveValidator (address : string) : M () :=
  validators ← on_store (λ d, b ← TreeGet d AppTree validatorKey; or_nil (UnmarshalBinaryBare b));
  match find_index (λ v, bool_decide (tm_HexString (gv_Address v) = address)) validators with
  | Some i =>
      validatorsBytes ← lift (marshal_or "cannot marshal validators" (remove_at i validators));
      store_add AppTree validatorKey validatorsBytes
  | None => lift (Err "validator not found")
  end.

(** ** Processes *)
Definition setProcess (process : Process) (pid : bytes) : M () :=
  updatedProcessBytes ← lift (marshal_or "cannot marshal updated process bytes" process);
  store_add ProcessTree pid updatedProcessBytes.

(** [if len(key) > 0 { keys[i] = key }]. *)
Definition set_key (keys : list string) (i : Z) (key : string) : res (list string) :=
  if decide (0 < slen key) then go_set_index keys i key else Ok keys.

Definition AddProcessKeys (tx : AdminTx) : M () :=
  pid ← lift (hex_DecodeString (at_ProcessID tx));
  process ← on_store (λ d, Process_ d pid false);
  commit ← lift (set_key (p_CommitmentKeys process) (at_KeyIndex tx) (at_CommitmentKey tx));
  pub ← lift (set_key (p_EncryptionPublicKeys process) (at_KeyIndex tx) (at_EncryptionPublicKey tx));
  let process := set_KeyIndex (i64 (p_KeyIndex process + 1)) (set_PublicKeys commit pub process) in
  _ ← setProcess process pid;
  notify (λ d, OnProcessKeys d pid (at_EncryptionPublicKey tx) (at_CommitmentKey tx)).

Definition RevealProcessKeys (tx : AdminTx) : M () :=
  pid ← lift (hex_DecodeString (at_ProcessID tx));
  process ← on_store (λ d, Process_ d pid false);
  reveal ← lift (set_key (p_RevealKeys process) (at_KeyIndex tx) (at_RevealKey tx));
  priv ← lift (set_key (p_EncryptionPrivateKeys process) (at_KeyIndex tx) (at_EncryptionPrivateKey tx));
  _ ← lift (guard_err (bool_decide (p_KeyIndex process < 1)) "no more keys to reveal, keyIndex is < 1");
  let process := set_KeyIndex (i64 (p_KeyIndex process - 1)) (set_SecretKeys reveal priv process) in
  _ ← setProcess process pid;
  notify (λ d, OnRevealKeys d pid (at_EncryptionPrivateKey tx) (at_RevealKey tx)).

Definition AddProcess (p : Process) (pid : bytes) (mkuri : string) : M () :=
  newProcessBytes ← lift (marshal_or "cannot marshal process bytes" p);
  _ ← store_add ProcessTree pid newProcessBytes;
  notify (λ d, OnProcess d pid (p_EntityID p) (p_MkRoot p) mkuri).

Definition CancelProcess (pid : bytes) : M () :=
  process ← on_store (λ d, Process_ d pid false);
  if p_Canceled process then mret ()
  else
    let process := set_Canceled true process in
    updatedProcessBytes ← lift (marshal_or "cannot marshal updated process bytes" process);
    _ ← store_add ProcessTree pid updatedProcessBytes;
    notify (λ d, OnCancel d pid).

Definition PauseProcess (pid : bytes) : M () :=
  processBytes ← on_store (λ d, TreeGet d ProcessTree pid);
  process ← lift (match UnmarshalBinaryBare processBytes with
                  | Err _ => Err "cannot unmarshal process"
                  | r => r
                  end);
  if p_Paused process then mret () else setProcess (set_Paused true process) pid.

Definition ResumeProcess (pid : bytes) : M () :=
  process ← on_store (λ d, Process_ d pid false);
  if negb (p_Paused process) then mret () else setProcess (set_Paused false process) pid.

(** ** Votes *)
Definition set_Height (h : Z) (v : Vote) : Vote :=
  mkVote (v_EncryptionKeyIndexes v) h (v_Nullifier v) (v_ProcessID v) (v_VotePackage v).

Definition AddVote (vote : Vote) : M () :=
  vid ← lift (voteID (v_ProcessID vote) (v_Nullifier vote));
  header ← on_store (λ d, Header_ d false);
  header ← lift (match header with Some h => Ok h | None => Panic "nil pointer dereference" end);
  let vote := set_Height (h_Height header) vote in
  newVoteBytes ← lift (marshal_or "cannot marshal vote" vote);
  _ ← store_add VoteTree vid newVoteBytes;
  notify (λ d, OnVote d vote).

(** ** Commit and rollback *)
Definition store_commit : M bytes := λ s,
  match DBCommit (Store s) with
  | (Ok h, d) => (Ok h, set_Store d s)
  | (_, d) => (Panic "cannot commit state trees", set_Store d s)
  end.
Definition Save : M bytes :=
  hash ← store_commit;
  header ← on_store (λ d, Header_ d false);
  _ ← match header with
      | Some h => notify (λ d, ListenerCommit d (h_Height h))
      | None => mret ()
      end;
  mret hash.

Definition store_rollback : M () := λ s,
  match DBRollback (Store s) with
  | (Ok _, d) => (Ok (), set_Store d s)
  | (_, d) => (Panic "cannot rollback state tree", set_Store d s)
  end.
Definition Rollback_ : M () :=
  _ ← notify ListenerRollback; store_rollback.

Definition WorkingHash : M bytes := on_store DBHash.

(** ** The vote cache ([cache.go]) *)
Definition VoteCacheAdd (id : string) (vc : VoteProof) (s : State DB L) : State DB L :=
  if decide (id = "") then s else set_voteCache (<[id := vc]> (voteCache s)) s.
Definition VoteCacheDel (id : string) (s : State DB L) : State DB L :=
  if decide (id = "") then s else set_voteCache (delete id (voteCache s)) s.
Definition VoteCacheGet (id : string) (s : State DB L) : option VoteProof :=
  if decide (id = "") then None else voteCache s !! id.
(** Only at heights that are multiples of six; [now - Created] is
    [time.Since], in nanoseconds. *)
Definition VoteCachePurge (now height : Z) (s : State DB L) : State DB L :=
  if decide (Z.rem height 6 ≠ 0) then s
  else set_voteCache
         (filter (λ kv, ¬ voteCachePurgeThreshold < now - vp_Created kv.2) (voteCache s)) s.
Definition VoteCacheSize (s : State DB L) : Z := Z.of_nat (size (voteCache s)).
End writes.

(** [NewState]: the IAVL store with its three trees, at the last but one
    committed version. *)
Section new.
Context {mtree itree : Type} `{Iavl mtree itree} `{CryptoLib}.
Definition NewState (dataDir : string) : res (State (@IavlState mtree itree) ()) :=
  store ← Init dataDir "disk";
  match (_ ← AddTree AppTree; _ ← AddTree ProcessTree; _ ← AddTree VoteTree; LoadVersion (-1)) store with
  | (Ok _, store) => Ok (mkState store ∅ ())
  | (Err e, _) => Err e
  | (Panic w, _) => Panic w
  end.
End new.
