(* ===== verification/Transaction.v ===== *)
(** * Transactions: [vochain/transaction.go], [vochain/apputils.go]

    The checks of the four kinds of transaction, their execution ([AddTx]) and
    their decoding ([UnmarshalTx]).  A check of a vote changes the vote cache,
    so it is a computation on the state; the other checks only read the store.
    [now] is the clock reading of [time.Now()]. *)

From stdpp Require Import base gmap strings list fin_maps.
From Stdlib Require Import ZArith Lia.
From S2P Require Import Prelude GoLib Types StateDB Crypto IavlState Codec State.
Open Scope Z_scope.

(** ** Decoding of the JSON payload

    [json.Unmarshal] into each transaction struct and [json.Marshal] of it:
    a parameter per struct.  [json_type] is the [type] field. *)
Class TxJSON := {
  json_type : bytes → res string;
  json_VoteTx : bytes → res VoteTx;
  json_AdminTx : bytes → res AdminTx;
  json_NewProcessTx : bytes → res NewProcessTx;
  json_CancelProcessTx : bytes → res CancelProcessTx;
  marshal_VoteTx : VoteTx → res bytes;
  marshal_AdminTx : AdminTx → res bytes;
  marshal_NewProcessTx : NewProcessTx → res bytes;
  marshal_CancelProcessTx : CancelProcessTx → res bytes }.

Section unmarshal.
Context `{TxJSON}.

(** The error of a failed call is replaced by another. *)
Definition or_err {A} (e : error) (r : res A) : res A := match r with Err _ => Err e | _ => r end.

(** The signed bytes are the marshalled transaction without its signature,
    and for a vote also without its type. *)
Definition finish_VoteTx (tx : VoteTx) : res GenericTX :=
  let unsigned := mkVoteTx (vt_EncryptionKeyIndexes tx) (vt_Nonce tx) (vt_Nullifier tx)
    (vt_ProcessID tx) (vt_Proof tx) "" "" (vt_VotePackage tx) (vt_SignedBytes tx) in
  signedBytes ← or_err "cannot marshal voteTX" (marshal_VoteTx unsigned);
  Ok (GVoteTx (mkVoteTx (vt_EncryptionKeyIndexes tx) (vt_Nonce tx) (TrimHex (vt_Nullifier tx))
    (TrimHex (vt_ProcessID tx)) (vt_Proof tx) (vt_Signature tx) (vt_Type tx) (vt_VotePackage tx)
    signedBytes)).

Definition finish_AdminTx (tx : AdminTx) : res GenericTX :=
  let unsigned := mkAdminTx (at_Address tx) (at_CommitmentKey tx) (at_EncryptionPrivateKey tx)
    (at_EncryptionPublicKey tx) (at_KeyIndex tx) (at_Nonce tx) (at_Power tx) (at_ProcessID tx)
    (at_PubKey tx) (at_RevealKey tx) "" (at_Type tx) (at_SignedBytes tx) in
  signedBytes ← or_err "cannot marshal voteTX" (marshal_AdminTx unsigned);
  Ok (GAdminTx (mkAdminTx (at_Address tx) (TrimHex (at_CommitmentKey tx))
    (TrimHex (at_EncryptionPrivateKey tx)) (TrimHex (at_EncryptionPublicKey tx)) (at_KeyIndex tx)
    (at_Nonce tx) (at_Power tx) (TrimHex (at_ProcessID tx)) (at_PubKey tx)
    (TrimHex (at_RevealKey tx)) (at_Signature tx) (at_Type tx) signedBytes)).

Definition finish_NewProcessTx (tx : NewProcessTx) : res GenericTX :=
  let unsigned := mkNewProcessTx (np_EntityID tx) (np_MkRoot tx) (np_MkURI tx)
    (np_NumberOfBlocks tx) (np_ProcessID tx) (np_ProcessType tx) "" (np_StartBlock tx)
    (np_Type tx) (np_SignedBytes tx) in
  signedBytes ← or_err "cannot marshal" (marshal_NewProcessTx unsigned);
  Ok (GNewProcessTx (mkNewProcessTx (TrimHex (np_EntityID tx)) (TrimHex (np_MkRoot tx))
    (np_MkURI tx) (np_NumberOfBlocks tx) (TrimHex (np_ProcessID tx)) (np_ProcessType tx)
    (np_Signature tx) (np_StartBlock tx) (np_Type tx) signedBytes)).

Definition finish_CancelProcessTx (tx : CancelProcessTx) : res GenericTX :=
  let unsigned := mkCancelProcessTx (cp_ProcessID tx) "" (cp_Type tx) (cp_SignedBytes tx) in
  signedBytes ← or_err "cannot marshal" (marshal_CancelProcessTx unsigned);
  Ok (GCancelProcessTx (mkCancelProcessTx (TrimHex (cp_ProcessID tx)) (cp_Signature tx)
    (cp_Type tx) signedBytes)).

Definition UnmarshalTx (content : bytes) : res GenericTX :=
  type ← or_err "cannot extract type" (json_type content);
  if decide (slen type < 1) then Err "cannot extract type"
  else
    let t := ValidateType type in
    if decide (t = "VoteTx") then
      tx ← or_err "cannot parse VoteTX" (json_VoteTx content); finish_VoteTx tx
    else if decide (t = "AdminTx") then
      tx ← or_err "cannot parse AdminTx" (json_AdminTx content); finish_AdminTx tx
    else if decide (t = "NewProcessTx") then
      tx ← or_err "cannot parse NewProcessTx" (json_NewProcessTx content); finish_NewProcessTx tx
    else if decide (t = "CancelProcessTx") then
      tx ← or_err "cannot parse CancelProcessTx" (json_CancelProcessTx content);
      finish_CancelProcessTx tx
    else Err "invalid transaction type".
End unmarshal.

(** ** [apputils.go] *)
Section utils.
Context `{CryptoLib}.
Definition checkMerkleProof (rootHash hexproof : string) (leafData : bytes) : res bool :=
  trie_CheckProof rootHash hexproof leafData [].

Definition oracle_keys (oracles : list string) : ethereum.SignKeys :=
  foldl (λ k oracle, ethereum.AddAuthKey (HexToAddress oracle) k) ethereum.NewSignKeys oracles.
Definition verifySignatureAgainstOracles (oracles : list string) (message : bytes)
    (signHex : string) : res (bool * bytes) :=
  ethereum.VerifySender (oracle_keys oracles) message signHex.

(** [HashRaw(address ++ processID)]. *)
Definition GenerateNullifier (address processID : bytes) : bytes :=
  ethereum.HashRaw (address ++ processID).
End utils.

(** ** Checks that only read the store *)
Section checks.
Context {DB : Type} `{StateDB DB} `{AminoLib} `{CryptoLib}.

Definition no_oracles : error := "cannot check authorization against a nil or empty oracle list".

(** [oracles, err := state.Oracles(false); if err != nil || len(oracles) == 0]. *)
Definition oracles_or_fail (d : DB) : res (list string) :=
  match Oracles d false with
  | Ok [] => Err no_oracles
  | Err _ => Err no_oracles
  | r => r
  end.

Definition empty_keys : list string := replicate (Z.to_nat MaxKeyIndex) "".

Definition valid_process_type (t : string) : bool :=
  bool_decide (t = SnarkVote) || bool_decide (t = PollVote) || bool_decide (t = PetitionSign)
  || bool_decide (t = EncryptedPoll).

Definition NewProcessTxCheck (tx : NewProcessTx) (d : DB) : res Process :=
  _ ← guard_err (negb (IsHexEncodedStringWithLength (np_ProcessID tx) ProcessIDsize))
        "malformed processId";
  _ ← guard_err (negb (IsHexEncodedStringWithLength (np_EntityID tx) EntityIDsize) &&
                 negb (IsHexEncodedStringWithLength (np_EntityID tx) EntityIDsizeV2))
        "malformed entityId";
  pid ← hex_DecodeString (np_ProcessID tx);
  eid ← hex_DecodeString (np_EntityID tx);
  oracles ← oracles_or_fail d;
  header ← Header_ d false;
  header ← of_option "cannot fetch state header" header;
  _ ← guard_err (bool_decide (np_StartBlock tx < h_Height header))
        "cannot add process with start block lower or equal than the current tendermint height";
  _ ← guard_err (bool_decide (np_NumberOfBlocks tx ≤ 0))
        "cannot add process with duration lower or equal than the current tendermint height";
  '(authorized, addr) ← verifySignatureAgainstOracles oracles (np_SignedBytes tx) (np_Signature tx);
  _ ← guard_err (negb authorized) "unauthorized to create a process";
  _ ← match Process_ d pid false with
      | Ok _ => Err "process already exists"
      | Err _ => Ok ()
      | Panic w => Panic w
      end;
  _ ← guard_err (negb (valid_process_type (np_ProcessType tx))) "process type not valid";
  let keys := if ProcessRequireKeys (np_ProcessType tx) then empty_keys else [] in
  Ok (mkProcess false keys keys keys eid 0 (np_MkRoot tx) (np_NumberOfBlocks tx) false keys
        (np_StartBlock tx) (np_ProcessType tx)).

Definition end_block (p : Process) : Z := i64 (p_StartBlock p + p_NumberOfBlocks p).

Definition CancelProcessTxCheck (tx : CancelProcessTx) (d : DB) : res () :=
  _ ← guard_err (negb (IsHexEncodedStringWithLength (cp_ProcessID tx) ProcessIDsize))
        "malformed processId";
  pid ← hex_DecodeString (cp_ProcessID tx);
  oracles ← oracles_or_fail d;
  '(authorized, addr) ← verifySignatureAgainstOracles oracles (cp_SignedBytes tx) (cp_Signature tx);
  _ ← guard_err (negb authorized) "unauthorized to cancel a process";
  process ← or_err "cannot cancel the process" (Process_ d pid false);
  _ ← guard_err (p_Canceled process) "cannot cancel an already canceled process";
  header ← Header_ d false;
  let height := match header with Some h => h_Height h | None => 0 end in
  guard_err (bool_decide (end_block process < height)) "cannot cancel a finalized process".

(** [len(keys1[i]) + len(keys2[i]) > 0]. *)
Definition keys_at (keys1 keys2 : list string) (i : Z) : res Z :=
  k1 ← go_index keys1 i; k2 ← go_index keys2 i; Ok (slen k1 + slen k2).

Definition bad_key_index : error := "no keys provided or invalid key index".

Definition checkAddProcessKeys (tx : AdminTx) (process : Process) : res () :=
  _ ← guard_err (bool_decide (slen (at_CommitmentKey tx) + slen (at_EncryptionPublicKey tx) = 0)
                 || bool_decide (at_KeyIndex tx < 1) || bool_decide (MaxKeyIndex < at_KeyIndex tx))
        bad_key_index;
  pub ← go_index (p_EncryptionPublicKeys process) (at_KeyIndex tx);
  if decide (0 < slen pub) then Err "key index alrady exist"
  else
    com ← go_index (p_CommitmentKeys process) (at_KeyIndex tx);
    guard_err (bool_decide (0 < slen com)) "key index alrady exist".

Definition checkRevealProcessKeys (tx : AdminTx) (process : Process) : res () :=
  _ ← guard_err (bool_decide (slen (at_RevealKey tx) + slen (at_EncryptionPrivateKey tx) = 0)
                 || bool_decide (at_KeyIndex tx < 1) || bool_decide (MaxKeyIndex < at_KeyIndex tx))
        bad_key_index;
  pub ← go_index (p_EncryptionPublicKeys process) (at_KeyIndex tx);
  _ ← guard_err (bool_decide (slen pub < 1)) "key index does not exist";
  com ← go_index (p_CommitmentKeys process) (at_KeyIndex tx);
  _ ← guard_err (bool_decide (slen com < 1)) "key index does not exist";
  _ ← (if decide (0 < slen (at_EncryptionPrivateKey tx)) then
         priv ← nacl.DecodePrivate (at_EncryptionPrivateKey tx);
         guard_err (negb (bool_decide (sprintf_x (nacl.pub_bytes priv) = pub)))
           "the provided private key does not match with the stored public key"
       else Ok ());
  if decide (0 < slen (at_RevealKey tx)) then
    rb ← hex_DecodeString (at_RevealKey tx);
    guard_err (negb (bool_decide (sprintf_x (PoseidonHash rb) = com)))
      "the provided commitment reveal key does not match with the stored"
  else Ok ().

(** The part of [AdminTxCheck] for the two key transactions. *)
Definition check_process_keys (tx : AdminTx) (d : DB) : res () :=
  pid ← hex_DecodeString (at_ProcessID tx);
  process ← Process_ d pid false;
  _ ← guard_err (negb (RequireKeys process)) "process does not require keys";
  header ← Header_ d false;
  header ← of_option "cannot get blockchain header" header;
  if decide (at_Type tx = TxAddProcessKeys) then
    _ ← guard_err (bool_decide (p_StartBlock process < h_Height header))
          "cannot add process keys in a started or finished process";
    _ ← guard_err (p_Canceled process) "cannot add process keys in a canceled process";
    n ← keys_at (p_EncryptionPublicKeys process) (p_CommitmentKeys process) (at_KeyIndex tx);
    _ ← guard_err (bool_decide (0 < n)) "keys for process already revealed";
    checkAddProcessKeys tx process
  else
    _ ← guard_err (bool_decide (h_Height header < end_block process) && negb (p_Canceled process))
          "cannot reveal keys before the process is finished";
    n ← keys_at (p_EncryptionPrivateKeys process) (p_RevealKeys process) (at_KeyIndex tx);
    _ ← guard_err (bool_decide (0 < n)) "keys for process already revealed";
    checkRevealProcessKeys tx process.

Definition AdminTxCheck (tx : AdminTx) (d : DB) : res () :=
  oracles ← oracles_or_fail d;
  '(authorized, addr) ← verifySignatureAgainstOracles oracles (at_SignedBytes tx) (at_Signature tx);
  _ ← guard_err (negb authorized) "unauthorized to perform an adminTx";
  if bool_decide (at_Type tx = TxAddProcessKeys) || bool_decide (at_Type tx = TxRevealProcessKeys)
  then check_process_keys tx d
  else Ok ().
End checks.

(** ** Votes and execution *)
Section exec.
Context {DB L : Type} `{StateDB DB} `{AminoLib} `{CryptoLib} `{!EventListener DB L}.
Abbreviation M := (GM (State DB L)).

(** Recover the voter from the signature, derive the nullifier and check the
    census proof. *)
Definition verify_vote (tx : VoteTx) (process : Process) (pid : bytes) (now : Z) (d : DB) : res VoteProof :=
  pubKey ← or_err "cannot extract public key from signature"
             (ethereum.PubKeyFromSignature (vt_SignedBytes tx) (vt_Signature tx));
  addr ← or_err "cannot extract address from public key" (ethereum.AddrFromPublicKey pubKey);
  let nullifier := GenerateNullifier addr pid in
  exists_ ← EnvelopeExists d pid nullifier;
  _ ← guard_err exists_ "vote already exists";
  pubKeyDec ← hex_DecodeString pubKey;
  let digest := PoseidonHash pubKeyDec in
  _ ← guard_err (bool_decide (glen digest ≠ 32)) "cannot compute Poseidon hash";
  valid ← or_err "cannot check merkle proof" (checkMerkleProof (p_MkRoot process) (vt_Proof tx) digest);
  _ ← guard_err (negb valid) "proof not valid";
  Ok (mkVoteProof (vt_Proof tx) pubKey digest nullifier now).

(** The guards before the type switch. *)
Definition vote_window (process : Process) (height : Z) : bool :=
  (bool_decide (p_StartBlock process ≤ height) && bool_decide (height ≤ end_block process))
  && negb (p_Canceled process) && negb (p_Paused process).

Definition open_process (tx : VoteTx) (d : DB) : res (bytes * Process) :=
  pid ← hex_DecodeString (vt_ProcessID tx);
  process ← Process_ d pid false;
  header ← Header_ d false;
  header ← of_option "cannot obtain state header" header;
  _ ← guard_err (negb (vote_window process (h_Height header)))
        "cannot add vote, invalid block frame or process canceled/paused";
  _ ← guard_err (RequireKeys process && bool_decide (p_KeyIndex process < 1))
        "no keys available, voting is not possible";
  if decide (p_Type process = SnarkVote) then Err "snark vote not implemented"
  else if bool_decide (p_Type process = PollVote) || bool_decide (p_Type process = PetitionSign)
          || bool_decide (p_Type process = EncryptedPoll)
  then Ok (pid, process)
  else Err "invalid process type".

Definition vote_of (tx : VoteTx) (process : Process) (pid nullifier : bytes) : Vote :=
  mkVote (if ProcessIsEncrypted (p_Type process) then vt_EncryptionKeyIndexes tx else [])
    0 nullifier pid (vt_VotePackage tx).

Definition VoteTxCheck (tx : VoteTx) (now : Z) (forCommit : bool) : M Vote :=
  '(pid, process) ← on_store (open_process tx);
  _ ← lift (guard_err (ProcessIsEncrypted (p_Type process) &&
                       bool_decide (glen (vt_EncryptionKeyIndexes tx) = 0))
              "no key indexes provided on vote package");
  let uid := UniqID tx (p_Type process) in
  vp ← reads (λ s, Ok (VoteCacheGet uid s));
  match vp with
  | Some vp =>
      if forCommit then
        deferred (VoteCacheDel uid) (
          exists_ ← on_store (λ d, EnvelopeExists d pid (vp_Nullifier vp));
          _ ← lift (guard_err exists_ "vote already exists");
          mret (vote_of tx process pid (vp_Nullifier vp)))
      else lift (Err "vote already exist in cache")
  | None =>
      vp ← on_store (verify_vote tx process pid now);
      _ ← modify (VoteCacheAdd uid vp);
      mret (vote_of tx process pid (vp_Nullifier vp))
  end.

(** The execution of an accepted admin transaction; an unknown type does
    nothing. *)
Definition exec_admin (tx : AdminTx) : M () :=
  let t := at_Type tx in
  if decide (t = TxAddOracle) then AddOracle (at_Address tx)
  else if decide (t = TxRemoveOracle) then RemoveOracle (at_Address tx)
  else if decide (t = TxAddValidator) then
    pk ← lift (hexPubKeyToTendermintEd25519 (at_PubKey tx)); AddValidator pk (at_Power tx)
  else if decide (t = TxRemoveValidator) then RemoveValidator (at_Address tx)
  else if decide (t = TxAddProcessKeys) then AddProcessKeys tx
  else if decide (t = TxRevealProcessKeys) then RevealProcessKeys tx
  else mret ().

Definition AddTx (gtx : GenericTX) (now : Z) (commit : bool) : M bytes :=
  match gtx with
  | GVoteTx tx =>
      v ← VoteTxCheck tx now commit;
      _ ← (if commit then AddVote v else mret ());
      mret (v_Nullifier v)
  | GAdminTx tx =>
      _ ← on_store (AdminTxCheck tx);
      _ ← (if commit then exec_admin tx else mret ());
      mret []
  | GCancelProcessTx tx =>
      _ ← on_store (CancelProcessTxCheck tx);
      _ ← (if commit then
             pid ← lift (hex_DecodeString (TrimHex (cp_ProcessID tx))); CancelProcess pid
           else mret ());
      mret []
  | GNewProcessTx tx =>
      p ← on_store (NewProcessTxCheck tx);
      _ ← (if commit then
             pid ← lift (hex_DecodeString (np_ProcessID tx)); AddProcess p pid (np_MkURI tx)
           else mret ());
      mret []
  end.
End exec.
