(* ===== verification/App.v ===== *)
(** * The ABCI application: [vochain/app.go]

    The handlers Tendermint calls, each a computation on the state, and the
    sequences in which it calls them: [abci_step] is one call, [reachable] the
    states the application can be in after a successful [InitChain].  The
    mempool and the consensus connection both reach the same state, so
    [CheckTx] may come at any point between the calls of a block. *)

From stdpp Require Import base gmap strings list fin_maps.
From Stdlib Require Import ZArith Lia.
From S2P Require Import Prelude GoLib Types StateDB Crypto IavlState Codec State Transaction.
Open Scope Z_scope.

Record ResponseTx := mkResponseTx { rt_Code : Z; rt_Data : bytes }.
Record ResponseInfo := mkResponseInfo { ri_LastBlockHeight : Z; ri_LastBlockAppHash : bytes }.

(** Go's zero [time.Time], in seconds since 1970. *)
Definition zero_time : Z := -62135596800.

(** [Codec.UnmarshalJSON] of the genesis application state. *)
Class GenesisJSON := { json_GenesisAppState : bytes → res GenesisAppState }.

Section app.
Context {DB L : Type} `{StateDB DB} `{AminoLib} `{CryptoLib} `{TxJSON} `{GenesisJSON}
        `{!EventListener DB L}.
Abbreviation M := (GM (State DB L)).

(** [log.Fatal] on an error. *)
Definition fatal {A} (m : M A) : M A := λ s,
  match m s with (Err e, s') => (Panic e, s') | r => r end.
(** A call whose error is dropped. *)
Definition ignore_err (m : M ()) : M () := λ s,
  match m s with (Err _, s') => (Ok (), s') | r => r end.

Definition Info : M ResponseInfo :=
  header ← on_store (λ d, Header_ d false);
  let height := match header with Some h => h_Height h | None => 0 end in
  _ ← Rollback_;
  hash ← on_store (λ d, AppHash d false);
  mret (mkResponseInfo height hash).

(** On a genesis that does not decode the error is logged and the state left
    empty. *)
Definition genesis_state (appStateBytes : bytes) : res GenesisAppState :=
  match json_GenesisAppState appStateBytes with
  | Err _ => Ok (mkGenesisAppState [] [])
  | r => r
  end.

Definition InitChain (appStateBytes : bytes) : M () :=
  genesisAppState ← lift (genesis_state appStateBytes);
  _ ← for_each (gas_Oracles genesisAppState) (λ v, ignore_err (AddOracle v));
  _ ← for_each (gas_Validators genesisAppState)
        (λ v, fatal (AddValidator (gv_PubKey v) (gv_Power v)));
  headerBytes ← fatal (lift (MarshalBinaryBare (mkHeader 0 zero_time [])));
  _ ← fatal (store_add AppTree headerKey headerBytes);
  _ ← Save;
  mret ().

(** A header that does not marshal is only warned about; the nil value is
    then refused by the store. *)
Definition BeginBlock (header : Header) (now : Z) : M () :=
  headerBytes ← lift (match MarshalBinaryBare header with Err _ => Ok None | r => r end);
  _ ← Rollback_;
  _ ← fatal (store_add AppTree headerKey headerBytes);
  h ← on_store (λ d, Header_ d true);
  match h with
  | Some h => modify (VoteCachePurge now (h_Height h))
  | None => lift (Panic "nil pointer dereference")
  end.

Definition tx_response (r : res bytes) : res ResponseTx :=
  match r with
  | Ok data => Ok (mkResponseTx 0 data)
  | Err e => Ok (mkResponseTx 1 (s2b e))
  | Panic w => Panic w
  end.

Definition CheckTx (tx : bytes) (now : Z) (recheck : bool) : M ResponseTx :=
  if recheck then mret (mkResponseTx 0 [])
  else
    r ← try_ (tx ← lift (UnmarshalTx tx); AddTx tx now false);
    lift (tx_response r).

Definition DeliverTx (tx : bytes) (now : Z) : M ResponseTx :=
  r ← try_ (tx ← lift (UnmarshalTx tx); AddTx tx now true);
  lift (tx_response r).

Definition Commit : M bytes := Save.

(** ** Sequences of calls *)
Inductive abci_call :=
  | CBeginBlock (header : Header) (now : Z)
  | CCheckTx (tx : bytes) (now : Z) (recheck : bool)
  | CDeliverTx (tx : bytes) (now : Z)
  | CCommit
  | CInfo.

(** A call that does not bring the process down, with the state it leaves. *)
Definition run_call (c : abci_call) (s : State DB L) : option (State DB L) :=
  match c with
  | CBeginBlock h now => match BeginBlock h now s with (Panic _, _) => None | (_, s') => Some s' end
  | CCheckTx tx now r => match CheckTx tx now r s with (Panic _, _) => None | (_, s') => Some s' end
  | CDeliverTx tx now => match DeliverTx tx now s with (Panic _, _) => None | (_, s') => Some s' end
  | CCommit => match Commit s with (Panic _, _) => None | (_, s') => Some s' end
  | CInfo => match Info s with (Panic _, _) => None | (_, s') => Some s' end
  end.

Definition abci_step (c : abci_call) (s s' : State DB L) : Prop := run_call c s = Some s'.

(** The states after some calls. *)
Inductive steps : State DB L → list abci_call → State DB L → Prop :=
  | steps_nil s : steps s [] s
  | steps_cons s s1 s2 c cs : abci_step c s s1 → steps s1 cs s2 → steps s (c :: cs) s2.

Fixpoint run_calls (cs : list abci_call) (s : State DB L) : option (State DB L) :=
  match cs with
  | [] => Some s
  | c :: cs' => s' ← run_call c s; run_calls cs' s'
  end.
Lemma steps_run s cs s' : steps s cs s' ↔ run_calls cs s = Some s'.
Proof.
  split.
  - induction 1 as [|s s1 s2 c cs Hc _ IH]; [done|]. simpl. by rewrite Hc.
  - revert s. induction cs as [|c cs IH]; intros s; simpl; [intros [= ->]; constructor|].
    destruct (run_call c s) as [s1|] eqn:E; [|done]. intros Hr. econstructor; [exact E|by apply IH].
Qed.
End app.
