(* ===== verification/StateFacts.v ===== *)
(** * Effect of the state's operations on the store

    The store seen through its contract ([StateDBSpec]): [wk] and [ck] are the
    working and the committed value at a key.  Every read of the state is a
    lookup there, and every write changes one key of the working side.  The
    codec's round trip turns stored bytes back into processes, votes and
    headers. *)

From stdpp Require Import base gmap strings list fin_maps.
From Stdlib Require Import ZArith Lia.
From S2P Require Import Prelude GoLib Types StateDB Crypto IavlState Codec State Transaction App.
Open Scope Z_scope.

Section facts.
Context {DB : Type} `{StateDBSpec DB} `{AminoLaws} `{CryptoLib}.

Definition wk (d : DB) (n : string) (k : bytes) : option bytes := db_work d !! n ≫= lookup k.
Definition ck (d : DB) (n : string) (k : bytes) : option bytes := db_comm d !! n ≫= lookup k.

Definition vochain_tree (n : string) : Prop := n = AppTree ∨ n = ProcessTree ∨ n = VoteTree.

(** The store is sound and holds the three trees of the vochain. *)
Definition store_ok (d : DB) : Prop :=
  db_ok d ∧ ∀ n, vochain_tree n → is_Some (db_work d !! n) ∧ is_Some (db_comm d !! n).

Lemma vt_app : vochain_tree AppTree. Proof. by left. Qed.
Lemma vt_process : vochain_tree ProcessTree. Proof. by right; left. Qed.
Lemma vt_vote : vochain_tree VoteTree. Proof. by right; right. Qed.
#[local] Hint Resolve vt_app vt_process vt_vote : core.

Lemma TreeGet_wk d n k : store_ok d → vochain_tree n → TreeGet d n k = Ok (wk d n k).
Proof.
  intros [Hok Ht] Hn. destruct (Ht n Hn) as [[t Hw] _]. unfold wk. rewrite Hw. simpl.
  apply db_get; auto.
Qed.
Lemma ITreeGet_ck d n k : store_ok d → vochain_tree n → ITreeGet d n k = Ok (ck d n k).
Proof.
  intros [Hok Ht] Hn. destruct (Ht n Hn) as [_ [t Hw]]. unfold ck. rewrite Hw. simpl.
  by apply db_iget.
Qed.

(** [adds d n k v d']: [d'] is [d] with one working key written. *)
Definition adds (d : DB) (n : string) (k v : bytes) (d' : DB) : Prop :=
  store_ok d' ∧ db_comm d' = db_comm d ∧
  ∃ t, db_work d !! n = Some t ∧ db_work d' = <[n := <[k := v]> t]> (db_work d).

Lemma TreeAdd_adds d n k v : store_ok d → vochain_tree n →
  ∃ d', TreeAdd d n k (Some v) = Ok d' ∧ adds d n k v d'.
Proof.
  intros [Hok Ht] Hn. destruct (Ht n Hn) as [[t Hw] _].
  destruct (db_add d n t k v Hok Hw) as (d' & Hadd & Hok' & Hw' & Hc').
  exists d'. split; [done|]. split; [|eauto]. split; [done|].
  intros n' Hn'. rewrite Hw', Hc'. split; [|by apply Ht].
  rewrite lookup_insert. case_decide; [done|by apply Ht].
Qed.
Lemma TreeAdd_nil d n k : store_ok d → vochain_tree n → ∃ e, TreeAdd d n k None = Err e.
Proof. intros [Hok Ht] Hn. destruct (Ht n Hn) as [[t Hw] _]. eapply db_add_nil; eauto. Qed.

Lemma adds_wk d n k v d' n' k' : adds d n k v d' →
  wk d' n' k' = if decide (n' = n ∧ k' = k) then Some v else wk d n' k'.
Proof.
  intros (_ & _ & t & Hw & Hw'). unfold wk. rewrite Hw'.
  destruct (decide (n' = n)) as [->|Hn].
  - rewrite lookup_insert_eq, Hw. simpl. destruct (decide (k' = k)) as [->|Hk].
    + rewrite lookup_insert_eq, decide_True by done. done.
    + rewrite lookup_insert_ne, decide_False by naive_solver. done.
  - rewrite lookup_insert_ne, decide_False by naive_solver. done.
Qed.
Lemma adds_wk_same d n k v d' : adds d n k v d' → wk d' n k = Some v.
Proof. intros Ha. by rewrite (adds_wk _ _ _ _ _ _ _ Ha), decide_True. Qed.
Lemma adds_wk_tree d n k v d' n' k' : adds d n k v d' → n' ≠ n → wk d' n' k' = wk d n' k'.
Proof. intros Ha Hn. rewrite (adds_wk _ _ _ _ _ _ _ Ha), decide_False; naive_solver. Qed.
Lemma adds_ck d n k v d' n' k' : adds d n k v d' → ck d' n' k' = ck d n' k'.
Proof. intros (_ & Hc & _). unfold ck. by rewrite Hc. Qed.
Lemma adds_ok d n k v d' : adds d n k v d' → store_ok d'.
Proof. by intros [? _]. Qed.

(** ** Decoded values *)
Definition dec_process (b : option bytes) : option Process :=
  match b with
  | Some b => match UnmarshalBinaryBare (Some b) with Ok p => Some p | _ => None end
  | None => None
  end.
Definition dec_vote (b : option bytes) : option Vote :=
  match b with
  | Some b => match UnmarshalBinaryBare (Some b) with Ok v => Some v | _ => None end
  | None => None
  end.

(** The working and committed process of an id, and the vote of a vote id. *)
Definition wproc (d : DB) (pid : bytes) : option Process := dec_process (wk d ProcessTree pid).
Definition cproc (d : DB) (pid : bytes) : option Process := dec_process (ck d ProcessTree pid).
Definition wvote (d : DB) (vid : bytes) : option Vote := dec_vote (wk d VoteTree vid).
Definition cvote (d : DB) (vid : bytes) : option Vote := dec_vote (ck d VoteTree vid).

Lemma Process_wproc d pid p : store_ok d → Process_ d pid false = Ok p ↔ wproc d pid = Some p.
Proof.
  intros Hok. unfold Process_, tree_get, wproc. rewrite TreeGet_wk by auto. simpl.
  destruct (wk d ProcessTree pid) as [b|]; simpl; [|done].
  destruct (UnmarshalBinaryBare (Some b)); naive_solver.
Qed.
Lemma Process_missing d pid : store_ok d → wk d ProcessTree pid = None →
  Process_ d pid false = Err ErrProcessNotFound.
Proof.
  intros Hok Hn. unfold Process_, tree_get. rewrite TreeGet_wk by auto. simpl. by rewrite Hn.
Qed.
Lemma Envelope_wvote d pid nul v : store_ok d → length pid = 32%nat → length nul = 32%nat →
  Envelope d pid nul false = Ok v ↔ wvote d (pid ++ nul) = Some v.
Proof.
  intros Hok Hp Hn. unfold Envelope, voteID, tree_get, wvote, glen, ProcessIDsize, VoteNullifierSize.
  rewrite !decide_False by lia. simpl. rewrite TreeGet_wk by auto. simpl.
  destruct (wk d VoteTree (pid ++ nul)) as [b|]; simpl; [|done].
  destruct (UnmarshalBinaryBare (Some b)); simpl; naive_solver.
Qed.
Lemma Envelope_cvote d pid nul v : store_ok d → length pid = 32%nat → length nul = 32%nat →
  Envelope d pid nul true = Ok v ↔ cvote d (pid ++ nul) = Some v.
Proof.
  intros Hok Hp Hn. unfold Envelope, voteID, tree_get, cvote, glen, ProcessIDsize, VoteNullifierSize.
  rewrite !decide_False by lia. simpl. rewrite ITreeGet_ck by auto. simpl.
  destruct (ck d VoteTree (pid ++ nul)) as [b|]; simpl; [|done].
  destruct (UnmarshalBinaryBare (Some b)); simpl; naive_solver.
Qed.

Lemma EnvelopeExists_ck d pid nul : store_ok d →
  EnvelopeExists d pid nul =
    Ok (match voteID pid nul with
        | Ok vid => bool_decide (ck d VoteTree vid ≠ None ∧ ck d VoteTree vid ≠ Some [])
        | _ => false
        end).
Proof.
  intros Hok. unfold EnvelopeExists.
  destruct (voteID pid nul) as [vid|e|w] eqn:E; [|done|].
  - rewrite ITreeGet_ck by auto. simpl. do 2 f_equal. apply bool_decide_ext.
    destruct (ck d VoteTree vid) as [[|x b]|]; unfold glen; simpl; naive_solver lia.
  - exfalso. unfold voteID in E. by repeat case_decide.
Qed.

Lemma voteID_Ok pid nul vid : voteID pid nul = Ok vid →
  length pid = 32%nat ∧ length nul = 32%nat ∧ vid = pid ++ nul.
Proof.
  unfold voteID, glen, ProcessIDsize, VoteNullifierSize.
  repeat case_decide; intros; simplify_eq. split_and!; [lia|lia|done].
Qed.
Lemma voteID_32 pid nul : length pid = 32%nat → length nul = 32%nat → voteID pid nul = Ok (pid ++ nul).
Proof.
  intros. unfold voteID, glen, ProcessIDsize, VoteNullifierSize. by rewrite !decide_False by lia.
Qed.
End facts.

(** ** Effect of the writes *)
Section writes.
Context {DB L : Type} `{StateDBSpec DB} `{AminoLaws} `{CryptoLib} `{!EventListener DB L}.
Implicit Types (s : State DB L) (d : DB).
#[local] Hint Resolve vt_app vt_process vt_vote : core.

Lemma store_add_Some s n k v : store_ok (Store s) → vochain_tree n →
  ∃ d', store_add n k (Some v) s = (Ok (), set_Store d' s) ∧ adds (Store s) n k v d'.
Proof.
  intros Hok Hn. destruct (TreeAdd_adds _ n k v Hok Hn) as (d' & Hadd & Ha).
  exists d'. split; [|done]. unfold store_add, updates. by rewrite Hadd.
Qed.
(** Whatever the value, at most the key is written. *)
Lemma store_add_effect s n k v : store_ok (Store s) → vochain_tree n →
  Store (store_add n k v s).2 = Store s ∨
  ∃ b, v = Some b ∧ adds (Store s) n k b (Store (store_add n k v s).2).
Proof.
  intros Hok Hn. destruct v as [b|].
  - destruct (store_add_Some s n k b Hok Hn) as (d' & -> & Ha). right. eauto.
  - destruct (TreeAdd_nil _ n k Hok Hn) as [e He]. left.
    unfold store_add, updates. by rewrite He.
Qed.
Lemma notify_Store f s : Store (notify f s).2 = Store s.
Proof. unfold notify, updates. destruct (f (Store s) (eventListeners s)); done. Qed.
Lemma notify_voteCache f s : voteCache (notify f s).2 = voteCache s.
Proof. unfold notify, updates. destruct (f (Store s) (eventListeners s)); done. Qed.
Lemma on_store_run {A} (f : DB → res A) s : on_store f s = (f (Store s), s).
Proof. done. Qed.
Lemma lift_run {A} (r : res A) s : lift r s = (r, s).
Proof. done. Qed.
Lemma bind_run {A B} (m : GM (State DB L) A) (f : A → GM (State DB L) B) s :
  (m ≫= f) s = match m s with
               | (Ok a, s') => f a s'
               | (Err e, s') => (Err e, s')
               | (Panic w, s') => (Panic w, s')
               end.
Proof. done. Qed.

Lemma roundtrips_marshal_or {A} `{Codec A} e (x : A) : roundtrips x →
  ∃ b, marshal_or e x = Ok (Some b) ∧ b ≠ [] ∧ UnmarshalBinaryBare (Some b) = Ok x.
Proof. intros (b & Hm & Hb & Hu). exists b. unfold marshal_or. by rewrite Hm. Qed.

Lemma setProcess_spec s p pid : store_ok (Store s) → p_Type p ≠ "" →
  ∃ b d', setProcess p pid s = (Ok (), set_Store d' s) ∧ adds (Store s) ProcessTree pid b d' ∧
          dec_process (Some b) = Some p.
Proof.
  intros Hok Ht. destruct (roundtrips_marshal_or "cannot marshal updated process bytes" p)
    as (b & Hm & _ & Hu); [by apply law_amino_process|].
  destruct (store_add_Some s ProcessTree pid b Hok) as (d' & Hs & Ha); [auto|].
  exists b, d'. unfold setProcess. rewrite bind_run, lift_run, Hm, Hs. simpl. by rewrite Hu.
Qed.

(** The outcome of an operation on a process: nothing, or process [p'] at
    [pid] in the working tree. *)
Definition process_written (d : DB) (pid : bytes) (p' : Process) (d' : DB) : Prop :=
  ∃ b, adds d ProcessTree pid b d' ∧ dec_process (Some b) = Some p'.

Lemma CancelProcess_writes s pid p :
  store_ok (Store s) → wproc (Store s) pid = Some p → p_Type p ≠ "" → p_Canceled p = false →
  process_written (Store s) pid (set_Canceled true p) (Store (CancelProcess pid s).2).
Proof.
  intros Hok Hp Hty Hc. unfold CancelProcess. rewrite bind_run, on_store_run.
  apply Process_wproc in Hp; [|done]. rewrite Hp, Hc.
  destruct (roundtrips_marshal_or "cannot marshal updated process bytes" (set_Canceled true p))
    as (b & Hm & _ & Hu); [by apply law_amino_process|].
  destruct (store_add_Some s ProcessTree pid b Hok) as (d' & Hs & Ha); [auto|].
  exists b. rewrite bind_run, lift_run, Hm, bind_run, Hs, notify_Store. simpl. by rewrite Hu.
Qed.
Lemma CancelProcess_effect s pid :
  store_ok (Store s) → (∀ p, wproc (Store s) pid = Some p → p_Type p ≠ "") →
  Store (CancelProcess pid s).2 = Store s ∨
  ∃ p, wproc (Store s) pid = Some p ∧ p_Canceled p = false ∧
       process_written (Store s) pid (set_Canceled true p) (Store (CancelProcess pid s).2).
Proof.
  intros Hok Hty. destruct (Process_ (Store s) pid false) as [p|e|w] eqn:E.
  2,3: left; unfold CancelProcess; by rewrite bind_run, on_store_run, E.
  destruct (p_Canceled p) eqn:Ec.
  { left. unfold CancelProcess. by rewrite bind_run, on_store_run, E, Ec. }
  apply Process_wproc in E; [|done]. right. exists p. split_and!; [done|done|].
  apply CancelProcess_writes; auto.
Qed.

Lemma AddProcess_effect s p pid uri :
  store_ok (Store s) → p_Type p ≠ "" →
  process_written (Store s) pid p (Store (AddProcess p pid uri s).2).
Proof.
  intros Hok Hty.
  destruct (roundtrips_marshal_or "cannot marshal process bytes" p) as (b & Hm & _ & Hu);
    [by apply law_amino_process|].
  destruct (store_add_Some s ProcessTree pid b Hok) as (d' & Hs & Ha); [auto|].
  exists b. unfold AddProcess. rewrite bind_run, lift_run, Hm, bind_run, Hs, notify_Store. simpl.
  by rewrite Hu.
Qed.

(** Adding a vote writes it, with the height of the block, at its id. *)
Lemma AddVote_effect s v :
  store_ok (Store s) →
  Store (AddVote v s).2 = Store s ∨
  ∃ vid b h, voteID (v_ProcessID v) (v_Nullifier v) = Ok vid ∧
    Header_ (Store s) false = Ok (Some h) ∧
    adds (Store s) VoteTree vid b (Store (AddVote v s).2) ∧ b ≠ [] ∧
    UnmarshalBinaryBare (Some b) = Ok (set_Height (h_Height h) v).
Proof.
  intros Hok. unfold AddVote. rewrite bind_run, lift_run.
  destruct (voteID (v_ProcessID v) (v_Nullifier v)) as [vid|e|w] eqn:Ev; [|by left|by left].
  rewrite bind_run, on_store_run.
  destruct (Header_ (Store s) false) as [[h|]|e|w] eqn:Eh; [|by left|by left|by left].
  right. exists vid.
  destruct (roundtrips_marshal_or "cannot marshal vote" (set_Height (h_Height h) v))
    as (b & Hm & Hb & Hu).
  { apply law_amino_vote. simpl. apply voteID_Ok in Ev as (Hl & _). by destruct (v_ProcessID v). }
  destruct (store_add_Some s VoteTree vid b Hok) as (d' & Hs & Ha); [auto|].
  exists b, h. rewrite bind_run, lift_run, bind_run, lift_run, Hm, bind_run, Hs, notify_Store.
  done.
Qed.
End writes.
