(* ===== verification/ProcessKeys.v ===== *)
(** * The key slots of a process

    A process that needs keys has sixteen slots for public keys and
    commitments and sixteen for the private keys and reveals that answer them;
    [KeyIndex] counts the slots filled and not yet answered.  [proc_wf] is the
    invariant of a stored process; a key transaction that passes its check
    keeps it, and processes only ever change in the ways of [evolves]. *)

From stdpp Require Import base gmap strings list fin_maps.
From Stdlib Require Import ZArith Lia.
From S2P Require Import Prelude GoLib Types StateDB Crypto IavlState Codec State Transaction App StateFacts.
Open Scope Z_scope.

(** ** Counting slots *)
Definition filled (a b : string) : bool := negb (bool_decide (a = "") && bool_decide (b = "")).
Definition slots (l1 l2 : list string) : list bool := zip_with filled l1 l2.
Definition cnt (l : list bool) : Z := Z.of_nat (length (filter (λ b, b = true) l)).

Lemma cnt_cons b l : cnt (b :: l) = (if b then 1 else 0) + cnt l.
Proof.
  unfold cnt. rewrite filter_cons. destruct b; case_decide; try done; simpl; lia.
Qed.
Lemma cnt_insert l i : l !! i = Some false → cnt (<[i := true]> l) = cnt l + 1.
Proof.
  revert i. induction l as [|b l IH]; intros [|i] H; simplify_eq/=; rewrite !cnt_cons.
  - lia.
  - rewrite (IH _ H). lia.
Qed.
Lemma cnt_mono l1 l2 : Forall2 (λ a b, a = true → b = true) l1 l2 → cnt l1 ≤ cnt l2.
Proof.
  induction 1 as [|a b l1 l2 Hab _ IH]; [done|]. rewrite !cnt_cons.
  destruct a; [rewrite Hab by done; lia|]. destruct b; lia.
Qed.
Lemma cnt_mono_lt l1 l2 i : Forall2 (λ a b, a = true → b = true) l1 l2 →
  l1 !! i = Some false → l2 !! i = Some true → cnt l1 < cnt l2.
Proof.
  intros HF H1 H2.
  assert (cnt (<[i := true]> l1) ≤ cnt l2) as Hle; [|rewrite cnt_insert in Hle by done; lia].
  apply cnt_mono. rewrite <- (list_insert_id l2 i true) by done.
  by apply Forall2_insert.
Qed.
Lemma cnt_bound l : 0 ≤ cnt l ≤ glen l.
Proof. unfold cnt, glen. pose proof (length_filter (λ b, b = true) l). lia. Qed.

Lemma slots_insert l1 l2 i a b :
  slots (<[i := a]> l1) (<[i := b]> l2) = <[i := filled a b]> (slots l1 l2).
Proof. unfold slots. symmetry. apply insert_zip_with. Qed.
Lemma slots_lookup l1 l2 i a b : l1 !! i = Some a → l2 !! i = Some b →
  slots l1 l2 !! i = Some (filled a b).
Proof. intros H1 H2. unfold slots. rewrite lookup_zip_with, H1. simpl. by rewrite H2. Qed.
Lemma filled_false a b : filled a b = false ↔ a = "" ∧ b = "".
Proof.
  unfold filled. rewrite negb_false_iff, andb_true_iff, !bool_decide_eq_true. done.
Qed.
Lemma slen_0 s : slen s = 0 ↔ s = "".
Proof. unfold slen. destruct s; simpl; split; intros; [done|lia|lia|done]. Qed.
Lemma slen_nonneg s : 0 ≤ slen s.
Proof. unfold slen. lia. Qed.
Lemma slen_pos s : s ≠ "" → 0 < slen s.
Proof. intros Hs. pose proof (slen_nonneg s). pose proof (slen_0 s). destruct (decide (slen s = 0)); [tauto|lia]. Qed.
Lemma filled_slen a b : slen a + slen b ≠ 0 → filled a b = true.
Proof.
  intros Hs. destruct (filled a b) eqn:E; [done|]. apply filled_false in E as [-> ->]. done.
Qed.
Lemma slen_filled a b : ¬ 0 < slen a + slen b → a = "" ∧ b = "".
Proof.
  intros. pose proof (slen_nonneg a). pose proof (slen_nonneg b).
  rewrite <- !slen_0. lia.
Qed.

Lemma set_key_empty l i key : 0 ≤ i → l !! Z.to_nat i = Some "" →
  set_key l i key = Ok (<[Z.to_nat i := key]> l).
Proof.
  intros Hi Hl. unfold set_key. apply lookup_lt_Some in Hl as Hlt. case_decide.
  - apply go_set_index_Ok. unfold glen. split; [lia|done].
  - assert (key = "") as ->; [apply slen_0; pose proof (slen_nonneg key); lia|].
    by rewrite list_insert_id.
Qed.

(** ** The invariant of a process *)
Definition key_slots (p : Process) : nat := if RequireKeys p then Z.to_nat MaxKeyIndex else 0%nat.
Definition used (p : Process) : list bool := slots (p_EncryptionPublicKeys p) (p_CommitmentKeys p).
Definition revealed (p : Process) : list bool := slots (p_EncryptionPrivateKeys p) (p_RevealKeys p).

Record proc_wf (p : Process) : Prop := {
  wf_type : valid_process_type (p_Type p) = true;
  wf_pub : length (p_EncryptionPublicKeys p) = key_slots p;
  wf_com : length (p_CommitmentKeys p) = key_slots p;
  wf_priv : length (p_EncryptionPrivateKeys p) = key_slots p;
  wf_rev : length (p_RevealKeys p) = key_slots p;
  wf_blocks : 0 < p_NumberOfBlocks p;
  wf_sub : Forall2 (λ r u, r = true → u = true) (revealed p) (used p);
  wf_index : p_KeyIndex p = cnt (used p) - cnt (revealed p) }.

Lemma proc_wf_type p : proc_wf p → p_Type p ≠ "".
Proof. intros [Ht _ _ _ _ _ _ _] E. by rewrite E in Ht. Qed.
Lemma length_used p : proc_wf p → length (used p) = key_slots p.
Proof. intros []. unfold used, slots. rewrite length_zip_with. lia. Qed.
Lemma length_revealed p : proc_wf p → length (revealed p) = key_slots p.
Proof. intros []. unfold revealed, slots. rewrite length_zip_with. lia. Qed.
Lemma KeyIndex_range p : proc_wf p → 0 ≤ p_KeyIndex p ≤ MaxKeyIndex.
Proof.
  intros Hwf. rewrite (wf_index p Hwf). pose proof (cnt_mono _ _ (wf_sub p Hwf)).
  pose proof (cnt_bound (used p)) as Hu. pose proof (cnt_bound (revealed p)).
  unfold glen in Hu. rewrite length_used in Hu by done. unfold key_slots, MaxKeyIndex in *.
  destruct (RequireKeys p); lia.
Qed.

(** A slot is kept as it is, or goes from empty to filled. *)
Definition slot_grows (a b : string) : Prop := a = "" ∨ a = b.
Definition keys_grow (l l' : list string) : Prop := Forall2 slot_grows l l'.

(** How a process may change once created. *)
Record evolves (p p' : Process) : Prop := {
  ev_entity : p_EntityID p' = p_EntityID p;
  ev_root : p_MkRoot p' = p_MkRoot p;
  ev_blocks : p_NumberOfBlocks p' = p_NumberOfBlocks p;
  ev_start : p_StartBlock p' = p_StartBlock p;
  ev_type : p_Type p' = p_Type p;
  ev_paused : p_Paused p' = p_Paused p;
  ev_canceled : p_Canceled p = true → p_Canceled p' = true;
  ev_pub : keys_grow (p_EncryptionPublicKeys p) (p_EncryptionPublicKeys p');
  ev_com : keys_grow (p_CommitmentKeys p) (p_CommitmentKeys p');
  ev_priv : keys_grow (p_EncryptionPrivateKeys p) (p_EncryptionPrivateKeys p');
  ev_rev : keys_grow (p_RevealKeys p) (p_RevealKeys p') }.

#[export] Instance keys_grow_refl : Reflexive keys_grow.
Proof. intros l. induction l; constructor; [by right|done]. Qed.
#[export] Instance keys_grow_trans : Transitive keys_grow.
Proof.
  intros l1 l2 l3 H12. revert l3. induction H12 as [|a b l1 l2 Hab H12 IH]; intros l3 H23.
  - inversion H23. constructor.
  - inversion H23 as [|b' c l2' l3' Hbc H23']; subst. constructor; [|by apply IH].
    destruct Hab as [->| ->]; [by left|done].
Qed.
#[export] Instance evolves_refl : Reflexive evolves.
Proof. intros p. constructor; try done; reflexivity. Qed.
#[export] Instance evolves_trans : Transitive evolves.
Proof.
  intros p1 p2 p3 [] []. constructor; try congruence; try (etransitivity; eassumption). auto.
Qed.
Lemma keys_grow_insert l i key : l !! i = Some "" → keys_grow l (<[i := key]> l).
Proof.
  revert i. induction l as [|a l IH]; intros [|i] E; simplify_eq/=; constructor;
    try done; [by left|by right|by apply IH].
Qed.

(** ** Key transactions *)
Lemma keys_at_empty l1 l2 i n : keys_at l1 l2 i = Ok n → ¬ 0 < n →
  0 ≤ i ∧ l1 !! Z.to_nat i = Some "" ∧ l2 !! Z.to_nat i = Some "".
Proof.
  unfold keys_at. intros Hr Hn. go_inv Hr. apply go_index_Ok in Hrun as [Hi H1].
  apply go_index_Ok in Hrun0 as [_ H2]. apply slen_filled in Hn as [-> ->]. done.
Qed.

(** The process with the keys of a transaction in slot [i]. *)
Definition with_keys (p : Process) (i : nat) (com pub : string) : Process :=
  set_KeyIndex (i64 (p_KeyIndex p + 1))
    (set_PublicKeys (<[i := com]> (p_CommitmentKeys p)) (<[i := pub]> (p_EncryptionPublicKeys p)) p).
Definition with_reveal (p : Process) (i : nat) (rev priv : string) : Process :=
  set_KeyIndex (i64 (p_KeyIndex p - 1))
    (set_SecretKeys (<[i := rev]> (p_RevealKeys p)) (<[i := priv]> (p_EncryptionPrivateKeys p)) p).

Lemma with_keys_wf p i com pub : proc_wf p →
  p_EncryptionPublicKeys p !! i = Some "" → p_CommitmentKeys p !! i = Some "" →
  slen com + slen pub ≠ 0 → proc_wf (with_keys p i com pub) ∧ evolves p (with_keys p i com pub).
Proof.
  intros Hwf Hpub Hcom Hne.
  assert (used (with_keys p i com pub) = <[i := true]> (used p)) as Eu.
  { unfold used, with_keys. simpl. rewrite slots_insert, filled_slen by lia. done. }
  assert (used p !! i = Some false) as Hi.
  { unfold used. by rewrite (slots_lookup _ _ _ _ _ Hpub Hcom). }
  pose proof (KeyIndex_range p Hwf) as Hk. unfold MaxKeyIndex in Hk.
  split.
  - destruct Hwf. constructor; simpl; rewrite ?length_insert; try done.
    + change (Forall2 (λ r u, r = true → u = true) (revealed p) (used (with_keys p i com pub))).
      rewrite Eu. apply Forall2_lookup. intros j. rewrite list_lookup_insert.
      pose proof (proj1 (Forall2_lookup _ _ _) wf_sub0 j) as Hj. case_decide as Hd; [|done].
      destruct Hd as [<- _]. rewrite Hi in Hj. inversion Hj; subst. by constructor.
    + change (i64 (p_KeyIndex p + 1) = cnt (used (with_keys p i com pub)) - cnt (revealed p)).
      rewrite Eu, cnt_insert, i64_id by (done || unfold in_i64; lia). lia.
  - constructor; simpl; try done; try reflexivity; by apply keys_grow_insert.
Qed.

Lemma with_reveal_wf p i rev priv : proc_wf p →
  p_EncryptionPrivateKeys p !! i = Some "" → p_RevealKeys p !! i = Some "" →
  used p !! i = Some true → slen rev + slen priv ≠ 0 →
  0 < p_KeyIndex p ∧ proc_wf (with_reveal p i rev priv) ∧ evolves p (with_reveal p i rev priv).
Proof.
  intros Hwf Hpriv Hrev Hu Hne.
  assert (revealed (with_reveal p i rev priv) = <[i := true]> (revealed p)) as Er.
  { unfold revealed, with_reveal. simpl. rewrite slots_insert, filled_slen by lia. done. }
  assert (revealed p !! i = Some false) as Hi.
  { unfold revealed. by rewrite (slots_lookup _ _ _ _ _ Hpriv Hrev). }
  pose proof (KeyIndex_range p Hwf) as Hk. unfold MaxKeyIndex in Hk.
  assert (0 < p_KeyIndex p) as Hpos.
  { rewrite (wf_index p Hwf). pose proof (cnt_mono_lt _ _ _ (wf_sub p Hwf) Hi Hu). lia. }
  split_and!; [done| |].
  - destruct Hwf. constructor; simpl; rewrite ?length_insert; try done.
    + change (Forall2 (λ r u, r = true → u = true) (revealed (with_reveal p i rev priv)) (used p)).
      rewrite Er, <- (list_insert_id (used p) i true) by done. by apply Forall2_insert.
    + change (i64 (p_KeyIndex p - 1) = cnt (used p) - cnt (revealed (with_reveal p i rev priv))).
      rewrite Er, cnt_insert, i64_id by (done || unfold in_i64; lia). lia.
  - constructor; simpl; try done; try reflexivity; by apply keys_grow_insert.
Qed.

Section keys.
Context {DB L : Type} `{StateDBSpec DB} `{AminoLaws} `{CryptoLib} `{!EventListener DB L}.
Implicit Types (s : State DB L) (d : DB).

(** What a passed check says about the process and the slot. *)
Lemma check_add_keys tx d : store_ok d → at_Type tx = TxAddProcessKeys →
  check_process_keys tx d = Ok () →
  ∃ pid p, hex_DecodeString (at_ProcessID tx) = Ok pid ∧ wproc d pid = Some p ∧
    0 ≤ at_KeyIndex tx ∧
    p_EncryptionPublicKeys p !! Z.to_nat (at_KeyIndex tx) = Some "" ∧
    p_CommitmentKeys p !! Z.to_nat (at_KeyIndex tx) = Some "" ∧
    slen (at_CommitmentKey tx) + slen (at_EncryptionPublicKey tx) ≠ 0 ∧
    RequireKeys p = true ∧ p_Canceled p = false ∧ 1 ≤ at_KeyIndex tx ∧
    ∃ h, Header_ d false = Ok (Some h) ∧ h_Height h ≤ p_StartBlock p.
Proof.
  intros Hok Ht. unfold check_process_keys. intros Hr. go_inv Hr.
  rewrite decide_True in Hr by done. go_inv Hr.
  unfold checkAddProcessKeys in Hr. go_inv_step Hr. go_simpl. go_bool.
  match goal with H : keys_at _ _ _ = Ok _ |- _ =>
    apply keys_at_empty in H as (? & ? & ?); [|done] end.
  match goal with H : Process_ _ _ _ = Ok _ |- _ => apply Process_wproc in H; [|done] end.
  do 2 eexists. split_and!; try done; [lia|]. eexists. split; [subst; eassumption|lia].
Qed.

(** The revealed secrets answer what the slot holds: the private key belongs
    to the public key, the reveal key hashes to the commitment. *)
Definition reveal_matches (tx : AdminTx) (p : Process) : Prop :=
  (at_EncryptionPrivateKey tx ≠ "" → ∃ k, nacl.DecodePrivate (at_EncryptionPrivateKey tx) = Ok k ∧
     p_EncryptionPublicKeys p !! Z.to_nat (at_KeyIndex tx) = Some (sprintf_x (nacl.pub_bytes k))) ∧
  (at_RevealKey tx ≠ "" → ∃ rb, hex_DecodeString (at_RevealKey tx) = Ok rb ∧
     p_CommitmentKeys p !! Z.to_nat (at_KeyIndex tx) = Some (sprintf_x (PoseidonHash rb))).
Lemma checkReveal_matches tx p : checkRevealProcessKeys tx p = Ok () → reveal_matches tx p.
Proof.
  unfold checkRevealProcessKeys. intros Hr. do 5 (go_inv_step Hr; go_simpl). go_inv_step Hr.
  repeat match goal with H : go_index _ _ = Ok _ |- _ => apply go_index_Ok in H as [_ ?] end.
  split; intros Hne%slen_pos.
  - match goal with H : (if decide (0 < slen (at_EncryptionPrivateKey _)) then _ else _) = _ |- _ =>
      rewrite decide_True in H by done; go_inv H end. go_bool. subst. eauto.
  - rewrite decide_True in Hr by done. go_inv Hr. go_bool. subst. eauto.
Qed.

Lemma check_reveal_keys tx d : store_ok d → at_Type tx = TxRevealProcessKeys →
  check_process_keys tx d = Ok () →
  ∃ pid p, hex_DecodeString (at_ProcessID tx) = Ok pid ∧ wproc d pid = Some p ∧
    0 ≤ at_KeyIndex tx ∧
    p_EncryptionPrivateKeys p !! Z.to_nat (at_KeyIndex tx) = Some "" ∧
    p_RevealKeys p !! Z.to_nat (at_KeyIndex tx) = Some "" ∧
    used p !! Z.to_nat (at_KeyIndex tx) = Some true ∧
    slen (at_RevealKey tx) + slen (at_EncryptionPrivateKey tx) ≠ 0 ∧
    reveal_matches tx p ∧
    ∃ h, Header_ d false = Ok (Some h) ∧ (p_Canceled p = true ∨ end_block p ≤ h_Height h).
Proof.
  intros Hok Ht. unfold check_process_keys. intros Hr. go_inv Hr.
  rewrite decide_False in Hr by (rewrite Ht; discriminate). go_inv Hr.
  pose proof Hr as Hm. apply checkReveal_matches in Hm.
  unfold checkRevealProcessKeys in Hr. do 5 (go_inv_step Hr; go_simpl). go_bool.
  match goal with H : keys_at _ _ _ = Ok _ |- _ =>
    apply keys_at_empty in H as (? & ? & ?); [|done] end.
  match goal with H : Process_ _ _ _ = Ok _ |- _ => apply Process_wproc in H; [|done] end.
  match goal with
    H1 : go_index (p_EncryptionPublicKeys _) _ = Ok ?pub,
    H2 : go_index (p_CommitmentKeys _) _ = Ok ?com |- _ =>
      apply go_index_Ok in H1 as [_ Hpub]; apply go_index_Ok in H2 as [_ Hcom];
      pose proof (slen_nonneg pub); pose proof (slen_nonneg com) end.
  do 2 eexists. split_and!; try done.
  - unfold used. rewrite (slots_lookup _ _ _ _ _ Hpub Hcom). f_equal. apply filled_slen. lia.
  - eexists. split; [subst; eassumption|].
    match goal with H : _ && _ = false |- _ => apply andb_false_iff in H as [H|H]; go_bool end;
      [right; lia|by left].
Qed.

(** A key transaction that passes its check rewrites its process with the keys
    in their slot; none of its own checks can fail after that. *)
Lemma AddProcessKeys_effect tx s : store_ok (Store s) →
  (∀ pid p, wproc (Store s) pid = Some p → proc_wf p) →
  at_Type tx = TxAddProcessKeys → check_process_keys tx (Store s) = Ok () →
  ∃ pid p p', hex_DecodeString (at_ProcessID tx) = Ok pid ∧ wproc (Store s) pid = Some p ∧
    p' = with_keys p (Z.to_nat (at_KeyIndex tx)) (at_CommitmentKey tx) (at_EncryptionPublicKey tx) ∧
    proc_wf p' ∧ evolves p p' ∧
    process_written (Store s) pid p' (Store (AddProcessKeys tx s).2).
Proof.
  intros Hok Hinv Ht Hc.
  destruct (check_add_keys tx _ Hok Ht Hc) as (pid & p & Hpid & Hp & Hi & Hpub & Hcom & Hne & _).
  destruct (with_keys_wf p _ _ _ (Hinv _ _ Hp) Hpub Hcom Hne) as [Hwf Hev].
  exists pid, p, (with_keys p (Z.to_nat (at_KeyIndex tx)) (at_CommitmentKey tx) (at_EncryptionPublicKey tx)).
  split_and!; try done.
  destruct (setProcess_spec s (with_keys p (Z.to_nat (at_KeyIndex tx)) (at_CommitmentKey tx)
    (at_EncryptionPublicKey tx)) pid Hok) as (b & d' & Hs & Ha & Hd); [by apply proc_wf_type|].
  exists b. unfold AddProcessKeys. rewrite bind_run, lift_run, Hpid, bind_run, on_store_run.
  apply Process_wproc in Hp; [|done]. rewrite Hp.
  rewrite bind_run, lift_run, set_key_empty by done.
  rewrite bind_run, lift_run, set_key_empty by done.
  rewrite bind_run. unfold with_keys in Hs. rewrite Hs, notify_Store. done.
Qed.

Lemma RevealProcessKeys_effect tx s : store_ok (Store s) →
  (∀ pid p, wproc (Store s) pid = Some p → proc_wf p) →
  at_Type tx = TxRevealProcessKeys → check_process_keys tx (Store s) = Ok () →
  ∃ pid p p', hex_DecodeString (at_ProcessID tx) = Ok pid ∧ wproc (Store s) pid = Some p ∧
    p' = with_reveal p (Z.to_nat (at_KeyIndex tx)) (at_RevealKey tx) (at_EncryptionPrivateKey tx) ∧
    proc_wf p' ∧ evolves p p' ∧
    process_written (Store s) pid p' (Store (RevealProcessKeys tx s).2).
Proof.
  intros Hok Hinv Ht Hc.
  destruct (check_reveal_keys tx _ Hok Ht Hc)
    as (pid & p & Hpid & Hp & Hi & Hpriv & Hrev & Hu & Hne & _).
  destruct (with_reveal_wf p _ _ _ (Hinv _ _ Hp) Hpriv Hrev Hu Hne) as (Hpos & Hwf & Hev).
  exists pid, p, (with_reveal p (Z.to_nat (at_KeyIndex tx)) (at_RevealKey tx) (at_EncryptionPrivateKey tx)).
  split_and!; try done.
  destruct (setProcess_spec s (with_reveal p (Z.to_nat (at_KeyIndex tx)) (at_RevealKey tx)
    (at_EncryptionPrivateKey tx)) pid Hok) as (b & d' & Hs & Ha & Hd); [by apply proc_wf_type|].
  exists b. unfold RevealProcessKeys. rewrite bind_run, lift_run, Hpid, bind_run, on_store_run.
  apply Process_wproc in Hp; [|done]. rewrite Hp.
  rewrite bind_run, lift_run, set_key_empty by done.
  rewrite bind_run, lift_run, set_key_empty by done.
  rewrite bind_run, lift_run, bool_decide_eq_false_2 by lia. simpl guard_err.
  rewrite bind_run. unfold with_reveal in Hs. rewrite Hs, notify_Store. done.
Qed.
End keys.
