(* ===== verification/Invariant.v ===== *)
(** * The invariant of the vochain store, and its history

    [store_inv] says what the process and the vote tree hold, working and
    committed; [later] how the committed trees may change.  Both are kept by
    every ABCI call, for any listener. *)

From stdpp Require Import base gmap strings list fin_maps.
From Stdlib Require Import ZArith Lia.
From S2P Require Import Prelude GoLib Types StateDB Crypto IavlState Codec State Transaction App.
From S2P Require Import StateFacts ProcessKeys.
Open Scope Z_scope.

Section inv.
Context {DB : Type} `{StateDBSpec DB} `{AminoLaws} `{CryptoLib}.
Implicit Types d : DB.

(** The bytes [b] at [vid] are a vote for an existing process, stored under
    its own process id and nullifier. *)
Definition vote_stored (proc : bytes → option Process) (vid b : bytes) : Prop :=
  ∃ v, dec_vote (Some b) = Some v ∧ b ≠ [] ∧ length (v_ProcessID v) = 32%nat ∧
       length (v_Nullifier v) = 32%nat ∧ vid = v_ProcessID v ++ v_Nullifier v ∧
       is_Some (proc (v_ProcessID v)).
Definition process_stored (pid b : bytes) : Prop :=
  length pid = 32%nat ∧ ∃ p, dec_process (Some b) = Some p ∧ proc_wf p.

Record store_inv (d : DB) : Prop := {
  si_ok : store_ok d;
  si_wproc pid b : wk d ProcessTree pid = Some b → process_stored pid b;
  si_cproc pid b : ck d ProcessTree pid = Some b → process_stored pid b;
  si_wvote vid b : wk d VoteTree vid = Some b → vote_stored (wproc d) vid b;
  si_cvote vid b : ck d VoteTree vid = Some b → vote_stored (cproc d) vid b;
  si_votes vid b : ck d VoteTree vid = Some b → wk d VoteTree vid = Some b;
  si_procs pid p : cproc d pid = Some p → ∃ p', wproc d pid = Some p' ∧ evolves p p' }.

Lemma wproc_wf d pid p : store_inv d → wproc d pid = Some p → length pid = 32%nat ∧ proc_wf p.
Proof.
  intros Hi. unfold wproc. destruct (wk d ProcessTree pid) as [b|] eqn:E; [|done].
  intros Hd. destruct (si_wproc d Hi _ _ E) as (Hl & p' & Hd' & Hwf). by simplify_eq.
Qed.
Lemma wproc_None d pid : store_inv d → wproc d pid = None → wk d ProcessTree pid = None.
Proof.
  intros Hi. unfold wproc. destruct (wk d ProcessTree pid) as [b|] eqn:E; [|done].
  destruct (si_wproc d Hi _ _ E) as (_ & p' & Hd & _). rewrite Hd. done.
Qed.

(** The committed votes stay, byte for byte; the committed processes evolve. *)
Definition later (d d' : DB) : Prop :=
  (∀ vid b, ck d VoteTree vid = Some b → ck d' VoteTree vid = Some b) ∧
  (∀ pid p, cproc d pid = Some p → ∃ p', cproc d' pid = Some p' ∧ evolves p p').
#[export] Instance later_refl : Reflexive later.
Proof. intros d. split; [done|]. intros pid p Hp. exists p. split; [done|reflexivity]. Qed.
#[export] Instance later_trans : Transitive later.
Proof.
  intros d1 d2 d3 [Hv1 Hp1] [Hv2 Hp2]. split; [auto|]. intros pid p1 Hp.
  destruct (Hp1 _ _ Hp) as (p2 & Hp' & Hev). destruct (Hp2 _ _ Hp') as (p3 & Hp3 & Hev').
  exists p3. split; [done|by etransitivity].
Qed.
Lemma later_same_comm d d' : db_comm d' = db_comm d → later d d'.
Proof.
  intros Hc. split.
  - intros vid b. unfold ck. by rewrite Hc.
  - intros pid p Hp. exists p. split; [|reflexivity]. revert Hp. unfold cproc, ck. by rewrite Hc.
Qed.

(** A step on stores that keeps the invariant and the history. *)
Definition good (d d' : DB) : Prop := store_inv d → store_inv d' ∧ later d d'.
#[export] Instance good_refl : Reflexive good.
Proof. intros d Hi. split; [done|reflexivity]. Qed.
#[export] Instance good_trans : Transitive good.
Proof.
  intros d1 d2 d3 H12 H23 Hi1. destruct (H12 Hi1) as [Hi2 Hl]. destruct (H23 Hi2) as [Hi3 Hl'].
  split; [done|by etransitivity].
Qed.

(** ** Single writes *)
Lemma good_app d k v d' : adds d AppTree k v d' → good d d'.
Proof.
  intros Ha Hi. split; [|apply later_same_comm; apply Ha].
  assert (∀ pid, wproc d' pid = wproc d pid) as Hp.
  { intros pid. unfold wproc. by rewrite (adds_wk_tree _ _ _ _ _ _ _ Ha). }
  assert (∀ pid, cproc d' pid = cproc d pid) as Hc.
  { intros pid. unfold cproc. by rewrite (adds_ck _ _ _ _ _ _ _ Ha). }
  destruct Hi as [Hok Hwp Hcp Hwv Hcv Hv Hps]. constructor.
  - by eapply adds_ok.
  - intros pid b. rewrite (adds_wk_tree _ _ _ _ _ _ _ Ha) by done. apply Hwp.
  - intros pid b. rewrite (adds_ck _ _ _ _ _ _ _ Ha). apply Hcp.
  - intros vid b. rewrite (adds_wk_tree _ _ _ _ _ _ _ Ha) by done. intros (vt & ?)%Hwv.
    exists vt. by rewrite Hp.
  - intros vid b. rewrite (adds_ck _ _ _ _ _ _ _ Ha). intros (vt & ?)%Hcv. exists vt. by rewrite Hc.
  - intros vid b. rewrite (adds_ck _ _ _ _ _ _ _ Ha), (adds_wk_tree _ _ _ _ _ _ _ Ha) by done.
    apply Hv.
  - intros pid p. rewrite Hc, Hp. apply Hps.
Qed.

Lemma good_process d pid p' d' : process_written d pid p' d' → proc_wf p' → length pid = 32%nat →
  (∀ p, wproc d pid = Some p → evolves p p') → good d d'.
Proof.
  intros (b & Ha & Hb) Hwf Hl Hev Hi. split; [|apply later_same_comm; apply Ha].
  assert (∀ q, wproc d' q = if decide (q = pid) then Some p' else wproc d q) as Hp.
  { intros q. unfold wproc. rewrite (adds_wk _ _ _ _ _ _ _ Ha).
    destruct (decide (q = pid)) as [->|Hq]; [by rewrite decide_True|].
    by rewrite decide_False by naive_solver. }
  assert (∀ q, cproc d' q = cproc d q) as Hc.
  { intros q. unfold cproc. by rewrite (adds_ck _ _ _ _ _ _ _ Ha). }
  destruct Hi as [Hok Hwp Hcp Hwv Hcv Hv Hps]. constructor.
  - by eapply adds_ok.
  - intros q b'. rewrite (adds_wk _ _ _ _ _ _ _ Ha). case_decide as Hq; [|apply Hwp].
    destruct Hq as [_ ->]. intros [= <-]. split; [done|]. by exists p'.
  - intros q b'. rewrite (adds_ck _ _ _ _ _ _ _ Ha). apply Hcp.
  - intros vid b'. rewrite (adds_wk_tree _ _ _ _ _ _ _ Ha) by done.
    intros (v & ? & ? & ? & ? & ? & Hex)%Hwv. exists v. split_and!; try done.
    rewrite Hp. by case_decide.
  - intros vid b'. rewrite (adds_ck _ _ _ _ _ _ _ Ha). intros (vt & ?)%Hcv. exists vt. by rewrite Hc.
  - intros vid b'. rewrite (adds_ck _ _ _ _ _ _ _ Ha), (adds_wk_tree _ _ _ _ _ _ _ Ha) by done.
    apply Hv.
  - intros q p. rewrite Hc, Hp. intros (p2 & Hp2 & Hev2)%Hps. case_decide as Hq; [|by eauto].
    subst q. exists p'. split; [done|]. etransitivity; [exact Hev2|by apply Hev].
Qed.

Lemma good_vote d vid v b d' : adds d VoteTree vid b d' → dec_vote (Some b) = Some v → b ≠ [] →
  length (v_ProcessID v) = 32%nat → length (v_Nullifier v) = 32%nat →
  vid = v_ProcessID v ++ v_Nullifier v → is_Some (wproc d (v_ProcessID v)) →
  ck d VoteTree vid = None → good d d'.
Proof.
  intros Ha Hb Hne Hlp Hln Hvid Hex Hnew Hi. split; [|apply later_same_comm; apply Ha].
  assert (∀ pid, wproc d' pid = wproc d pid) as Hp.
  { intros pid. unfold wproc. by rewrite (adds_wk_tree _ _ _ _ _ _ _ Ha). }
  assert (∀ pid, cproc d' pid = cproc d pid) as Hc.
  { intros pid. unfold cproc. by rewrite (adds_ck _ _ _ _ _ _ _ Ha). }
  destruct Hi as [Hok Hwp Hcp Hwv Hcv Hv Hps]. constructor.
  - by eapply adds_ok.
  - intros pid b'. rewrite (adds_wk_tree _ _ _ _ _ _ _ Ha) by done. apply Hwp.
  - intros pid b'. rewrite (adds_ck _ _ _ _ _ _ _ Ha). apply Hcp.
  - intros vid' b'. rewrite (adds_wk _ _ _ _ _ _ _ Ha). case_decide as Hd.
    + destruct Hd as [_ ->]. intros [= <-]. exists v. rewrite Hp. done.
    + intros (v' & ?)%Hwv. exists v'. by rewrite Hp.
  - intros vid' b'. rewrite (adds_ck _ _ _ _ _ _ _ Ha). intros (v' & ?)%Hcv. exists v'. by rewrite Hc.
  - intros vid' b'. rewrite (adds_ck _ _ _ _ _ _ _ Ha), (adds_wk _ _ _ _ _ _ _ Ha).
    case_decide as Hd; [|apply Hv]. destruct Hd as [_ ->]. by rewrite Hnew.
  - intros pid p. rewrite Hc, Hp. apply Hps.
Qed.

(** ** Commit and rollback of the store *)
Lemma good_commit d d' : db_ok d' → db_work d' = db_work d → db_comm d' = db_work d → good d d'.
Proof.
  intros Hok' Hw Hc Hi.
  assert (∀ n k, wk d' n k = wk d n k) as Hwk by (intros; unfold wk; by rewrite Hw).
  assert (∀ n k, ck d' n k = wk d n k) as Hck by (intros; unfold ck, wk; by rewrite Hc).
  assert (∀ q, wproc d' q = wproc d q) as Hwp by (intros; unfold wproc; by rewrite Hwk).
  assert (∀ q, cproc d' q = wproc d q) as Hcp by (intros; unfold cproc, wproc; by rewrite Hck).
  destruct Hi as [[Hok Ht] Hwp' Hcp' Hwv Hcv Hv Hps]. split.
  - constructor; try (intros ? ?; rewrite ?Hwk, ?Hck; auto; fail).
    + split; [done|]. intros n Hn. rewrite Hw, Hc. by destruct (Ht n Hn).
    + intros vid b. rewrite Hwk. intros (vt & ?)%Hwv. exists vt. by rewrite Hwp.
    + intros vid b. rewrite Hck. intros (vt & ?)%Hwv. exists vt. by rewrite Hcp.
    + intros pid p. rewrite Hcp, Hwp. intros. exists p. split; [done|reflexivity].
  - split; [intros vid b; rewrite Hck; apply Hv|]. intros pid p. rewrite Hcp. apply Hps.
Qed.

Lemma good_rollback d d' : db_ok d' → db_work d' = db_comm d → db_comm d' = db_comm d → good d d'.
Proof.
  intros Hok' Hw Hc Hi. split; [|by apply later_same_comm].
  assert (∀ n k, wk d' n k = ck d n k) as Hwk by (intros; unfold wk, ck; by rewrite Hw).
  assert (∀ n k, ck d' n k = ck d n k) as Hck by (intros; unfold ck; by rewrite Hc).
  assert (∀ q, wproc d' q = cproc d q) as Hwp by (intros; unfold wproc, cproc; by rewrite Hwk).
  assert (∀ q, cproc d' q = cproc d q) as Hcp by (intros; unfold cproc; by rewrite Hck).
  destruct Hi as [[Hok Ht] Hwp' Hcp' Hwv Hcv Hv Hps].
  constructor; try (intros ? ?; rewrite ?Hwk, ?Hck; auto; fail).
  - split; [done|]. intros n Hn. rewrite Hw, Hc. by destruct (Ht n Hn).
  - intros vid b. rewrite Hwk. intros (vt & ?)%Hcv. exists vt. by rewrite Hwp.
  - intros vid b. rewrite Hck. intros (vt & ?)%Hcv. exists vt. by rewrite Hcp.
  - intros pid p. rewrite Hcp, Hwp. intros. exists p. split; [done|reflexivity].
Qed.
End inv.

(** ** Checks that pass *)
Section checks.
Context {DB L : Type} `{StateDBSpec DB} `{AminoLaws} `{CryptoLib} `{!EventListener DB L}.
Implicit Types (d : DB) (s : State DB L).

Lemma hex32_length str pid : IsHexEncodedStringWithLength str ProcessIDsize = true →
  hex_DecodeString str = Ok pid → length pid = 32%nat.
Proof.
  unfold IsHexEncodedStringWithLength, ProcessIDsize. intros Hh Hd.
  rewrite (TrimHex_decodable _ _ Hd) in Hh. go_bool.
  apply hex_DecodeString_length in Hd. unfold slen in *. rewrite Hd in *.
  rewrite Nat2Z.inj_mul, Z.mul_comm, Z.div_mul in *; lia.
Qed.

(** A process without keys, or with all its slots empty. *)
Lemma new_process_wf p : valid_process_type (p_Type p) = true → 0 < p_NumberOfBlocks p →
  p_KeyIndex p = 0 →
  (∀ l, l ∈ [p_EncryptionPublicKeys p; p_CommitmentKeys p; p_EncryptionPrivateKeys p; p_RevealKeys p] →
     l = if ProcessRequireKeys (p_Type p) then empty_keys else []) →
  proc_wf p.
Proof.
  intros Ht Hb Hi Hk.
  rewrite <- !Forall_forall, !Forall_cons in Hk. destruct Hk as (Hk1 & Hk2 & Hk3 & Hk4 & _).
  constructor; unfold key_slots, used, revealed, RequireKeys; rewrite ?Hk1, ?Hk2, ?Hk3, ?Hk4, ?Hi;
    try done; destruct (ProcessRequireKeys (p_Type p)); try done; vm_compute; repeat constructor; done.
Qed.

(** What a new process that passes the check looks like. *)
Lemma NewProcessTxCheck_Ok tx d p : store_inv d → NewProcessTxCheck tx d = Ok p →
  ∃ pid oracles addr h,
    hex_DecodeString (np_ProcessID tx) = Ok pid ∧ length pid = 32%nat ∧
    wk d ProcessTree pid = None ∧ proc_wf p ∧
    Oracles d false = Ok oracles ∧ oracles ≠ [] ∧
    verifySignatureAgainstOracles oracles (np_SignedBytes tx) (np_Signature tx) = Ok (true, addr) ∧
    Header_ d false = Ok (Some h) ∧ h_Height h ≤ np_StartBlock tx ∧
    p_StartBlock p = np_StartBlock tx ∧ p_NumberOfBlocks p = np_NumberOfBlocks tx ∧
    p_Type p = np_ProcessType tx ∧ p_MkRoot p = np_MkRoot tx ∧
    p_Canceled p = false ∧ p_Paused p = false.
Proof.
  intros Hi Hr. unfold NewProcessTxCheck in Hr. go_inv Hr.
  match goal with H : context [let '(_, _) := ?a in _] |- _ => destruct a as [ok addr] end.
  go_inv Hr. go_bool. subst ok.
  match goal with H : oracles_or_fail _ = Ok ?os |- _ => rename H into Ho; rename os into oracles end.
  match goal with H : hex_DecodeString (np_ProcessID _) = Ok ?b |- _ => rename H into Hd; rename b into pid end.
  match goal with H : match Process_ _ _ _ with _ => _ end = Ok _ |- _ => rename H into Hp end.
  destruct (Process_ d pid false) as [?|e|?] eqn:Ep; [done| |done].
  assert (wproc d pid = None) as Hn.
  { destruct (wproc d pid) as [q|] eqn:E; [|done]. apply Process_wproc in E; [|apply Hi]. congruence. }
  assert (Oracles d false = Ok oracles ∧ oracles ≠ []) as [Ho1 Ho2].
  { unfold oracles_or_fail in Ho. destruct (Oracles d false) as [[|o os]|?|?]; naive_solver. }
  do 4 eexists. split_and!; try done; try lia.
  - by eapply hex32_length.
  - by apply wproc_None.
  - apply new_process_wf; simpl; [done|lia|done|]. intros l Hl. set_solver.
Qed.

(** Where the nullifier of an accepted vote comes from: the cache entry of the
    transaction, or a verification of its signature and census proof. *)
Definition nullifier_source (tx : VoteTx) (p : Process) (pid : bytes) (now : Z) (forCommit : bool)
    (s : State DB L) (nul : bytes) : Prop :=
  (∃ vp, VoteCacheGet (UniqID tx (p_Type p)) s = Some vp ∧ forCommit = true ∧ nul = vp_Nullifier vp) ∨
  (∃ vp, VoteCacheGet (UniqID tx (p_Type p)) s = None ∧
         verify_vote tx p pid now (Store s) = Ok vp ∧ nul = vp_Nullifier vp).

(** The check of a vote changes nothing but the cache. *)
Lemma VoteTxCheck_cache tx now c s : ∃ vc, (VoteTxCheck tx now c s).2 = set_voteCache vc s.
Proof.
  assert (∃ vc, s = set_voteCache vc s) as Hs by (exists (voteCache s); by destruct s).
  unfold VoteTxCheck. rewrite bind_run, on_store_run.
  destruct (open_process tx (Store s)) as [[pid p]|e|w]; [|done|done].
  rewrite bind_run, lift_run. destruct (guard_err _ _); [|done|done].
  rewrite bind_run. simpl. destruct (VoteCacheGet _ s) as [vp|]; [destruct c; [|done]|].
  - unfold deferred. rewrite bind_run, on_store_run.
    destruct (EnvelopeExists _ _ _) as [b|e|w]; [destruct b| |]; simpl;
      unfold VoteCacheDel; case_decide; eauto.
  - rewrite bind_run, on_store_run. destruct (verify_vote _ _ _ _ _) as [vp|e|w]; [|done|done].
    rewrite bind_run. simpl. unfold VoteCacheAdd. case_decide; eauto.
Qed.
Lemma VoteTxCheck_Store tx now c s : Store (VoteTxCheck tx now c s).2 = Store s.
Proof. by destruct (VoteTxCheck_cache tx now c s) as [vc ->]. Qed.

Lemma VoteTxCheck_Ok tx now c s v s' : VoteTxCheck tx now c s = (Ok v, s') →
  ∃ pid p, open_process tx (Store s) = Ok (pid, p) ∧ v = vote_of tx p pid (v_Nullifier v) ∧
    (ProcessIsEncrypted (p_Type p) = true → vt_EncryptionKeyIndexes tx ≠ []) ∧
    nullifier_source tx p pid now c s (v_Nullifier v) ∧
    EnvelopeExists (Store s) pid (v_Nullifier v) = Ok false.
Proof.
  unfold VoteTxCheck. rewrite bind_run, on_store_run.
  destruct (open_process tx (Store s)) as [[pid p]|e|w]; [|done|done].
  rewrite bind_run, lift_run. destruct (guard_err _ _) as [[]|e|w] eqn:Eg; [|done|done].
  assert (ProcessIsEncrypted (p_Type p) = true → vt_EncryptionKeyIndexes tx ≠ []) as Hk.
  { apply guard_err_Ok, andb_false_iff in Eg. intros Ht Hn. destruct Eg as [Eg|Eg]; [congruence|].
    rewrite Hn in Eg. done. }
  clear Eg. rewrite bind_run. simpl.
  destruct (VoteCacheGet _ s) as [vp|] eqn:Ec; [destruct c; [|done]|].
  - unfold deferred. rewrite bind_run, on_store_run.
    destruct (EnvelopeExists _ _ _) as [[]|e|w] eqn:Ee; try done. intros [= <- <-].
    exists pid, p. split_and!; try done. left. by exists vp.
  - rewrite bind_run, on_store_run.
    destruct (verify_vote _ _ _ _ _) as [vp|e|w] eqn:Ev; [|done|done]. intros [= <- <-].
    exists pid, p. split_and!; try done; [right; by exists vp|].
    simpl. unfold verify_vote in Ev. go_inv Ev. by subst.
Qed.

Lemma open_process_Ok tx d pid p : store_ok d → open_process tx d = Ok (pid, p) →
  ∃ h, hex_DecodeString (vt_ProcessID tx) = Ok pid ∧ wproc d pid = Some p ∧
    Header_ d false = Ok (Some h) ∧
    p_StartBlock p ≤ h_Height h ≤ end_block p ∧ p_Canceled p = false ∧ p_Paused p = false ∧
    (RequireKeys p = true → 1 ≤ p_KeyIndex p) ∧
    (p_Type p = PollVote ∨ p_Type p = PetitionSign ∨ p_Type p = EncryptedPoll).
Proof.
  intros Hok Hr. unfold open_process in Hr. go_inv Hr.
  case_decide; [done|]. destruct (_ || _ || _) eqn:Et in Hr; [|done]. simplify_eq/=.
  unfold vote_window in *. go_bool.
  match goal with H : Process_ _ _ _ = Ok _ |- _ => apply Process_wproc in H; [|done] end.
  eexists. split_and!; try done.
  - intros Hk. match goal with H : RequireKeys _ && _ = false |- _ => rewrite Hk in H; simpl in H end.
    go_bool. lia.
  - rewrite !orb_true_iff, !bool_decide_eq_true in Et. tauto.
Qed.
End checks.

(** ** Every operation keeps the invariant *)
Section keeps.
Context {DB L : Type} `{StateDBSpec DB} `{AminoLaws} `{CryptoLib} `{TxJSON} `{GenesisJSON}
        `{!EventListener DB L}.
Implicit Types (d : DB) (s : State DB L).
#[local] Hint Resolve vt_app vt_process vt_vote : core.

Definition good_step s s' : Prop := good (Store s) (Store s').
#[local] Instance good_step_refl : Reflexive good_step.
Proof. intros s. unfold good_step. reflexivity. Qed.
#[local] Instance good_step_trans : Transitive good_step.
Proof. intros s1 s2 s3. unfold good_step. apply good_trans. Qed.
Definition keeps {A} (m : GM (State DB L) A) : Prop := stays good_step m.

Lemma keeps_bind {A B} (m : GM (State DB L) A) (f : A → GM (State DB L) B) :
  keeps m → (∀ a, keeps (f a)) → keeps (m ≫= f).
Proof. apply stays_bind, _. Qed.
Lemma keeps_after {A B} (m : GM (State DB L) A) (f : A → GM (State DB L) B) s :
  good (Store s) (Store (m s).2) → (∀ a, keeps (f a)) → good (Store s) (Store ((m ≫= f) s).2).
Proof. apply (stays_after good_step). Qed.
Lemma keeps_lift {A} (r : res A) : keeps (lift r).
Proof. apply stays_lift, _. Qed.
Lemma keeps_mret {A} (a : A) : keeps (mret a).
Proof. apply stays_mret, _. Qed.
Lemma keeps_on_store {A} (f : DB → res A) : keeps (on_store f).
Proof. intros s. reflexivity. Qed.
Lemma keeps_notify f : keeps (notify f).
Proof. intros s. unfold good_step. rewrite notify_Store. reflexivity. Qed.
Lemma keeps_add_app k v : keeps (store_add AppTree k v).
Proof.
  intros s Hi. destruct (store_add_effect s AppTree k v) as [->|(b & _ & Ha)];
    [apply Hi|done|by apply good_refl|by eapply good_app].
Qed.
Lemma keeps_fatal {A} (m : GM (State DB L) A) : keeps m → keeps (fatal m).
Proof. intros Hm s. specialize (Hm s). unfold fatal. by destruct (m s) as [[]]. Qed.
Lemma keeps_try {A} (m : GM (State DB L) A) : keeps m → keeps (try_ m).
Proof. apply stays_try. Qed.
Lemma keeps_ignore_err m : keeps m → keeps (ignore_err m).
Proof. intros Hm s. specialize (Hm s). unfold ignore_err. by destruct (m s) as [[]]. Qed.
Lemma keeps_for_each {A} (xs : list A) f : (∀ x, keeps (f x)) → keeps (for_each xs f).
Proof. apply stays_for_each; apply _. Qed.
Lemma keeps_purge now h : keeps (modify (VoteCachePurge now h)).
Proof. apply stays_modify. intros s. unfold VoteCachePurge. by case_decide. Qed.

Lemma keeps_commit : keeps store_commit.
Proof.
  intros s Hi. destruct (db_commit (Store s)) as (h & d' & Hc & Hok & Hw & Hcm); [right; apply Hi|].
  unfold store_commit. rewrite Hc. simpl. by apply good_commit.
Qed.
Lemma keeps_rollback : keeps store_rollback.
Proof.
  intros s Hi. destruct (db_rollback (Store s)) as (d' & Hc & Hok & Hw & Hcm); [apply Hi|].
  unfold store_rollback. rewrite Hc. simpl. by apply good_rollback.
Qed.
#[local] Hint Resolve keeps_lift keeps_mret keeps_on_store keeps_notify keeps_add_app keeps_fatal
  keeps_try keeps_ignore_err keeps_purge keeps_commit keeps_rollback : core.
Ltac keeps_tac :=
  repeat first
    [ solve [auto]
    | apply keeps_bind; [|intros ?]
    | apply keeps_fatal
    | case_match ].

Lemma keeps_AddOracle a : keeps (AddOracle a).
Proof. unfold AddOracle. keeps_tac. Qed.
Lemma keeps_RemoveOracle a : keeps (RemoveOracle a).
Proof. unfold RemoveOracle. keeps_tac. Qed.
Lemma keeps_AddValidator k p : keeps (AddValidator k p).
Proof. unfold AddValidator. keeps_tac. Qed.
Lemma keeps_RemoveValidator a : keeps (RemoveValidator a).
Proof. unfold RemoveValidator. keeps_tac. Qed.
Lemma keeps_Save : keeps Save.
Proof. unfold Save. keeps_tac. Qed.
Lemma keeps_Rollback : keeps Rollback_.
Proof. unfold Rollback_. keeps_tac. Qed.
#[local] Hint Resolve keeps_AddOracle keeps_RemoveOracle keeps_AddValidator keeps_RemoveValidator
  keeps_Save keeps_Rollback : core.

Lemma keeps_Info : keeps Info.
Proof. unfold Info. keeps_tac. Qed.
Lemma keeps_BeginBlock h now : keeps (BeginBlock h now).
Proof. unfold BeginBlock. keeps_tac. Qed.
Lemma keeps_InitChain g : keeps (InitChain g).
Proof.
  unfold InitChain. keeps_tac; apply keeps_for_each; intros; auto.
Qed.

(** ** Delivered transactions *)
Lemma set_Canceled_wf p : proc_wf p → proc_wf (set_Canceled true p) ∧ evolves p (set_Canceled true p).
Proof. intros []. split; constructor; try done; reflexivity. Qed.

Lemma good_written s pid p p' d' : store_inv (Store s) → wproc (Store s) pid = Some p →
  process_written (Store s) pid p' d' → proc_wf p' → evolves p p' → store_inv d' ∧ later (Store s) d'.
Proof.
  intros Hi Hp Hw Hwf Hev. destruct (wproc_wf _ _ _ Hi Hp) as [Hl _].
  eapply good_process; [done|done|done| |done]. intros q Hq. by simplify_eq.
Qed.

Lemma AddVote_good v s : store_inv (Store s) → is_Some (wproc (Store s) (v_ProcessID v)) →
  EnvelopeExists (Store s) (v_ProcessID v) (v_Nullifier v) = Ok false →
  store_inv (Store (AddVote v s).2) ∧ later (Store s) (Store (AddVote v s).2).
Proof.
  intros Hi Hp He. destruct (AddVote_effect s v) as [->|(vid & b & h & Hv & Hh & Ha & Hb & Hu)];
    [apply Hi|by apply good_refl|].
  rewrite EnvelopeExists_ck, Hv in He by apply Hi. injection He as He. go_bool.
  apply voteID_Ok in Hv as (Hlp & Hln & ->).
  eapply (good_vote _ _ (set_Height (h_Height h) v)); eauto; [simpl; by rewrite Hu|].
  destruct (ck (Store s) VoteTree (v_ProcessID v ++ v_Nullifier v)) as [c|] eqn:Ec; [|done].
  destruct (si_cvote _ Hi _ _ Ec) as (? & _ & Hne & _). naive_solver.
Qed.

Lemma CancelProcess_good pid s : store_inv (Store s) →
  store_inv (Store (CancelProcess pid s).2) ∧ later (Store s) (Store (CancelProcess pid s).2).
Proof.
  intros Hi. destruct (CancelProcess_effect s pid) as [->|(p & Hp & _ & Hw)].
  - apply Hi.
  - intros p Hp. destruct (wproc_wf _ _ _ Hi Hp) as [_ Hwf]. by apply proc_wf_type.
  - by apply good_refl.
  - destruct (wproc_wf _ _ _ Hi Hp) as [_ Hwf]. destruct (set_Canceled_wf p Hwf).
    by eapply good_written.
Qed.

Lemma AddProcess_good tx p pid s : store_inv (Store s) → NewProcessTxCheck tx (Store s) = Ok p →
  hex_DecodeString (np_ProcessID tx) = Ok pid →
  store_inv (Store (AddProcess p pid (np_MkURI tx) s).2) ∧
  later (Store s) (Store (AddProcess p pid (np_MkURI tx) s).2).
Proof.
  intros Hi Hc Hpid.
  destruct (NewProcessTxCheck_Ok _ _ _ Hi Hc) as (pid' & ? & ? & ? & Hpid' & Hl & Hn & Hwf & _).
  assert (pid' = pid) as -> by congruence. eapply good_process; [|exact Hwf|exact Hl| |done].
  - apply AddProcess_effect; [apply Hi|by apply proc_wf_type].
  - intros q. unfold wproc. rewrite Hn. done.
Qed.

Lemma AdminTxCheck_keys tx d : AdminTxCheck tx d = Ok () →
  at_Type tx = TxAddProcessKeys ∨ at_Type tx = TxRevealProcessKeys → check_process_keys tx d = Ok ().
Proof.
  intros Hc Ht. unfold AdminTxCheck in Hc. go_inv Hc.
  match goal with H : context [let '(_, _) := ?a in _] |- _ => destruct a as [ok addr] end.
  go_inv Hc. destruct (_ || _) eqn:Eo in Hc; [done|]. go_bool. tauto.
Qed.
Lemma exec_admin_good tx s : store_inv (Store s) → AdminTxCheck tx (Store s) = Ok () →
  store_inv (Store (exec_admin tx s).2) ∧ later (Store s) (Store (exec_admin tx s).2).
Proof.
  intros Hi Hc.
  assert (∀ pid p, wproc (Store s) pid = Some p → proc_wf p) as Hwf by
    (intros pid p Hp; by apply (wproc_wf _ _ _ Hi) in Hp as [_ ?]).
  pose proof (AdminTxCheck_keys tx (Store s) Hc) as Hk.
  unfold exec_admin.
  destruct (decide (at_Type tx = TxAddOracle)); [by apply keeps_AddOracle|].
  destruct (decide (at_Type tx = TxRemoveOracle)); [by apply keeps_RemoveOracle|].
  destruct (decide (at_Type tx = TxAddValidator)).
  { revert Hi. apply keeps_bind; auto. }
  destruct (decide (at_Type tx = TxRemoveValidator)); [by apply keeps_RemoveValidator|].
  destruct (decide (at_Type tx = TxAddProcessKeys)) as [Ht|].
  { destruct (AddProcessKeys_effect tx s) as (pid & p & p' & _ & Hp & _ & Hwf' & Hev & Hw); auto;
      [apply Hi|by eapply good_written]. }
  destruct (decide (at_Type tx = TxRevealProcessKeys)) as [Ht|]; [|by apply good_refl].
  destruct (RevealProcessKeys_effect tx s) as (pid & p & p' & _ & Hp & _ & Hwf' & Hev & Hw); auto;
    [apply Hi|by eapply good_written].
Qed.

Lemma keeps_AddTx gtx now c : keeps (AddTx gtx now c).
Proof.
  intros s Hi. unfold AddTx. destruct gtx as [tx|tx|tx|tx].
  - rewrite bind_run. pose proof (VoteTxCheck_Store tx now c s) as Hs.
    destruct (VoteTxCheck tx now c s) as [[v|e|w] s1] eqn:Ev; simpl in Hs;
      [|simpl; rewrite Hs; by apply good_refl..].
    destruct (VoteTxCheck_Ok _ _ _ _ _ _ Ev) as (pid & p & Ho & Hv & _ & _ & He).
    destruct (open_process_Ok _ _ _ _ (si_ok _ Hi) Ho) as (h & _ & Hp & _).
    assert (v_ProcessID v = pid) as Hpid by (by rewrite Hv). rewrite <- Hs in Hi, Hp, He |- *.
    destruct c; [|by apply good_refl].
    eapply (keeps_after (AddVote v)); [|intros ?; apply keeps_mret|done].
    intros _. apply AddVote_good; rewrite ?Hpid; eauto.
  - rewrite bind_run, on_store_run. destruct (AdminTxCheck tx (Store s)) as [[]|e|w] eqn:E;
      [|by apply good_refl..]. destruct c; [|by apply good_refl].
    eapply (keeps_after (exec_admin tx)); [|intros ?; apply keeps_mret|done].
    intros _. by apply exec_admin_good.
  - rewrite bind_run, on_store_run. destruct (CancelProcessTxCheck tx (Store s)) as [[]|e|w] eqn:E;
      [|by apply good_refl..]. destruct c; [|by apply good_refl].
    revert Hi. apply keeps_bind; [|intros ?; apply keeps_mret].
    apply keeps_bind; [apply keeps_lift|]. intros pid s' Hi. by apply CancelProcess_good.
  - rewrite bind_run, on_store_run. destruct (NewProcessTxCheck tx (Store s)) as [p|e|w] eqn:E;
      [|by apply good_refl..]. destruct c; [|by apply good_refl].
    eapply keeps_after; [|intros ?; apply keeps_mret|done]. intros _.
    rewrite bind_run, lift_run. destruct (hex_DecodeString (np_ProcessID tx)) as [pid|e|w] eqn:Ed;
      [|by apply good_refl..]. by apply AddProcess_good.
Qed.

Lemma keeps_DeliverTx tx now : keeps (DeliverTx tx now).
Proof. unfold DeliverTx. pose proof keeps_AddTx. keeps_tac. apply keeps_try. keeps_tac. Qed.
Lemma keeps_CheckTx tx now r : keeps (CheckTx tx now r).
Proof. unfold CheckTx. pose proof keeps_AddTx. keeps_tac. apply keeps_try. keeps_tac. Qed.

(** ** Every call, and every sequence of calls *)
Lemma run_call_good c s s' : run_call c s = Some s' → good (Store s) (Store s').
Proof.
  destruct c as [h now|tx now r|tx now| |]; simpl.
  - intros Hr. pose proof (keeps_BeginBlock h now s) as Hk.
    destruct (BeginBlock h now s) as [[] ?]; by simplify_eq/=.
  - intros Hr. pose proof (keeps_CheckTx tx now r s) as Hk.
    destruct (CheckTx tx now r s) as [[] ?]; by simplify_eq/=.
  - intros Hr. pose proof (keeps_DeliverTx tx now s) as Hk.
    destruct (DeliverTx tx now s) as [[] ?]; by simplify_eq/=.
  - intros Hr. pose proof (keeps_Save s) as Hk. unfold Commit in Hr.
    destruct (Save s) as [[] ?]; by simplify_eq/=.
  - intros Hr. pose proof (keeps_Info s) as Hk. destruct (Info s) as [[] ?]; by simplify_eq/=.
Qed.
Lemma steps_good s cs s' : steps s cs s' → good (Store s) (Store s').
Proof.
  induction 1 as [s|s s1 s2 c cs Hc _ IH]; [reflexivity|].
  etransitivity; [by eapply run_call_good|done].
Qed.
End keeps.
