(* ===== verification/Genesis.v ===== *)
(** * Oracles, validators and the genesis block

    The oracle and validator lists of the application tree behave as sets kept
    in order of insertion; [InitChain] on a store that was never committed
    fills them from the genesis document and commits. *)

From stdpp Require Import base gmap strings list fin_maps.
From Stdlib Require Import ZArith Lia.
From S2P Require Import Prelude GoLib Types StateDB Crypto IavlState Codec State Transaction App.
From S2P Require Import StateFacts ProcessKeys Invariant.
Open Scope Z_scope.

Section usable.
Context {DB : Type} `{StateDBSpec DB} `{AminoLaws} `{CryptoLib}.
Implicit Types d : DB.

(** A store the working side of which can be read and written: never
    committed ([fr]), or committed before. *)
Definition usable (fr : bool) d : Prop :=
  (if fr then db_fresh d else db_ok d) ∧ ∀ n, vochain_tree n → is_Some (db_work d !! n).

Lemma usable_either fr d : usable fr d → db_fresh d ∨ db_ok d.
Proof. intros [? _]. destruct fr; auto. Qed.
Lemma store_ok_usable d : store_ok d → usable false d.
Proof. intros [Hok Ht]. split; [done|]. intros n Hn. by destruct (Ht n Hn). Qed.
Lemma TreeGet_usable fr d n k : usable fr d → vochain_tree n → TreeGet d n k = Ok (wk d n k).
Proof.
  intros Hu Hn. destruct (proj2 Hu n Hn) as [t Hw]. unfold wk. rewrite Hw. simpl.
  apply db_get; [by eapply usable_either|done].
Qed.

(** [puts d n k v d']: one working key written. *)
Definition puts fr d (n : string) (k v : bytes) d' : Prop :=
  usable fr d' ∧ ∀ n' k', wk d' n' k' = if decide (n' = n ∧ k' = k) then Some v else wk d n' k'.

Lemma wk_insert d d' n t k v n' k' : db_work d !! n = Some t →
  db_work d' = <[n := <[k := v]> t]> (db_work d) →
  wk d' n' k' = if decide (n' = n ∧ k' = k) then Some v else wk d n' k'.
Proof.
  intros Hw Hw'. unfold wk. rewrite Hw'. destruct (decide (n' = n)) as [->|Hn].
  - rewrite lookup_insert_eq, Hw. simpl. destruct (decide (k' = k)) as [->|Hk].
    + by rewrite lookup_insert_eq, decide_True.
    + by rewrite lookup_insert_ne, decide_False by naive_solver.
  - by rewrite lookup_insert_ne, decide_False by naive_solver.
Qed.
Lemma work_insert_trees d d' n m : db_work d' = <[n := m]> (db_work d) →
  (∀ n', vochain_tree n' → is_Some (db_work d !! n')) →
  ∀ n', vochain_tree n' → is_Some (db_work d' !! n').
Proof. intros -> Ht n' Hn'. rewrite lookup_insert. case_decide; [done|auto]. Qed.

Lemma TreeAdd_puts fr d n k v : usable fr d → vochain_tree n →
  ∃ d', TreeAdd d n k (Some v) = Ok d' ∧ puts fr d n k v d'.
Proof.
  intros [Hok Ht] Hn. destruct (Ht n Hn) as [t Hw]. destruct fr.
  - destruct (db_add_fresh d n t k v Hok Hw) as (d' & Hadd & Hok' & Hw'). exists d'.
    split; [done|]. split; [split; [done|by eapply work_insert_trees]|].
    intros. by eapply wk_insert.
  - destruct (db_add d n t k v Hok Hw) as (d' & Hadd & Hok' & Hw' & _). exists d'.
    split; [done|]. split; [split; [done|by eapply work_insert_trees]|].
    intros. by eapply wk_insert.
Qed.

(** The lists the working application tree holds; nil when there is none. *)
Definition wOracles d : res (list string) := or_nil (UnmarshalBinaryBare (wk d AppTree oracleKey)).
Definition wValidators d : res (list GenesisValidator) :=
  or_nil (UnmarshalBinaryBare (wk d AppTree validatorKey)).

(** [d'] differs from [d] in the application tree only, at keys other than
    [keep]. *)
Definition app_changes fr (keep : bytes → Prop) d d' : Prop :=
  usable fr d' ∧ ∀ n k, n ≠ AppTree ∨ keep k → wk d' n k = wk d n k.
Lemma app_changes_refl fr keep d : usable fr d → app_changes fr keep d d.
Proof. by split. Qed.
Lemma app_changes_trans fr keep d1 d2 d3 :
  app_changes fr keep d1 d2 → app_changes fr keep d2 d3 → app_changes fr keep d1 d3.
Proof. intros [_ H12] [Hu H23]. split; [done|]. intros n k Hk. by rewrite H23, H12. Qed.
Lemma puts_app_changes fr (keep : bytes → Prop) d k v d' : ¬ keep k →
  puts fr d AppTree k v d' → app_changes fr keep d d'.
Proof.
  intros Hk [Hu Hw]. split; [done|]. intros n' k' Hn. rewrite Hw. rewrite decide_False; naive_solver.
Qed.
Lemma puts_same fr d n k v d' : puts fr d n k v d' → wk d' n k = Some v.
Proof. intros [_ Hw]. by rewrite Hw, decide_True. Qed.
End usable.

Section lists.
Context {DB L : Type} `{StateDBSpec DB} `{AminoLaws} `{CryptoLaws} `{!EventListener DB L}.
Implicit Types (d : DB) (s : State DB L).
#[local] Hint Resolve vt_app : core.

Lemma store_add_puts fr s n k v : usable fr (Store s) → vochain_tree n →
  ∃ d', store_add n k (Some v) s = (Ok (), set_Store d' s) ∧ puts fr (Store s) n k v d'.
Proof.
  intros Hu Hn. destruct (TreeAdd_puts fr _ n k v Hu Hn) as (d' & Hadd & Hp). exists d'.
  split; [|done]. unfold store_add, updates. by rewrite Hadd.
Qed.

(** *** Oracles *)
Definition add_oracle (l : list string) (address : string) : list string :=
  if decide (TrimHex address ∈ l) then l else l ++ [TrimHex address].

Lemma AddOracle_run fr s a l : usable fr (Store s) → wOracles (Store s) = Ok l →
  ∃ d', AddOracle a s = ((if decide (TrimHex a ∈ l) then Err "oracle already added" else Ok ()),
                         set_Store d' s) ∧
    wOracles d' = Ok (add_oracle l a) ∧ app_changes fr (λ k, k ≠ oracleKey) (Store s) d'.
Proof.
  intros Hu Hl. unfold AddOracle. rewrite bind_run, on_store_run.
  rewrite (TreeGet_usable fr) by auto. simpl. unfold wOracles in Hl. rewrite Hl. unfold add_oracle.
  case_decide as Hin.
  { exists (Store s). rewrite lift_run. split; [by destruct s|split; [done|by apply app_changes_refl]]. }
  destruct (roundtrips_marshal_or "cannot marshal oracles" (l ++ [TrimHex a])) as (b & Hm & _ & Hd).
  { apply law_amino_strings. by destruct l. }
  destruct (store_add_puts fr s AppTree oracleKey b Hu) as (d' & Hs & Hp); [auto|].
  exists d'. rewrite bind_run, lift_run, Hm, Hs. split; [done|]. split.
  - unfold wOracles. by rewrite (puts_same _ _ _ _ _ _ Hp), Hd.
  - eapply puts_app_changes; [|done]. naive_solver.
Qed.

Lemma RemoveOracle_run fr s a l : usable fr (Store s) → wOracles (Store s) = Ok l →
  (TrimHex a ∉ l → RemoveOracle a s = (Err "oracle not found", s)) ∧
  (∀ i, find_index (λ o, bool_decide (o = TrimHex a)) l = Some i → remove_at i l ≠ [] →
   ∃ d', RemoveOracle a s = (Ok (), set_Store d' s) ∧ wOracles d' = Ok (remove_at i l) ∧
         app_changes fr (λ k, k ≠ oracleKey) (Store s) d').
Proof.
  intros Hu Hl. unfold RemoveOracle. rewrite bind_run, on_store_run.
  rewrite (TreeGet_usable fr) by auto. simpl. unfold wOracles in Hl. rewrite Hl. split.
  { intros Hn. destruct (find_index _ l) as [i|] eqn:Ef; [|done].
    apply find_index_Some in Ef as (l1 & x & l2 & -> & _ & Hb & _). go_bool. subst.
    destruct Hn. set_solver. }
  intros i -> Hne.
  destruct (roundtrips_marshal_or "cannot marshal oracles" (remove_at i l)) as (b & Hm & _ & Hd).
  { by apply law_amino_strings. }
  destruct (store_add_puts fr s AppTree oracleKey b Hu) as (d' & Hs & Hp); [auto|].
  exists d'. rewrite bind_run, lift_run, Hm, Hs. split; [done|]. split.
  - unfold wOracles. by rewrite (puts_same _ _ _ _ _ _ Hp), Hd.
  - eapply puts_app_changes; [|done]. naive_solver.
Qed.

(** *** Validators *)
Definition has_validator (l : list GenesisValidator) (addr : bytes) : bool :=
  existsb (λ v, bool_decide (tm_HexString (tm_Address (gv_PubKey v)) = tm_HexString addr)) l.
Definition add_validator (l : list GenesisValidator) (pk : bytes) (power : Z) : list GenesisValidator :=
  if has_validator l (tm_Address pk) then l
  else l ++ [mkGenesisValidator (tm_Address pk) pk power ""].

Lemma AddValidator_run fr s pk power l : usable fr (Store s) → wValidators (Store s) = Ok l →
  ∃ d', AddValidator pk power s = (Ok (), set_Store d' s) ∧
    wValidators d' = Ok (add_validator l pk power) ∧
    app_changes fr (λ k, k ≠ validatorKey) (Store s) d'.
Proof.
  intros Hu Hl. unfold AddValidator. rewrite bind_run, on_store_run.
  rewrite (TreeGet_usable fr) by auto. simpl. unfold wValidators in Hl. rewrite Hl.
  unfold add_validator, has_validator. destruct (existsb _ l) eqn:Ee.
  { exists (Store s). split; [by destruct s|split; [done|by apply app_changes_refl]]. }
  destruct (roundtrips_marshal_or "cannot marshal validators"
    (l ++ [mkGenesisValidator (tm_Address pk) pk power ""])) as (b & Hm & _ & Hd).
  { apply law_amino_validators. by destruct l. }
  destruct (store_add_puts fr s AppTree validatorKey b Hu) as (d' & Hs & Hp); [auto|].
  exists d'. rewrite bind_run, lift_run, Hm, Hs. split; [done|]. split.
  - unfold wValidators. by rewrite (puts_same _ _ _ _ _ _ Hp), Hd.
  - eapply puts_app_changes; [|done]. naive_solver.
Qed.

(** *** The loops of [InitChain] *)
Lemma genesis_oracles_run fr os s l : usable fr (Store s) → wOracles (Store s) = Ok l →
  ∃ d', for_each os (λ v, ignore_err (AddOracle v)) s = (Ok (), set_Store d' s) ∧
    wOracles d' = Ok (foldl add_oracle l os) ∧ app_changes fr (λ k, k ≠ oracleKey) (Store s) d'.
Proof.
  revert s l. induction os as [|a os IH]; intros s l Hu Hl.
  { exists (Store s). split; [by destruct s|split; [done|by apply app_changes_refl]]. }
  destruct (AddOracle_run fr s a l Hu Hl) as (d1 & Hr & Hl1 & Hc1).
  destruct (IH (set_Store d1 s) _ (proj1 Hc1) Hl1) as (d2 & Hr2 & Hl2 & Hc2).
  exists d2. split; [|split; [done|by eapply app_changes_trans]].
  simpl. rewrite bind_run. unfold ignore_err at 1. rewrite Hr. by case_decide.
Qed.
Lemma genesis_validators_run fr vs s l : usable fr (Store s) → wValidators (Store s) = Ok l →
  ∃ d', for_each vs (λ v, fatal (AddValidator (gv_PubKey v) (gv_Power v))) s = (Ok (), set_Store d' s) ∧
    wValidators d' = Ok (foldl (λ l v, add_validator l (gv_PubKey v) (gv_Power v)) l vs) ∧
    app_changes fr (λ k, k ≠ validatorKey) (Store s) d'.
Proof.
  revert s l. induction vs as [|a vs IH]; intros s l Hu Hl.
  { exists (Store s). split; [by destruct s|split; [done|by apply app_changes_refl]]. }
  destruct (AddValidator_run fr s (gv_PubKey a) (gv_Power a) l Hu Hl) as (d1 & Hr & Hl1 & Hc1).
  destruct (IH (set_Store d1 s) _ (proj1 Hc1) Hl1) as (d2 & Hr2 & Hl2 & Hc2).
  exists d2. split; [|split; [done|by eapply app_changes_trans]].
  simpl. rewrite bind_run. unfold fatal at 1. by rewrite Hr.
Qed.
End lists.

Section genesis.
Context {DB L : Type} `{StateDBSpec DB} `{AminoLaws} `{CryptoLaws} `{TxJSON} `{GenesisJSON}
        `{!EventListener DB L}.
Implicit Types (d : DB) (s : State DB L).
#[local] Hint Resolve vt_app vt_process vt_vote : core.

(** A store just created: the three trees, empty and never committed. *)
Definition blank d : Prop :=
  usable true d ∧ ∀ n k, vochain_tree n → wk d n k = None.

(** What a store with no process and no vote becomes when it is committed. *)
Lemma commit_blank_inv fr d d' : usable fr d →
  (∀ k, wk d ProcessTree k = None ∧ wk d VoteTree k = None) →
  db_ok d' → db_work d' = db_work d → db_comm d' = db_work d → store_inv d'.
Proof.
  intros [_ Ht] He Hok Hw Hc.
  assert (∀ k, wk d' ProcessTree k = None ∧ wk d' VoteTree k = None) as Hwk.
  { intros k. unfold wk. rewrite Hw. apply He. }
  assert (∀ k, ck d' ProcessTree k = None ∧ ck d' VoteTree k = None) as Hck.
  { intros k. unfold ck. rewrite Hc. apply He. }
  constructor.
  - split; [done|]. intros n Hn. rewrite Hw, Hc. auto.
  - intros k b. by rewrite (proj1 (Hwk k)).
  - intros k b. by rewrite (proj1 (Hck k)).
  - intros k b. by rewrite (proj2 (Hwk k)).
  - intros k b. by rewrite (proj2 (Hck k)).
  - intros k b. by rewrite (proj2 (Hck k)).
  - intros k p. unfold cproc. by rewrite (proj1 (Hck k)).
Qed.

Definition genesis_header : Header := mkHeader 0 zero_time [].

(** The writes of [InitChain], up to the commit. *)
Lemma genesis_writes s g gas : blank (Store s) → genesis_state g = Ok gas → ∃ d hb,
  wOracles d = Ok (foldl add_oracle [] (gas_Oracles gas)) ∧
  wValidators d = Ok (foldl (λ l v, add_validator l (gv_PubKey v) (gv_Power v)) [] (gas_Validators gas)) ∧
  wk d AppTree headerKey = Some hb ∧ UnmarshalBinaryBare (Some hb) = Ok genesis_header ∧
  app_changes true (λ _, False) (Store s) d ∧
  InitChain g s = (_ ← Save; mret ()) (set_Store d s).
Proof.
  intros [Hu He] Hg.
  assert (wOracles (Store s) = Ok []) as Ho.
  { unfold wOracles. rewrite He by auto. destruct law_amino_nil_strings as [e ->]. done. }
  destruct (genesis_oracles_run true (gas_Oracles gas) s [] Hu Ho) as (d1 & Hr1 & Ho1 & Hc1).
  assert (wValidators d1 = Ok []) as Hv.
  { unfold wValidators. rewrite (proj2 Hc1) by auto. rewrite He by auto.
    destruct law_amino_nil_validators as [e ->]. done. }
  destruct (genesis_validators_run true (gas_Validators gas) (set_Store d1 s) [] (proj1 Hc1) Hv)
    as (d2 & Hr2 & Hv2 & Hc2).
  destruct (law_amino_header genesis_header) as (hb & Hm & _ & Hd); [by right|].
  destruct (store_add_puts true (set_Store d2 s) AppTree headerKey hb (proj1 Hc2))
    as (d3 & Hs & Hp); [auto|].
  exists d3, hb. split; [|split; [|split; [|split; [done|split]]]].
  - unfold wOracles. rewrite (proj2 Hp), decide_False by naive_solver.
    rewrite (proj2 Hc2) by (by right). exact Ho1.
  - unfold wValidators. rewrite (proj2 Hp), decide_False by naive_solver. exact Hv2.
  - by apply puts_same in Hp.
  - split; [apply Hp|]. intros n k [Hn|[]]. rewrite (proj2 Hp), decide_False by naive_solver.
    rewrite (proj2 Hc2), (proj2 Hc1); auto.
  - unfold InitChain. rewrite bind_run, lift_run, Hg, bind_run, Hr1, bind_run, Hr2.
    rewrite bind_run. unfold fatal at 1. rewrite lift_run. unfold genesis_header in Hm. rewrite Hm.
    change (set_Store d2 (set_Store d1 s)) with (set_Store d2 s).
    rewrite bind_run. unfold fatal at 1. by rewrite Hs.
Qed.

(** The commit that ends [InitChain]: whatever a listener answers. *)
Lemma Save_store fr s : usable fr (Store s) → ∃ d', db_ok d' ∧ db_work d' = db_work (Store s) ∧
  db_comm d' = db_work (Store s) ∧ Store (Save s).2 = d'.
Proof.
  intros Hu. destruct (db_commit (Store s)) as (h & d' & Hc & Hok & Hw & Hcm);
    [by eapply usable_either|].
  exists d'. split_and!; [done|done|done|]. unfold Save, store_commit. rewrite bind_run, Hc.
  rewrite bind_run, on_store_run. destruct (Header_ _ false) as [[hd|]|e|w]; [|done|done|done].
  rewrite bind_run. pose proof (notify_Store (λ d, ListenerCommit d (h_Height hd)) (set_Store d' s)) as Hn.
  by destruct (notify _ _) as [[] ?].
Qed.

Lemma InitChain_store s g gas : blank (Store s) → genesis_state g = Ok gas →
  let d := Store (InitChain g s).2 in
  store_inv d ∧
  or_nil (Oracles d true) = Ok (foldl add_oracle [] (gas_Oracles gas)) ∧
  or_nil (Validators d true) =
    Ok (foldl (λ l v, add_validator l (gv_PubKey v) (gv_Power v)) [] (gas_Validators gas)) ∧
  Header_ d true = Ok (Some genesis_header) ∧
  CountProcesses d true = CountProcesses d false ∧
  (∀ pid, cproc d pid = None) ∧ (∀ vid, cvote d vid = None).
Proof.
  intros Hb Hg d. destruct (genesis_writes s g gas Hb Hg) as (d1 & hb & Ho & Hv & Hh & Hdh & Hc & Hr).
  destruct (Save_store true (set_Store d1 s) (proj1 Hc)) as (d' & Hok & Hw & Hcm & Hs).
  assert (d = d') as ->.
  { unfold d. rewrite Hr, bind_run, <- Hs. by destruct (Save (set_Store d1 s)) as [[] ?]. }
  clear Hr Hs. simpl in Hw, Hcm.
  assert (∀ n k, n ≠ AppTree → vochain_tree n → wk d1 n k = None) as He.
  { intros n k Hn Ht. rewrite (proj2 Hc) by auto. by apply Hb. }
  assert (∀ n k, ck d' n k = wk d1 n k) as Hck by (intros; unfold ck, wk; by rewrite Hcm).
  assert (store_inv d') as Hi.
  { apply (commit_blank_inv true d1); [apply Hc|intros k; split; by apply He|done..]. }
  split; [done|]. unfold Oracles, Validators, Header_, tree_get.
  rewrite !ITreeGet_ck, !Hck by (auto; apply Hi). simpl. rewrite Hh, Hdh. split_and!; try done.
  - destruct (proj2 (si_ok _ Hi) ProcessTree) as [[tw Htw] [tc Htc]]; [auto|].
    unfold CountProcesses. rewrite (db_count _ _ _ Hok Htw), (db_icount _ _ _ Hok Htc).
    rewrite Hcm in Htc. rewrite Hw in Htw. by simplify_eq.
  - intros pid. unfold cproc. rewrite Hck, He by (done || auto). done.
  - intros vid. unfold cvote. rewrite Hck, He by (done || auto). done.
Qed.
End genesis.

(** ** A node started on an empty directory *)
Section new_state.
Context {mtree itree : Type} `{IavlLaws mtree itree} `{AminoLaws} `{CryptoLib}.
Abbreviation IState := (@IavlState mtree itree).

Definition empty_tree (t : mtree) : Prop := mt_saved t = ∅ ∧ mt_work t = ∅ ∧ mt_Version t = 0.
Definition tree_blank (t : @IavlTree mtree itree) : Prop := it_itree t = None ∧ empty_tree (it_tree t).
Definition iavl_blank (s : IState) : Prop :=
  map_Forall (λ _ t, tree_blank t) (is_trees s) ∧ empty_tree (is_versionTree s).

(** A loop whose body leaves each tree blank. *)
Lemma each_tree_blank (g : string → IavlTree → IavlTree) f (s : IState) : iavl_blank s →
  (∀ n t s', tree_blank t → empty_tree (is_versionTree s') →
     tree_blank (g n t) ∧ f n t s' = (Ok (), put_tree n (g n t) s')) →
  ∃ s', each_tree f s = (Ok (), s') ∧ iavl_blank s' ∧ dom (is_trees s') = dom (is_trees s).
Proof.
  intros [Ht Hv] Hf.
  destruct (each_tree_pointwise empty_tree g f s) as (s' & Hr & Hv' & Htr); [done| |].
  { intros n t s' Hl Hvs. exists (is_versionTree s'). split; [done|].
    destruct (Hf n t s') as [_ ->]; [by apply (Ht n)|done|by destruct s']. }
  exists s'. split; [done|]. split; [split; [|done]|].
  - intros n t. rewrite Htr, map_lookup_imap. destruct (is_trees s !! n) as [t0|] eqn:E; simpl; [|done].
    intros [= <-]. apply (Hf n t0 s); [by apply (Ht n)|done].
  - rewrite Htr. apply set_eq. intros n. rewrite !elem_of_dom, map_lookup_imap.
    destruct (is_trees s !! n); simpl; split; intros [? ?]; eauto; done.
Qed.

Lemma updateImmutables_blank (s : IState) : iavl_blank s →
  ∃ s', updateImmutables s = (Ok (), s') ∧ iavl_blank s' ∧ dom (is_trees s') = dom (is_trees s).
Proof.
  intros Hb. apply (each_tree_blank (λ _ t, mkIavlTree (it_tree t) None (it_lastCommitedVersion t)));
    [done|]. intros n t s' (Hi & He) _. split; [done|].
  destruct He as (_ & _ & Hv0). rewrite Hv0. done.
Qed.

Lemma load_all_blank (s : IState) : iavl_blank s →
  ∃ s', each_tree (λ name t, '(_, t') ← lift (mt_Load (it_tree t)); modify (put_tree name (set_tree t' t))) s
        = (Ok (), s') ∧ iavl_blank s' ∧ dom (is_trees s') = dom (is_trees s).
Proof.
  intros Hb. apply (each_tree_blank (λ _ t, match mt_Load (it_tree t) with
    | Ok (_, t') => set_tree t' t | _ => t end)); [done|].
  intros n t s' (Hi & Hs & Hw & Hv) _. destruct (law_Load_empty _ Hs Hw Hv) as (t' & Hl & He).
  unfold mbind, GM_bind, lift. rewrite Hl. done.
Qed.

Lemma reload_all_blank vt (s : IState) : iavl_blank s → empty_tree vt →
  ∃ s', each_tree (reload_tree vt) s = (Ok (), s') ∧ iavl_blank s' ∧
        dom (is_trees s') = dom (is_trees s).
Proof.
  intros Hb (_ & Hvw & _). apply (each_tree_blank (λ _ t, match mt_LoadVersionForOverwriting 0 (it_tree t) with
    | Ok (_, t') => set_tree t' t | _ => t end)); [done|].
  intros n t s' (Hi & Hs & Hw & Hv) _. destruct (law_LoadOver_empty _ Hs Hw Hv) as (t' & Hl & He).
  unfold reload_tree. rewrite law_Get, Hvw, lookup_empty. cbn -[i64].
  change (i64 0) with 0. rewrite Hl. done.
Qed.

(** Loading an empty store, by [0] or by [-1], leaves it empty. *)
Lemma load0_blank (s : IState) : iavl_blank s →
  ∃ s', LoadVersion 0 s = (Ok (), s') ∧ iavl_blank s' ∧ dom (is_trees s') = dom (is_trees s).
Proof.
  intros Hb. destruct (load_all_blank s Hb) as (s1 & Hr1 & Hb1 & Hd1).
  destruct (proj2 Hb1) as (Hs & Hw & Hv). destruct (law_Load_empty _ Hs Hw Hv) as (vt & Hl & He).
  destruct (updateImmutables_blank (set_versionTree vt s1)) as (s2 & Hr2 & Hb2 & Hd2);
    [split; [apply Hb1|done]|].
  exists s2. split; [|split; [done|by rewrite Hd2]].
  unfold LoadVersion. rewrite decide_True by done. rewrite GM_run.
  cbn [mret GM_ret]. rewrite decide_True by done.
  rewrite GM_run, GM_run, Hr1. rewrite GM_run. cbn [get_st]. rewrite Hl. exact Hr2.
Qed.

Lemma load_last_blank (s : IState) : iavl_blank s →
  ∃ s', LoadVersion (-1) s = (Ok (), s') ∧ iavl_blank s' ∧ dom (is_trees s') = dom (is_trees s).
Proof.
  intros Hb. destruct (proj2 Hb) as (Hs & Hw & Hv).
  destruct (law_Load_empty _ Hs Hw Hv) as (vt & Hl & He).
  destruct (reload_all_blank vt (set_versionTree vt s)) as (s1 & Hr1 & Hb1 & Hd1);
    [split; [apply Hb|done]|done|].
  destruct He as (Hs1 & Hw1 & Hv1). destruct (law_LoadOver_empty _ Hs1 Hw1 Hv1) as (vt2 & Hl2 & He2).
  destruct (load0_blank (set_versionTree vt2 s1)) as (s2 & Hr2 & Hb2 & Hd2);
    [split; [apply Hb1|done]|].
  exists s2. split; [|split; [done|by rewrite Hd2]].
  revert Hr2. unfold LoadVersion. rewrite (decide_False (P := -1 = 0)) by done.
  rewrite (decide_True (P := 0 = 0)) by done.
  rewrite !GM_run. unfold pick_version. rewrite !GM_run. cbn [get_st]. rewrite decide_True by done.
  rewrite Hl, GM_run. cbn. intros Hr2. rewrite GM_run. unfold get_st at 1.
  rewrite GM_run. cbn [is_versionTree set_versionTree]. rewrite Hr1. cbn. rewrite (decide_False (P := 0 < 0)) by done. rewrite Hl2. exact Hr2.
Qed.

Lemma AddTree_blank name (s : IState) t : iavl_blank s →
  iavl_open (is_storageType s) (is_dataDir s) name = Ok t → empty_tree t →
  ∃ s', AddTree name s = (Ok (), s') ∧ iavl_blank s' ∧
        dom (is_trees s') = {[name]} ∪ dom (is_trees s) ∧
        is_storageType s' = is_storageType s ∧ is_dataDir s' = is_dataDir s.
Proof.
  intros Hb Ho He. eexists. unfold AddTree, mbind, GM_bind, lift. simpl. rewrite Ho.
  split; [done|]. split; [split; [|apply Hb]|split_and!; [|done|done]].
  - simpl. apply map_Forall_insert_2; [done|apply Hb].
  - simpl. by rewrite dom_insert_L.
Qed.

(** Opening any of the databases of the directory finds nothing. *)
Definition empty_dir (dir : string) : Prop :=
  ∀ name, ∃ t, iavl_open "disk" dir name = Ok t ∧ empty_tree t.

Lemma iavl_blank_blank (s : IState) : iavl_blank s →
  (∀ n, vochain_tree n → n ∈ dom (is_trees s)) → blank s.
Proof.
  intros [Ht (Hs & _)] Hd. split; [split; [split|]|].
  - intros n t Hl. destruct (Ht n t Hl) as (Hi & Hsv & _ & Hv). by split_and!.
  - intros v [m Hm]. by rewrite Hs, lookup_empty in Hm.
  - intros n Hn%Hd. simpl. unfold iavl_work. rewrite lookup_fmap.
    apply elem_of_dom in Hn as [t ->]. by eexists.
  - intros n k Hn%Hd. apply elem_of_dom in Hn as [t Hl]. unfold wk. simpl. unfold iavl_work.
    rewrite lookup_fmap, Hl. simpl. destruct (Ht n t Hl) as (_ & _ & Hw & _).
    by rewrite Hw, lookup_empty.
Qed.

Lemma Init_blank dir : empty_dir dir → ∃ s : IState, Init dir "disk" = Ok s ∧ iavl_blank s ∧
  is_storageType s = "disk" ∧ is_dataDir s = dir.
Proof.
  intros Hdir. destruct (Hdir "versions") as (vt & Ho & He).
  destruct (law_Load_empty vt) as (vt' & Hl & He'); try apply He.
  exists (mkIavlState dir "disk" ∅ vt'). unfold Init. simpl. rewrite Ho. simpl.
  unfold LoadVersion, updateImmutables, each_tree, mbind, GM_bind. simpl. rewrite map_to_list_empty. simpl.
  rewrite Hl. simpl. rewrite map_to_list_empty. split_and!; try done; apply He'.
Qed.

(** [NewState] on an empty directory succeeds with a blank store. *)
Lemma NewState_blank dir : empty_dir dir →
  ∃ s, NewState dir = Ok s ∧ blank (Store s) ∧ voteCache s = ∅.
Proof.
  intros Hdir. destruct (Init_blank dir Hdir) as (s0 & Hi & Hb0 & Hst & Hdd).
  destruct (Hdir AppTree) as (t1 & Ho1 & He1).
  destruct (AddTree_blank AppTree s0 t1) as (s1 & Hr1 & Hb1 & Hd1 & Hst1 & Hdd1);
    [done|by rewrite Hst, Hdd|done|].
  destruct (Hdir ProcessTree) as (t2 & Ho2 & He2).
  destruct (AddTree_blank ProcessTree s1 t2) as (s2 & Hr2 & Hb2 & Hd2 & Hst2 & Hdd2);
    [done|by rewrite Hst1, Hdd1, Hst, Hdd|done|].
  destruct (Hdir VoteTree) as (t3 & Ho3 & He3).
  destruct (AddTree_blank VoteTree s2 t3) as (s3 & Hr3 & Hb3 & Hd3 & _ & _);
    [done|by rewrite Hst2, Hdd2, Hst1, Hdd1, Hst, Hdd|done|].
  destruct (load_last_blank s3 Hb3) as (s4 & Hr4 & Hb4 & Hd4).
  exists (mkState s4 ∅ ()). unfold NewState. rewrite Hi. cbn [mbind res_bind].
  rewrite GM_run, Hr1, GM_run, Hr2, GM_run, Hr3, Hr4. split_and!; [done| |done].
  apply iavl_blank_blank; [done|]. simpl. rewrite Hd4, Hd3, Hd2, Hd1.
  intros n [->|[->| ->]]; set_solver.
Qed.
End new_state.
