(* ===== verification/Concrete.v ===== *)
(** * A concrete node

    Executable stand-ins for the libraries the repository calls, small enough
    to run inside the kernel: an in-memory versioned tree for [iavl], a codec
    for amino and JSON, and a transparent signature scheme.  They satisfy the
    laws the development assumes, so every theorem with such hypotheses can be
    applied to a node that really runs. *)

From stdpp Require Import base gmap strings list fin_maps countable.
From Stdlib Require Import ZArith Lia.
From S2P Require Import Prelude GoLib Types StateDB Crypto IavlState Codec State Transaction App.
Open Scope Z_scope.

(** ** The versioned tree *)
Record ctree := mkCtree { ct_work : kvmap; ct_saved : gmap Z kvmap; ct_version : Z }.
Record citree := mkCitree { ci_kv : kvmap; ci_version : Z }.

Definition versions (t : ctree) : list Z := (map_to_list (ct_saved t)).*1.
Definition latest (t : ctree) : option Z :=
  snd <$> list_find (λ v, Forall (λ u, u ≤ v) (versions t)) (versions t).
Definition at_version (v : Z) (t : ctree) : res (Z * ctree) :=
  match ct_saved t !! v with
  | Some m => Ok (v, mkCtree m (ct_saved t) v)
  | None => Err "version does not exist"
  end.
Definition tree_digest (m : kvmap) : bytes := concat ((λ kv, kv.1 ++ kv.2) <$> map_to_list m).

#[export] Instance concrete_iavl : Iavl ctree citree := {|
  iavl_open _ _ _ := Ok (mkCtree ∅ ∅ 0);
  mt_Get t k := ct_work t !! k;
  mt_Set k v t := mkCtree (<[k := v]> (ct_work t)) (ct_saved t) (ct_version t);
  mt_Version := ct_version;
  mt_Hash t := tree_digest (ct_work t);
  mt_Size t := Z.of_nat (size (ct_work t));
  mt_IterateRange t lo hi := range_items (ct_work t) lo hi;
  mt_SaveVersion t :=
    match ct_saved t !! (ct_version t + 1) with
    | Some _ => Err "version was already saved"
    | None => Ok (ct_version t + 1,
        mkCtree (ct_work t) (<[ct_version t + 1 := ct_work t]> (ct_saved t)) (ct_version t + 1))
    end;
  mt_Rollback t := mkCtree (default ∅ (ct_saved t !! ct_version t)) (ct_saved t) (ct_version t);
  mt_Load t := match latest t with Some v => at_version v t | None => Ok (0, t) end;
  mt_LoadVersion v t := at_version v t;
  mt_LoadVersionForOverwriting v t :=
    match ct_saved t !! v with
    | Some m => Ok (v, mkCtree m (filter (λ kv, kv.1 ≤ v) (ct_saved t)) v)
    | None => if decide (v = 0 ∧ ct_saved t = ∅) then Ok (0, t) else Err "version does not exist"
    end;
  mt_GetImmutable t v :=
    match ct_saved t !! v with Some m => Ok (mkCitree m v) | None => Err "version does not exist" end;
  mt_ImmutableTree t := mkCitree (ct_work t) (ct_version t);
  im_Get i k := ci_kv i !! k;
  im_Version := ci_version;
  im_Hash i := tree_digest (ci_kv i);
  im_Size i := Z.of_nat (size (ci_kv i));
  im_IterateRange i lo hi := range_items (ci_kv i) lo hi |}.

Lemma elem_of_versions t v : v ∈ versions t ↔ is_Some (ct_saved t !! v).
Proof.
  unfold versions. rewrite list_elem_of_fmap. split.
  - intros ([v' m] & -> & Hm%elem_of_map_to_list). by eexists.
  - intros [m Hm]. exists (v, m). split; [done|]. by apply elem_of_map_to_list.
Qed.
Lemma latest_is t v : is_Some (ct_saved t !! v) → (∀ u, is_Some (ct_saved t !! u) → u ≤ v) →
  latest t = Some v.
Proof.
  intros Hv Hmax. unfold latest.
  destruct (list_find_elem_of (λ v, Forall (λ u, u ≤ v) (versions t)) (versions t) v) as [[i w] Hf].
  - by apply elem_of_versions.
  - apply list.Forall_forall. intros u Hu%elem_of_versions. auto.
  - rewrite Hf. simpl. apply list_find_Some in Hf as (Hl & Hall & _).
    rewrite list.Forall_forall in Hall. f_equal. apply Z.le_antisymm.
    + apply Hmax, elem_of_versions. by eapply list_elem_of_lookup_2.
    + by apply Hall, elem_of_versions.
Qed.
Lemma latest_empty t : ct_saved t = ∅ → latest t = None.
Proof. intros He. unfold latest, versions. by rewrite He, map_to_list_empty. Qed.

#[export] Instance concrete_iavl_laws : IavlLaws ctree citree.
Proof.
  refine {| mt_work := ct_work; mt_saved := ct_saved; im_kv := ci_kv |}; try done.
  - intros t Hn. simpl in *. rewrite Hn. eauto.
  - intros v t m Hm. simpl. rewrite Hm. eexists. by split_and!.
  - intros t m Hm Hmax. simpl in *. rewrite (latest_is t (ct_version t)) by (done || by eexists).
    unfold at_version. rewrite Hm. eexists. by split_and!.
  - intros t Hs Hw Hv. simpl. rewrite latest_empty by done. eauto.
  - intros t Hs Hw Hv. simpl. rewrite Hs, lookup_empty, decide_True by done. eauto.
  - intros t v m Hm. simpl. rewrite Hm. eauto.
Defined.

(** ** The codec: the bits of an injective encoding, one per byte *)
Fixpoint pos_bytes (p : positive) : bytes :=
  match p with
  | xH => [Byte.x02]
  | xO p' => Byte.x00 :: pos_bytes p'
  | xI p' => Byte.x01 :: pos_bytes p'
  end.
Fixpoint bytes_pos (b : bytes) : option positive :=
  match b with
  | [] => None
  | [Byte.x02] => Some xH
  | Byte.x00 :: b' => xO <$> bytes_pos b'
  | Byte.x01 :: b' => xI <$> bytes_pos b'
  | _ => None
  end.
Lemma bytes_pos_bytes p : bytes_pos (pos_bytes p) = Some p.
Proof. induction p as [p IH|p IH|]; simpl; [| |done]; rewrite IH; by destruct p. Qed.

Definition enc {A} `{Countable A} (x : A) : bytes := pos_bytes (encode x).
Definition dec {A} `{Countable A} (b : bytes) : res A :=
  of_option "cannot decode" (p ← bytes_pos b; decode p).
Lemma dec_enc {A} `{Countable A} (x : A) : dec (enc x) = Ok x.
Proof. unfold dec, enc. rewrite bytes_pos_bytes. simpl. by rewrite decode_encode. Qed.

#[export] Instance VoteTx_eq_dec : EqDecision VoteTx.
Proof. solve_decision. Defined.
#[export] Instance NewProcessTx_eq_dec : EqDecision NewProcessTx.
Proof. solve_decision. Defined.
#[export] Instance CancelProcessTx_eq_dec : EqDecision CancelProcessTx.
Proof. solve_decision. Defined.
#[export] Instance AdminTx_eq_dec : EqDecision AdminTx.
Proof. solve_decision. Defined.
#[export] Instance Process_countable : Countable Process.
Proof.
  refine (inj_countable
    (λ x, [encode (p_Canceled x); encode (p_CommitmentKeys x); encode (p_EncryptionPrivateKeys x);
      encode (p_EncryptionPublicKeys x); encode (p_EntityID x); encode (p_KeyIndex x);
      encode (p_MkRoot x); encode (p_NumberOfBlocks x); encode (p_Paused x);
      encode (p_RevealKeys x); encode (p_StartBlock x); encode (p_Type x)])
    (λ l, match l with
      | [a; b; c; d; e; f; g; h; i; j; k; l] =>
        a ← decode a; b ← decode b; c ← decode c; d ← decode d; e ← decode e; f ← decode f;
        g ← decode g; h ← decode h; i ← decode i; j ← decode j; k ← decode k; l ← decode l;
        Some (mkProcess a b c d e f g h i j k l)
      | _ => None
      end) _).
  intros []. cbn -[encode decode]. by repeat (rewrite decode_encode; cbn -[encode decode]).
Defined.
#[export] Instance Vote_countable : Countable Vote.
Proof.
  refine (inj_countable
    (λ x, [encode (v_EncryptionKeyIndexes x); encode (v_Height x); encode (v_Nullifier x);
      encode (v_ProcessID x); encode (v_VotePackage x)])
    (λ l, match l with
      | [a; b; c; d; e] =>
        a ← decode a; b ← decode b; c ← decode c; d ← decode d; e ← decode e;
        Some (mkVote a b c d e)
      | _ => None
      end) _).
  intros []. cbn -[encode decode]. by repeat (rewrite decode_encode; cbn -[encode decode]).
Defined.
#[export] Instance Header_countable : Countable Header.
Proof.
  refine (inj_countable
    (λ x, [encode (h_Height x); encode (h_Time x); encode (h_AppHash x)])
    (λ l, match l with
      | [a; b; c] =>
        a ← decode a; b ← decode b; c ← decode c;
        Some (mkHeader a b c)
      | _ => None
      end) _).
  intros []. cbn -[encode decode]. by repeat (rewrite decode_encode; cbn -[encode decode]).
Defined.
#[export] Instance GenesisValidator_countable : Countable GenesisValidator.
Proof.
  refine (inj_countable
    (λ x, [encode (gv_Address x); encode (gv_PubKey x); encode (gv_Power x); encode (gv_Name x)])
    (λ l, match l with
      | [a; b; c; d] =>
        a ← decode a; b ← decode b; c ← decode c; d ← decode d;
        Some (mkGenesisValidator a b c d)
      | _ => None
      end) _).
  intros []. cbn -[encode decode]. by repeat (rewrite decode_encode; cbn -[encode decode]).
Defined.
#[export] Instance VoteTx_countable : Countable VoteTx.
Proof.
  refine (inj_countable
    (λ x, [encode (vt_EncryptionKeyIndexes x); encode (vt_Nonce x); encode (vt_Nullifier x);
      encode (vt_ProcessID x); encode (vt_Proof x); encode (vt_Signature x);
      encode (vt_Type x); encode (vt_VotePackage x); encode (vt_SignedBytes x)])
    (λ l, match l with
      | [a; b; c; d; e; f; g; h; i] =>
        a ← decode a; b ← decode b; c ← decode c; d ← decode d; e ← decode e; f ← decode f;
        g ← decode g; h ← decode h; i ← decode i;
        Some (mkVoteTx a b c d e f g h i)
      | _ => None
      end) _).
  intros []. cbn -[encode decode]. by repeat (rewrite decode_encode; cbn -[encode decode]).
Defined.
#[export] Instance NewProcessTx_countable : Countable NewProcessTx.
Proof.
  refine (inj_countable
    (λ x, [encode (np_EntityID x); encode (np_MkRoot x); encode (np_MkURI x);
      encode (np_NumberOfBlocks x); encode (np_ProcessID x); encode (np_ProcessType x);
      encode (np_Signature x); encode (np_StartBlock x); encode (np_Type x);
      encode (np_SignedBytes x)])
    (λ l, match l with
      | [a; b; c; d; e; f; g; h; i; j] =>
        a ← decode a; b ← decode b; c ← decode c; d ← decode d; e ← decode e; f ← decode f;
        g ← decode g; h ← decode h; i ← decode i; j ← decode j;
        Some (mkNewProcessTx a b c d e f g h i j)
      | _ => None
      end) _).
  intros []. cbn -[encode decode]. by repeat (rewrite decode_encode; cbn -[encode decode]).
Defined.
#[export] Instance CancelProcessTx_countable : Countable CancelProcessTx.
Proof.
  refine (inj_countable
    (λ x, [encode (cp_ProcessID x); encode (cp_Signature x); encode (cp_Type x);
      encode (cp_SignedBytes x)])
    (λ l, match l with
      | [a; b; c; d] =>
        a ← decode a; b ← decode b; c ← decode c; d ← decode d;
        Some (mkCancelProcessTx a b c d)
      | _ => None
      end) _).
  intros []. cbn -[encode decode]. by repeat (rewrite decode_encode; cbn -[encode decode]).
Defined.
#[export] Instance AdminTx_countable : Countable AdminTx.
Proof.
  refine (inj_countable
    (λ x, [encode (at_Address x); encode (at_CommitmentKey x); encode (at_EncryptionPrivateKey x);
      encode (at_EncryptionPublicKey x); encode (at_KeyIndex x); encode (at_Nonce x);
      encode (at_Power x); encode (at_ProcessID x); encode (at_PubKey x);
      encode (at_RevealKey x); encode (at_Signature x); encode (at_Type x);
      encode (at_SignedBytes x)])
    (λ l, match l with
      | [a; b; c; d; e; f; g; h; i; j; k; l; m] =>
        a ← decode a; b ← decode b; c ← decode c; d ← decode d; e ← decode e; f ← decode f;
        g ← decode g; h ← decode h; i ← decode i; j ← decode j; k ← decode k; l ← decode l;
        m ← decode m;
        Some (mkAdminTx a b c d e f g h i j k l m)
      | _ => None
      end) _).
  intros []. cbn -[encode decode]. by repeat (rewrite decode_encode; cbn -[encode decode]).
Defined.

Definition codec_of (A : Type) `{Countable A} : Codec A := {|
  MarshalBinaryBare x := Ok (Some (enc x));
  UnmarshalBinaryBare b :=
    match b with Some b => dec b | None => Err "cannot decode empty bytes" end |}.
Lemma codec_of_roundtrips {A} `{Countable A} (x : A) : @roundtrips A (codec_of A) x.
Proof.
  exists (enc x). split_and!; [done| |simpl; apply dec_enc]. unfold enc. by destruct (encode x).
Qed.
#[export] Instance concrete_amino : AminoLib := {|
  codec_process := codec_of Process; codec_vote := codec_of Vote; codec_header := codec_of Header;
  codec_strings := codec_of (list string); codec_validators := codec_of (list GenesisValidator) |}.
#[export] Instance concrete_amino_laws : AminoLaws.
Proof. constructor; intros; try apply codec_of_roundtrips; by eexists. Qed.

(** Transactions travel with their type tag. *)
Definition json_of {A} `{Countable A} (b : bytes) : res A :=
  '(_, x) ← dec (A := string * A) b; Ok x.
Definition tx_bytes {A} `{Countable A} (type : string) (x : A) : bytes := enc (type, x).
#[export] Instance concrete_json : TxJSON := {|
  json_type b := '(t, _) ← dec (A := string * positive) b; Ok t;
  json_VoteTx := json_of; json_AdminTx := json_of; json_NewProcessTx := json_of;
  json_CancelProcessTx := json_of;
  marshal_VoteTx t := Ok (tx_bytes (vt_Type t) t); marshal_AdminTx t := Ok (tx_bytes (at_Type t) t);
  marshal_NewProcessTx t := Ok (tx_bytes (np_Type t) t);
  marshal_CancelProcessTx t := Ok (tx_bytes (cp_Type t) t) |}.

#[export] Instance GenesisAppState_eq_dec : EqDecision GenesisAppState.
Proof. solve_decision. Defined.
#[export] Instance GenesisAppState_countable : Countable GenesisAppState.
Proof.
  refine (inj_countable
    (λ x, [encode (gas_Validators x); encode (gas_Oracles x)])
    (λ l, match l with
      | [a; b] =>
        a ← decode a; b ← decode b;
        Some (mkGenesisAppState a b)
      | _ => None
      end) _).
  intros []. cbn -[encode decode]. by repeat (rewrite decode_encode; cbn -[encode decode]).
Defined.
#[export] Instance concrete_genesis_json : GenesisJSON := {| json_GenesisAppState := dec |}.

(** ** The cryptography

    A key pair is one byte; a signature carries the key and the hash it signs.
    The hash is a polynomial modulo [2^16], printed in 32 bytes. *)
Fixpoint le_bytes (n : nat) (x : Z) : bytes :=
  match n with O => [] | S n' => z2b x :: le_bytes n' (x / 256) end.
Definition poly_hash (seed : Z) (b : bytes) : bytes :=
  le_bytes 32 (foldl (λ h x, Z.land (h * 33 + b2z x) 65535) seed b).
Definition zeros (n : nat) : bytes := replicate n Byte.x00.
Definition sig_of (hash : bytes) (k v : byte) : bytes := k :: hash ++ zeros 31 ++ [v].

#[export] Instance concrete_crypto : CryptoLib := {|
  ecdsa_PublicKey := byte; ecdsa_PrivateKey := byte;
  Keccak256 := poly_hash 7;
  SigToPub hash sig :=
    match sig with
    | k :: _ => if decide (take 64 sig = take 64 (sig_of hash k Byte.x00)) then Some k else None
    | [] => None
    end;
  ecdsa_Sign hash k := Some (sig_of hash k Byte.x00);
  VerifySignature pub hash sig :=
    match sig with k :: _ => bool_decide (sig = take 64 (sig_of hash k Byte.x00)) | [] => false end;
  CompressPubkey k := Byte.x02 :: zeros 31 ++ [k];
  DecompressPubkey b := match drop 32 b with [k] => Some k | _ => None end;
  FromECDSAPub k := Byte.x04 :: zeros 63 ++ [k];
  UnmarshalPubkey b := match drop 64 b with [k] => Some k | _ => None end;
  PubkeyToAddress k := zeros 19 ++ [k];
  PrivateBytes k := zeros 31 ++ [k];
  HexToAddress s := match hex_DecodeString (TrimHex s) with Ok b => b | _ => [] end;
  PoseidonHash := poly_hash 11;
  X25519 k := if decide (length k = 32%nat) then Some k else None;
  OpenAnonymous cipher _ _ := Some cipher;
  graviton_proof := bytes;
  graviton_Unmarshal := Some;
  graviton_VerifyMembership p root key := bool_decide (p = root ++ key);
  tm_Address pk := take 20 pk;
  tm_HexString := sprintf_x |}.
#[export] Instance concrete_crypto_laws : CryptoLaws.
Proof.
  constructor; try done.
  - intros k pub. simpl. case_decide; naive_solver.
  - intros a b. apply sprintf_x_inj.
Qed.

(** ** A node with one oracle *)
Definition cstate : Type := State (@IavlState ctree citree) ().
Definition sign (k : byte) (msg : bytes) : string :=
  sprintf_x (sig_of (ethereum.Hash msg) k Byte.x00).
Definition oracle_key : byte := Byte.x0a.
Definition oracle_addr : string := sprintf_x (zeros 19 ++ [oracle_key]).
Definition genesis : bytes := enc (mkGenesisAppState [] [oracle_addr]).

(** The signed transactions, as the clients send them. *)
Definition signed_NewProcess (k : byte) (tx : NewProcessTx) : bytes :=
  tx_bytes (np_Type tx) (mkNewProcessTx (np_EntityID tx) (np_MkRoot tx) (np_MkURI tx)
    (np_NumberOfBlocks tx) (np_ProcessID tx) (np_ProcessType tx)
    (sign k (tx_bytes (np_Type tx) tx)) (np_StartBlock tx) (np_Type tx) (np_SignedBytes tx)).
Definition signed_Vote (k : byte) (tx : VoteTx) : bytes :=
  let unsigned := mkVoteTx (vt_EncryptionKeyIndexes tx) (vt_Nonce tx) (vt_Nullifier tx)
    (vt_ProcessID tx) (vt_Proof tx) "" "" (vt_VotePackage tx) [] in
  tx_bytes TxVote (mkVoteTx (vt_EncryptionKeyIndexes tx) (vt_Nonce tx) (vt_Nullifier tx)
    (vt_ProcessID tx) (vt_Proof tx) (sign k (tx_bytes "" unsigned)) TxVote (vt_VotePackage tx) []).
Definition signed_Admin (k : byte) (tx : AdminTx) : bytes :=
  tx_bytes (at_Type tx) (mkAdminTx (at_Address tx) (at_CommitmentKey tx) (at_EncryptionPrivateKey tx)
    (at_EncryptionPublicKey tx) (at_KeyIndex tx) (at_Nonce tx) (at_Power tx) (at_ProcessID tx)
    (at_PubKey tx) (at_RevealKey tx) (sign k (tx_bytes (at_Type tx) tx)) (at_Type tx) (at_SignedBytes tx)).
Definition signed_Cancel (k : byte) (tx : CancelProcessTx) : bytes :=
  tx_bytes (cp_Type tx) (mkCancelProcessTx (cp_ProcessID tx) (sign k (tx_bytes (cp_Type tx) tx)) (cp_Type tx) []).

(** A poll of the process id [11..1] over the census that holds voter [k]. *)
Definition pid1 : bytes := replicate 32 Byte.x11.
Definition root1 : bytes := replicate 32 Byte.x77.
Definition new_process (type : string) : NewProcessTx :=
  mkNewProcessTx (sprintf_x (replicate 20 Byte.x22)) (sprintf_x root1) "ipfs://census" 10
    (sprintf_x pid1) type "" 1 TxNewProcess [].
Definition census_proof (k : byte) : string :=
  sprintf_x (root1 ++ PoseidonHash (FromECDSAPub (k : ecdsa_PublicKey))).
Definition vote_tx (k : byte) (pkg : string) : VoteTx :=
  mkVoteTx [] "" "" (sprintf_x pid1) (census_proof k) "" TxVote pkg [].
Definition header_at (h : Z) : Header := mkHeader h (1600000000 + h) [].
Definition nullifier_of (k : byte) : bytes :=
  GenerateNullifier (PubkeyToAddress (k : ecdsa_PublicKey)) pid1.

(** The state after [NewState] and [InitChain]. *)
Definition at_genesis : res cstate :=
  match NewState (mtree := ctree) (itree := citree) "data" with
  | Ok s => match InitChain genesis s with (Ok _, s') => Ok s' | (_, _) => Err "genesis" end
  | Err e => Err e
  | Panic w => Panic w
  end.
Definition run_from_genesis (cs : list abci_call) : option cstate :=
  match at_genesis with Ok s => run_calls cs s | _ => None end.

Definition node_at (cs : list abci_call) : cstate :=
  default (mkState (mkIavlState "" "" ∅ (mkCtree ∅ ∅ 0)) ∅ ()) (run_from_genesis cs).
Definition runs (cs : list abci_call) : bool :=
  match run_from_genesis cs with Some _ => true | None => false end.

Lemma runs_node_at cs : runs cs = true → run_from_genesis cs = Some (node_at cs).
Proof. unfold runs, node_at. by destruct (run_from_genesis cs). Qed.
Lemma run_calls_app (cs cs' : list abci_call) (s s1 : cstate) : run_calls cs s = Some s1 →
  run_calls (cs ++ cs') s = run_calls cs' s1.
Proof.
  revert s. induction cs as [|c cs IH]; intros s; simpl; [by intros [= ->]|].
  destruct (run_call c s) as [s'|]; simpl; [apply IH|done].
Qed.
Lemma node_at_steps cs cs' : runs cs = true → runs (cs ++ cs') = true →
  steps (node_at cs) cs' (node_at (cs ++ cs')).
Proof.
  intros H1%runs_node_at H2%runs_node_at. apply steps_run. revert H1 H2. unfold run_from_genesis.
  destruct at_genesis as [s0| |]; [|done|done]. intros H1 H2. by rewrite <- (run_calls_app _ _ _ _ H1).
Qed.
