(* ===== verification/Safety.v ===== *)
(** * Safety of the vochain

    What holds of every run of a node: the invariant of its store from an
    empty directory on, permanence of committed votes, the life of a process,
    what an accepted vote has gone through, and who may change what. *)

From stdpp Require Import base gmap strings list fin_maps.
From Stdlib Require Import ZArith Lia.
From S2P Require Import Prelude GoLib Types StateDB Crypto IavlState Codec State Transaction App.
From S2P Require Import StateFacts ProcessKeys Invariant Genesis Concrete.
Open Scope Z_scope.

(** ** The concrete node is a node *)
Lemma concrete_empty_dir dir : empty_dir (mtree := ctree) (itree := citree) dir.
Proof. intros n. by eexists. Qed.

Lemma genesis_decodes : genesis_state genesis = Ok (mkGenesisAppState [] [oracle_addr]).
Proof. vm_compute. reflexivity. Qed.

Lemma at_genesis_ok : is_ok at_genesis = true.
Proof. vm_compute. reflexivity. Qed.
Lemma at_genesis_inv s : at_genesis = Ok s → store_inv (Store s).
Proof.
  destruct (NewState_blank (mtree := ctree) (itree := citree) "data" (concrete_empty_dir _))
    as (s0 & Hs & Hb & _).
  unfold at_genesis. rewrite Hs. destruct (InitChain_store s0 _ _ Hb genesis_decodes) as [Hi _].
  destruct (InitChain genesis s0) as [[] s1]; [|done|done]. by intros [= <-].
Qed.
Lemma node_at_inv cs : runs cs = true → store_inv (Store (node_at cs)).
Proof.
  intros Hr%runs_node_at. unfold run_from_genesis in Hr.
  destruct at_genesis as [s0| |] eqn:Eg; [|done|done].
  apply steps_run in Hr. eapply steps_good; [exact Hr|by apply at_genesis_inv].
Qed.

(** A block with a new poll, one with a vote, and an empty one. *)
Definition block1 : list abci_call :=
  [CBeginBlock (header_at 1) 0;
   CDeliverTx (signed_NewProcess oracle_key (new_process PollVote)) 0; CCommit].
Definition voter : byte := Byte.x05.
Definition block2 : list abci_call :=
  [CBeginBlock (header_at 2) 0; CDeliverTx (signed_Vote voter (vote_tx voter "yes")) 0; CCommit].
Definition block3 : list abci_call := [CBeginBlock (header_at 3) 0; CCommit].
Definition vote1 : Vote := mkVote [] 2 (nullifier_of voter) pid1 "yes".
Definition poll1 : Process :=
  mkProcess false [] [] [] (replicate 20 Byte.x22) 0 (sprintf_x root1) 10 false [] 1 PollVote.

(** ** The invariant, from the empty directory on *)
Section node.
Context {mtree itree L : Type} `{IavlLaws mtree itree} `{AminoLaws} `{CryptoLaws} `{TxJSON}
        `{GenesisJSON} `{!EventListener (@IavlState mtree itree) L}.

(** C1: a node started on an empty directory, whatever listeners are attached
    to its state, satisfies the store invariant after [InitChain] and any
    sequence of ABCI calls: every stored process is well formed under a
    32-byte id, every stored vote decodes, lies under its own process id and
    nullifier and belongs to a stored process, and nothing committed is
    missing from the working trees. *)
Theorem node_invariant dir g gas s0 (s1 : State _ L) r s2 cs s3 :
  empty_dir (mtree := mtree) dir → NewState dir = Ok s0 → Store s1 = Store s0 →
  genesis_state g = Ok gas → InitChain g s1 = (r, s2) → steps s2 cs s3 →
  store_inv (Store s3).
Proof.
  intros Hd Hn Hs Hg Hi Hst. destruct (NewState_blank dir Hd) as (s0' & Hn' & Hb & _).
  assert (s0' = s0) as -> by congruence. rewrite <- Hs in Hb.
  destruct (InitChain_store s1 g gas Hb Hg) as [Hinv _]. rewrite Hi in Hinv.
  by destruct (steps_good _ _ _ Hst Hinv).
Qed.
End node.

Lemma node_invariant_witness : ∃ s0 s2,
  NewState (mtree := ctree) (itree := citree) "data" = Ok s0 ∧
  InitChain genesis s0 = (Ok (), s2) ∧
  steps s2 (block1 ++ block2) (node_at (block1 ++ block2)) ∧
  store_inv (Store (node_at (block1 ++ block2))).
Proof.
  pose proof at_genesis_ok as Hok. unfold at_genesis in Hok.
  destruct (NewState (mtree := ctree) (itree := citree) "data") as [s0| |] eqn:En; [|done|done].
  destruct (InitChain genesis s0) as [[[]| |] s2] eqn:Ei; [|done|done].
  assert (at_genesis = Ok s2) as Hg by (unfold at_genesis; by rewrite En, Ei).
  assert (steps s2 (block1 ++ block2) (node_at (block1 ++ block2))) as Hst.
  { apply steps_run. transitivity (run_from_genesis (block1 ++ block2)).
    - unfold run_from_genesis. by rewrite Hg.
    - apply runs_node_at. vm_compute. reflexivity. }
  exists s0, s2. split_and!; [done|done|done|].
  apply (node_invariant "data" genesis _ s0 s0 _ s2 (block1 ++ block2) _ (concrete_empty_dir _) En
    eq_refl genesis_decodes Ei Hst).
Defined.

(** ** Committed votes and processes over time *)
Section history.
Context {DB L : Type} `{StateDBSpec DB} `{AminoLaws} `{CryptoLib} `{TxJSON} `{GenesisJSON}
        `{!EventListener DB L}.
Implicit Types (d : DB) (s : State DB L).

Lemma Envelope_sizes d pid nul q v : Envelope d pid nul q = Ok v →
  length pid = 32%nat ∧ length nul = 32%nat.
Proof.
  unfold Envelope, recovered. destruct (voteID pid nul) as [vid| |] eqn:Ev; [|done|done].
  by apply voteID_Ok in Ev as (? & ? & _).
Qed.
Lemma Process_cproc d pid p : store_ok d → Process_ d pid true = Ok p ↔ cproc d pid = Some p.
Proof.
  intros Hok. unfold Process_, tree_get, cproc. rewrite ITreeGet_ck by (done || apply vt_process).
  simpl. destruct (ck d ProcessTree pid) as [b|]; simpl; [|done].
  destruct (UnmarshalBinaryBare (Some b)); naive_solver.
Qed.
Lemma cvote_later d d' vid v : later d d' → cvote d vid = Some v → cvote d' vid = Some v.
Proof.
  intros [Hv _]. unfold cvote. destruct (ck d VoteTree vid) as [b|] eqn:E; [|done].
  by rewrite (Hv _ _ E).
Qed.

(** C3: a vote that a query of the committed state returns is returned, with
    the same content, after any further sequence of ABCI calls: nothing
    removes, alters or replaces a committed vote. *)
Theorem committed_vote_permanent s cs s' pid nul v :
  store_inv (Store s) → steps s cs s' →
  Envelope (Store s) pid nul true = Ok v → Envelope (Store s') pid nul true = Ok v.
Proof.
  intros Hi Hst He. destruct (steps_good _ _ _ Hst Hi) as [Hi' Hl].
  destruct (Envelope_sizes _ _ _ _ _ He) as [Hp Hn].
  apply Envelope_cvote in He; [|apply Hi|done|done].
  apply Envelope_cvote; [apply Hi'|done|done|]. by eapply cvote_later.
Qed.

(** C4: a committed process never disappears; its entity, census root,
    start, duration, type and pause flag never change, it never comes back
    from being cancelled, and a key slot once filled keeps its key. *)
Theorem committed_process_evolves s cs s' pid p :
  store_inv (Store s) → steps s cs s' → Process_ (Store s) pid true = Ok p →
  ∃ p', Process_ (Store s') pid true = Ok p' ∧ evolves p p' ∧ proc_wf p'.
Proof.
  intros Hi Hst Hp. destruct (steps_good _ _ _ Hst Hi) as [Hi' [_ Hl]].
  apply Process_cproc in Hp; [|apply Hi]. destruct (Hl _ _ Hp) as (p' & Hp' & Hev).
  exists p'. split_and!; [apply Process_cproc; [apply Hi'|done]|done|].
  unfold cproc in Hp'. destruct (ck (Store s') ProcessTree pid) as [b|] eqn:E; [|done].
  destruct (si_cproc _ Hi' _ _ E) as (_ & q & Hq & Hwf). by simplify_eq.
Qed.

(** C5: once the cancellation of a process is committed, no vote for it passes
    the check again, whatever the cache holds. *)
Theorem canceled_process_closed s cs s' pid p tx now c :
  store_inv (Store s) → steps s cs s' → Process_ (Store s) pid true = Ok p → p_Canceled p = true →
  hex_DecodeString (vt_ProcessID tx) = Ok pid → is_ok (VoteTxCheck tx now c s').1 = false.
Proof.
  intros Hi Hst Hp Hc Hd. destruct (steps_good _ _ _ Hst Hi) as [Hi' [_ Hl]].
  apply Process_cproc in Hp; [|apply Hi]. destruct (Hl _ _ Hp) as (p1 & Hp1 & Hev1).
  destruct (si_procs _ Hi' _ _ Hp1) as (p2 & Hp2 & Hev2).
  destruct (VoteTxCheck tx now c s') as [[v| |] s2] eqn:Ev; [|done|done]. exfalso.
  destruct (VoteTxCheck_Ok _ _ _ _ _ _ Ev) as (pid' & q & Ho & _).
  destruct (open_process_Ok _ _ _ _ (si_ok _ Hi') Ho) as (h & Hd' & Hq & _ & _ & Hnc & _).
  assert (pid' = pid) as -> by congruence. assert (q = p2) as -> by congruence.
  rewrite (ev_canceled _ _ Hev2) in Hnc; [done|]. by apply (ev_canceled _ _ Hev1).
Qed.

(** C6: nobody votes twice: once a vote is committed, no transaction for the
    same process is ever accepted again under its nullifier. *)
Theorem no_second_vote s cs s' pid nul v tx now c :
  store_inv (Store s) → Envelope (Store s) pid nul true = Ok v → steps s cs s' →
  hex_DecodeString (vt_ProcessID tx) = Ok pid → (AddTx (GVoteTx tx) now c s').1 ≠ Ok nul.
Proof.
  intros Hi He Hst Hd Hr. destruct (steps_good _ _ _ Hst Hi) as [Hi' Hl].
  destruct (Envelope_sizes _ _ _ _ _ He) as [Hp Hn]. apply Envelope_cvote in He; [|apply Hi|done|done].
  apply (cvote_later _ _ _ _ Hl) in He. revert Hr. simpl. rewrite bind_run.
  destruct (VoteTxCheck tx now c s') as [[w| |] s2] eqn:Ev; [|done|done].
  destruct (VoteTxCheck_Ok _ _ _ _ _ _ Ev) as (pid' & q & Ho & Hw & _ & _ & Hex).
  destruct (open_process_Ok _ _ _ _ (si_ok _ Hi') Ho) as (h & Hd' & _).
  assert (pid' = pid) as -> by congruence.
  rewrite bind_run. destruct ((if c then AddVote w else mret ()) s2) as [[[]| |] s3]; [|done|done].
  intros [= Hnul]. rewrite Hnul, EnvelopeExists_ck, voteID_32 in Hex by (done || apply Hi').
  injection Hex as Hex. go_bool. unfold cvote in He.
  destruct (ck (Store s') VoteTree (pid ++ nul)) as [b|] eqn:E; [|done].
  destruct (si_cvote _ Hi' _ _ E) as (? & _ & Hb & _). naive_solver.
Qed.
End history.

Lemma block12_runs : runs (block1 ++ block2) = true.
Proof. vm_compute. reflexivity. Qed.
Lemma block123_runs : runs ((block1 ++ block2) ++ block3) = true.
Proof. vm_compute. reflexivity. Qed.
Lemma vote1_committed : Envelope (Store (node_at (block1 ++ block2))) pid1 (nullifier_of voter) true = Ok vote1.
Proof. vm_compute. reflexivity. Qed.

Lemma committed_vote_permanent_witness :
  Envelope (Store (node_at ((block1 ++ block2) ++ block3))) pid1 (nullifier_of voter) true = Ok vote1.
Proof.
  apply (committed_vote_permanent (node_at (block1 ++ block2)) block3 _ _ _ _ (node_at_inv _ block12_runs)).
  - apply node_at_steps; [exact block12_runs|exact block123_runs].
  - exact vote1_committed.
Defined.

Lemma committed_process_evolves_witness : ∃ p',
  Process_ (Store (node_at ((block1 ++ block2) ++ block3))) pid1 true = Ok p' ∧ evolves poll1 p' ∧ proc_wf p'.
Proof.
  apply (committed_process_evolves (node_at (block1 ++ block2)) block3 _ _ _ (node_at_inv _ block12_runs)).
  - apply node_at_steps; [exact block12_runs|exact block123_runs].
  - vm_compute. reflexivity.
Defined.

Definition cancel_block : list abci_call :=
  [CBeginBlock (header_at 2) 0;
   CDeliverTx (signed_Cancel oracle_key (mkCancelProcessTx (sprintf_x pid1) "" TxCancelProcess [])) 0;
   CCommit].
Lemma canceled_process_closed_witness :
  is_ok (VoteTxCheck (vote_tx voter "yes") 0 true (node_at ((block1 ++ cancel_block) ++ block3))).1 = false.
Proof.
  apply (canceled_process_closed (node_at (block1 ++ cancel_block)) block3 _ pid1 (set_Canceled true poll1)).
  - apply node_at_inv. vm_compute. reflexivity.
  - apply node_at_steps; vm_compute; reflexivity.
  - vm_compute. reflexivity.
  - reflexivity.
  - vm_compute. reflexivity.
Defined.

Lemma no_second_vote_witness :
  (AddTx (GVoteTx (vote_tx voter "no")) 0 true (node_at ((block1 ++ block2) ++ block3))).1
    ≠ Ok (nullifier_of voter).
Proof.
  apply (no_second_vote (node_at (block1 ++ block2)) block3 _ pid1 (nullifier_of voter) vote1).
  - exact (node_at_inv _ block12_runs).
  - exact vote1_committed.
  - apply node_at_steps; [exact block12_runs|exact block123_runs].
  - vm_compute. reflexivity.
Defined.

(** ** What an accepted vote has gone through *)
Section admission.
Context {DB L : Type} `{StateDBSpec DB} `{AminoLaws} `{CryptoLaws} `{!EventListener DB L}.
Implicit Types (d : DB) (s : State DB L).

Lemma verify_vote_Ok tx p pid now d vp : verify_vote tx p pid now d = Ok vp →
  ∃ pk addr key, ethereum.PubKeyFromSignature (vt_SignedBytes tx) (vt_Signature tx) = Ok pk ∧
    ethereum.AddrFromSignature (vt_SignedBytes tx) (vt_Signature tx) = Ok addr ∧
    vp_Nullifier vp = GenerateNullifier addr pid ∧ hex_DecodeString pk = Ok key ∧
    checkMerkleProof (p_MkRoot p) (vt_Proof tx) (PoseidonHash key) = Ok true.
Proof.
  intros Hr. unfold verify_vote in Hr. go_inv Hr. go_bool. subst.
  repeat match goal with H : or_err _ ?r = Ok _ |- _ =>
    let E := fresh "E" in destruct r eqn:E; simpl in H; [injection H as H; subst|done|done] end.
  do 3 eexists. split_and!; try done.
  match goal with Hpk : ethereum.PubKeyFromSignature _ _ = Ok _ |- _ =>
    by rewrite <- (ethereum.AddrFromPublicKey_of_signature _ _ _ Hpk) end.
Qed.

(** The vote as it reaches the store. *)
Lemma AddVote_stores s v vid h : store_ok (Store s) → voteID (v_ProcessID v) (v_Nullifier v) = Ok vid →
  Header_ (Store s) false = Ok (Some h) →
  wvote (Store (AddVote v s).2) vid = Some (set_Height (h_Height h) v).
Proof.
  intros Hok Hv Hh. unfold AddVote. rewrite bind_run, lift_run, Hv, bind_run, on_store_run, Hh.
  destruct (roundtrips_marshal_or "cannot marshal vote" (set_Height (h_Height h) v)) as (b & Hm & _ & Hu).
  { apply law_amino_vote. simpl. apply voteID_Ok in Hv as (Hl & _). by destruct (v_ProcessID v). }
  destruct (store_add_Some s VoteTree vid b Hok) as (d' & Hs & Ha); [apply vt_vote|].
  rewrite bind_run, lift_run, bind_run, lift_run, Hm, bind_run, Hs, notify_Store.
  unfold wvote. simpl. rewrite (adds_wk_same _ _ _ _ _ Ha). simpl. by rewrite Hu.
Qed.

(** The successful delivery of a vote, taken apart. *)
Lemma AddTx_vote_Ok tx now s nul s' : store_ok (Store s) →
  AddTx (GVoteTx tx) now true s = (Ok nul, s') →
  ∃ pid p h, open_process tx (Store s) = Ok (pid, p) ∧ Header_ (Store s) false = Ok (Some h) ∧
    nullifier_source tx p pid now true s nul ∧ EnvelopeExists (Store s) pid nul = Ok false ∧
    (ProcessIsEncrypted (p_Type p) = true → vt_EncryptionKeyIndexes tx ≠ []) ∧
    Envelope (Store s') pid nul false = Ok (set_Height (h_Height h) (vote_of tx p pid nul)).
Proof.
  intros Hok. simpl. rewrite bind_run. pose proof (VoteTxCheck_Store tx now true s) as Hs.
  destruct (VoteTxCheck tx now true s) as [[v| |] s1] eqn:Ev; [|done|done]. simpl in Hs.
  destruct (VoteTxCheck_Ok _ _ _ _ _ _ Ev) as (pid & p & Ho & Hv & Hk & Hn & Hex).
  destruct (open_process_Ok _ _ _ _ Hok Ho) as (h & _ & _ & Hh & _).
  rewrite bind_run. destruct (AddVote v s1) as [[[]| |] s2] eqn:Ea; [|done|done].
  intros [= <- <-]. exists pid, p, h. split_and!; try done.
  assert (is_ok (AddVote v s1).1 = true) as Hid by by rewrite Ea.
  unfold AddVote in Hid. rewrite bind_run, lift_run in Hid.
  destruct (voteID (v_ProcessID v) (v_Nullifier v)) as [vid| |] eqn:Evid; [|done|done]. clear Hid.
  assert (v_ProcessID v = pid) as Hpid by by rewrite Hv.
  apply voteID_Ok in Evid as Hsz. rewrite Hpid in Hsz. destruct Hsz as (Hlp & Hln & ->).
  rewrite <- Hs in Hok, Hh. pose proof (AddVote_stores s1 v _ h Hok Evid Hh) as Hst. rewrite Ea in Hst.
  apply Envelope_wvote; [|done|done|by rewrite <- Hv].
  destruct (AddVote_effect s1 v Hok) as [E|(? & ? & ? & _ & _ & Ha & _)]; rewrite Ea in *; simpl in *;
    [by rewrite E|by eapply adds_ok].
Qed.

(** C7: a vote delivered without a cache entry is accepted only if the process
    exists, is open at the height of the block, is neither cancelled nor
    paused and has its keys, the sender recovered from the signature has the
    nullifier [keccak(address ++ processID)] the vote gets, the census proof
    of the sender's key against the root of the process is valid, and no vote
    with that nullifier is committed; the vote can then be read back, with the
    height of the block. *)
Theorem vote_admission tx now s nul s' :
  store_ok (Store s) → (∀ t, VoteCacheGet (UniqID tx t) s = None) →
  AddTx (GVoteTx tx) now true s = (Ok nul, s') →
  ∃ pid p h pk key addr,
    hex_DecodeString (vt_ProcessID tx) = Ok pid ∧ Process_ (Store s) pid false = Ok p ∧
    Header_ (Store s) false = Ok (Some h) ∧ p_StartBlock p ≤ h_Height h ≤ end_block p ∧
    p_Canceled p = false ∧ p_Paused p = false ∧ (RequireKeys p = true → 1 ≤ p_KeyIndex p) ∧
    ethereum.PubKeyFromSignature (vt_SignedBytes tx) (vt_Signature tx) = Ok pk ∧
    ethereum.AddrFromSignature (vt_SignedBytes tx) (vt_Signature tx) = Ok addr ∧
    nul = Keccak256 (addr ++ pid) ∧ hex_DecodeString pk = Ok key ∧
    checkMerkleProof (p_MkRoot p) (vt_Proof tx) (PoseidonHash key) = Ok true ∧
    EnvelopeExists (Store s) pid nul = Ok false ∧
    Envelope (Store s') pid nul false = Ok (set_Height (h_Height h) (vote_of tx p pid nul)).
Proof.
  intros Hok Hc Hr. destruct (AddTx_vote_Ok _ _ _ _ _ Hok Hr) as (pid & p & h & Ho & Hh & Hn & Hex & _ & He).
  destruct (open_process_Ok _ _ _ _ Hok Ho) as (h' & Hd & Hp & Hh' & Hw & Hca & Hpa & Hk & _).
  assert (h' = h) as -> by congruence.
  destruct Hn as [(vp & Hg & _)|(vp & _ & Hv & ->)]; [by rewrite Hc in Hg|].
  destruct (verify_vote_Ok _ _ _ _ _ _ Hv) as (pk & addr & key & Hpk & Haddr & Hnul & Hkey & Hproof).
  exists pid, p, h, pk, key, addr. rewrite Process_wproc by done. by destruct Hw; split_and!.
Qed.

(** A vote delivered with a cache entry is not verified again: the outcome
    is the same for any two transactions that agree on the process id, the
    key indexes, the package and the 32 first characters of the signature,
    whatever the rest of the signature, the signed bytes and the census proof
    are. *)
Theorem cached_vote_not_verified tx tx' now now' s p pid vp :
  open_process tx (Store s) = Ok (pid, p) → VoteCacheGet (UniqID tx (p_Type p)) s = Some vp →
  vt_ProcessID tx' = vt_ProcessID tx → vt_EncryptionKeyIndexes tx' = vt_EncryptionKeyIndexes tx →
  vt_VotePackage tx' = vt_VotePackage tx → UniqID tx' (p_Type p) = UniqID tx (p_Type p) →
  AddTx (GVoteTx tx') now' true s = AddTx (GVoteTx tx) now true s.
Proof.
  intros Ho Hc Hp Hk Hv Hu.
  assert (open_process tx' (Store s) = Ok (pid, p)) as Ho' by (rewrite <- Ho; unfold open_process; by rewrite Hp).
  assert (VoteTxCheck tx' now' true s = VoteTxCheck tx now true s) as Heq; [|simpl; by rewrite !bind_run, Heq].
  unfold VoteTxCheck. rewrite !bind_run, !on_store_run, Ho, Ho'. rewrite !bind_run, !lift_run, Hk.
  destruct (guard_err _ _); [|done|done]. rewrite !bind_run. unfold reads. rewrite Hu, Hc.
  unfold deferred, vote_of. by rewrite Hk, Hv.
Qed.
End admission.

(** The transaction a client's bytes decode to. *)
Definition decoded_vote (b : bytes) : VoteTx :=
  match UnmarshalTx b with Ok (GVoteTx tx) => tx | _ => vote_tx voter "" end.
Definition yes_tx : VoteTx := decoded_vote (signed_Vote voter (vote_tx voter "yes")).
Definition open_block : list abci_call := block1 ++ [CBeginBlock (header_at 2) 0].
Lemma open_block_runs : runs open_block = true.
Proof. vm_compute. reflexivity. Qed.

Lemma open_block_cache_empty uid : VoteCacheGet uid (node_at open_block) = None.
Proof.
  assert (voteCache (node_at open_block) = ∅) as Hc by (vm_compute; reflexivity).
  unfold VoteCacheGet. rewrite Hc, lookup_empty. by case_decide.
Qed.
Lemma vote_admission_witness : ∃ s' h,
  AddTx (GVoteTx yes_tx) 0 true (node_at open_block) = (Ok (nullifier_of voter), s') ∧
  Header_ (Store (node_at open_block)) false = Ok (Some h) ∧
  Envelope (Store s') pid1 (nullifier_of voter) false = Ok (set_Height (h_Height h) vote1).
Proof.
  destruct (AddTx (GVoteTx yes_tx) 0 true (node_at open_block)) as [r s'] eqn:E.
  assert (r = Ok (nullifier_of voter)) as ->.
  { change r with (r, s').1. rewrite <- E. vm_compute. reflexivity. }
  destruct (vote_admission yes_tx 0 (node_at open_block) (nullifier_of voter) s')
    as (pid & p & h & pk & key & addr & Hd & Hp & Hh & _ & _ & _ & _ & _ & _ & _ & _ & _ & _ & He).
  - apply si_ok, node_at_inv, open_block_runs.
  - intros t. apply open_block_cache_empty.
  - exact E.
  - exists s', h. split; [reflexivity|split; [exact Hh|]].
    assert (Ok pid = Ok pid1) as [= ->] by (rewrite <- Hd; vm_compute; reflexivity).
    assert (Ok p = Ok poll1) as [= ->] by (rewrite <- Hp; vm_compute; reflexivity).
    rewrite He. vm_compute. reflexivity.
Defined.

(** The same 32 characters, then anything; another choice; no proof. *)
Definition forged_tx : VoteTx :=
  mkVoteTx [] "" "" (sprintf_x pid1) "" (String.substring 0 32 (vt_Signature yes_tx) +:+ "forged")
    TxVote "no" [].
Definition checked_block : list abci_call :=
  block1 ++ [CCheckTx (signed_Vote voter (vote_tx voter "yes")) 0 false; CBeginBlock (header_at 2) 0].
Lemma cached_vote_not_verified_witness :
  AddTx (GVoteTx (mkVoteTx [] "" "" (sprintf_x pid1) "" (vt_Signature forged_tx) TxVote "yes" [])) 1 true
    (node_at checked_block)
  = AddTx (GVoteTx yes_tx) 0 true (node_at checked_block).
Proof.
  destruct (VoteCacheGet (UniqID yes_tx PollVote) (node_at checked_block)) as [vp|] eqn:E;
    [|vm_compute in E; discriminate].
  apply (cached_vote_not_verified yes_tx _ 0 1 (node_at checked_block) poll1 pid1 vp);
    [vm_compute; reflexivity|exact E|vm_compute; reflexivity..].
Defined.


(** Within one block a voter may vote again: the duplicate check reads the
    committed tree only, so a second vote of the same voter is accepted and
    replaces the first. *)
Theorem same_block_vote_replaced :
  let deliver pkg := CDeliverTx (signed_Vote voter (vote_tx voter pkg)) 0 in
  let cs := block1 ++ [CBeginBlock (header_at 2) 0; deliver "yes"] in
  runs cs = true ∧
  (DeliverTx (signed_Vote voter (vote_tx voter "no")) 0 (node_at cs)).1
    = Ok (mkResponseTx 0 (nullifier_of voter)) ∧
  Envelope (Store (node_at (cs ++ [deliver "no"; CCommit]))) pid1 (nullifier_of voter) true
    = Ok (mkVote [] 2 (nullifier_of voter) pid1 "no").
Proof. vm_compute. split_and!; reflexivity. Qed.
