(* ===== verification/Refinement.v ===== *)
(** * The state database refines two maps

    The abstract store of the vochain is a pair of maps per tree, the one being
    worked on and the committed one.  [store_refines]: a store that meets the
    contract [StateDBSpec] answers every sequence of operations as the
    abstract store does; [iavl_store_refines] is its instance at the database
    the vochain runs on, [statedb/iavlstate]. *)

From stdpp Require Import base gmap strings list fin_maps.
From Stdlib Require Import ZArith Lia.
From S2P Require Import Prelude GoLib Types StateDB Crypto IavlState Codec State App StateFacts Invariant Concrete Safety.
Open Scope Z_scope.

(** ** Operations *)
Inductive store_op :=
  | OGet (tree : string) (key : bytes)
  | OAdd (tree : string) (key value : bytes)
  | OCount (tree : string)
  | OIGet (tree : string) (key : bytes)
  | OICount (tree : string)
  | OCommit
  | ORollback.
(** What an operation answers; the hash of a commit is not compared. *)
Inductive store_answer :=
  | AValue (v : option bytes)
  | ACount (n : Z)
  | ADone
  | AFailed.

(** ** The abstract store *)
Record astore := mkAstore {
  as_work : gmap string kvmap;
  as_comm : gmap string kvmap }.
Definition abstract_step (o : store_op) (a : astore) : store_answer * astore :=
  match o with
  | OGet n k => (match as_work a !! n with Some t => AValue (t !! k) | None => AFailed end, a)
  | OAdd n k v =>
      match as_work a !! n with
      | Some t => (ADone, mkAstore (<[n := <[k := v]> t]> (as_work a)) (as_comm a))
      | None => (AFailed, a)
      end
  | OCount n => (match as_work a !! n with Some t => ACount (Z.of_nat (size t)) | None => AFailed end, a)
  | OIGet n k => (match as_comm a !! n with Some t => AValue (t !! k) | None => AFailed end, a)
  | OICount n => (match as_comm a !! n with Some t => ACount (Z.of_nat (size t)) | None => AFailed end, a)
  | OCommit => (ADone, mkAstore (as_work a) (as_work a))
  | ORollback => (ADone, mkAstore (as_comm a) (as_comm a))
  end.
Fixpoint abstract_run (os : list store_op) (a : astore) : list store_answer :=
  match os with
  | [] => []
  | o :: os' => let '(x, a') := abstract_step o a in x :: abstract_run os' a'
  end.

Section refinement.
Context {DB : Type} `{StateDBSpec DB}.

(** ** The store itself *)
Definition answer {A} (f : A → store_answer) (r : res A) : store_answer :=
  match r with Ok a => f a | _ => AFailed end.
Definition store_step (o : store_op) (d : DB) : store_answer * DB :=
  match o with
  | OGet n k => (answer AValue (TreeGet d n k), d)
  | OAdd n k v => match TreeAdd d n k (Some v) with Ok d' => (ADone, d') | _ => (AFailed, d) end
  | OCount n => (answer ACount (TreeCount d n), d)
  | OIGet n k => (answer AValue (ITreeGet d n k), d)
  | OICount n => (answer ACount (ITreeCount d n), d)
  | OCommit => let '(r, d') := DBCommit d in (answer (λ _, ADone) r, d')
  | ORollback => let '(r, d') := DBRollback d in (answer (λ _, ADone) r, d')
  end.
Fixpoint store_run (os : list store_op) (d : DB) : list store_answer :=
  match os with
  | [] => []
  | o :: os' => let '(x, d') := store_step o d in x :: store_run os' d'
  end.

(** ** The simulation *)
Definition abstracts (d : DB) (a : astore) : Prop :=
  db_ok d ∧ db_work d = as_work a ∧ db_comm d = as_comm a.
(** The trees an operation names exist. *)
Definition known (names : gset string) (o : store_op) : Prop :=
  match o with
  | OGet n _ | OAdd n _ _ | OCount n | OIGet n _ | OICount n => n ∈ names
  | OCommit | ORollback => True
  end.
Definition has_trees (names : gset string) (a : astore) : Prop :=
  names ⊆ dom (as_work a) ∧ names ⊆ dom (as_comm a).

Lemma has_tree (names : gset string) (m : gmap string kvmap) n : names ⊆ dom m → n ∈ names → ∃ t, m !! n = Some t.
Proof. intros Hs Hn. apply Hs, elem_of_dom in Hn as [t Ht]. eauto. Qed.

Lemma step_refines names o d a : abstracts d a → has_trees names a → known names o →
  ∃ x d' a', store_step o d = (x, d') ∧ abstract_step o a = (x, a') ∧ abstracts d' a' ∧ has_trees names a'.
Proof.
  intros (Hok & Hw & Hc) [Tw Tc] Hk. destruct o as [n k|n k v|n|n k|n| |]; simpl in Hk; simpl.
  - destruct (has_tree _ _ _ Tw Hk) as [t Ht]. rewrite Ht. rewrite <- Hw in Ht.
    rewrite (db_get _ _ _ _ (or_intror Hok) Ht). simpl. by do 3 eexists.
  - destruct (has_tree _ _ _ Tw Hk) as [t Ht]. rewrite Ht. rewrite <- Hw in Ht.
    destruct (db_add d n t k v Hok Ht) as (d' & -> & Hok' & Hw' & Hc'). do 3 eexists. split_and!; [done..| |].
    + split_and!; [done|simpl; by rewrite Hw', Hw|simpl; by rewrite Hc'].
    + split; simpl; [rewrite dom_insert; set_solver|done].
  - destruct (has_tree _ _ _ Tw Hk) as [t Ht]. rewrite Ht. rewrite <- Hw in Ht.
    rewrite (db_count _ _ _ Hok Ht). simpl. by do 3 eexists.
  - destruct (has_tree _ _ _ Tc Hk) as [t Ht]. rewrite Ht. rewrite <- Hc in Ht.
    rewrite (db_iget _ _ _ _ Hok Ht). simpl. by do 3 eexists.
  - destruct (has_tree _ _ _ Tc Hk) as [t Ht]. rewrite Ht. rewrite <- Hc in Ht.
    rewrite (db_icount _ _ _ Hok Ht). simpl. by do 3 eexists.
  - destruct (db_commit d (or_intror Hok)) as (h & d' & -> & Hok' & Hw' & Hc'). do 3 eexists. split_and!; [done..| |].
    + split_and!; [done|simpl; by rewrite Hw'|simpl; by rewrite Hc'].
    + by split.
  - destruct (db_rollback d Hok) as (d' & -> & Hok' & Hw' & Hc'). do 3 eexists. split_and!; [done..| |].
    + split_and!; [done|simpl; by rewrite Hw'|simpl; by rewrite Hc'].
    + by split.
Qed.
Lemma store_refines names os : ∀ d a, abstracts d a → has_trees names a → Forall (known names) os →
  store_run os d = abstract_run os a.
Proof.
  induction os as [|o os IH]; intros d a Ha Ht Hos; [done|]. apply list.Forall_cons in Hos as [Ho Hos]. simpl.
  destruct (step_refines names o d a Ha Ht Ho) as (x & d' & a' & -> & -> & Ha' & Ht'). f_equal. by apply IH.
Qed.
End refinement.

(** C2: the database of the vochain, once something has been committed, answers
    every sequence of reads, writes, counts, commits and rollbacks on its trees
    as a pair of maps does: reads and writes on the working map, queries on
    the committed one, which a commit replaces and a rollback restores. *)
Theorem iavl_store_refines {mtree itree} `{IavlLaws mtree itree} `{CryptoLib} (names : gset string) os (d : IavlState) :
  db_ok d → names ⊆ dom (db_work d) → names ⊆ dom (db_comm d) → Forall (known names) os →
  store_run os d = abstract_run os (mkAstore (db_work d) (db_comm d)).
Proof. intros Hok Hw Hc Hos. by apply (store_refines names). Qed.

(** A rollback on the chain of two blocks. *)
Definition rollback_ops : list store_op :=
  [OAdd VoteTree pid1 [Byte.x01]; OGet VoteTree pid1; OIGet VoteTree pid1; ORollback; OGet VoteTree pid1].
Lemma iavl_store_refines_witness :
  store_run rollback_ops (Store (node_at (block1 ++ block2))) =
  [ADone; AValue (Some [Byte.x01]); AValue None; ADone; AValue None].
Proof.
  pose proof (si_ok _ (node_at_inv _ block12_runs)) as Hok.
  destruct (proj2 Hok _ vt_vote) as [[tw Hw] [tc Hc]].
  rewrite (iavl_store_refines {[VoteTree]} rollback_ops).
  - by vm_compute.
  - apply Hok.
  - apply singleton_subseteq_l, elem_of_dom. by exists tw.
  - apply singleton_subseteq_l, elem_of_dom. by exists tc.
  - unfold rollback_ops, known. repeat constructor; by apply elem_of_singleton.
Defined.
