(* ===== verification/Operations.v ===== *)
(** * The transactions one by one

    Who may send what, and what each accepted transaction does to the store:
    authorisation by the oracles, the frame of each transaction, the creation
    and cancellation of processes, encryption keys, the vote cache. *)

From stdpp Require Import base gmap strings list fin_maps.
From Stdlib Require Import ZArith Lia.
From S2P Require Import Prelude GoLib Types StateDB Crypto IavlState Codec State Transaction App.
From S2P Require Import StateFacts ProcessKeys Invariant Genesis Concrete Safety.
Open Scope Z_scope.

(** ** Authorisation *)
Section auth.
Context {DB L : Type} `{StateDBSpec DB} `{AminoLaws} `{CryptoLib} `{TxJSON} `{!EventListener DB L}.
Implicit Types (d : DB) (s : State DB L).

(** The message and the signature of a transaction that needs an oracle. *)
Definition oracle_part (gtx : GenericTX) : option (bytes * string) :=
  match gtx with
  | GVoteTx _ => None
  | GAdminTx tx => Some (at_SignedBytes tx, at_Signature tx)
  | GCancelProcessTx tx => Some (cp_SignedBytes tx, cp_Signature tx)
  | GNewProcessTx tx => Some (np_SignedBytes tx, np_Signature tx)
  end.

(** The address recovered from the signature is that of an oracle. *)
Definition oracle_signed d (msg : bytes) (sig : string) : Prop :=
  ∃ oracles addr, Oracles d false = Ok oracles ∧ ethereum.AddrFromSignature msg sig = Ok addr ∧
    addr ∈ HexToAddress <$> oracles.

Lemma oracle_keys_spec oracles addr :
  addr ∈ ethereum.sk_Authorized (oracle_keys oracles) ↔ addr ∈ HexToAddress <$> oracles.
Proof.
  unfold oracle_keys.
  assert (∀ k, addr ∈ ethereum.sk_Authorized
      (foldl (λ k oracle, ethereum.AddAuthKey (HexToAddress oracle) k) k oracles) ↔
    addr ∈ ethereum.sk_Authorized k ∨ addr ∈ HexToAddress <$> oracles) as Hk; [|rewrite Hk; set_solver].
  induction oracles as [|o os IH]; intros k; simpl; [set_solver|]. rewrite IH. set_solver.
Qed.
Lemma verify_oracles_signed d oracles msg sig addr : oracles_or_fail d = Ok oracles →
  verifySignatureAgainstOracles oracles msg sig = Ok (true, addr) → oracle_signed d msg sig.
Proof.
  intros Ho [Ha Hin]%ethereum.VerifySender_authorized. exists oracles, addr. split_and!; [|done|].
  - unfold oracles_or_fail in Ho. destruct (Oracles d false) as [[|o os]| |]; naive_solver.
  - by apply oracle_keys_spec.
Qed.

Ltac auth_tac Hr :=
  go_inv Hr;
  match goal with H : context [let '(_, _) := ?a in _] |- _ => destruct a as [ok addr] end;
  go_inv Hr; go_bool; subst; by eapply verify_oracles_signed.

Lemma AdminTxCheck_signed tx d : AdminTxCheck tx d = Ok () →
  oracle_signed d (at_SignedBytes tx) (at_Signature tx).
Proof. intros Hr. unfold AdminTxCheck in Hr. auth_tac Hr. Qed.
Lemma CancelProcessTxCheck_signed tx d : CancelProcessTxCheck tx d = Ok () →
  oracle_signed d (cp_SignedBytes tx) (cp_Signature tx).
Proof. intros Hr. unfold CancelProcessTxCheck in Hr. auth_tac Hr. Qed.
Lemma NewProcessTxCheck_signed tx d p : NewProcessTxCheck tx d = Ok p →
  oracle_signed d (np_SignedBytes tx) (np_Signature tx).
Proof. intros Hr. unfold NewProcessTxCheck in Hr. auth_tac Hr. Qed.

(** C10: a transaction other than a vote changes the store only if the address
    recovered from its signature is in the oracle list of the working state:
    without an oracle's signature the store is untouched, whatever the
    outcome of the transaction. *)
Theorem only_oracles_change_state gtx now c s msg sig :
  oracle_part gtx = Some (msg, sig) →
  Store (AddTx gtx now c s).2 = Store s ∨ oracle_signed (Store s) msg sig.
Proof.
  intros Ho. destruct gtx as [tx|tx|tx|tx]; simplify_eq/=; rewrite bind_run, on_store_run.
  - destruct (AdminTxCheck tx (Store s)) as [[]| |] eqn:E; [right|by left|by left].
    by apply AdminTxCheck_signed.
  - destruct (CancelProcessTxCheck tx (Store s)) as [[]| |] eqn:E; [right|by left|by left].
    by apply CancelProcessTxCheck_signed.
  - destruct (NewProcessTxCheck tx (Store s)) as [p| |] eqn:E; [right|by left|by left].
    by eapply NewProcessTxCheck_signed.
Qed.

(** ** Frames *)
Lemma AddTx_check_Store gtx now s : Store (AddTx gtx now false s).2 = Store s.
Proof.
  destruct gtx as [tx|tx|tx|tx]; simpl; rewrite bind_run.
  - pose proof (VoteTxCheck_Store tx now false s). by destruct (VoteTxCheck tx now false s) as [[] ?].
  - rewrite on_store_run. by destruct (AdminTxCheck tx (Store s)).
  - rewrite on_store_run. by destruct (CancelProcessTxCheck tx (Store s)).
  - rewrite on_store_run. by destruct (NewProcessTxCheck tx (Store s)).
Qed.

(** The mempool check of a transaction leaves the store as it is, whether it
    accepts, refuses or panics. *)
Lemma CheckTx_Store tx now recheck s : Store (CheckTx tx now recheck s).2 = Store s.
Proof.
  unfold CheckTx. destruct recheck; [done|]. rewrite bind_run. unfold try_.
  rewrite bind_run, lift_run. destruct (UnmarshalTx tx) as [gtx|e|w]; [|done|done].
  pose proof (AddTx_check_Store gtx now s) as Hs.
  by destruct (AddTx gtx now false s) as [[] ?].
Qed.

Lemma bind_mret_Store {A B} (m : GM (State DB L) A) (b : B) s :
  Store ((_ ← m; mret b) s).2 = Store (m s).2.
Proof. rewrite bind_run. by destruct (m s) as [[] ?]. Qed.

(** A delivered vote writes at most one key, in the vote tree: the id made
    of its process and nullifier. *)
Theorem vote_tx_frame tx now c s n k :
  store_ok (Store s) → wk (Store (AddTx (GVoteTx tx) now c s).2) n k ≠ wk (Store s) n k →
  n = VoteTree ∧ ∃ pid nul, hex_DecodeString (vt_ProcessID tx) = Ok pid ∧
    length pid = 32%nat ∧ length nul = 32%nat ∧ k = pid ++ nul.
Proof.
  intros Hok. simpl. rewrite bind_run. pose proof (VoteTxCheck_Store tx now c s) as Hs.
  destruct (VoteTxCheck tx now c s) as [[v|e|w] s1] eqn:Ev; simpl in Hs; [|simpl; by rewrite Hs..].
  destruct (VoteTxCheck_Ok _ _ _ _ _ _ Ev) as (pid & p & Ho & Hv & _).
  destruct (open_process_Ok _ _ _ _ Hok Ho) as (h & Hd & _). destruct c; [|simpl; by rewrite Hs].
  rewrite bind_mret_Store. rewrite <- Hs in Hok |- *.
  assert (v_ProcessID v = pid) as Hpid by by rewrite Hv. intros Hne.
  destruct (AddVote_effect s1 v Hok) as [E|(vid & b & h' & Hvid & _ & Ha & _)]; [by rewrite E in Hne|].
  rewrite Hpid in Hvid. apply voteID_Ok in Hvid as (Hlp & Hln & ->).
  rewrite (adds_wk _ _ _ _ _ _ _ Ha) in Hne. case_decide as Hnk; [|done]. destruct Hnk as [-> ->].
  split; [done|]. by exists pid, (v_Nullifier v).
Qed.
End auth.

Definition decoded_new (b : bytes) : NewProcessTx :=
  match UnmarshalTx b with Ok (GNewProcessTx tx) => tx | _ => new_process "" end.
Definition decoded_cancel (b : bytes) : CancelProcessTx :=
  match UnmarshalTx b with Ok (GCancelProcessTx tx) => tx | _ => mkCancelProcessTx "" "" "" [] end.
Definition decoded_admin (b : bytes) : AdminTx :=
  match UnmarshalTx b with Ok (GAdminTx tx) => tx | _ => mkAdminTx "" "" "" "" 0 "" 0 "" "" "" "" "" [] end.

(** The same new process, signed by somebody who is no oracle. *)
Definition intruder_tx : NewProcessTx := decoded_new (signed_NewProcess voter (new_process PollVote)).
Definition first_block : list abci_call := [CBeginBlock (header_at 1) 0].
Lemma first_block_runs : runs first_block = true.
Proof. vm_compute. reflexivity. Qed.
Lemma only_oracles_change_state_witness :
  Store (AddTx (GNewProcessTx intruder_tx) 0 true (node_at first_block)).2 = Store (node_at first_block) ∨
  oracle_signed (Store (node_at first_block)) (np_SignedBytes intruder_tx) (np_Signature intruder_tx).
Proof.
  apply (only_oracles_change_state (GNewProcessTx intruder_tx) 0 true (node_at first_block)). reflexivity.
Defined.

Lemma vote_tx_frame_witness : ∃ k,
  wk (Store (AddTx (GVoteTx yes_tx) 0 true (node_at open_block)).2) VoteTree k
    ≠ wk (Store (node_at open_block)) VoteTree k ∧
  VoteTree = VoteTree ∧ ∃ pid nul, hex_DecodeString (vt_ProcessID yes_tx) = Ok pid ∧
    length pid = 32%nat ∧ length nul = 32%nat ∧ k = pid ++ nul.
Proof.
  exists (pid1 ++ nullifier_of voter).
  assert (bool_decide (wk (Store (AddTx (GVoteTx yes_tx) 0 true (node_at open_block)).2) VoteTree
     (pid1 ++ nullifier_of voter) = wk (Store (node_at open_block)) VoteTree (pid1 ++ nullifier_of voter))
     = false) as Hne by (vm_compute; reflexivity).
  apply bool_decide_eq_false in Hne. split; [exact Hne|].
  apply (vote_tx_frame yes_tx 0 true (node_at open_block)); [|exact Hne].
  apply si_ok, node_at_inv, open_block_runs.
Defined.

(** ** Processes *)
Section process.
Context {DB L : Type} `{StateDBSpec DB} `{AminoLaws} `{CryptoLib} `{TxJSON} `{!EventListener DB L}.
Implicit Types (d : DB) (s : State DB L).

Lemma process_written_read d pid p d' : process_written d pid p d' →
  Process_ d' pid false = Ok p.
Proof.
  intros (b & Ha & Hb). apply Process_wproc; [by eapply adds_ok|].
  unfold wproc. by rewrite (adds_wk_same _ _ _ _ _ Ha).
Qed.
Lemma bind_mret_Ok {A B} (m : GM (State DB L) A) (b r : B) s s' :
  (_ ← m; mret b) s = (Ok r, s') → ∃ a, m s = (Ok a, s').
Proof. rewrite bind_run. destruct (m s) as [[] ?]; [|done|done]. intros [= _ ->]. eauto. Qed.


(** An accepted cancellation was of a process that was not cancelled and
    whose last block was not over, and changes nothing but the flag. *)
Theorem cancel_delivered tx now s r s' :
  store_inv (Store s) → AddTx (GCancelProcessTx tx) now true s = (Ok r, s') →
  ∃ pid p, hex_DecodeString (cp_ProcessID tx) = Ok pid ∧ Process_ (Store s) pid false = Ok p ∧
    p_Canceled p = false ∧
    (∀ h, Header_ (Store s) false = Ok (Some h) → h_Height h ≤ end_block p) ∧
    Process_ (Store s') pid false = Ok (set_Canceled true p).
Proof.
  intros Hi. simpl. rewrite bind_run, on_store_run.
  destruct (CancelProcessTxCheck tx (Store s)) as [[]| |] eqn:E; [|done|done]. intros Hr.
  unfold CancelProcessTxCheck in E. go_inv E.
  match goal with H : context [let '(_, _) := ?a in _] |- _ => destruct a as [ok addr] end.
  go_inv E. go_bool.
  match goal with H : hex_DecodeString (cp_ProcessID _) = Ok ?b |- _ => rename H into Hd; rename b into pid end.
  match goal with H : or_err _ (Process_ _ _ _) = Ok ?q |- _ => rename H into Hp; rename q into p end.
  destruct (Process_ (Store s) pid false) as [q| |] eqn:Ep; simplify_eq/=.
  apply bind_mret_Ok in Hr as [[] Hr].
  rewrite bind_run, lift_run, (TrimHex_decodable _ _ Hd), Hd in Hr.
  exists pid, p. split_and!; try done.
  { intros h Hh. match goal with H : Header_ _ _ = Ok _ |- _ => rewrite H in Hh; injection Hh as -> end.
    lia. }
  apply Process_wproc in Ep; [|apply Hi]. destruct (wproc_wf _ _ _ Hi Ep) as [_ Hwf].
  eapply process_written_read. replace s' with (CancelProcess pid s).2 by by rewrite Hr.
  apply CancelProcess_writes; [apply Hi|done|by apply proc_wf_type|done].
Qed.
End process.

Definition poll_tx : NewProcessTx := decoded_new (signed_NewProcess oracle_key (new_process PollVote)).

Definition cancel_tx : CancelProcessTx :=
  decoded_cancel (signed_Cancel oracle_key (mkCancelProcessTx (sprintf_x pid1) "" TxCancelProcess [])).
Lemma cancel_delivered_witness : ∃ s',
  AddTx (GCancelProcessTx cancel_tx) 0 true (node_at open_block) = (Ok [], s') ∧
  Process_ (Store s') pid1 false = Ok (set_Canceled true poll1).
Proof.
  destruct (AddTx (GCancelProcessTx cancel_tx) 0 true (node_at open_block)) as [r s'] eqn:E.
  assert (r = Ok []) as ->.
  { change r with (r, s').1. rewrite <- E. vm_compute. reflexivity. }
  destruct (cancel_delivered cancel_tx 0 (node_at open_block) [] s' (node_at_inv _ open_block_runs) E)
    as (pid & p & Hd & Hp & _ & _ & Hp').
  assert (Ok pid = Ok pid1) as [= ->] by (rewrite <- Hd; vm_compute; reflexivity).
  assert (Ok p = Ok poll1) as [= ->] by (rewrite <- Hp; vm_compute; reflexivity).
  exists s'. split; [reflexivity|exact Hp'].
Defined.

(** ** Encryption keys *)
Section keytx.
Context {DB L : Type} `{StateDBSpec DB} `{AminoLaws} `{CryptoLib} `{TxJSON} `{!EventListener DB L}.
Implicit Types (d : DB) (s : State DB L).

Lemma store_inv_wf d : store_inv d → ∀ pid p, wproc d pid = Some p → proc_wf p.
Proof. intros Hi pid p Hp. by destruct (wproc_wf _ _ _ Hi Hp). Qed.



End keytx.

(** An encrypted poll with the keys of one key keeper. *)
Definition priv1 : bytes := replicate 32 Byte.x33.
Definition reveal1 : bytes := replicate 32 Byte.x44.
Definition keys_tx (i : Z) : AdminTx :=
  mkAdminTx "" (sprintf_x (PoseidonHash reveal1)) "" (sprintf_x priv1) i "" 0 (sprintf_x pid1) "" "" ""
    TxAddProcessKeys [].
Definition reveal_tx : AdminTx :=
  mkAdminTx "" "" (sprintf_x priv1) "" 1 "" 0 (sprintf_x pid1) "" (sprintf_x reveal1) ""
    TxRevealProcessKeys [].
Definition encrypted_block : list abci_call :=
  [CBeginBlock (header_at 1) 0;
   CDeliverTx (signed_NewProcess oracle_key (new_process EncryptedPoll)) 0].
Definition keyed_block : list abci_call :=
  encrypted_block ++ [CDeliverTx (signed_Admin oracle_key (keys_tx 1)) 0; CCommit;
                      CBeginBlock (header_at 11) 0].
Definition signed_keys_tx (i : Z) : AdminTx := decoded_admin (signed_Admin oracle_key (keys_tx i)).
Definition signed_reveal_tx : AdminTx := decoded_admin (signed_Admin oracle_key reveal_tx).
Lemma encrypted_block_runs : runs encrypted_block = true.
Proof. vm_compute. reflexivity. Qed.
Lemma keyed_block_runs : runs keyed_block = true.
Proof. vm_compute. reflexivity. Qed.




(** ** Block arithmetic *)

(** The end block is computed in 64-bit arithmetic: a process whose start
    and duration are accepted but add up beyond the largest integer has a
    negative end, is closed at every height, and so never takes a vote. *)
Theorem end_block_overflow p h :
  0 ≤ p_StartBlock p < 2^63 → 0 < p_NumberOfBlocks p < 2^63 →
  2^63 ≤ p_StartBlock p + p_NumberOfBlocks p → 0 ≤ h →
  end_block p = p_StartBlock p + p_NumberOfBlocks p - 2^64 ∧ vote_window p h = false.
Proof.
  intros Hs Hn Ho Hh. assert (end_block p = p_StartBlock p + p_NumberOfBlocks p - 2^64) as He.
  { unfold end_block. rewrite i64_over; lia. }
  split; [done|]. unfold vote_window. rewrite He.
  rewrite (bool_decide_eq_false_2 (h ≤ _)) by lia. by rewrite andb_false_r.
Qed.
Lemma end_block_overflow_witness :
  let p := mkProcess false [] [] [] [] 0 "" (2^63 - 1) false [] 1 PollVote in
  end_block p = -2^63 ∧ vote_window p 5 = false.
Proof.
  intros p. destruct (end_block_overflow p 5) as [He Hv]; try (simpl; lia).
  split; [rewrite He; reflexivity|exact Hv].
Defined.
