(* ===== verification/Queries.v ===== *)
(** * Queries over the votes of a process

    [CountVotes] and [EnvelopeList] walk the vote tree by the prefix of the
    process id.  For ids whose last byte is not [0xFF] they see exactly the
    votes of the process; for the others the range the store computes is too
    wide, and votes of other processes are counted too. *)

From stdpp Require Import base gmap strings list fin_maps.
From Stdlib Require Import ZArith Lia.
From S2P Require Import Prelude GoLib Types StateDB Crypto IavlState Codec State Transaction App.
From S2P Require Import StateFacts ProcessKeys Invariant Genesis Concrete Safety.
Open Scope Z_scope.

(** The loops, for any list of entries. *)
Lemma count_loop items c : in_i64 (c + glen items) → 0 ≤ c →
  iterate_cb (λ _ _ count, Ok (false, i64 (count + 1))) items c = Ok (c + glen items).
Proof.
  unfold in_i64, glen. revert c. induction items as [|[k v] items IH]; intros c Hc H0; simpl in *.
  - f_equal. lia.
  - rewrite i64_id by (unfold in_i64; lia). rewrite IH by lia. f_equal. lia.
Qed.

Lemma go_slice_from_32 (k : bytes) : (32 ≤ length k)%nat → go_slice_from k 32 = Ok (drop 32 k).
Proof. intros Hk. unfold go_slice_from, glen. rewrite decide_True by lia. done. Qed.

Lemma envelope_loop items idx from size acc :
  Forall (λ kv, (32 ≤ length kv.1)%nat) items → 0 ≤ idx → 0 ≤ from → 0 ≤ size →
  in_i64 (from + size) → in_i64 (idx + glen items) → idx ≤ from + size →
  envelope_list_loop items idx from size acc =
    acc ++ take (Z.to_nat (from + size - Z.max idx from))
             (drop (Z.to_nat (from - idx)) (drop 32 <$> items.*1)).
Proof.
  intros HF. revert idx acc. induction HF as [|[k v] items Hk HF IH]; intros idx acc Hi Hf Hs Ho Hl Hle.
  - simpl. by rewrite drop_nil, take_nil, app_nil_r.
  - unfold in_i64, glen in *. simpl in *. rewrite (i64_id (from + size)) by (unfold in_i64; lia).
    destruct (decide (from + size ≤ idx)).
    { replace (from + size - Z.max idx from) with 0 by lia. by rewrite app_nil_r. }
    rewrite i64_id by (unfold in_i64; lia). destruct (decide (from ≤ idx)).
    + rewrite go_slice_from_32, IH by (done || lia). rewrite <- app_assoc. f_equal. simpl.
      replace (Z.to_nat (from - idx)) with 0%nat by lia.
      replace (Z.to_nat (from - (idx + 1))) with 0%nat by lia.
      replace (Z.to_nat (from + size - Z.max idx from))
        with (S (Z.to_nat (from + size - Z.max (idx + 1) from))) by lia. done.
    + rewrite IH by lia.
      replace (Z.to_nat (from - idx)) with (S (Z.to_nat (from - (idx + 1)))) by lia.
      replace (Z.max (idx + 1) from) with (Z.max idx from) by lia. done.
Qed.

Section queries.
Context {DB : Type} `{StateDBSpec DB} `{AminoLaws} `{CryptoLib}.
Implicit Types d : DB.

Lemma prefix_items_lookup (t : kvmap) p k v : (k, v) ∈ prefix_items t p ↔ has_prefix p k = true ∧ t !! k = Some v.
Proof. unfold prefix_items. rewrite list_elem_of_filter, elem_of_map_to_list. done. Qed.
Lemma prefix_items_NoDup (t : kvmap) p : NoDup (prefix_items t p).*1.
Proof.
  unfold prefix_items. apply NoDup_fmap_fst.
  - intros k v1 v2 Hk1 Hk2. apply list_elem_of_filter in Hk1 as [_ Hk1%elem_of_map_to_list].
    apply list_elem_of_filter in Hk2 as [_ Hk2%elem_of_map_to_list]. congruence.
  - apply NoDup_filter, NoDup_map_to_list.
Qed.

(** The entries the committed vote tree shows for a process. *)
Lemma committed_items d pid : store_inv d → length pid = 32%nat → good_prefix pid →
  ∃ items, iterateProcessID d pid true = Ok items ∧ NoDup (drop 32 <$> items.*1) ∧
    Forall (λ kv, (32 ≤ length kv.1)%nat) items ∧
    (∀ n, ITreeCount d VoteTree = Ok n → glen items ≤ n) ∧
    ∀ nul, nul ∈ drop 32 <$> items.*1 ↔ is_ok (Envelope d pid nul true) = true.
Proof.
  intros Hi Hl Hg. destruct (proj2 (si_ok _ Hi) VoteTree vt_vote) as [_ [t Ht]].
  destruct (db_iiterate d VoteTree t pid (proj1 (si_ok _ Hi)) Ht Hg) as (items & Hit & Hperm).
  assert (∀ k v, (k, v) ∈ items ↔ has_prefix pid k = true ∧ ck d VoteTree k = Some v) as Hin.
  { intros k v. rewrite Hperm, prefix_items_lookup. unfold ck. by rewrite Ht. }
  assert (∀ k v, (k, v) ∈ items → ∃ nul w, length nul = 32%nat ∧ k = pid ++ nul ∧
            Envelope d pid nul true = Ok w) as Hvote.
  { intros k v [Hp Hk]%Hin. destruct (si_cvote _ Hi _ _ Hk) as (w & Hw & _ & Hlp & Hln & -> & _).
    apply has_prefix_spec in Hp as [q Hq]. apply app_inj_1 in Hq as [Hpid <-]; [|lia].
    exists (v_Nullifier w), w. split_and!; [done|by rewrite Hpid|].
    rewrite <- Hpid. apply Envelope_cvote; [apply Hi|done|done|]. unfold cvote. by rewrite Hk. }
  exists items. split_and!; [done| | | |].
  - apply NoDup_fmap_2_strong; [|by rewrite Hperm; apply prefix_items_NoDup].
    intros k1 k2 ([? v1] & -> & Hk1)%list_elem_of_fmap ([? v2] & -> & Hk2)%list_elem_of_fmap.
    destruct (Hvote _ _ Hk1) as (n1 & ? & _ & Heq1 & _), (Hvote _ _ Hk2) as (n2 & ? & _ & Heq2 & _).
    simpl. rewrite Heq1, Heq2, !drop_app_length' by done. by intros ->.
  - apply list.Forall_forall. intros [k v] Hk. destruct (Hvote _ _ Hk) as (nul & ? & Hn & -> & _).
    simpl. rewrite length_app. lia.
  - intros n Hn. rewrite (db_icount d VoteTree t (proj1 (si_ok _ Hi)) Ht) in Hn. injection Hn as <-.
    unfold glen. rewrite Hperm, <- length_map_to_list. unfold prefix_items.
    pose proof (length_filter (λ kv, has_prefix pid kv.1 = true) (map_to_list t)). lia.
  - intros nul. rewrite list_elem_of_fmap. split.
    + intros (k & -> & ([? v] & -> & Hk)%list_elem_of_fmap).
      destruct (Hvote _ _ Hk) as (nul & w & _ & Heq & He). simpl.
      by rewrite Heq, drop_app_length', He by done.
    + destruct (Envelope d pid nul true) as [w| |] eqn:He; [intros _|done|done].
      destruct (Envelope_sizes _ _ _ _ _ He) as [_ Hn]. apply Envelope_cvote in He; [|apply Hi|done|done].
      unfold cvote in He. destruct (ck d VoteTree (pid ++ nul)) as [b|] eqn:Eb; [|done].
      exists (pid ++ nul). split; [by rewrite drop_app_length'|]. apply list_elem_of_fmap.
      exists (pid ++ nul, b). split; [done|]. apply Hin. split; [|done].
      apply has_prefix_spec. by exists nul.
Qed.

(** For a process id whose last byte is not [0xFF] there is one list of
    nullifiers, without repetition, that are exactly those of the committed
    votes of the process; [CountVotes] returns its length and [EnvelopeList]
    its pages. *)
Theorem votes_of_process d pid n :
  store_inv d → length pid = 32%nat → good_prefix pid → ITreeCount d VoteTree = Ok n → n < 2^63 →
  ∃ all, NoDup all ∧ (∀ nul, nul ∈ all ↔ is_ok (Envelope d pid nul true) = true) ∧
    CountVotes d pid true = Ok (glen all) ∧
    ∀ from size, 0 ≤ from → 0 ≤ size → from + size < 2^63 →
      EnvelopeList d pid from size true = take (Z.to_nat size) (drop (Z.to_nat from) all).
Proof.
  intros Hi Hl Hg Hn Hmax. destruct (committed_items d pid Hi Hl Hg) as (items & Hit & Hnd & HF & Hle & Hin).
  specialize (Hle n Hn). unfold glen in Hle.
  exists (drop 32 <$> items.*1). split_and!; [done|done| |].
  - unfold CountVotes, glen. rewrite !length_fmap, Hit. simpl.
    by rewrite count_loop by (unfold glen, in_i64; lia).
  - intros from size Hf Hs Ho. unfold EnvelopeList. rewrite Hit.
    rewrite envelope_loop by (done || (unfold glen, in_i64; lia)).
    simpl. by rewrite Z.max_r, Z.sub_0_r, Z.add_simpl_l by done.
Qed.
End queries.

Lemma good_prefix_pid1 : good_prefix pid1.
Proof. exists (replicate 31 Byte.x11), Byte.x11. split; [reflexivity|discriminate]. Qed.
Lemma votes_of_process_witness : ∃ all,
  (∀ nul, nul ∈ all ↔ is_ok (Envelope (Store (node_at (block1 ++ block2))) pid1 nul true) = true) ∧
  EnvelopeList (Store (node_at (block1 ++ block2))) pid1 0 10 true = take 10 (drop 0 all).
Proof.
  destruct (votes_of_process (Store (node_at (block1 ++ block2))) pid1 1 (node_at_inv _ block12_runs))
    as (all & _ & Hin & _ & Hlist);
    [reflexivity|exact good_prefix_pid1|vm_compute; reflexivity|reflexivity|].
  exists all. split; [exact Hin|apply (Hlist 0 10); [discriminate|discriminate|reflexivity]].
Defined.

(** ** Process ids that end in [0xFF] *)

(** The end of the range goes past the prefix: all the bytes after the one
    incremented stay [0xFF] instead of being dropped. *)
Lemma iterate_until_ff q b n : b ≠ Byte.xff →
  iterate_until (q ++ [b] ++ replicate n Byte.xff) = q ++ [z2b (b2z b + 1)] ++ replicate n Byte.xff.
Proof.
  intros Hb. unfold iterate_until. rewrite !rev_app_distr. simpl.
  assert (rev (replicate n Byte.xff) = replicate n Byte.xff) as Hr.
  { clear. induction n as [|n IH]; [done|]. simpl rev. by rewrite IH, <- replicate_S_end. }
  rewrite Hr, <- app_assoc.
  assert (∀ l, bump_rev (replicate n Byte.xff ++ l) = replicate n Byte.xff ++ bump_rev l) as Hbump.
  { intros l. clear. induction n as [|n IH]; [done|]. simpl. by rewrite IH. }
  rewrite Hbump. simpl. rewrite decide_False by done.
  rewrite !rev_app_distr. simpl. by rewrite rev_involutive, Hr, <- app_assoc.
Qed.

Definition pidA : bytes := replicate 31 Byte.x11 ++ [Byte.xff].
Definition pidB : bytes := replicate 30 Byte.x11 ++ [Byte.x12; Byte.x00].
Definition process_at (pid : bytes) : NewProcessTx :=
  mkNewProcessTx (sprintf_x (replicate 20 Byte.x22)) (sprintf_x root1) "" 10 (sprintf_x pid) PollVote ""
    1 TxNewProcess [].
Definition ballot (pid : bytes) : VoteTx :=
  mkVoteTx [] "" "" (sprintf_x pid) (census_proof voter) "" TxVote "yes" [].
Definition neighbours : list abci_call :=
  [CBeginBlock (header_at 1) 0; CDeliverTx (signed_NewProcess oracle_key (process_at pidA)) 0;
   CDeliverTx (signed_NewProcess oracle_key (process_at pidB)) 0;
   CDeliverTx (signed_Vote voter (ballot pidA)) 0; CDeliverTx (signed_Vote voter (ballot pidB)) 0; CCommit].

(** For a process id that ends in [0xFF] the count takes in the votes of
    other processes: with one vote for [11..11ff] and one for [11..1200], the
    first process is reported to have two votes and two nullifiers. *)
Theorem count_includes_neighbour :
  let d := Store (node_at neighbours) in
  let nul pid := GenerateNullifier (zeros 19 ++ [voter]) pid in
  runs neighbours = true ∧
  is_ok (Envelope d pidA (nul pidA) true) = true ∧ is_ok (Envelope d pidA (nul pidB) true) = false ∧
  CountVotes d pidA true = Ok 2 ∧ EnvelopeList d pidA 0 10 true = [nul pidA; nul pidB].
Proof. vm_compute. split_and!; reflexivity. Qed.
