(* ===== verification/Database.v ===== *)
(** * The key-value database and base64

    [db/badger.go]: the methods of [BadgerDB] the repository uses, on the map
    of keys to values badger keeps (its transactions are single operations
    here; input/output failures are not modelled).  [encoding/base64]'s
    standard decoder, in which ballots travel. *)

From stdpp Require Import base gmap strings list fin_maps sorting.
From Stdlib Require Import ZArith Lia.
From S2P Require Import Prelude GoLib StateDB.
Open Scope Z_scope.

(** ** [BadgerDB] *)
Abbreviation Database := kvmap.
Definition ErrKeyNotFound : error := "Key not found".
Definition ErrEmptyKey : error := "Key cannot be empty".

Definition db_Put (key value : bytes) (db : Database) : res Database :=
  if decide (key = []) then Err ErrEmptyKey else Ok (<[key := value]> db).
Definition db_Get (key : bytes) (db : Database) : res bytes :=
  if decide (key = []) then Err ErrEmptyKey else of_option ErrKeyNotFound (db !! key).
Definition db_Has (key : bytes) (db : Database) : res bool :=
  if decide (key = []) then Err ErrEmptyKey else Ok (bool_decide (is_Some (db !! key))).
Definition db_Del (key : bytes) (db : Database) : res Database :=
  if decide (key = []) then Err ErrEmptyKey else Ok (delete key db).
(** The iterator: the entries in ascending key order, from [Seek(key)] on. *)
Definition db_Seek (key : bytes) (db : Database) : list (bytes * bytes) := range_items db key None.

Lemma db_Get_Put (k k' v : bytes) (db db' : Database) : db_Put k v db = Ok db' → k' ≠ [] →
  db_Get k' db' = if decide (k' = k) then Ok v else db_Get k' db.
Proof.
  unfold db_Put, db_Get. intros Hp Hk'. case_decide; [done|]. injection Hp as <-.
  rewrite !(decide_False (P := k' = [])) by done. destruct (decide (k' = k)) as [->|Hk].
  - by rewrite lookup_insert_eq.
  - by rewrite lookup_insert_ne.
Qed.

(** ** Base64, standard alphabet with padding *)
Definition b64_val (c : byte) : option Z :=
  let n := b2z c in
  if decide (65 ≤ n ≤ 90) then Some (n - 65)
  else if decide (97 ≤ n ≤ 122) then Some (n - 71)
  else if decide (48 ≤ n ≤ 57) then Some (n + 4)
  else if decide (n = 43) then Some 62
  else if decide (n = 47) then Some 63
  else None.
Definition b64_char (v : Z) : byte :=
  z2b (if decide (v < 26) then v + 65 else if decide (v < 52) then v + 71
       else if decide (v < 62) then v - 4 else if decide (v = 62) then 43 else 47).
Definition b64_pad : byte := Byte.x3d.
Definition b64_err : error := "illegal base64 data".

(** Groups of four characters; padding only in the last group. *)
Fixpoint b64_groups (l : bytes) : res bytes :=
  match l with
  | [] => Ok []
  | c1 :: c2 :: c3 :: c4 :: l' =>
      match b64_val c1, b64_val c2 with
      | Some v1, Some v2 =>
          let o1 := z2b (v1 * 4 + v2 / 16) in
          if decide (c3 = b64_pad) then
            if decide (c4 = b64_pad ∧ l' = []) then Ok [o1] else Err b64_err
          else match b64_val c3 with
               | Some v3 =>
                   let o2 := z2b (v2 * 16 + v3 / 4) in
                   if decide (c4 = b64_pad) then
                     if decide (l' = []) then Ok [o1; o2] else Err b64_err
                   else match b64_val c4 with
                        | Some v4 => r ← b64_groups l'; Ok (o1 :: o2 :: z2b (v3 * 64 + v4) :: r)
                        | None => Err b64_err
                        end
               | None => Err b64_err
               end
      | _, _ => Err b64_err
      end
  | _ => Err b64_err
  end.
(** Line breaks are skipped wherever they are. *)
Definition b64_newline (c : byte) : bool := bool_decide (c = Byte.x0a) || bool_decide (c = Byte.x0d).
Definition b64_DecodeString (s : string) : res bytes :=
  b64_groups (filter (λ c, b64_newline c = false) (s2b s)).

(** The bytes [DecodeString] returns next to an error: the groups before the
    one it refuses, and that group too when only what follows its padding is
    wrong. *)
Fixpoint b64_partial (l : bytes) : bytes :=
  match l with
  | c1 :: c2 :: c3 :: c4 :: l' =>
      match b64_val c1, b64_val c2 with
      | Some v1, Some v2 =>
          let o1 := z2b (v1 * 4 + v2 / 16) in
          if decide (c3 = b64_pad) then if decide (c4 = b64_pad) then [o1] else []
          else match b64_val c3 with
               | Some v3 =>
                   let o2 := z2b (v2 * 16 + v3 / 4) in
                   if decide (c4 = b64_pad) then [o1; o2]
                   else match b64_val c4 with
                        | Some v4 => o1 :: o2 :: z2b (v3 * 64 + v4) :: b64_partial l'
                        | None => []
                        end
               | None => []
               end
      | _, _ => []
      end
  | _ => []
  end.
Definition b64_DecodeString_bytes (s : string) : bytes :=
  b64_partial (filter (λ c, b64_newline c = false) (s2b s)).

Fixpoint b64_encode_bytes (b : bytes) : bytes :=
  match b with
  | [] => []
  | [x] => let n := b2z x in [b64_char (n / 4); b64_char (n mod 4 * 16); b64_pad; b64_pad]
  | [x; y] =>
      let n := b2z x * 256 + b2z y in
      [b64_char (n / 1024); b64_char (n / 16 mod 64); b64_char (n mod 16 * 4); b64_pad]
  | x :: y :: z :: b' =>
      let n := b2z x * 65536 + b2z y * 256 + b2z z in
      b64_char (n / 262144) :: b64_char (n / 4096 mod 64) :: b64_char (n / 64 mod 64)
        :: b64_char (n mod 64) :: b64_encode_bytes b'
  end.
(** [base64.StdEncoding.EncodeToString]. *)
Definition b64_EncodeToString (b : bytes) : string := b2s (b64_encode_bytes b).

Lemma b64_char_b2z v : 0 ≤ v < 64 → b2z (b64_char v) =
  if decide (v < 26) then v + 65 else if decide (v < 52) then v + 71
  else if decide (v < 62) then v - 4 else if decide (v = 62) then 43 else 47.
Proof. intros Hv. unfold b64_char. rewrite b2z_z2b. repeat case_decide; rewrite Z.mod_small; lia. Qed.
Lemma b64_val_char v : 0 ≤ v < 64 → b64_val (b64_char v) = Some v.
Proof.
  intros Hv. unfold b64_val. rewrite b64_char_b2z by done. repeat case_decide; try lia; f_equal; lia.
Qed.
Lemma b64_char_not v : 0 ≤ v < 64 → b64_char v ≠ b64_pad ∧ b64_newline (b64_char v) = false.
Proof.
  intros Hv. pose proof (b64_char_b2z v Hv) as E.
  assert (∀ c, b2z c ∈ [61; 10; 13] → b64_char v ≠ c) as Hne.
  { intros c Hc <-. rewrite E in Hc. repeat case_decide; set_unfold; lia. }
  split; [apply Hne; vm_compute; set_solver|]. unfold b64_newline.
  rewrite !bool_decide_eq_false_2; [done|apply Hne; set_solver|apply Hne; set_solver].
Qed.

(** Three bytes, four characters and back. *)
Lemma b64_quantum x y z : 0 ≤ x < 256 → 0 ≤ y < 256 → 0 ≤ z < 256 →
  let n := x * 65536 + y * 256 + z in
  n / 262144 * 4 + n / 4096 mod 64 / 16 = x ∧
  (n / 4096 mod 64 * 16 + n / 64 mod 64 / 4) mod 256 = y ∧
  (n / 64 mod 64 * 64 + n mod 64) mod 256 = z.
Proof. intros Hx Hy Hz n. subst n. Z.to_euclidean_division_equations. lia. Qed.

Lemma list_ind3 {A} (P : list A → Prop) :
  P [] → (∀ x, P [x]) → (∀ x y, P [x; y]) → (∀ x y z l, P l → P (x :: y :: z :: l)) → ∀ l, P l.
Proof.
  intros H0 H1 H2 H3. fix IH 1.
  intros [|x [|y [|z l]]]; [apply H0|apply H1|apply H2|apply H3, IH].
Qed.
Lemma z2b_mod n x : n mod 256 = b2z x → z2b n = x.
Proof. intros E. apply b2z_inj. by rewrite b2z_z2b. Qed.

Ltac b64_range := first [apply Z.mod_pos_bound; lia | Z.to_euclidean_division_equations; lia].

Lemma b64_groups_encode b : b64_groups (b64_encode_bytes b) = Ok b.
Proof.
  induction b as [|x|x y|x y z b IH] using list_ind3; [done|..];
    cbn [b64_encode_bytes b64_groups]; pose proof (b2z_range x).
  - rewrite !b64_val_char by b64_range. rewrite !decide_True by done.
    do 2 f_equal. apply z2b_mod. Z.to_euclidean_division_equations. lia.
  - pose proof (b2z_range y). rewrite !b64_val_char by b64_range.
    rewrite decide_False by (apply b64_char_not; b64_range). rewrite !decide_True by done.
    repeat f_equal; apply z2b_mod; Z.to_euclidean_division_equations; lia.
  - pose proof (b2z_range y). pose proof (b2z_range z). rewrite !b64_val_char by b64_range.
    rewrite !decide_False by (apply b64_char_not; b64_range). rewrite IH. simpl.
    destruct (b64_quantum (b2z x) (b2z y) (b2z z)) as (E1 & E2 & E3); [done..|].
    repeat f_equal; apply z2b_mod; [|done|done]. rewrite E1. by apply Z.mod_small.
Qed.
(** What holds of the alphabet holds of every character of an encoding. *)
Lemma b64_encode_chars (P : byte → Prop) b : (∀ v, 0 ≤ v < 64 → P (b64_char v)) → P b64_pad →
  Forall P (b64_encode_bytes b).
Proof.
  intros Hc Hp. induction b as [|x|x y|x y z b IH] using list_ind3; [constructor|..]; cbn [b64_encode_bytes];
    pose proof (b2z_range x); try pose proof (b2z_range y); try pose proof (b2z_range z);
    repeat apply Forall_cons_2; try done; try constructor; apply Hc; b64_range.
Qed.
Lemma b64_encode_no_newline b : Forall (λ c, b64_newline c = false) (b64_encode_bytes b).
Proof. apply b64_encode_chars; [|done]. intros v Hv. by apply b64_char_not. Qed.
Lemma b64_encode_no_zero b : Forall (λ c, c ≠ Byte.x00) (b64_encode_bytes b).
Proof.
  apply b64_encode_chars; [|done]. intros v Hv E. pose proof (b64_char_b2z v Hv) as E'. rewrite E in E'.
  change (b2z Byte.x00) with 0 in E'. repeat case_decide; lia.
Qed.
Lemma filter_all {A} (f : A → bool) l : Forall (λ x, f x = false) l → filter (λ x, f x = false) l = l.
Proof. induction 1 as [|x l Hx _ IH]; [done|]. rewrite filter_cons, decide_True by done. by rewrite IH. Qed.
(** Decoding inverts encoding. *)
Lemma b64_roundtrip b : b64_DecodeString (b64_EncodeToString b) = Ok b.
Proof.
  unfold b64_DecodeString, b64_EncodeToString. rewrite s2b_b2s.
  rewrite (filter_all _ _ (b64_encode_no_newline b)). apply b64_groups_encode.
Qed.
Lemma b64_EncodeToString_inj a b : b64_EncodeToString a = b64_EncodeToString b → a = b.
Proof. intros E. pose proof (b64_roundtrip a) as Ha. rewrite E, b64_roundtrip in Ha. by injection Ha. Qed.
