(* ===== verification/Scrutinizer.v ===== *)
(** * The scrutinizer: [vochain/scrutinizer]

    The listener that counts ballots.  It keeps pools of what happened in the
    block being built, and a database with four kinds of keys: the processes
    of an entity, the running count of a live process, the final result, and
    the processes whose result is due at a height.  [Commit] starts the
    computation of due results in a goroutine, modelled as a task of its own
    ([sc_tasks], [run_task]) that runs at any later moment. *)

From stdpp Require Import base gmap strings list fin_maps.
From Stdlib Require Import ZArith Lia.
From S2P Require Import Prelude GoLib Types StateDB Crypto IavlState Codec State Database.
Open Scope Z_scope.

Definition MaxQuestions : Z := 64.
Definition MaxOptions : Z := 64.

(** [[][]uint32]: per question, the number of votes of each option. *)
Abbreviation ProcessVotes := (list (list Z)).

Record ScrutinizerOnProcessData := mkOnProcess { od_EntityID : bytes; od_ProcessID : bytes }.

Record Scrutinizer := mkScrutinizer {
  sc_Storage : kvmap;
  sc_votePool : list Vote;
  sc_processPool : list ScrutinizerOnProcessData;
  sc_resultsPool : list ScrutinizerOnProcessData;
  sc_entityCount : Z;
  sc_tasks : list Z }.

Definition set_Storage (st : kvmap) (s : Scrutinizer) : Scrutinizer :=
  mkScrutinizer st (sc_votePool s) (sc_processPool s) (sc_resultsPool s) (sc_entityCount s) (sc_tasks s).
Definition set_pools (v : list Vote) (p r : list ScrutinizerOnProcessData) (s : Scrutinizer) : Scrutinizer :=
  mkScrutinizer (sc_Storage s) v p r (sc_entityCount s) (sc_tasks s).
Definition set_entityCount (n : Z) (s : Scrutinizer) : Scrutinizer :=
  mkScrutinizer (sc_Storage s) (sc_votePool s) (sc_processPool s) (sc_resultsPool s) n (sc_tasks s).
Definition set_tasks (ts : list Z) (s : Scrutinizer) : Scrutinizer :=
  mkScrutinizer (sc_Storage s) (sc_votePool s) (sc_processPool s) (sc_resultsPool s) (sc_entityCount s) ts.

(** The codec at the two types the scrutinizer stores, and [json.Unmarshal] of
    a ballot. *)
Class ScrutinizerCodec := {
  codec_votes :: Codec ProcessVotes;
  codec_pids :: Codec (list bytes);
  json_VotePackage : bytes → res VotePackage }.
Class ScrutinizerLaws `{ScrutinizerCodec} := {
  law_amino_votes (pv : ProcessVotes) : pv ≠ [] → Forall (Forall in_u32) pv → roundtrips pv;
  law_amino_pids (l : list bytes) : l ≠ [] → roundtrips l;
  (** Decoding reports bad input as an error. *)
  law_pids_no_panic b : is_panic (UnmarshalBinaryBare (A := list bytes) b) = false;
  law_votes_no_panic b : is_panic (UnmarshalBinaryBare (A := ProcessVotes) b) = false;
  law_json_no_panic b : is_panic (json_VotePackage b) = false }.

(** ** Ballots *)
Section ballots.
Context `{CryptoLib} `{ScrutinizerCodec}.

(** A key that does not decode is skipped; a failed decryption leaves nil. *)
Definition decrypt_step (key : string) (rawVote : bytes) : res bytes :=
  match nacl.DecodePrivate key with
  | Ok priv => match nacl.Decrypt priv rawVote with
               | Ok b => Ok b
               | Err _ => Ok []
               | Panic w => Panic w
               end
  | Err _ => Ok rawVote
  | Panic w => Panic w
  end.
(** From the last key to the first. *)
Fixpoint decrypt_all (keys : list string) (rawVote : bytes) : res bytes :=
  match keys with
  | [] => Ok rawVote
  | key :: keys' => rawVote ← decrypt_all keys' rawVote; decrypt_step key rawVote
  end.
Definition unmarshalVote (votePackage : string) (keys : list string) : res VotePackage :=
  rawVote ← b64_DecodeString votePackage;
  rawVote ← decrypt_all keys rawVote;
  json_VotePackage rawVote.

(** [for question, opt := range votes { ...; pv[question][opt]++ }]. *)
Fixpoint tally_loop (votes : list Z) (question : Z) (pv : ProcessVotes) : res ProcessVotes :=
  match votes with
  | [] => Ok pv
  | opt :: votes' =>
      if decide (MaxOptions < opt) then tally_loop votes' (question + 1) pv
      else
        row ← go_index pv question;
        n ← go_index row opt;
        row ← go_set_index row opt (u32 (n + 1));
        pv ← go_set_index pv question row;
        tally_loop votes' (question + 1) pv
  end.

Definition emptyProcess : ProcessVotes :=
  replicate (Z.to_nat MaxQuestions) (replicate (Z.to_nat MaxOptions) 0).

(** ** [pruneVoteResult] *)

(** [for ; j < MaxOptions; j++ { if pvv[min][j] != 0 { break } }], with [n]
    options left: the [j] at which it stops. *)
Fixpoint first_option (row : list Z) (j : Z) (n : nat) : res Z :=
  match n with
  | O => Ok j
  | S n' => c ← go_index row j; if decide (c ≠ 0) then Ok j else first_option row (j + 1) n'
  end.
(** [for ; min >= 0; min-- { ... }] from [n - 1] down. *)
Fixpoint last_question (pvv : ProcessVotes) (n : nat) : res Z :=
  match n with
  | O => Ok (-1)
  | S n' =>
      row ← go_index pvv (Z.of_nat n');
      j ← first_option row 0 (Z.to_nat MaxOptions);
      if decide (j < MaxOptions) then Ok (Z.of_nat n') else last_question pvv n'
  end.
(** [for ; j2 >= 0; j2-- { ... }] from [n - 1] down. *)
Fixpoint last_option (row : list Z) (n : nat) : res Z :=
  match n with
  | O => Ok (-1)
  | S n' => c ← go_index row (Z.of_nat n'); if decide (c ≠ 0) then Ok (Z.of_nat n') else last_option row n'
  end.
(** [make([]uint32, j2+1)] and [copy]. *)
Definition copy_row (row : list Z) (n : Z) : list Z :=
  take (Z.to_nat n) row ++ replicate (Z.to_nat n - length row) 0.
(** The inner loop over [i2], from [i2] on with [n] rounds left. *)
Fixpoint copy_rows (pvv : ProcessVotes) (i2 : Z) (n : nat) : res ProcessVotes :=
  match n with
  | O => Ok []
  | S n' =>
      row ← go_index pvv i2;
      j2 ← last_option row (Z.to_nat MaxOptions);
      rest ← copy_rows pvv (i2 + 1) n';
      Ok (copy_row row (j2 + 1) :: rest)
  end.
(** The outer loop over [i]: each round builds the result anew. *)
Fixpoint prune_loop (pvv : ProcessVotes) (i : Z) (n : nat) (pvc : ProcessVotes) : res ProcessVotes :=
  match n with
  | O => Ok pvc
  | S n' => pvc ← copy_rows pvv 0 (Z.to_nat (i + 1)); prune_loop pvv (i + 1) n' pvc
  end.
Definition pruneVoteResult (pv : ProcessVotes) : res ProcessVotes :=
  min ← last_question pv (Z.to_nat MaxQuestions);
  prune_loop pv 0 (Z.to_nat (min + 1)) [].
End ballots.

(** ** The database *)
Section storage.
Context {DB : Type} `{StateDB DB} `{AminoLib} `{CryptoLib} `{ScrutinizerCodec}.
Abbreviation M := (GM Scrutinizer).

Definition encode (t : string) (data : bytes) : res bytes :=
  if decide (t = "entity") then Ok (ScrutinizerEntityPrefix :: data)
  else if decide (t = "liveProcess") then Ok (ScrutinizerLiveProcessPrefix :: data)
  else if decide (t = "results") then Ok (ScrutinizerResultsPrefix :: data)
  else if decide (t = "processEnding") then Ok (ScrutinizerProcessEndingPrefix :: data)
  else Panic "scrutinizer encode type not known".

(** [s.Storage.Get(s.encode(t, data))], the error handed to the caller. *)
Definition st_Get (t : string) (data : bytes) : M (res bytes) :=
  key ← lift (encode t data); reads (λ s, Ok (db_Get key (sc_Storage s))).
Definition st_Put (t : string) (data value : bytes) : M () :=
  key ← lift (encode t data); updates (λ s, st ← db_Put key value (sc_Storage s); Ok (set_Storage st s)).
Definition st_Del (t : string) (data : bytes) : M () :=
  key ← lift (encode t data); updates (λ s, st ← db_Del key (sc_Storage s); Ok (set_Storage st s)).

Definition ProcessInfo (d : DB) (pid : bytes) : res Process := Process_ d pid false.
Definition isLiveResultsProcess (d : DB) (processID : bytes) : res bool :=
  p ← ProcessInfo d processID; Ok (negb (IsEncrypted p)).

(** A missing key counts as an empty value, any other error stops. *)
Definition or_missing {A} (r : res bytes) (k : bytes → M A) (stop : M A) : M A :=
  match r with
  | Ok b => k b
  | Err e => if decide (e = ErrKeyNotFound) then k [] else stop
  | Panic w => lift (Panic w)
  end.

Definition addEntity (eid pid : bytes) : M () :=
  r ← st_Get "entity" eid;
  or_missing r (λ processList,
    if decide (glen pid ≠ ProcessIDsize) then mret ()
    else
      r ← try_ (st_Put "entity" eid (processList ++ pid));
      match r with
      | Ok _ => modify (λ s, set_entityCount (i64 (sc_entityCount s + 1)) s)
      | _ => mret ()
      end) (mret ()).

Definition newEmptyLiveProcess (pid : bytes) : M ProcessVotes :=
  process ← lift (marshal emptyProcess);
  _ ← st_Put "liveProcess" pid process;
  mret emptyProcess.

Definition addLiveResultsProcess (pid : bytes) : M () :=
  r ← st_Get "liveProcess" pid;
  or_missing r (λ process,
    if decide (0 < glen process) then mret ()
    else r ← try_ (newEmptyLiveProcess pid); mret ()) (mret ()).

Definition registerPendingProcess (pid : bytes) (height : Z) : M () :=
  let scheduledBlock := s2b (sprintf_d height) in
  r ← st_Get "processEnding" scheduledBlock;
  or_missing r (λ pidListBytes,
    r ← lift (match (if decide (0 < glen pidListBytes) then UnmarshalBinaryBare (Some pidListBytes)
                     else Ok []) with
              | Panic w => Panic w
              | r => Ok r
              end);
    match r with
    | Ok pidList =>
        logged (pidListBytes ← lift (marshal (A := list bytes) (pidList ++ [pid]));
                st_Put "processEnding" scheduledBlock pidListBytes)
    | _ => mret ()
    end) (mret ()).

(** ** Counting *)
Definition addLiveResultsVote (envelope : Vote) : M () :=
  let pid := v_ProcessID envelope in
  _ ← lift (guard_err (bool_decide (pid = [])) "cannot find process for envelope");
  vote ← lift (unmarshalVote (v_VotePackage envelope) []);
  _ ← lift (guard_err (bool_decide (MaxQuestions < glen (vpk_Votes vote))) "too many questions on addVote");
  r ← st_Get "liveProcess" pid;
  process ← lift (match r with Err _ => Err "error adding vote to process, skipping addVote" | r => r end);
  pv ← lift (match UnmarshalBinaryBare (Some process) with
             | Err _ => Err "cannot unmarshal vote"
             | r => r
             end);
  pv ← lift (tally_loop (vpk_Votes vote) 0 pv);
  process ← lift (marshal pv);
  st_Put "liveProcess" pid process.

Definition computeLiveResults (processID : bytes) : M ProcessVotes :=
  r ← st_Get "liveProcess" processID;
  pb ← lift r;
  pv ← lift (UnmarshalBinaryBare (Some pb));
  lift (pruneVoteResult pv).

(** The private keys a vote was encrypted for. *)
Fixpoint vote_keys (p : Process) (indexes : list Z) : res (list string) :=
  match indexes with
  | [] => Ok []
  | k :: ks =>
      if decide (MaxKeyIndex ≤ k) then Err "key index overflow"
      else key ← go_index (p_EncryptionPrivateKeys p) k; keys ← vote_keys p ks; Ok (key :: keys)
  end.
Definition open_vote (p : Process) (v : Vote) : res VotePackage :=
  if IsEncrypted p then
    if decide (glen (p_EncryptionPrivateKeys p) < glen (v_EncryptionKeyIndexes v))
    then Err "encryptionKeyIndexes has too many fields"
    else match vote_keys p (v_EncryptionKeyIndexes v) with
         | Ok [] => Err "no keys provided or wrong index"
         | Ok keys => unmarshalVote (v_VotePackage v) keys
         | Err _ => Err "no keys provided or wrong index"
         | Panic w => Panic w
         end
  else unmarshalVote (v_VotePackage v) [].

(** One round of the loop over the envelopes: a vote that cannot be read is
    skipped. *)
Definition count_envelope (d : DB) (processID : bytes) (p : Process) (e : bytes) (pv : ProcessVotes) :
    res ProcessVotes :=
  match Envelope d processID e false with
  | Ok v => match open_vote p v with
            | Ok vp => tally_loop (vpk_Votes vp) 0 pv
            | Err _ => Ok pv
            | Panic w => Panic w
            end
  | Err _ => Ok pv
  | Panic w => Panic w
  end.
Fixpoint count_envelopes (d : DB) (processID : bytes) (p : Process) (es : list bytes) (pv : ProcessVotes) :
    res ProcessVotes :=
  match es with
  | [] => Ok pv
  | e :: es' => pv ← count_envelope d processID p e pv; count_envelopes d processID p es' pv
  end.
(** [32 << 18]. *)
Definition maxEnvelopes : Z := Z.shiftl 32 18.
Definition computeNonLiveResults (d : DB) (processID : bytes) (p : Process) : res ProcessVotes :=
  pv ← count_envelopes d processID p (EnvelopeList d processID 0 maxEnvelopes false) emptyProcess;
  pruneVoteResult pv.

Definition ComputeResult (d : DB) (processID : bytes) : M () :=
  p ← lift (Process_ d processID false);
  r ← st_Get "results" processID;
  _ ← lift (match r with
            | Ok _ => Err "process already computed"
            | Err e => if decide (e = ErrKeyNotFound) then Ok () else Err e
            | Panic w => Panic w
            end);
  isLive ← lift (isLiveResultsProcess d processID);
  pv ← (if (isLive : bool) then
          pv ← computeLiveResults processID;
          _ ← st_Del "liveProcess" processID;
          mret pv
        else lift (computeNonLiveResults d processID p));
  result ← lift (marshal pv);
  st_Put "results" processID result.

Definition ErrNoResultsYet : error := "no results yet".
Definition VoteResult (d : DB) (processID : bytes) : M ProcessVotes :=
  _ ← lift (Process_ d processID false);
  r ← st_Get "results" processID;
  match r with
  | Ok processBytes => lift (UnmarshalBinaryBare (Some processBytes))
  | Panic w => lift (Panic w)
  | Err e =>
      if decide (e = ErrKeyNotFound) then
        isLive ← lift (isLiveResultsProcess d processID);
        if negb isLive then lift (Err ErrNoResultsYet) else computeLiveResults processID
      else lift (Err e)
  end.

Definition checkFinishedProcesses (d : DB) (height : Z) : M () :=
  let key := s2b (sprintf_d height) in
  r ← st_Get "processEnding" key;
  match r with
  | Ok (b :: pidListBytes) =>
      r ← lift (match UnmarshalBinaryBare (A := list bytes) (Some (b :: pidListBytes)) with
                | Panic w => Panic w
                | r => Ok r
                end);
      match r with
      | Ok pidList =>
          _ ← for_each pidList (λ p, logged (ComputeResult d p));
          logged (st_Del "processEnding" key)
      | _ => mret ()
      end
  | Panic w => lift (Panic w)
  | _ => mret ()
  end.
(** The goroutine started at a commit. *)
Definition run_task (d : DB) (i : nat) : M () :=
  ts ← reads (λ s, Ok (sc_tasks s));
  match ts !! i with
  | Some height => _ ← modify (set_tasks (delete i ts)); checkFinishedProcesses d height
  | None => mret ()
  end.
End storage.

(** ** The listener *)
Section listener.
Context {DB : Type} `{StateDB DB} `{AminoLib} `{CryptoLib} `{ScrutinizerCodec}.
Abbreviation M := (GM Scrutinizer).

(** [for i, p := range s.resultsPool], from [i] on. *)
Fixpoint register_loop (pool : list ScrutinizerOnProcessData) (height i : Z) : M () :=
  match pool with
  | [] => mret ()
  | p :: pool' =>
      _ ← registerPendingProcess (od_ProcessID p) (i64 (height + (i + 1)));
      register_loop pool' height (i + 1)
  end.
Definition commit_process (d : DB) (p : ScrutinizerOnProcessData) : M () :=
  _ ← addEntity (od_EntityID p) (od_ProcessID p);
  match isLiveResultsProcess d (od_ProcessID p) with
  | Ok true => addLiveResultsProcess (od_ProcessID p)
  | Ok false | Err _ => mret ()
  | Panic w => lift (Panic w)
  end.
Definition Commit (d : DB) (height : Z) : M () :=
  _ ← modify (λ s, set_tasks (sc_tasks s ++ [height]) s);
  s ← get_st;
  _ ← for_each (sc_processPool s) (commit_process d);
  _ ← register_loop (sc_resultsPool s) height 0;
  for_each (sc_votePool s) (λ v, logged (addLiveResultsVote v)).

Definition Rollback (s : Scrutinizer) : Scrutinizer := set_pools [] [] [] s.

Definition scrutinizer_OnProcess (pid eid : bytes) (mkroot mkuri : string) (s : Scrutinizer) : Scrutinizer :=
  set_pools (sc_votePool s) (sc_processPool s ++ [mkOnProcess eid pid]) (sc_resultsPool s) s.

Definition scrutinizer_OnVote (d : DB) (v : Vote) (s : Scrutinizer) : res Scrutinizer :=
  match isLiveResultsProcess d (v_ProcessID v) with
  | Ok true => Ok (set_pools (sc_votePool s ++ [v]) (sc_processPool s) (sc_resultsPool s) s)
  | Ok false | Err _ => Ok s
  | Panic w => Panic w
  end.

Definition scrutinizer_OnRevealKeys (d : DB) (pid : bytes) (s : Scrutinizer) : res Scrutinizer :=
  match Process_ d pid false with
  | Ok p =>
      if decide (p_KeyIndex p < 1) then
        Ok (set_pools (sc_votePool s) (sc_processPool s)
              (sc_resultsPool s ++ [mkOnProcess (p_EntityID p) pid]) s)
      else Ok s
  | Err _ => Ok s
  | Panic w => Panic w
  end.

(** Listener methods return nothing: only a panic is seen by the caller. *)
Definition run_listener (m : M ()) (s : Scrutinizer) : res Scrutinizer :=
  match m s with (Panic w, _) => Panic w | (_, s') => Ok s' end.
#[export] Instance scrutinizer_listener : EventListener DB Scrutinizer := {|
  OnVote d v := scrutinizer_OnVote d v;
  OnProcess d pid eid mkroot mkuri s := Ok (scrutinizer_OnProcess pid eid mkroot mkuri s);
  OnCancel _ _ := Ok;
  OnProcessKeys _ _ _ _ := Ok;
  OnRevealKeys d pid _ _ := scrutinizer_OnRevealKeys d pid;
  ListenerCommit d height := run_listener (Commit d height);
  ListenerRollback _ s := Ok (Rollback s) |}.

(** ** Queries *)

(** The loop of [List] over the entries from the seek position on. *)
Fixpoint list_loop (items : list (bytes * bytes)) (max : Z) (from prefix : bytes) : list bytes :=
  match items with
  | [] => []
  | (k, _) :: items' =>
      if has_prefix prefix k then
        let key := drop (length prefix) k in
        if bool_decide (0 < glen from) && bool_decide (key = from)
        then list_loop items' max from prefix
        else if decide (i64 (max - 1) < 1) then [key]
        else key :: list_loop items' (i64 (max - 1)) from prefix
      else []
  end.
Definition List (max : Z) (from prefix : bytes) (s : Scrutinizer) : list bytes :=
  list_loop (db_Seek (prefix ++ from) (sc_Storage s)) max from prefix.

(** [int64(^uint(0) >> 1)]. *)
Definition NewScrutinizer (storage : kvmap) : Scrutinizer :=
  let s := mkScrutinizer storage [] [] [] 0 [] in
  set_entityCount (glen (List (2^63 - 1) [] [ScrutinizerEntityPrefix] s)) s.

(** The loop of [ProcessList]. *)
Fixpoint process_list_loop (chunks : list bytes) (fromID : bytes) (max : Z) (fromLock : bool) : list bytes :=
  match chunks with
  | [] => []
  | process :: chunks' =>
      if decide (max < 1 ∨ glen process < 1) then []
      else if fromLock then
        process_list_loop chunks' fromID max (negb (bool_decide (fromID = process)))
      else process :: process_list_loop chunks' fromID (i64 (max - 1)) false
  end.
Definition ProcessList (entityID fromID : bytes) (max : Z) (s : Scrutinizer) : res (list bytes) :=
  processList ← db_Get (ScrutinizerEntityPrefix :: entityID) (sc_Storage s);
  chunks ← SplitBytes processList ProcessIDsize;
  Ok (process_list_loop chunks fromID max (bool_decide (0 < glen fromID))).

Definition list_hex (max : Z) (fromID : string) (prefix : byte) (s : Scrutinizer) : res (list string) :=
  from ← hex_DecodeString fromID;
  Ok (sprintf_x <$> List max from [prefix] s).
Definition ProcessListWithResults (max : Z) (fromID : string) (s : Scrutinizer) : res (list string) :=
  list_hex max fromID ScrutinizerResultsPrefix s.
Definition ProcessListWithLiveResults (max : Z) (fromID : string) (s : Scrutinizer) : res (list string) :=
  list_hex max fromID ScrutinizerLiveProcessPrefix s.
Definition EntityList (max : Z) (fromID : string) (s : Scrutinizer) : res (list string) :=
  from ← (if decide (0 < slen fromID) then hex_DecodeString (TrimHex fromID) else Ok []);
  Ok (sprintf_x <$> List max from [ScrutinizerEntityPrefix] s).
Definition EntityCount (s : Scrutinizer) : Z := sc_entityCount s.
End listener.
