(* ===== verification/ScrutinizerFacts.v ===== *)
(** * Correctness of the count

    The scrutinizer's matrices against a reference: [count_matrix bs] holds,
    for every question and option, the number of ballots of [bs] that chose
    it, modulo [2^32].  Both ways of counting, ballot by ballot as votes are
    committed and all at once when the keys are out, compute it; pruning is
    the removal of trailing zeros. *)

From stdpp Require Import base gmap strings list fin_maps.
From Stdlib Require Import ZArith Lia.
From S2P Require Import Prelude GoLib Types StateDB Crypto IavlState Codec State Database Scrutinizer.
Open Scope Z_scope.

Lemma decide_ext_if {A} (P Q : Prop) `{Decision P, Decision Q} (x y : A) : (P ↔ Q) →
  (if decide P then x else y) = (if decide Q then x else y).
Proof. intros HPQ. destruct (decide P), (decide Q); tauto. Qed.

(** ** Square matrices of 64 by 64 *)
Definition matrix (f : nat → nat → Z) : ProcessVotes := (λ q, f q <$> seq 0 64) <$> seq 0 64.

Lemma matrix_row f q : (q < 64)%nat → matrix f !! q = Some (f q <$> seq 0 64).
Proof. intros Hq. unfold matrix. by rewrite list_lookup_fmap, lookup_seq_lt. Qed.
Lemma row_cell (f : nat → Z) o : (o < 64)%nat → (f <$> seq 0 64) !! o = Some (f o).
Proof. intros Ho. by rewrite list_lookup_fmap, lookup_seq_lt. Qed.
Lemma length_matrix f : length (matrix f) = 64%nat.
Proof. unfold matrix. by rewrite length_fmap, length_seq. Qed.
Lemma matrix_ext f g : (∀ q o, (q < 64)%nat → (o < 64)%nat → f q o = g q o) → matrix f = matrix g.
Proof.
  intros Hfg. unfold matrix. apply list_fmap_ext. intros i q Hq. apply list_fmap_ext. intros j o Ho.
  apply lookup_seq in Hq as [-> ?], Ho as [-> ?]. apply Hfg; lia.
Qed.
Lemma emptyProcess_matrix : emptyProcess = matrix (λ _ _, 0).
Proof. reflexivity. Qed.

(** One more vote for option [o] of question [q]. *)
Definition bump (f : nat → nat → Z) (q o : nat) : nat → nat → Z := λ q' o',
  if decide (q' = q ∧ o' = o) then u32 (f q' o' + 1) else f q' o'.
Lemma matrix_bump f q o : (q < 64)%nat → (o < 64)%nat →
  <[q := <[o := u32 (f q o + 1)]> (f q <$> seq 0 64)]> (matrix f) = matrix (bump f q o).
Proof.
  intros Hq Ho. apply list_eq. intros q'. destruct (decide (q' < 64)%nat) as [Hq'|Hq'].
  2:{ rewrite !lookup_ge_None_2; [done|rewrite length_matrix; lia|].
      rewrite length_insert, length_matrix. lia. }
  rewrite (matrix_row (bump f q o)) by done. destruct (decide (q' = q)) as [->|Hne].
  - rewrite list_lookup_insert_eq by (rewrite length_matrix; lia). f_equal.
    apply list_eq. intros o'. destruct (decide (o' < 64)%nat) as [Ho'|Ho'].
    2:{ rewrite !lookup_ge_None_2; [done|..];
        rewrite ?length_insert, !length_fmap, length_seq; lia. }
    rewrite (row_cell (bump f q o q)) by done. unfold bump. destruct (decide (o' = o)) as [->|Hno].
    + rewrite list_lookup_insert_eq by (rewrite length_fmap, length_seq; lia). by rewrite decide_True.
    + rewrite list_lookup_insert_ne, row_cell, decide_False by naive_solver. done.
  - rewrite list_lookup_insert_ne, matrix_row by done. f_equal. apply list_fmap_ext.
    intros j o' Ho'. unfold bump. by rewrite decide_False by naive_solver.
Qed.

(** ** One ballot *)

(** A ballot the loop gets through: at most 64 answers, each a valid option or
    one beyond 64, which is skipped. *)
Definition ballot_ok (b : list Z) : Prop := (length b ≤ 64)%nat ∧ Forall (λ o, 0 ≤ o ∧ o ≠ 64) b.

(** The count after the answers [votes] to the questions from [q0] on. *)
Definition tallied (f : nat → nat → Z) (votes : list Z) (q0 : nat) : nat → nat → Z := λ q o,
  if decide (q0 ≤ q ∧ votes !! (q - q0) = Some (Z.of_nat o))%nat then u32 (f q o + 1) else f q o.

(** One answer. *)
Lemma tally_loop_cons o votes q0 f : (q0 < 64)%nat → 0 ≤ o → o ≠ 64 →
  tally_loop (o :: votes) (Z.of_nat q0) (matrix f) =
  tally_loop votes (Z.of_nat (S q0)) (matrix (if decide (64 < o) then f else bump f q0 (Z.to_nat o))).
Proof.
  intros Hq Ho Hne. cbn [tally_loop]. replace (Z.of_nat q0 + 1) with (Z.of_nat (S q0)) by lia.
  unfold MaxOptions. case_decide as Hbig; [done|].
  rewrite (go_index_eq (matrix f) _ (f q0 <$> seq 0 64)) by
    (rewrite ?Nat2Z.id; first [lia|apply matrix_row; lia]). cbn [mbind res_bind].
  rewrite (go_index_eq _ o (f q0 (Z.to_nat o))) by first [lia|apply row_cell; lia]. cbn [mbind res_bind].
  rewrite go_set_index_eq by (unfold glen; rewrite length_fmap, length_seq; lia). cbn [mbind res_bind].
  rewrite go_set_index_eq by (unfold glen; rewrite length_matrix; lia). cbn [mbind res_bind].
  by rewrite Nat2Z.id, matrix_bump by lia.
Qed.

Lemma tallied_cons o votes q0 f q o' : 0 ≤ o → o ≠ 64 → (o' < 64)%nat →
  tallied (if decide (64 < o) then f else bump f q0 (Z.to_nat o)) votes (S q0) q o' =
  tallied f (o :: votes) q0 q o'.
Proof.
  intros Ho Hne Ho'. unfold tallied. destruct (decide (q = q0)) as [->|Hq].
  - rewrite Nat.sub_diag, (decide_False (P := (S q0 ≤ q0)%nat ∧ _)) by lia.
    case_decide as Hbig; [rewrite decide_False; [done|intros [_ E]; simplify_eq/=; lia]|].
    unfold bump. apply decide_ext_if. simpl. split; intros [_ E]; (split; [lia|]); [f_equal; lia|].
    simplify_eq. lia.
  - assert ((if decide (64 < o) then f else bump f q0 (Z.to_nat o)) q o' = f q o') as ->.
    { case_decide; [done|]. unfold bump. by rewrite decide_False by naive_solver. }
    apply decide_ext_if. split; intros [Hle Hlk]; (split; [lia|]).
    + by replace (q - q0)%nat with (S (q - S q0)) by lia.
    + by replace (q - q0)%nat with (S (q - S q0)) in Hlk by lia.
Qed.

Lemma tally_loop_matrix votes q0 f : (q0 + length votes ≤ 64)%nat →
  Forall (λ o, 0 ≤ o ∧ o ≠ 64) votes →
  tally_loop votes (Z.of_nat q0) (matrix f) = Ok (matrix (tallied f votes q0)).
Proof.
  intros Hl HF. revert q0 f Hl. induction HF as [|o votes [Ho0 Ho64] HF IH]; intros q0 f Hl.
  { cbn [tally_loop]. f_equal. apply matrix_ext. intros q o _ _. unfold tallied.
    rewrite decide_False; [done|]. intros [_ Hn]. by rewrite lookup_nil in Hn. }
  simpl in Hl. rewrite tally_loop_cons, IH by lia. f_equal. apply matrix_ext. intros q o' Hq Ho'.
  by apply tallied_cons.
Qed.

(** An answer below zero, or the 65th option, is out of range. *)
Lemma tally_loop_panics votes q0 f : (q0 + length votes ≤ 64)%nat →
  Exists (λ o, o < 0 ∨ o = 64) votes → is_panic (tally_loop votes (Z.of_nat q0) (matrix f)) = true.
Proof.
  revert q0 f. induction votes as [|o votes IH]; intros q0 f Hl HE; [by apply Exists_nil in HE|].
  simpl in Hl. destruct (decide (o < 0 ∨ o = 64)) as [Hbad|Hgood].
  - cbn [tally_loop]. unfold MaxOptions. rewrite decide_False by lia.
    rewrite (go_index_eq (matrix f) _ (f q0 <$> seq 0 64)) by
      (rewrite ?Nat2Z.id; first [lia|apply matrix_row; lia]). cbn [mbind res_bind].
    rewrite go_index_out_of_range by (unfold glen; rewrite length_fmap, length_seq; lia). done.
  - apply Exists_cons in HE as [HE|HE]; [done|]. rewrite tally_loop_cons by lia. apply IH; [lia|done].
Qed.

(** ** Many ballots *)
Definition cell (bs : list (list Z)) (q o : nat) : Z :=
  Z.of_nat (length (filter (λ b, b !! q = Some (Z.of_nat o)) bs)).
Definition count_matrix (bs : list (list Z)) : ProcessVotes := matrix (λ q o, u32 (cell bs q o)).

Lemma count_matrix_nil : count_matrix [] = emptyProcess.
Proof. reflexivity. Qed.
Lemma cell_snoc bs b q o :
  cell (bs ++ [b]) q o = cell bs q o + if decide (b !! q = Some (Z.of_nat o)) then 1 else 0.
Proof.
  unfold cell. rewrite filter_app, filter_cons, filter_nil, length_app. case_decide; simpl; lia.
Qed.
Lemma tally_count b bs : ballot_ok b → tally_loop b 0 (count_matrix bs) = Ok (count_matrix (bs ++ [b])).
Proof.
  intros [Hl HF]. unfold count_matrix. rewrite (tally_loop_matrix b 0) by done. f_equal.
  apply matrix_ext. intros q o _ _. unfold tallied. rewrite Nat.sub_0_r, cell_snoc.
  destruct (decide (b !! q = Some (Z.of_nat o))) as [E|E].
  - rewrite decide_True by (split; [lia|done]). by rewrite u32_u32_add.
  - rewrite decide_False by naive_solver. by rewrite Z.add_0_r.
Qed.
Lemma count_matrix_u32 bs : Forall (Forall in_u32) (count_matrix bs).
Proof.
  unfold count_matrix, matrix. apply Forall_fmap, list.Forall_forall. intros q _.
  apply Forall_fmap, list.Forall_forall. intros o _. apply u32_range.
Qed.

(** Equal counts stay equal. *)
Lemma count_matrix_app bs bs' l : count_matrix bs = count_matrix bs' →
  count_matrix (bs ++ l) = count_matrix (bs' ++ l).
Proof.
  intros Heq. apply matrix_ext. intros q o Hq Ho.
  assert (u32 (cell bs q o) = u32 (cell bs' q o)) as Hc.
  { apply (f_equal (λ m, m !! q)) in Heq. unfold count_matrix in Heq. rewrite !matrix_row in Heq by done.
    apply (inj Some) in Heq. apply (f_equal (λ r, r !! o)) in Heq. rewrite !row_cell in Heq by done.
    by apply (inj Some) in Heq. }
  unfold cell in *. rewrite !filter_app, !length_app, !Nat2Z.inj_add.
  by rewrite <- u32_u32_add, Hc, u32_u32_add.
Qed.

(** ** Pruning *)

(** [strip p l] drops the longest tail of [l] all of whose elements satisfy
    [p]. *)
Definition strip {A} (p : A → bool) (l : list A) : list A :=
  foldr (λ x acc, match acc with [] => if p x then [] else [x] | _ => x :: acc end) [] l.
Definition nonzero_row (row : list Z) : list Z := strip (λ n, bool_decide (n = 0)) row.
Definition prune_ref (pv : ProcessVotes) : ProcessVotes :=
  strip (λ row, bool_decide (row = [])) (nonzero_row <$> pv).

Lemma strip_snoc {A} (p : A → bool) l x : strip p (l ++ [x]) = if p x then strip p l else l ++ [x].
Proof.
  unfold strip. induction l as [|y l IH]; simpl; [done|]. rewrite IH. destruct (p x); [done|].
  by destruct l.
Qed.
Lemma strip_prefix {A} (p : A → bool) l : strip p l = take (length (strip p l)) l.
Proof.
  induction l as [|x l IH]; [done|]. unfold strip in *. simpl.
  destruct (foldr _ [] l) as [|y acc] eqn:E; [by destruct (p x)|]. simpl. f_equal. exact IH.
Qed.
Lemma strip_nil {A} (p : A → bool) l : strip p l = [] ↔ Forall (λ x, p x = true) l.
Proof.
  induction l as [|x l IH]; [done|]. unfold strip in *. simpl. rewrite Forall_cons, <- IH.
  destruct (foldr _ [] l) as [|y acc]; [|naive_solver]. destruct (p x); naive_solver.
Qed.
Lemma length_strip {A} (p : A → bool) l : (length (strip p l) ≤ length l)%nat.
Proof. rewrite strip_prefix, length_take. lia. Qed.

Lemma go_index_nth {A} (l : list A) n x : l !! n = Some x → go_index l (Z.of_nat n) = Ok x.
Proof. intros Hl. apply go_index_eq; [lia|by rewrite Nat2Z.id]. Qed.

Lemma last_option_strip row n : (n ≤ length row)%nat →
  last_option row n = Ok (Z.of_nat (length (nonzero_row (take n row))) - 1).
Proof.
  induction n as [|n IH]; intros Hn; [done|]. cbn [last_option].
  destruct (lookup_lt_is_Some_2 row n) as [x Hx]; [lia|]. rewrite (go_index_nth _ _ _ Hx). simpl.
  unfold nonzero_row in *. rewrite (take_S_r _ _ _ Hx), strip_snoc. case_decide as Hz.
  - rewrite bool_decide_eq_false_2 by done. rewrite length_app, length_take. simpl. f_equal. lia.
  - rewrite bool_decide_eq_true_2 by lia. apply IH. lia.
Qed.

Lemma first_option_spec row j n : (Z.to_nat j + n = length row)%nat → 0 ≤ j →
  ∃ r, first_option row j n = Ok r ∧
    (r < j + Z.of_nat n ↔ ¬ Forall (λ x, x = 0) (drop (Z.to_nat j) row)).
Proof.
  revert j. induction n as [|n IH]; intros j Hl Hj; cbn [first_option].
  { exists j. split; [done|]. rewrite drop_ge by lia. split; [lia|]. intros []. constructor. }
  destruct (lookup_lt_is_Some_2 row (Z.to_nat j)) as [x Hx]; [lia|].
  rewrite (go_index_eq _ _ _ Hj Hx). cbn [mbind res_bind]. rewrite (drop_S _ _ _ Hx). case_decide as Hz.
  { exists j. split; [done|]. rewrite Forall_cons. split; [naive_solver|lia]. }
  destruct (IH (j + 1)) as (r & -> & Hr); [lia|lia|]. exists r. split; [done|]. rewrite Forall_cons.
  replace (j + Z.of_nat (S n)) with (j + 1 + Z.of_nat n) by lia. rewrite Hr.
  replace (Z.to_nat (j + 1)) with (S (Z.to_nat j)) by lia. assert (x = 0) by lia. tauto.
Qed.
Lemma first_option_row row : length row = 64%nat → ∃ r, first_option row 0 64 = Ok r ∧
  (r < 64 ↔ nonzero_row row ≠ []).
Proof.
  intros Hl. destruct (first_option_spec row 0 64) as (r & Hr & Hlt); [done|lia|].
  exists r. split; [done|]. rewrite Z.add_0_l in Hlt. change (Z.of_nat 64) with 64 in Hlt.
  rewrite Hlt. unfold nonzero_row. rewrite strip_nil. rewrite drop_0.
  assert (Forall (λ x, bool_decide (x = 0) = true) row ↔ Forall (λ x, x = 0) row) as Hiff
    by (apply Forall_iff; intros x; apply bool_decide_eq_true). tauto.
Qed.

Lemma last_question_strip pv n : Forall (λ row, length row = 64%nat) pv → (n ≤ length pv)%nat →
  last_question pv n = Ok (Z.of_nat (length (prune_ref (take n pv))) - 1).
Proof.
  intros HF. induction n as [|n IH]; intros Hn; [done|]. cbn [last_question].
  destruct (lookup_lt_is_Some_2 pv n) as [row Hrow]; [lia|]. rewrite (go_index_nth _ _ _ Hrow).
  cbn [mbind res_bind]. pose proof (Forall_lookup_1 _ _ _ _ HF Hrow) as Hl; cbv beta in Hl.
  destruct (first_option_row row Hl) as (r & Hr & Hlt). change (Z.to_nat MaxOptions) with 64%nat.
  rewrite Hr. cbn [mbind res_bind]. unfold prune_ref in *.
  rewrite (take_S_r _ _ _ Hrow), fmap_app. simpl. rewrite strip_snoc. unfold MaxOptions.
  case_decide as Hd.
  - rewrite bool_decide_eq_false_2 by (by apply Hlt). rewrite length_app, length_fmap, length_take.
    simpl. f_equal. lia.
  - rewrite bool_decide_eq_true_2; [apply IH; lia|].
    destruct (nonzero_row row) eqn:E; [done|]. exfalso. apply Hd, Hlt. done.
Qed.

Lemma copy_rows_strip pv i n : Forall (λ row, length row = 64%nat) pv → (i + n ≤ length pv)%nat →
  copy_rows pv (Z.of_nat i) n = Ok (nonzero_row <$> take n (drop i pv)).
Proof.
  intros HF. revert i. induction n as [|n IH]; intros i Hn; [done|]. cbn [copy_rows].
  destruct (lookup_lt_is_Some_2 pv i) as [row Hrow]; [lia|]. rewrite (go_index_nth _ _ _ Hrow).
  cbn [mbind res_bind]. pose proof (Forall_lookup_1 _ _ _ _ HF Hrow) as Hl; cbv beta in Hl.
  change (Z.to_nat MaxOptions) with 64%nat. rewrite last_option_strip by lia.
  cbn [mbind res_bind]. replace (Z.of_nat i + 1) with (Z.of_nat (S i)) by lia.
  rewrite IH by lia. cbn [mbind res_bind]. rewrite (drop_S _ _ _ Hrow). cbn [take fmap list_fmap].
  do 2 f_equal. unfold copy_row. rewrite (take_ge row 64) by lia.
  pose proof (length_strip (λ n, bool_decide (n = 0)) row) as Hs. fold (nonzero_row row) in Hs.
  replace (Z.to_nat (Z.of_nat (length (nonzero_row row)) - 1 + 1)) with (length (nonzero_row row)) by lia.
  replace (length (nonzero_row row) - length row)%nat with 0%nat by lia. simpl. rewrite app_nil_r.
  symmetry. apply strip_prefix.
Qed.
Lemma prune_loop_strip pv i n pvc : Forall (λ row, length row = 64%nat) pv → (i + n ≤ length pv)%nat →
  prune_loop pv (Z.of_nat i) n pvc =
    Ok (match n with O => pvc | _ => nonzero_row <$> take (i + n) pv end).
Proof.
  intros HF. revert i pvc. induction n as [|n IH]; intros i pvc Hn; [done|]. cbn [prune_loop].
  replace (Z.to_nat (Z.of_nat i + 1)) with (S i) by lia. rewrite (copy_rows_strip pv 0) by (done || lia).
  cbn [mbind res_bind]. replace (Z.of_nat i + 1) with (Z.of_nat (S i)) by lia.
  rewrite IH by lia. f_equal. rewrite drop_0. destruct n; [by rewrite Nat.add_1_r|].
  by replace (i + S (S n))%nat with (S i + S n)%nat by lia.
Qed.

(** On the 64 by 64 matrices the scrutinizer stores, [pruneVoteResult] returns
    the questions up to the last one with a vote, each with its options up to
    the last one with a vote. *)
Lemma pruneVoteResult_ref pv : length pv = 64%nat → Forall (λ row, length row = 64%nat) pv →
  pruneVoteResult pv = Ok (prune_ref pv).
Proof.
  intros Hl HF. unfold pruneVoteResult. change (Z.to_nat MaxQuestions) with 64%nat.
  rewrite last_question_strip by (done || lia). cbn [mbind res_bind]. rewrite (take_ge pv) by lia.
  set (m := length (prune_ref pv)).
  assert (m ≤ 64)%nat as Hm.
  { unfold m, prune_ref. rewrite <- Hl. etransitivity; [apply length_strip|]. by rewrite length_fmap. }
  replace (Z.to_nat (Z.of_nat m - 1 + 1)) with m by lia.
  rewrite (prune_loop_strip pv 0) by (done || lia). f_equal. unfold prune_ref.
  rewrite strip_prefix. fold (prune_ref pv). change (length (prune_ref pv)) with m.
  destruct m; [done|]. by rewrite fmap_take.
Qed.
(** Reading past the end gives the default, so stripping defaults is not seen. *)
Lemma strip_default {A} (p : A → bool) (z : A) l i : (∀ x, p x = true → x = z) →
  default z (strip p l !! i) = default z (l !! i).
Proof.
  intros Hp. induction l as [|x l IH] using rev_ind; [done|]. rewrite strip_snoc. destruct (p x) eqn:E; [|done].
  rewrite IH. apply Hp in E as ->. destruct (decide (i < length l)%nat).
  - by rewrite lookup_app_l.
  - rewrite lookup_ge_None_2, lookup_app_r by lia. by destruct (i - length l)%nat as [|k].
Qed.
(** The votes of an option of a question. *)
Definition votes_of (pv : ProcessVotes) (q o : nat) : Z := default 0 (default [] (pv !! q) !! o).

(** C24: pruning a 64 by 64 tally always succeeds, agrees with the reference
    (the trailing options without votes of each question are cut, then the
    trailing empty questions) and loses no vote: every count reads the same
    before and after. *)
Theorem prune_equivalent pv : length pv = 64%nat → Forall (λ row, length row = 64%nat) pv →
  pruneVoteResult pv = Ok (prune_ref pv) ∧ ∀ q o, votes_of (prune_ref pv) q o = votes_of pv q o.
Proof.
  intros Hl HF. split; [by apply pruneVoteResult_ref|]. intros q o. unfold votes_of, prune_ref.
  rewrite (strip_default _ []); [|intros x Hx; by go_bool].
  rewrite list_lookup_fmap. destruct (pv !! q) as [row|]; [|done]. simpl. unfold nonzero_row.
  apply strip_default. intros x Hx. by go_bool.
Qed.
Definition one_vote : ProcessVotes := <[1%nat := <[2%nat := 5]> (replicate 64 0)]> (replicate 64 (replicate 64 0)).
Lemma prune_equivalent_witness :
  pruneVoteResult one_vote = Ok [[]; [0; 0; 5]] ∧ ∀ q o, votes_of (prune_ref one_vote) q o = votes_of one_vote q o.
Proof.
  destruct (prune_equivalent one_vote) as [E Hv]; [done| |].
  - apply (bool_decide_unpack _). by vm_compute.
  - split; [|exact Hv]. rewrite E. by vm_compute.
Defined.
Lemma strip_Forall {A} (P : A → Prop) p (l : list A) : Forall P l → Forall P (strip p l).
Proof. intros HF. rewrite strip_prefix. by apply Forall_take. Qed.
Lemma prune_ref_u32 pv : Forall (Forall in_u32) pv → Forall (Forall in_u32) (prune_ref pv).
Proof.
  intros HF. apply strip_Forall, Forall_fmap. eapply Forall_impl; [exact HF|].
  intros row Hrow. by apply strip_Forall.
Qed.
Lemma matrix_square f : length (matrix f) = 64%nat ∧ Forall (λ row, length row = 64%nat) (matrix f).
Proof.
  split; [apply length_matrix|]. unfold matrix. apply Forall_fmap, list.Forall_forall.
  intros q _. simpl. done.
Qed.

(** ** Reading ballots never panics *)
Section reading.
Context `{CryptoLib} `{ScrutinizerCodec}.

Definition no_panic {A} (r : res A) : Prop := is_panic r = false.
Lemma no_panic_bind {A B} (r : res A) (f : A → res B) :
  no_panic r → (∀ a, r = Ok a → no_panic (f a)) → no_panic (r ≫= f).
Proof. destruct r; simpl; unfold no_panic; auto. Qed.
Lemma no_panic_of_option {A} e (o : option A) : no_panic (of_option e o).
Proof. by destruct o. Qed.
Lemma no_panic_guard c e : no_panic (guard_err c e).
Proof. by destruct c. Qed.
Lemma hex_no_panic s : no_panic (hex_DecodeString s).
Proof.
  unfold no_panic. destruct (hex_DecodeString s) eqn:E; [done|done|].
  by apply hex_DecodeString_no_panic in E.
Qed.
Lemma DecodePrivate_no_panic k : no_panic (nacl.DecodePrivate k).
Proof.
  unfold nacl.DecodePrivate, nacl.key_decode.
  repeat (apply no_panic_bind; intros); auto using hex_no_panic, no_panic_guard, no_panic_of_option; done.
Qed.
Lemma decrypt_all_no_panic keys b : no_panic (decrypt_all keys b).
Proof.
  induction keys as [|k keys IH]; [done|]. simpl. apply no_panic_bind; [done|]. intros raw _.
  unfold decrypt_step. pose proof (DecodePrivate_no_panic k) as Hk.
  destruct (nacl.DecodePrivate k); [|done|done]. unfold nacl.Decrypt. by destruct (OpenAnonymous _ _ _).
Qed.
Lemma b64_groups_no_panic n l : (length l ≤ n)%nat → no_panic (b64_groups l).
Proof.
  revert l. induction n as [|n IH]; intros l Hl; [by destruct l; [|simpl in Hl; lia]|].
  destruct l as [|c1 [|c2 [|c3 [|c4 l]]]]; try done. cbn [b64_groups].
  destruct (b64_val c1); [|done]. destruct (b64_val c2); [|done].
  destruct (decide (c3 = b64_pad)); [by case_decide|]. destruct (b64_val c3); [|done].
  destruct (decide (c4 = b64_pad)); [by case_decide|]. destruct (b64_val c4); [|done].
  apply no_panic_bind; [apply IH; simpl in Hl; lia|done].
Qed.
Lemma unmarshalVote_no_panic pkg keys : (∀ b, no_panic (json_VotePackage b)) →
  no_panic (unmarshalVote pkg keys).
Proof.
  intros Hj. unfold unmarshalVote, b64_DecodeString.
  apply no_panic_bind; [by eapply b64_groups_no_panic|]. intros raw _.
  apply no_panic_bind; [apply decrypt_all_no_panic|auto].
Qed.

(** Negative key indexes are the only ones that bring the count down. *)
Lemma vote_keys_no_panic p ks : length (p_EncryptionPrivateKeys p) = Z.to_nat MaxKeyIndex →
  Forall (λ k, 0 ≤ k) ks → no_panic (vote_keys p ks).
Proof.
  intros Hl HF. induction HF as [|k ks Hk HF IH]; [done|]. simpl. case_decide as Hd; [done|].
  destruct (go_index_in_range (p_EncryptionPrivateKeys p) k) as (key & Hkey & _).
  { unfold glen, MaxKeyIndex in *. lia. }
  rewrite Hkey. simpl. apply no_panic_bind; done.
Qed.
Lemma open_vote_no_panic p v : (∀ b, no_panic (json_VotePackage b)) →
  (IsEncrypted p = true → length (p_EncryptionPrivateKeys p) = Z.to_nat MaxKeyIndex) →
  Forall (λ k, 0 ≤ k) (v_EncryptionKeyIndexes v) → no_panic (open_vote p v).
Proof.
  intros Hj Hl HF. unfold open_vote. destruct (IsEncrypted p); [|by apply unmarshalVote_no_panic].
  case_decide; [done|]. pose proof (vote_keys_no_panic p _ (Hl eq_refl) HF) as Hk.
  destruct (vote_keys p _) as [[|k ks]| |]; [done| |done|done]. by apply unmarshalVote_no_panic.
Qed.
End reading.

(** ** The count of a finished process *)
Section nonlive.
Context {DB : Type} `{StateDB DB} `{AminoLib} `{CryptoLib} `{ScrutinizerCodec}.
Implicit Types d : DB.

(** The answers of the ballot in an envelope, when it can be opened. *)
Definition ballot_of (p : Process) (v : Vote) : option (list Z) :=
  match open_vote p v with Ok vp => Some (vpk_Votes vp) | _ => None end.
Definition envelope_ballot d (pid : bytes) (p : Process) (e : bytes) : option (list Z) :=
  match Envelope d pid e false with Ok v => ballot_of p v | _ => None end.

Lemma Envelope_no_panic d pid nul q : no_panic (Envelope d pid nul q).
Proof. unfold Envelope, recovered. by destruct (_ ≫= _). Qed.

Lemma count_envelopes_matrix d pid p es bs :
  (∀ b, no_panic (json_VotePackage b)) →
  (IsEncrypted p = true → length (p_EncryptionPrivateKeys p) = Z.to_nat MaxKeyIndex) →
  (∀ e v, e ∈ es → Envelope d pid e false = Ok v → Forall (λ k, 0 ≤ k) (v_EncryptionKeyIndexes v)) →
  (∀ e b, e ∈ es → envelope_ballot d pid p e = Some b → ballot_ok b) →
  count_envelopes d pid p es (count_matrix bs) =
    Ok (count_matrix (bs ++ omap (envelope_ballot d pid p) es)).
Proof.
  intros Hj Hl. revert bs. induction es as [|e es IH]; intros bs Hk Hb; simpl; [by rewrite app_nil_r|].
  assert (count_envelope d pid p e (count_matrix bs) =
          Ok (count_matrix (bs ++ option_list (envelope_ballot d pid p e)))) as He.
  { specialize (Hk e). specialize (Hb e). unfold count_envelope, envelope_ballot, ballot_of in *.
    pose proof (Envelope_no_panic d pid e false) as Hn.
    destruct (Envelope d pid e false) as [v| |]; simpl; [|by rewrite app_nil_r|done].
    pose proof (open_vote_no_panic p v Hj Hl (Hk v ltac:(left) eq_refl)) as Hn'.
    destruct (open_vote p v) as [vp| |]; simpl; [|by rewrite app_nil_r|done].
    apply tally_count. apply Hb; [left|done]. }
  rewrite He. simpl. rewrite IH by (intros; eauto using list_elem_of_further).
  do 2 f_equal. rewrite <- app_assoc. f_equal. by destruct (envelope_ballot d pid p e).
Qed.

(** The result computed when a process is over is the pruned count of the
    ballots that can be opened. *)
Lemma computeNonLiveResults_counts d pid p :
  let es := EnvelopeList d pid 0 maxEnvelopes false in
  (∀ b, no_panic (json_VotePackage b)) →
  (IsEncrypted p = true → length (p_EncryptionPrivateKeys p) = Z.to_nat MaxKeyIndex) →
  (∀ e v, e ∈ es → Envelope d pid e false = Ok v → Forall (λ k, 0 ≤ k) (v_EncryptionKeyIndexes v)) →
  (∀ e b, e ∈ es → envelope_ballot d pid p e = Some b → ballot_ok b) →
  computeNonLiveResults d pid p = Ok (prune_ref (count_matrix (omap (envelope_ballot d pid p) es))).
Proof.
  intros es Hj Hl Hk Hb. unfold computeNonLiveResults. rewrite <- count_matrix_nil.
  rewrite count_envelopes_matrix by done. simpl. by apply pruneVoteResult_ref; apply matrix_square.
Qed.
End nonlive.

(** ** The running count of a live process *)
Section live.
Context {DB : Type} `{StateDB DB} `{AminoLib} `{CryptoLib} `{ScrutinizerCodec} `{!ScrutinizerLaws}.
Implicit Types (d : DB) (s : Scrutinizer).

Lemma st_Get_run t data s key : encode t data = Ok key →
  st_Get t data s = (Ok (db_Get key (sc_Storage s)), s).
Proof. intros Hk. unfold st_Get. by rewrite GM_run, Hk. Qed.
Lemma st_Put_run t data v s key : encode t data = Ok key → key ≠ [] →
  st_Put t data v s = (Ok (), set_Storage (<[key := v]> (sc_Storage s)) s).
Proof.
  intros Hk Hne. unfold st_Put, updates, db_Put. rewrite GM_run, Hk. cbn [lift]. by rewrite decide_False.
Qed.
Lemma st_Del_run t data s key : encode t data = Ok key → key ≠ [] →
  st_Del t data s = (Ok (), set_Storage (delete key (sc_Storage s)) s).
Proof.
  intros Hk Hne. unfold st_Del, updates, db_Del. rewrite GM_run, Hk. cbn [lift]. by rewrite decide_False.
Qed.

Definition live_key (pid : bytes) : bytes := ScrutinizerLiveProcessPrefix :: pid.

(** The database holds the count of [bs] for the live process [pid]. *)
Definition live_count s (pid : bytes) (bs : list (list Z)) : Prop :=
  ∃ b, sc_Storage s !! live_key pid = Some b ∧ b ≠ [] ∧
       UnmarshalBinaryBare (Some b) = Ok (count_matrix bs).
(** Every running count is the count of some ballots. *)
Definition live_inv s : Prop := ∀ pid, is_Some (sc_Storage s !! live_key pid) → ∃ bs, live_count s pid bs.

(** The final results in the database are the same. *)
Definition same_results s s' : Prop := ∀ pid,
  sc_Storage s' !! (ScrutinizerResultsPrefix :: pid) = sc_Storage s !! (ScrutinizerResultsPrefix :: pid).
Lemma same_results_put s x k v : x ≠ ScrutinizerResultsPrefix →
  same_results s (set_Storage (<[x :: k := v]> (sc_Storage s)) s).
Proof. intros Hx pid. simpl. apply lookup_insert_ne. congruence. Qed.

(** The answers of a ballot that is not encrypted, when it can be counted. *)
Definition live_ballot (v : Vote) : option (list Z) :=
  match unmarshalVote (v_VotePackage v) [] with
  | Ok vp => if decide (MaxQuestions < glen (vpk_Votes vp)) then None else Some (vpk_Votes vp)
  | _ => None
  end.

Lemma marshal_count bs : ∃ b, marshal (count_matrix bs) = Ok b ∧ b ≠ [] ∧
  UnmarshalBinaryBare (Some b) = Ok (count_matrix bs).
Proof.
  destruct (law_amino_votes (count_matrix bs)) as (b & Hm & Hne & Hu).
  - unfold count_matrix, matrix. done.
  - apply count_matrix_u32.
  - exists b. unfold marshal. by rewrite Hm.
Qed.

Lemma live_count_unique s pid bs bs' : live_count s pid bs → live_count s pid bs' →
  count_matrix bs = count_matrix bs'.
Proof. intros (b & Hb & _ & Hu) (b' & Hb' & _ & Hu'). congruence. Qed.

(** A vote that cannot be counted leaves everything as it is. *)
Lemma addLiveResultsVote_skips v s : (∀ b, no_panic (json_VotePackage b)) → v_ProcessID v ≠ [] →
  live_ballot v = None ∨ sc_Storage s !! live_key (v_ProcessID v) = None →
  ∃ e, addLiveResultsVote v s = (Err e, s).
Proof.
  intros Hj Hne Hn. unfold addLiveResultsVote, live_ballot in *.
  rewrite GM_run, bool_decide_eq_false_2 by done. cbn [lift guard_err]. rewrite GM_run. cbn [lift].
  pose proof (unmarshalVote_no_panic (v_VotePackage v) [] Hj) as Hnp.
  destruct (unmarshalVote (v_VotePackage v) []) as [vp|e|] eqn:Eu; [|by exists e|done].
  rewrite GM_run. cbn [lift]. destruct (decide (MaxQuestions < glen (vpk_Votes vp))) as [Hq|Hq].
  { rewrite bool_decide_eq_true_2 by done. by eexists. }
  rewrite bool_decide_eq_false_2 by done. cbn [guard_err]. destruct Hn as [Hn|Hn]; [done|].
  rewrite GM_run, (st_Get_run _ _ _ (live_key (v_ProcessID v))) by done.
  unfold db_Get. rewrite decide_False, Hn by done. by eexists.
Qed.
(** A vote that can be counted is added to the count of its process. *)
Lemma addLiveResultsVote_adds v s b bs : v_ProcessID v ≠ [] → live_ballot v = Some b → ballot_ok b →
  live_count s (v_ProcessID v) bs →
  ∃ mb, addLiveResultsVote v s = (Ok (), set_Storage (<[live_key (v_ProcessID v) := mb]> (sc_Storage s)) s) ∧
    mb ≠ [] ∧ UnmarshalBinaryBare (Some mb) = Ok (count_matrix (bs ++ [b])).
Proof.
  intros Hne Hb Hok (cb & Hlk & _ & Hu). destruct (marshal_count (bs ++ [b])) as (mb & Hm & Hmu).
  exists mb. split; [|done]. unfold addLiveResultsVote, live_ballot in *.
  rewrite GM_run, bool_decide_eq_false_2 by done. cbn [lift guard_err]. rewrite GM_run. cbn [lift].
  destruct (unmarshalVote (v_VotePackage v) []) as [vp| |]; [|done|done]. case_decide as Hq; [done|].
  injection Hb as Hb. rewrite GM_run. cbn [lift]. rewrite bool_decide_eq_false_2 by done. cbn [guard_err].
  rewrite GM_run, (st_Get_run _ _ _ (live_key (v_ProcessID v))) by done.
  unfold db_Get. rewrite decide_False, Hlk by done. cbn [of_option].
  rewrite GM_run. cbn [lift]. rewrite GM_run. cbn [lift]. rewrite Hu.
  rewrite GM_run. cbn [lift]. rewrite Hb, tally_count by done. rewrite GM_run. cbn [lift]. rewrite Hm.
  by apply st_Put_run.
Qed.

Lemma live_count_insert s pid mb bs pid' bs' :
  mb ≠ [] ∧ UnmarshalBinaryBare (Some mb) = Ok (count_matrix bs) →
  live_count s pid' bs' →
  live_count (set_Storage (<[live_key pid := mb]> (sc_Storage s)) s) pid'
    (if decide (pid' = pid) then bs else bs').
Proof.
  intros Hu (b & Hlk & Hbne & Hub). destruct (decide (pid' = pid)) as [->|Hne].
  - exists mb. cbn [sc_Storage set_Storage]. by rewrite lookup_insert_eq.
  - exists b. cbn [sc_Storage set_Storage]. rewrite lookup_insert_ne by (unfold live_key; naive_solver). done.
Qed.

(** One vote of the pool: it is added to the count of its process, if it has
    one, and no other count changes. *)
Lemma live_vote_counts v s : live_inv s → (∀ b, no_panic (json_VotePackage b)) →
  v_ProcessID v ≠ [] → (∀ b, live_ballot v = Some b → ballot_ok b) →
  ∃ s', logged (addLiveResultsVote v) s = (Ok (), s') ∧ live_inv s' ∧ same_results s s' ∧
    ∀ pid bs, live_count s pid bs →
      live_count s' pid (bs ++ if decide (pid = v_ProcessID v) then option_list (live_ballot v) else []).
Proof.
  intros Hi Hj Hne Hb. unfold logged, try_. rewrite GM_run.
  destruct (live_ballot v) as [b|] eqn:Ev;
    [destruct (sc_Storage s !! live_key (v_ProcessID v)) as [cb|] eqn:Ek|].
  2,3: destruct (addLiveResultsVote_skips v s Hj Hne) as [e ->]; [by auto|]; exists s; split; [done|split; [done|split; [done|]]].
  2:{ intros pid bs Hc. case_decide as Hp; [|by rewrite app_nil_r]. subst.
      destruct Hc as (? & Hlk & _). congruence. }
  2:{ intros pid bs Hc. case_decide; by rewrite app_nil_r. }
  destruct (Hi (v_ProcessID v)) as [bs0 Hc0]; [by eexists|].
  destruct (addLiveResultsVote_adds v s b bs0 Hne Ev (Hb _ eq_refl) Hc0) as (mb & -> & Hu).
  eexists. split; [done|]. split; [|split; [by apply same_results_put|]].
  - intros pid Hs. destruct (decide (pid = v_ProcessID v)) as [->|Hp].
    + exists (bs0 ++ [b]). pose proof (live_count_insert s (v_ProcessID v) mb _ _ _ Hu Hc0) as Hc.
      by rewrite decide_True in Hc.
    + simpl in Hs. rewrite lookup_insert_ne in Hs by (unfold live_key; naive_solver).
      destruct (Hi pid Hs) as [bs Hc]. exists bs.
      pose proof (live_count_insert s (v_ProcessID v) mb _ _ _ Hu Hc) as Hc'. by rewrite decide_False in Hc'.
  - intros pid bs Hc. pose proof (live_count_insert s (v_ProcessID v) mb _ _ _ Hu Hc) as Hc'.
    case_decide as Hp; [subst pid; simpl|by rewrite app_nil_r].
    destruct Hc' as (b' & Hlk & Hbne & Hub). exists b'. split_and!; [done|done|]. rewrite Hub. f_equal.
    apply count_matrix_app. by eapply live_count_unique.
Qed.

(** Votes of the pool that can be processed: they name their process, and
    their answers do not hit the missing 65th option. *)
Definition pool_ok (vs : list Vote) : Prop :=
  Forall (λ v, v_ProcessID v ≠ [] ∧ ∀ b, live_ballot v = Some b → ballot_ok b) vs.
(** The ballots of the pool for one process. *)
Definition pool_ballots (pid : bytes) (vs : list Vote) : list (list Z) :=
  omap live_ballot (filter (λ v, v_ProcessID v = pid) vs).

Lemma live_pool_counts vs s : live_inv s → pool_ok vs →
  ∃ s', for_each vs (λ v, logged (addLiveResultsVote v)) s = (Ok (), s') ∧ live_inv s' ∧
    same_results s s' ∧ ∀ pid bs, live_count s pid bs → live_count s' pid (bs ++ pool_ballots pid vs).
Proof.
  intros Hi HF. revert s Hi. induction HF as [|v vs [Hne Hb] HF IH]; intros s Hi; cbn [for_each].
  { exists s. split; [done|split; [done|split; [done|]]]. intros pid bs. unfold pool_ballots. simpl. by rewrite app_nil_r. }
  destruct (live_vote_counts v s Hi law_json_no_panic Hne Hb) as (s1 & Hr1 & Hi1 & Hs1 & Hc1).
  destruct (IH s1 Hi1) as (s2 & Hr2 & Hi2 & Hs2 & Hc2).
  exists s2. split; [by rewrite GM_run, Hr1|]. split; [done|].
  split; [intros pid; by rewrite Hs2, Hs1|]. intros pid bs Hc.
  specialize (Hc2 _ _ (Hc1 _ _ Hc)). rewrite <- app_assoc in Hc2. unfold pool_ballots in *.
  rewrite filter_cons. destruct (decide (pid = v_ProcessID v)) as [->|Hp].
  - rewrite decide_True by done. simpl. by destruct (live_ballot v).
  - by rewrite decide_False by congruence.
Qed.

(** ** The rest of a commit leaves the counts alone *)
Definition live_frame s s' : Prop :=
  live_inv s' ∧ (∀ pid bs, live_count s pid bs → live_count s' pid bs) ∧
  sc_votePool s' = sc_votePool s ∧ sc_resultsPool s' = sc_resultsPool s ∧ same_results s s'.
Lemma live_frame_refl s : live_inv s → live_frame s s.
Proof. intros Hi. split; [done|]. by split_and!. Qed.
Lemma live_frame_trans s1 s2 s3 : live_frame s1 s2 → live_frame s2 s3 → live_frame s1 s3.
Proof.
  intros (_ & Hc1 & Hv1 & Hr1 & Hs1) (Hi & Hc2 & Hv2 & Hr2 & Hs2).
  split; [done|]. split; [auto|]. split; [congruence|]. split; [congruence|].
  intros pid. by rewrite Hs2, Hs1.
Qed.
Lemma live_frame_put s x k v : live_inv s → x ≠ ScrutinizerLiveProcessPrefix →
  x ≠ ScrutinizerResultsPrefix →
  live_frame s (set_Storage (<[x :: k := v]> (sc_Storage s)) s).
Proof.
  intros Hi Hx Hxr. pose proof (same_results_put s x k v Hxr) as Hsame.
  unfold live_frame, live_inv, live_count, live_key in *. cbn [sc_Storage set_Storage].
  assert (∀ pid, <[x :: k := v]> (sc_Storage s) !! (ScrutinizerLiveProcessPrefix :: pid)
                 = sc_Storage s !! (ScrutinizerLiveProcessPrefix :: pid)) as Hlk.
  { intros pid. apply lookup_insert_ne. congruence. }
  split; [|split; [|split; [done|split; [done|exact Hsame]]]].
  - intros pid. rewrite Hlk. intros Hs. destruct (Hi pid Hs) as (bs & b & Hb & Hne & Hu).
    by exists bs, b.
  - intros pid bs (b & Hb & Hne & Hu). exists b. by rewrite Hlk.
Qed.

Lemma st_Get_cases t data s key : encode t data = Ok key → key ≠ [] →
  st_Get t data s = (Ok (of_option ErrKeyNotFound (sc_Storage s !! key)), s).
Proof. intros Hk Hne. rewrite (st_Get_run _ _ _ _ Hk). unfold db_Get. by rewrite decide_False. Qed.

Lemma or_missing_get {A} o (k : bytes → GM Scrutinizer A) stop :
  or_missing (of_option ErrKeyNotFound o) k stop = k (default [] o).
Proof. by destruct o. Qed.

Lemma addEntity_frame eid pid s : live_inv s → ∃ s', addEntity eid pid s = (Ok (), s') ∧ live_frame s s'.
Proof.
  intros Hi. unfold addEntity. rewrite GM_run, (st_Get_cases _ _ _ (ScrutinizerEntityPrefix :: eid)) by done.
  rewrite or_missing_get. case_decide; [exists s; split; [done|by apply live_frame_refl]|].
  rewrite GM_run. unfold try_. rewrite (st_Put_run _ _ _ _ (ScrutinizerEntityPrefix :: eid)) by done.
  eexists. split; [done|]. pose proof (live_frame_put s ScrutinizerEntityPrefix eid
    (default [] (sc_Storage s !! (ScrutinizerEntityPrefix :: eid)) ++ pid) Hi ltac:(done) ltac:(done)) as Hf. exact Hf.
Qed.


Lemma registerPending_frame pid h s : live_inv s →
  ∃ s', registerPendingProcess pid h s = (Ok (), s') ∧ live_frame s s'.
Proof.
  intros Hi. unfold registerPendingProcess.
  rewrite GM_run, (st_Get_cases _ _ _ (ScrutinizerProcessEndingPrefix :: s2b (sprintf_d h))) by done.
  rewrite or_missing_get. set (b := default [] _).
  assert (∃ r, (if decide (0 < glen b) then UnmarshalBinaryBare (A := list bytes) (Some b) else Ok []) = r ∧
           is_panic r = false) as (r & Hr & Hnp).
  { eexists. split; [done|]. case_decide; [apply law_pids_no_panic|done]. }
  rewrite Hr, GM_run. destruct r as [l|e|]; [|exists s; split; [done|by apply live_frame_refl]|done].
  cbn [lift]. destruct (law_amino_pids (l ++ [pid])) as (mb & Hm & _ & _); [by destruct l|].
  eexists. split; [|by apply (live_frame_put s ScrutinizerProcessEndingPrefix (s2b (sprintf_d h)) mb)].
  apply (logged_run _ _ _ (Ok ())); [|done]. rewrite GM_run. unfold marshal. rewrite Hm.
  cbn [mbind res_bind lift default]. by apply st_Put_run.
Qed.

Lemma live_new_count s pid mb : live_inv s → sc_Storage s !! live_key pid = None →
  mb ≠ [] ∧ UnmarshalBinaryBare (Some mb) = Ok (count_matrix []) →
  let s' := set_Storage (<[live_key pid := mb]> (sc_Storage s)) s in
  live_frame s s' ∧ live_count s' pid [].
Proof.
  intros Hi Hn Hmb s'.
  assert (∀ q bs, live_count s q bs → live_count s' q bs) as Hkeep.
  { intros q bs Hc. pose proof (live_count_insert s pid mb [] q bs Hmb Hc) as Hc'.
    rewrite decide_False in Hc'; [done|]. intros ->. destruct Hc as (? & Hlk & _). congruence. }
  assert (live_count s' pid []) as Hnew.
  { exists mb. unfold s'. cbn [sc_Storage set_Storage]. by rewrite lookup_insert_eq. }
  split; [|done]. split; [|split; [exact Hkeep|split; [done|split; [done|by apply same_results_put]]]].
  intros q Hs. destruct (decide (q = pid)) as [->|Hq].
  - by exists [].
  - unfold s' in Hs. cbn [sc_Storage set_Storage] in Hs.
    rewrite lookup_insert_ne in Hs by (unfold live_key; congruence).
    destruct (Hi q Hs) as [bs Hc]. exists bs. by apply Hkeep.
Qed.
Lemma addLiveResultsProcess_frame pid s : live_inv s →
  ∃ s', addLiveResultsProcess pid s = (Ok (), s') ∧ live_frame s s' ∧
    (sc_Storage s !! live_key pid = None → live_count s' pid []).
Proof.
  intros Hi. unfold addLiveResultsProcess.
  rewrite GM_run, (st_Get_cases _ _ _ (live_key pid)), or_missing_get by done.
  destruct (sc_Storage s !! live_key pid) as [b|] eqn:Eb; cbn [default].
  { exists s. destruct (Hi pid) as (bs & b' & Hb' & Hne & _); [by eexists|]. assert (b' = b) as -> by congruence.
    rewrite decide_True by (unfold glen; destruct b; [done|simpl; lia]).
    split; [done|]. split; [by apply live_frame_refl|done]. }
  destruct (marshal_count []) as (mb & Hm & Hmu). pose proof (live_new_count s pid mb Hi Eb Hmu) as Hnew.
  rewrite count_matrix_nil in Hm. rewrite decide_False by done.
  rewrite GM_run. unfold try_, newEmptyLiveProcess. rewrite GM_run, Hm. cbn [lift].
  rewrite GM_run, (st_Put_run _ _ _ _ (live_key pid)) by done. eexists. split; [done|].
  destruct Hnew. by split.
Qed.

Lemma commit_process_frame d p s : live_inv s → is_panic (Process_ d (od_ProcessID p) false) = false →
  ∃ s', commit_process d p s = (Ok (), s') ∧ live_frame s s'.
Proof.
  intros Hi Hp. unfold commit_process. destruct (addEntity_frame (od_EntityID p) (od_ProcessID p) s Hi)
    as (s1 & Hr1 & Hf1). rewrite GM_run, Hr1. unfold isLiveResultsProcess, ProcessInfo.
  destruct (Process_ d (od_ProcessID p) false) as [q| |]; simpl; [|by exists s1|done].
  destruct (negb (IsEncrypted q)); [|by exists s1].
  destruct (addLiveResultsProcess_frame (od_ProcessID p) s1 (proj1 Hf1)) as (s2 & Hr2 & Hf2 & _).
  exists s2. split; [done|by eapply live_frame_trans].
Qed.
Lemma commit_processes_frame d ps s : live_inv s →
  Forall (λ p, is_panic (Process_ d (od_ProcessID p) false) = false) ps →
  ∃ s', for_each ps (commit_process d) s = (Ok (), s') ∧ live_frame s s'.
Proof.
  intros Hi HF. revert s Hi. induction HF as [|p ps Hp HF IH]; intros s Hi.
  { exists s. split; [done|by apply live_frame_refl]. }
  destruct (commit_process_frame d p s Hi Hp) as (s1 & Hr1 & Hf1).
  destruct (IH s1 (proj1 Hf1)) as (s2 & Hr2 & Hf2). exists s2.
  split; [cbn [for_each]; by rewrite GM_run, Hr1|by eapply live_frame_trans].
Qed.
Lemma register_loop_frame pool h i s : live_inv s →
  ∃ s', register_loop pool h i s = (Ok (), s') ∧ live_frame s s'.
Proof.
  revert i s. induction pool as [|p pool IH]; intros i s Hi.
  { exists s. split; [done|by apply live_frame_refl]. }
  destruct (registerPending_frame (od_ProcessID p) (i64 (h + (i + 1))) s Hi) as (s1 & Hr1 & Hf1).
  destruct (IH (i + 1) s1 (proj1 Hf1)) as (s2 & Hr2 & Hf2). exists s2.
  split; [cbn [register_loop]; by rewrite GM_run, Hr1|by eapply live_frame_trans].
Qed.

(** Everything a commit does before it reaches the votes of the pool. *)
Lemma Commit_before_votes d h s : live_inv s →
  Forall (λ p, is_panic (Process_ d (od_ProcessID p) false) = false) (sc_processPool s) →
  ∃ s', Commit d h s = for_each (sc_votePool s) (λ v, logged (addLiveResultsVote v)) s' ∧
    live_inv s' ∧ same_results s s' ∧ ∀ pid bs, live_count s pid bs → live_count s' pid bs.
Proof.
  intros Hi Hp. unfold Commit. rewrite GM_run. cbn [modify].
  set (s0 := set_tasks (sc_tasks s ++ [h]) s). assert (live_inv s0) as Hi0 by exact Hi.
  rewrite GM_run. cbn [get_st].
  destruct (commit_processes_frame d (sc_processPool s0) s0 Hi0 Hp) as (s1 & Hr1 & Hi1 & Hc1 & _ & _ & Hs1).
  rewrite GM_run, Hr1.
  destruct (register_loop_frame (sc_resultsPool s0) h 0 s1 Hi1) as (s2 & Hr2 & Hi2 & Hc2 & _ & _ & Hs2).
  rewrite GM_run, Hr2. exists s2. split; [done|]. split; [done|].
  split; [intros pid; by rewrite Hs2, Hs1|auto].
Qed.
(** A commit adds the pool to the counts. *)
Lemma Commit_counts d h s : live_inv s → pool_ok (sc_votePool s) →
  Forall (λ p, is_panic (Process_ d (od_ProcessID p) false) = false) (sc_processPool s) →
  ∃ s', Commit d h s = (Ok (), s') ∧ live_inv s' ∧ same_results s s' ∧
    ∀ pid bs, live_count s pid bs → live_count s' pid (bs ++ pool_ballots pid (sc_votePool s)).
Proof.
  intros Hi Hv Hp. destruct (Commit_before_votes d h s Hi Hp) as (s1 & -> & Hi1 & Hs1 & Hc1).
  destruct (live_pool_counts (sc_votePool s) s1 Hi1 Hv) as (s2 & Hr2 & Hi2 & Hs2 & Hc2).
  exists s2. split; [done|]. split; [done|]. split; [intros pid; by rewrite Hs2, Hs1|auto].
Qed.

(** A ballot with an answer out of range brings the counting down. *)
Lemma addLiveResultsVote_panics v s b bs : v_ProcessID v ≠ [] → live_ballot v = Some b →
  Exists (λ o, o < 0 ∨ o = 64) b → live_count s (v_ProcessID v) bs →
  ∃ w s', addLiveResultsVote v s = (Panic w, s').
Proof.
  intros Hne Hb Hbad (cb & Hlk & _ & Hu). unfold addLiveResultsVote, live_ballot in *.
  rewrite GM_run, bool_decide_eq_false_2 by done. cbn [lift guard_err]. rewrite GM_run. cbn [lift].
  destruct (unmarshalVote (v_VotePackage v) []) as [vp| |]; [|done|done]. case_decide as Hq; [done|].
  injection Hb as Hb. rewrite GM_run. cbn [lift]. rewrite bool_decide_eq_false_2 by done. cbn [guard_err].
  rewrite GM_run, (st_Get_run _ _ _ (live_key (v_ProcessID v))) by done.
  unfold db_Get. rewrite decide_False, Hlk by done. cbn [of_option].
  rewrite GM_run. cbn [lift]. rewrite GM_run. cbn [lift]. rewrite Hu.
  rewrite GM_run. cbn [lift]. rewrite Hb. rewrite Hb in Hq. unfold MaxQuestions, glen in Hq.
  assert (is_panic (tally_loop b 0 (count_matrix bs)) = true) as Hp.
  { apply (tally_loop_panics b 0); [simpl; lia|done]. }
  destruct (tally_loop b 0 (count_matrix bs)); [done|done|]. eauto.
Qed.
Lemma Commit_panics d h s vs1 v vs2 b : live_inv s → sc_votePool s = vs1 ++ v :: vs2 → pool_ok vs1 →
  Forall (λ p, is_panic (Process_ d (od_ProcessID p) false) = false) (sc_processPool s) →
  v_ProcessID v ≠ [] → is_Some (sc_Storage s !! live_key (v_ProcessID v)) → live_ballot v = Some b →
  Exists (λ o, o < 0 ∨ o = 64) b → is_panic (Commit d h s).1 = true.
Proof.
  intros Hi Hpool Hv1 Hp Hne Hlive Hb Hbad.
  destruct (Commit_before_votes d h s Hi Hp) as (s1 & -> & Hi1 & _ & Hc1). rewrite Hpool.
  destruct (live_pool_counts vs1 s1 Hi1 Hv1) as (s2 & Hr2 & _ & _ & Hc2).
  rewrite (for_each_app _ _ _ _ _ Hr2). cbn [for_each]. destruct (Hi _ Hlive) as [bs Hbs].
  destruct (addLiveResultsVote_panics v s2 b _ Hne Hb Hbad (Hc2 _ _ (Hc1 _ _ Hbs))) as (w & s3 & Hr3).
  rewrite GM_run. unfold logged, try_. by rewrite GM_run, Hr3.
Qed.

Lemma computeLiveResults_count pid bs s : live_count s pid bs →
  computeLiveResults pid s = (Ok (prune_ref (count_matrix bs)), s).
Proof.
  intros (b & Hb & _ & Hu). unfold computeLiveResults.
  rewrite GM_run, (st_Get_cases _ _ _ (live_key pid)), Hb by done. cbn [of_option].
  rewrite GM_run. cbn [lift]. rewrite GM_run. cbn [lift]. rewrite Hu. unfold lift.
  by rewrite pruneVoteResult_ref by apply matrix_square.
Qed.
End live.
