(* ===== verification/Results.v ===== *)
(** * What the scrutinizer reports

    The results it returns against the ballots that were cast, the ballots
    that bring it down, and its lists of processes and entities. *)

From stdpp Require Import base gmap strings list fin_maps.
From Stdlib Require Import ZArith Lia.
From S2P Require Import Prelude GoLib Types StateDB Crypto IavlState Codec State Transaction App.
From S2P Require Import StateFacts ProcessKeys Invariant Genesis Concrete Safety.
From S2P Require Import Operations Database Scrutinizer ScrutinizerFacts.
Open Scope Z_scope.

(** ** A concrete scrutinizer *)
#[export] Instance concrete_scrutinizer_codec : ScrutinizerCodec := {|
  codec_votes := codec_of (list (list Z)); codec_pids := codec_of (list bytes);
  json_VotePackage b := votes ← dec (A := list Z) b; Ok (mkVotePackage "" votes) |}.
Lemma dec_no_panic {A} `{Countable A} b : is_panic (dec (A := A) b) = false.
Proof. unfold dec. by destruct (_ ≫= _). Qed.
#[export] Instance concrete_scrutinizer_laws : ScrutinizerLaws.
Proof.
  constructor.
  - intros. apply codec_of_roundtrips.
  - intros. apply codec_of_roundtrips.
  - intros [b|]; [apply dec_no_panic|done].
  - intros [b|]; [apply dec_no_panic|done].
  - intros b. simpl. pose proof (dec_no_panic (A := list Z) b). by destruct (dec b).
Qed.
Definition package (votes : list Z) : string := b64_EncodeToString (enc votes).

Section results.
Context {DB : Type} `{StateDB DB} `{AminoLib} `{CryptoLib} `{ScrutinizerLaws}.
Implicit Types (d : DB) (s : Scrutinizer).

(** A process without a final result reports its running count. *)
Lemma VoteResult_live d pid p s bs : Process_ d pid false = Ok p → IsEncrypted p = false →
  sc_Storage s !! (ScrutinizerResultsPrefix :: pid) = None → live_count s pid bs →
  (VoteResult d pid s).1 = Ok (prune_ref (count_matrix bs)).
Proof.
  intros Hproc Henc Hres Hc. unfold VoteResult. rewrite GM_run. cbn [lift]. rewrite Hproc.
  rewrite GM_run, (st_Get_cases _ _ _ (ScrutinizerResultsPrefix :: pid)), Hres by done.
  cbn [of_option]. rewrite decide_True by done. rewrite GM_run.
  unfold isLiveResultsProcess, ProcessInfo. rewrite Hproc. cbn [mbind res_bind lift]. rewrite Henc.
  cbn [negb]. by rewrite (computeLiveResults_count _ _ _ Hc).
Qed.

(** At the commit of a block, the live result of a process becomes, for
    every question and option, the number of ballots cast for it before plus
    those of the votes the block delivered, modulo [2^32], without trailing
    zeros. *)
Theorem live_result_counts d height s pid p bs :
  live_inv s → pool_ok (sc_votePool s) →
  Forall (λ p, is_panic (Process_ d (od_ProcessID p) false) = false) (sc_processPool s) →
  live_count s pid bs → Process_ d pid false = Ok p → IsEncrypted p = false →
  sc_Storage s !! (ScrutinizerResultsPrefix :: pid) = None →
  ∃ s', ListenerCommit d height s = Ok s' ∧ live_inv s' ∧
    (VoteResult d pid s').1 = Ok (prune_ref (count_matrix (bs ++ pool_ballots pid (sc_votePool s)))).
Proof.
  intros Hi Hv Hp Hc Hproc Henc Hres.
  destruct (Commit_counts d height s Hi Hv Hp) as (s' & Hr & Hi' & Hs & Hcnt). exists s'.
  split; [simpl; unfold run_listener; by rewrite Hr|]. split; [done|].
  eapply VoteResult_live; [done|done|by rewrite Hs|by apply Hcnt].
Qed.


(** A vote in a live process whose ballot answers a question with 64 or
    with a negative number makes the commit of its block panic: the range
    check lets 64 through and does not look below zero. *)
Theorem ballot_panics_commit d height s vs1 v vs2 b :
  live_inv s → sc_votePool s = vs1 ++ v :: vs2 → pool_ok vs1 →
  Forall (λ p, is_panic (Process_ d (od_ProcessID p) false) = false) (sc_processPool s) →
  v_ProcessID v ≠ [] → is_Some (sc_Storage s !! live_key (v_ProcessID v)) → live_ballot v = Some b →
  Exists (λ o, o < 0 ∨ o = 64) b → is_panic (ListenerCommit d height s) = true.
Proof.
  intros. assert (is_panic (Commit d height s).1 = true) as Hp by (by eapply Commit_panics).
  simpl. unfold run_listener. by destruct (Commit d height s) as [[] ?].
Qed.
End results.

(** A live process with no vote yet, and one vote in the pool. *)
Definition live_start : Scrutinizer :=
  mkScrutinizer {[live_key pid1 := enc (count_matrix [])]}
    [mkVote [] 2 (nullifier_of voter) pid1 (package [1])] [] [] 0 [].
Lemma live_start_ok : live_inv live_start ∧ live_count live_start pid1 [].
Proof.
  set (s0 := mkScrutinizer ∅ (sc_votePool live_start) [] [] 0 []).
  destruct (live_new_count s0 pid1 (enc (count_matrix []))) as [Hf Hc].
  - intros pid [b Hb]. simpl in Hb. by rewrite lookup_empty in Hb.
  - done.
  - split; [by vm_compute|]. apply dec_enc.
  - split; [exact (proj1 Hf)|exact Hc].
Qed.

Lemma live_result_counts_witness : ∃ s',
  ListenerCommit (Store (node_at (block1 ++ block2))) 2 live_start = Ok s' ∧
  (VoteResult (Store (node_at (block1 ++ block2))) pid1 s').1 = Ok [[0; 1]].
Proof.
  destruct (live_result_counts (Store (node_at (block1 ++ block2))) 2 live_start pid1 poll1 [])
    as (s' & Hc & _ & Hr).
  - exact (proj1 live_start_ok).
  - constructor; [|constructor]. split; [discriminate|]. intros b Hb. vm_compute in Hb. injection Hb as <-.
    split; [simpl; lia|]. constructor; [lia|constructor].
  - constructor.
  - exact (proj2 live_start_ok).
  - vm_compute. reflexivity.
  - reflexivity.
  - vm_compute. reflexivity.
  - exists s'. split; [exact Hc|]. rewrite Hr. vm_compute. reflexivity.
Defined.

Definition bad_ballot : Vote := mkVote [] 2 (nullifier_of voter) pid1 (package [64]).
Definition live_bad : Scrutinizer := set_pools [bad_ballot] [] [] live_start.
Lemma ballot_panics_commit_witness :
  is_panic (ListenerCommit (Store (node_at (block1 ++ block2))) 2 live_bad) = true.
Proof.
  apply (ballot_panics_commit (Store (node_at (block1 ++ block2))) 2 live_bad [] bad_ballot [] [64]).
  - exact (proj1 live_start_ok).
  - reflexivity.
  - constructor.
  - constructor.
  - discriminate.
  - vm_compute. by eexists.
  - vm_compute. reflexivity.
  - constructor. by right.
Defined.


(** An encrypted poll with one vote, after its key was revealed. *)
Definition secret_vote : VoteTx :=
  mkVoteTx [1] "" "" (sprintf_x pid1) (census_proof voter) "" TxVote (package [0; 2]) [].
Definition revealed_block : list abci_call :=
  encrypted_block ++
  [CDeliverTx (signed_Admin oracle_key (keys_tx 1)) 0; CCommit;
   CBeginBlock (header_at 2) 0; CDeliverTx (signed_Vote voter secret_vote) 0; CCommit;
   CBeginBlock (header_at 11) 0; CDeliverTx (signed_Admin oracle_key reveal_tx) 0; CCommit].
Definition no_results : Scrutinizer := mkScrutinizer ∅ [] [] [] 0 [].


(** ** Double counting *)

(** The node with a scrutinizer attached. *)
Definition scrutinized (cs : list abci_call) : option (State (@IavlState ctree citree) (() * Scrutinizer)) :=
  match at_genesis with
  | Ok s => run_calls cs (AddEventListener (NewScrutinizer ∅) s)
  | _ => None
  end.
Definition live_report (cs : list abci_call) : option (res Z * res (list (list Z))) :=
  s ← scrutinized cs;
  Some (CountVotes (Store s) pid1 true, (VoteResult (Store s) pid1 (eventListeners s).2).1).

(** A vote replaced within its block is counted twice in the live result:
    after two votes of the same voter in one block the state holds one vote
    and the scrutinizer reports two. *)
Theorem replaced_vote_counted_twice :
  let vote o := CDeliverTx (signed_Vote voter (vote_tx voter (package [o]))) 0 in
  live_report (block1 ++ [CBeginBlock (header_at 2) 0; vote 0; CCommit]) = Some (Ok 1, Ok [[1]]) ∧
  live_report (block1 ++ [CBeginBlock (header_at 2) 0; vote 0; vote 1; CCommit])
    = Some (Ok 1, Ok [[1; 1]]).
Proof. vm_compute. split; reflexivity. Qed.

(** ** Processes of an entity *)
Section entities.
Context `{ScrutinizerCodec}.
Implicit Types s : Scrutinizer.

(** The processes added so far under an entity, oldest first. *)
Definition entity_pids s (eid : bytes) (pids : list bytes) : Prop :=
  default [] (sc_Storage s !! (ScrutinizerEntityPrefix :: eid)) = concat pids ∧
  Forall (λ p, length p = 32%nat) pids.

Lemma addEntity_pids s eid pid pids : entity_pids s eid pids → length pid = 32%nat →
  ∃ s', addEntity eid pid s = (Ok (), s') ∧ entity_pids s' eid (pids ++ [pid]) ∧
    is_Some (sc_Storage s' !! (ScrutinizerEntityPrefix :: eid)).
Proof.
  intros [Hc HF] Hl. unfold addEntity.
  rewrite GM_run, (st_Get_cases _ _ _ (ScrutinizerEntityPrefix :: eid)), or_missing_get by done.
  unfold glen, ProcessIDsize. rewrite decide_False by lia. rewrite GM_run. unfold try_.
  rewrite (st_Put_run _ _ _ _ (ScrutinizerEntityPrefix :: eid)) by done. eexists. split; [done|].
  cbn [sc_Storage set_Storage set_entityCount modify snd]. unfold entity_pids. simpl. rewrite lookup_insert_eq.
  split; [split|by eexists].
  - cbn [default]. rewrite Hc, concat_app. simpl. by rewrite app_nil_r.
  - apply Forall_app. split; [done|]. by constructor.
Qed.

(** The page after [from], or from the start. *)
Definition after (from : bytes) (pids : list bytes) : list bytes :=
  match from with
  | [] => pids
  | _ => drop (S (default (length pids) (fst <$> list_find (λ p, p = from) pids))) pids
  end.

Lemma process_list_unlocked pids from max : Forall (λ p, length p = 32%nat) pids → max < 2^63 →
  process_list_loop pids from max false = take (Z.to_nat max) pids.
Proof.
  intros HF. revert max. induction HF as [|p pids Hp HF IH]; intros max Hm; cbn [process_list_loop].
  { by rewrite take_nil. }
  case_decide as Hd.
  - destruct Hd as [Hd|Hd]; [by replace (Z.to_nat max) with 0%nat by lia|]. unfold glen in Hd. lia.
  - rewrite i64_id by (unfold in_i64; lia). rewrite IH by lia.
    by replace (Z.to_nat max) with (S (Z.to_nat (max - 1))) by lia.
Qed.
Lemma process_list_locked pids from max : Forall (λ p, length p = 32%nat) pids → 1 ≤ max < 2^63 →
  from ≠ [] → process_list_loop pids from max true = take (Z.to_nat max) (after from pids).
Proof.
  intros HF Hm Hne. assert (∀ l, after from l = drop (S (default (length l) (fst <$> list_find (λ p, p = from) l))) l)
    as Ha by (intros; by destruct from). rewrite Ha.
  induction HF as [|p pids Hp HF IH]; cbn [process_list_loop]; [by rewrite drop_nil, take_nil|].
  rewrite decide_False by (unfold glen; lia). cbn [list_find]. destruct (decide (p = from)) as [->|Hpf].
  - rewrite bool_decide_eq_true_2 by done. simpl. rewrite drop_0. apply process_list_unlocked; [done|lia].
  - rewrite bool_decide_eq_false_2 by done. simpl negb. rewrite IH. f_equal.
    destruct (list_find (λ p, p = from) pids) as [[i x]|]; done.
Qed.

(** The processes of an entity are listed in the order they were added:
    [ProcessList] returns at most [max] of them, from the first one or from
    the one after [fromID]. *)
Theorem process_list_pages s eid pids from max :
  entity_pids s eid pids → is_Some (sc_Storage s !! (ScrutinizerEntityPrefix :: eid)) → 1 ≤ max < 2^63 →
  ProcessList eid from max s = Ok (take (Z.to_nat max) (after from pids)).
Proof.
  intros [Hc HF] [b Hb] Hm. rewrite Hb in Hc. simpl in Hc. unfold ProcessList, db_Get.
  rewrite decide_False, Hb by done. cbn [of_option mbind res_bind]. subst b.
  unfold SplitBytes, ProcessIDsize. rewrite decide_False by lia.
  rewrite SplitBytes_loop_chunks by (done || lia). cbn [mbind res_bind]. f_equal. destruct from as [|x from].
  - rewrite bool_decide_eq_false_2 by done. apply process_list_unlocked; [done|lia].
  - rewrite bool_decide_eq_true_2 by (unfold glen; simpl; lia). by apply process_list_locked.
Qed.
End entities.

Definition two_pids : list bytes := [pid1; replicate 32 Byte.x55].
Definition entity1 : bytes := replicate 20 Byte.x22.
Definition two_added : Scrutinizer :=
  (addEntity entity1 (replicate 32 Byte.x55) (addEntity entity1 pid1 no_results).2).2.
Lemma process_list_pages_witness : ProcessList entity1 pid1 10 two_added = Ok [replicate 32 Byte.x55].
Proof.
  rewrite (process_list_pages two_added entity1 two_pids pid1 10); [vm_compute; reflexivity|..].
  - split; [vm_compute; reflexivity|]. repeat constructor.
  - vm_compute. by eexists.
  - lia.
Defined.

(** [EntityCount] counts processes, not entities: with two processes of
    one entity it reports two, while [EntityList] has one entry. *)
Theorem entity_count_counts_processes :
  EntityCount two_added = 2 ∧ EntityList 10 "" two_added = Ok [sprintf_x entity1] ∧
  EntityCount (NewScrutinizer (sc_Storage two_added)) = 1.
Proof. vm_compute. split_and!; reflexivity. Qed.
