(* ===== verification/KeyKeeper.v ===== *)
(** * The key keeper: [vochain/keykeeper/keykeeper.go]

    An oracle that holds one of the sixteen key slots of encrypted processes.
    When a process is created it derives a key pair and a commitment from its
    signing key, the process and its slot, publishes the public half, and
    schedules the block at which it reveals the private half.

    The goroutines a commit starts are tasks, run later and one at a time by
    [run_keykeeper_task].  The mempool ([BaseApplication.SendTX], which hands
    the transaction to Tendermint) and the random source are parameters. *)

From stdpp Require Import base gmap strings list fin_maps.
From Stdlib Require Import ZArith Lia DecimalString Ascii.
From S2P Require Import Prelude GoLib Types StateDB Crypto IavlState Codec State Transaction App Database.
Open Scope Z_scope.

(** ** Keys and their encoding *)
Record processKeys := mkProcessKeys {
  pubKey : bytes;
  privKey : bytes;
  revealKey : bytes;
  commitmentKey : bytes;
  index : Z }.

Definition commitmentKeySize : Z := nacl.KeyLength.
Definition encryptionKeySize : Z := nacl.KeyLength.
(** [int8(b)]. *)
Definition i8 (z : Z) : Z := (z + 128) mod 256 - 128.
(** [copy(data[off:], src)]. *)
Definition copy_at (off : nat) (src data : bytes) : bytes :=
  take off data ++ take (length data - off) src ++ drop (off + length src) data.
Definition encoded_len : Z := commitmentKeySize * 2 + encryptionKeySize * 2 + 1.

Definition Encode (pk : processKeys) : bytes :=
  let data := replicate (Z.to_nat encoded_len) Byte.x00 in
  let data := copy_at 0 (pubKey pk) data in
  let data := copy_at 32 (privKey pk) data in
  let data := copy_at 64 (revealKey pk) data in
  let data := copy_at 96 (commitmentKey pk) data in
  <[128%nat := z2b (index pk)]> data.

(** [data[i : i+32]]. *)
Definition key_field (data : bytes) (i : Z) : res bytes :=
  rest ← go_slice_from data i; go_slice_to rest encryptionKeySize.
Definition Decode (data : bytes) : res processKeys :=
  _ ← guard_err (bool_decide (glen data < encoded_len)) "cannot decode, data too small";
  pub ← key_field data 0;
  priv ← key_field data 32;
  rev ← key_field data 64;
  com ← key_field data 96;
  b ← go_index data 128;
  Ok (mkProcessKeys pub priv rev com (i8 (b2z b))).

(** ** The keeper *)
Inductive keykeeper_task :=
  | RevealTask (height : Z)
  | PublishTask.

(** What the keeper calls outside the repository: the [n]-th draw of random
    bytes, and the answer of the mempool to a transaction, which may depend
    on what was submitted before. *)
Class KeyKeeperEnv := {
  RandomBytes : nat → Z → bytes;
  Mempool_CheckTx : list bytes → bytes → res ResponseTx }.

Section keeper.
Context `{CryptoLib}.

(** A nil Go map is [None]: reading it finds nothing, writing to it panics.
    A pool entry may be a nil pointer. *)
Record KeyKeeper := mkKeyKeeper {
  kk_storage : Database;
  kk_keyPool : option (gmap string (option processKeys));
  kk_blockPool : option (gmap string Z);
  kk_signer : ethereum.SignKeys;
  kk_myIndex : Z;
  kk_tasks : list keykeeper_task;
  kk_sent : list bytes;
  kk_draws : nat }.

Definition set_kk_storage db (k : KeyKeeper) : KeyKeeper :=
  mkKeyKeeper db (kk_keyPool k) (kk_blockPool k) (kk_signer k) (kk_myIndex k) (kk_tasks k) (kk_sent k) (kk_draws k).
Definition set_kk_pools kp bp (k : KeyKeeper) : KeyKeeper :=
  mkKeyKeeper (kk_storage k) kp bp (kk_signer k) (kk_myIndex k) (kk_tasks k) (kk_sent k) (kk_draws k).
Definition set_kk_tasks ts (k : KeyKeeper) : KeyKeeper :=
  mkKeyKeeper (kk_storage k) (kk_keyPool k) (kk_blockPool k) (kk_signer k) (kk_myIndex k) ts (kk_sent k) (kk_draws k).
Definition set_kk_sent l (k : KeyKeeper) : KeyKeeper :=
  mkKeyKeeper (kk_storage k) (kk_keyPool k) (kk_blockPool k) (kk_signer k) (kk_myIndex k) (kk_tasks k) l (kk_draws k).
Definition set_kk_draws n (k : KeyKeeper) : KeyKeeper :=
  mkKeyKeeper (kk_storage k) (kk_keyPool k) (kk_blockPool k) (kk_signer k) (kk_myIndex k) (kk_tasks k) (kk_sent k) n.

(** The application pointer is never nil here; [db] is what opening the
    database at [dbPath] finds. *)
Definition NewKeyKeeper (dbPath : string) (signer : option ethereum.SignKeys) (index : Z) (db : res Database) :
    res KeyKeeper :=
  signer ← of_option "missing values for creating a key keeper" signer;
  _ ← guard_err (bool_decide (slen dbPath < 1)) "missing values for creating a key keeper";
  _ ← guard_err (bool_decide (index = 0)) "index 0 cannot be used";
  db ← db;
  Ok (mkKeyKeeper db None None signer index [] [] 0).

Definition generateKeys (k : KeyKeeper) (pid : bytes) : res processKeys :=
  d ← match ethereum.sk_Private (kk_signer k) with
      | Some d => Ok (PrivateBytes d)
      | None => Panic "nil pointer dereference"
      end;
  let pb := pid ++ [z2b (kk_myIndex k)] in
  priv ← match nacl.DecodePrivate (sprintf_x (ethereum.HashRaw (d ++ pb))) with
         | Err _ => Err "cannot generate encryption key"
         | r => r
         end;
  let ckb := PoseidonHash (nacl.priv_bytes priv) in
  ck ← go_slice_to ckb commitmentKeySize;
  ckhash ← go_slice_to (PoseidonHash ckb) commitmentKeySize;
  Ok (mkProcessKeys (nacl.pub_bytes priv) (nacl.priv_bytes priv) ck ckhash (kk_myIndex k)).

Definition dbPrefixProcess : string := "p_".
Definition dbPrefixBlock : string := "b_".
Definition process_key (pid : string) : bytes := s2b (dbPrefixProcess +:+ pid).
Definition block_key (height : Z) : bytes := s2b (dbPrefixBlock +:+ sprintf_d height).

(** ** Transactions *)
Definition publish_tx (pk : processKeys) (pid nonce : string) : AdminTx :=
  mkAdminTx "" (sprintf_x (commitmentKey pk)) "" (sprintf_x (pubKey pk)) (index pk) nonce 0
    (sprintf_x (s2b pid)) "" "" "" TxAddProcessKeys [].
Definition reveal_tx_of (pk : processKeys) (pid nonce : string) : AdminTx :=
  mkAdminTx "" "" (sprintf_x (privKey pk)) "" (index pk) nonce 0
    (sprintf_x (s2b pid)) "" (sprintf_x (revealKey pk)) "" TxRevealProcessKeys [].
Definition set_at_Signature (sig : string) (tx : AdminTx) : AdminTx :=
  mkAdminTx (at_Address tx) (at_CommitmentKey tx) (at_EncryptionPrivateKey tx) (at_EncryptionPublicKey tx)
    (at_KeyIndex tx) (at_Nonce tx) (at_Power tx) (at_ProcessID tx) (at_PubKey tx) (at_RevealKey tx) sig
    (at_Type tx) (at_SignedBytes tx).
End keeper.

Section operations.
Context {DB : Type} `{StateDB DB} `{AminoLib} `{CryptoLib} `{TxJSON} `{KeyKeeperEnv}.
Abbreviation M := (GM KeyKeeper).

Definition RandomHex (n : Z) : M string :=
  k ← get_st;
  _ ← modify (set_kk_draws (S (kk_draws k)));
  mret (sprintf_x (RandomBytes (kk_draws k) n)).

Definition sign_admin (signer : ethereum.SignKeys) (tx : AdminTx) : res bytes :=
  txBytes ← marshal_AdminTx tx;
  sig ← ethereum.Sign signer txBytes;
  marshal_AdminTx (set_at_Signature sig tx).
Definition SendTX (tx : bytes) : M ResponseTx :=
  k ← get_st;
  _ ← modify (set_kk_sent (kk_sent k ++ [tx]));
  lift (Mempool_CheckTx (kk_sent k) tx).
Definition signAndSendTx (tx : AdminTx) : M () :=
  txBytes ← reads (λ k, sign_admin (kk_signer k) tx);
  result ← SendTX txBytes;
  lift (guard_err (bool_decide (rt_Code result ≠ 0)) "error sending transaction").

Definition kk_Put (key value : bytes) : M () :=
  updates (λ k, db ← db_Put key value (kk_storage k); Ok (set_kk_storage db k)).
Definition kk_Del (key : bytes) : M () :=
  updates (λ k, db ← db_Del key (kk_storage k); Ok (set_kk_storage db k)).

Definition publishKeys (pk : option processKeys) (pid : string) : M () :=
  pk ← lift (match pk with Some pk => Ok pk | None => Panic "nil pointer dereference" end);
  nonce ← RandomHex 32;
  _ ← signAndSendTx (publish_tx pk pid nonce);
  exists_ ← reads (λ k, db_Has (process_key pid) (kk_storage k));
  _ ← lift (guard_err exists_ "keys already exist");
  kk_Put (process_key pid) (Encode pk).
(** [range] over a nil map does nothing; Go leaves the order open. *)
Definition publishPendingKeys : M () :=
  k ← get_st;
  for_each (map_to_list (default ∅ (kk_keyPool k))) (λ '(pid, pk), logged (publishKeys pk pid)).

Definition revealKeys (pid : string) : M () :=
  pk ← reads (λ k, generateKeys k (s2b pid));
  nonce ← RandomHex 32;
  _ ← signAndSendTx (reveal_tx_of pk pid nonce);
  logged (kk_Del (process_key pid)).

(** ** Scheduling *)
Definition schedule_one (pid : string) (height : Z) : M () :=
  let pkey := block_key height in
  has ← reads (λ k, Ok (match db_Has pkey (kk_storage k) with Ok b => b | _ => false end));
  pids ← (if (has : bool) then
            data ← reads (λ k, db_Get pkey (kk_storage k));
            lift (match UnmarshalBinaryBare (A := list string) (Some data) with Err _ => Ok [] | r => r end)
          else mret []);
  data ← lift (marshal (pids ++ [pid]));
  kk_Put pkey data.
Definition scheduleRevealKeys : M () :=
  k ← get_st;
  for_each (map_to_list (default ∅ (kk_blockPool k))) (λ '(pid, height), logged (schedule_one pid height)).

(** One round of the loop of [checkRevealProcess]; [false] is its [return]. *)
Definition reveal_round (d : DB) (p : string) : M bool :=
  match Process_ d (s2b p) false with
  | Err _ => mret true
  | Panic w => lift (Panic w)
  | Ok process =>
      if negb (RequireKeys process) then mret false
      else
        key ← reads (λ k, go_index (p_EncryptionPublicKeys process) (kk_myIndex k));
        _ ← (if decide (key ≠ "") then logged (revealKeys p) else mret ());
        mret true
  end.
Fixpoint reveal_loop (d : DB) (pids : list string) : M bool :=
  match pids with
  | [] => mret true
  | p :: pids' => go ← reveal_round d p; if (go : bool) then reveal_loop d pids' else mret false
  end.
Definition checkRevealProcess (d : DB) (height : Z) : M () :=
  let pKey := block_key height in
  has ← reads (λ k, db_Has pKey (kk_storage k));
  if negb has then mret ()
  else
    data ← reads (λ k, db_Get pKey (kk_storage k));
    pids ← lift (UnmarshalBinaryBare (A := list string) (Some data));
    go ← reveal_loop d pids;
    if (go : bool) then logged (kk_Del pKey) else mret ().

(** ** Recovery of keys that should be revealed already *)

(** [strconv.ParseInt(s, 10, 64)]. *)
Definition ParseInt (s : string) : res Z :=
  let digits s := match NilZero.uint_of_string s with
                  | Some u => Ok (Z.of_N (N.of_uint u))
                  | None => Err "strconv.ParseInt: invalid syntax"
                  end in
  z ← (match s with
       | String "-"%char s' => z ← digits s'; Ok (- z)
       | String "+"%char s' => digits s'
       | _ => digits s
       end);
  if decide (in_i64 z) then Ok z else Err "strconv.ParseInt: value out of range".

Definition recover_block (height : Z) (item : bytes * bytes) : M () :=
  let '(key, value) := item in
  if negb (has_prefix (s2b dbPrefixBlock) key) then mret ()
  else match ParseInt (b2s (drop 2 key)) with
       | Panic w => lift (Panic w)
       | Err _ => mret ()
       | Ok h =>
           if decide (height ≤ i64 (h + 1)) then mret ()
           else match UnmarshalBinaryBare (A := list string) (Some value) with
                | Panic w => lift (Panic w)
                | Err _ => mret ()
                | Ok pids => _ ← for_each pids (λ p, logged (revealKeys p)); logged (kk_Del key)
                end
       end.
Definition recover_process (d : DB) (item : bytes * bytes) : M () :=
  let '(key, _) := item in
  if negb (has_prefix (s2b dbPrefixProcess) key) then mret ()
  else
    let pid := drop 2 key in
    match Process_ d pid true with
    | Panic w => lift (Panic w)
    | Err _ => mret ()
    | Ok process => if p_Canceled process then logged (revealKeys (b2s pid)) else mret ()
    end.
(** Each iterator reads the database as it is when it is opened. *)
Definition RevealUnpublished (d : DB) : M () :=
  header ← lift (Header_ d true);
  match header with
  | None => mret ()
  | Some header =>
      k ← get_st;
      _ ← for_each (db_Seek [] (kk_storage k)) (recover_block (h_Height header));
      k ← get_st;
      for_each (db_Seek [] (kk_storage k)) (recover_process d)
  end.

(** ** The listener *)
Definition keykeeper_Rollback (k : KeyKeeper) : KeyKeeper := set_kk_pools (Some ∅) (Some ∅) k.

Definition nil_map {A} (m : option A) : res A :=
  match m with Some a => Ok a | None => Panic "assignment to entry in nil map" end.

Definition pool_keys (k : KeyKeeper) (p : Process) (pid : bytes) : res KeyKeeper :=
  r ← match generateKeys k pid with
      | Ok pk => Ok (Some pk)
      | Err _ => Ok None
      | Panic w => Panic w
      end;
  pool ← nil_map (kk_keyPool k);
  let pool := Some (<[b2s pid := r]> pool) in
  match r with
  | None => Ok (set_kk_pools pool (kk_blockPool k) k)
  | Some _ =>
      blocks ← nil_map (kk_blockPool k);
      Ok (set_kk_pools pool (Some (<[b2s pid := end_block p]> blocks)) k)
  end.
Definition keykeeper_OnProcess (d : DB) (pid : bytes) (k : KeyKeeper) : res KeyKeeper :=
  match Process_ d pid false with
  | Err _ => Ok k
  | Panic w => Panic w
  | Ok p =>
      if negb (RequireKeys p) then Ok k
      else
        pub ← go_index (p_EncryptionPublicKeys p) (kk_myIndex k);
        com ← go_index (p_CommitmentKeys p) (kk_myIndex k);
        if decide (0 < slen pub + slen com) then Ok k
        else if decide (is_Some (default ∅ (kk_keyPool k) !! b2s pid)) then Ok k
        else pool_keys k p pid
  end.

Definition keykeeper_OnCancel (d : DB) (pid : bytes) (k : KeyKeeper) : res KeyKeeper :=
  match Process_ d pid false with
  | Err _ => Ok k
  | Panic w => Panic w
  | Ok p =>
      if negb (RequireKeys p) then Ok k
      else
        pub ← go_index (p_EncryptionPublicKeys p) (kk_myIndex k);
        if decide (pub ≠ "") then
          header ← Header_ d false;
          height ← match header with Some h => Ok (h_Height h) | None => Panic "nil pointer dereference" end;
          blocks ← nil_map (kk_blockPool k);
          Ok (set_kk_pools (kk_keyPool k) (Some (<[b2s pid := i64 (height + 1)]> blocks)) k)
        else Ok k
  end.

Definition keykeeper_Commit (height : Z) : M () :=
  _ ← scheduleRevealKeys;
  modify (λ k, set_kk_tasks (kk_tasks k ++ [RevealTask height; PublishTask]) k).

(** A goroutine started at a commit. *)
Definition run_keykeeper_task (d : DB) (i : nat) : M () :=
  ts ← reads (λ k, Ok (kk_tasks k));
  match ts !! i with
  | Some t =>
      _ ← modify (set_kk_tasks (delete i ts));
      match t with
      | RevealTask height => logged (checkRevealProcess d height)
      | PublishTask => publishPendingKeys
      end
  | None => mret ()
  end.

#[export] Instance keykeeper_listener : EventListener DB KeyKeeper := {|
  OnVote _ _ := Ok;
  OnProcess d pid _ _ _ := keykeeper_OnProcess d pid;
  OnCancel d pid := keykeeper_OnCancel d pid;
  OnProcessKeys _ _ _ _ := Ok;
  OnRevealKeys _ _ _ _ := Ok;
  ListenerCommit _ height k :=
    match keykeeper_Commit height k with (Panic w, _) => Panic w | (_, k') => Ok k' end;
  ListenerRollback _ k := Ok (keykeeper_Rollback k) |}.
End operations.
