(* ===== verification/KeyKeeperFacts.v ===== *)
(** * The key keeper: theorems

    The keys it stores are read back; the keys it derives answer the keys it
    published for as long as the chain runs; what it schedules at a commit is
    revealed at the scheduled block.  Two flaws: a slot number the constructor
    accepts and every encrypted process then panics on, and a publication that
    is lost when its goroutine runs after the next block has begun. *)

From stdpp Require Import base gmap strings list fin_maps.
From Stdlib Require Import ZArith Lia DecimalString.
From S2P Require Import Prelude GoLib Types StateDB Crypto IavlState Codec State Transaction App StateFacts.
From S2P Require Import ProcessKeys Invariant Concrete Safety Operations Database KeyKeeper.
Open Scope Z_scope.

(** ** Encoding *)
Lemma copy_at_pad off a b n x : off = length a → (length b ≤ n)%nat →
  copy_at off b (a ++ replicate n x) = (a ++ b) ++ replicate (n - length b) x.
Proof.
  intros -> Hl. unfold copy_at.
  rewrite take_app_length, length_app, length_replicate, (take_ge b) by lia.
  by rewrite <- drop_drop, drop_app_length, drop_replicate, app_assoc.
Qed.
Definition keys_sized (pk : processKeys) : Prop :=
  length (pubKey pk) = 32%nat ∧ length (privKey pk) = 32%nat ∧ length (revealKey pk) = 32%nat ∧
  length (commitmentKey pk) = 32%nat.
Lemma Encode_sized pk : keys_sized pk →
  Encode pk = pubKey pk ++ privKey pk ++ revealKey pk ++ commitmentKey pk ++ [z2b (index pk)].
Proof.
  intros (H1 & H2 & H3 & H4). unfold Encode.
  change (replicate _ _) with ([] ++ replicate 129 Byte.x00).
  rewrite !copy_at_pad by (rewrite ?length_app; simpl; lia). simpl app.
  replace (129 - _ - _ - _ - _)%nat with 1%nat by lia. cbn [replicate].
  rewrite insert_app_r_alt by (rewrite !length_app; lia).
  replace (128 - _)%nat with 0%nat by (rewrite !length_app; lia). cbn [insert list_insert].
  by rewrite <- !app_assoc.
Qed.
Lemma key_field_app a b c i : i = glen a → length b = 32%nat → key_field (a ++ b ++ c) i = Ok b.
Proof.
  intros -> Hb. unfold key_field, go_slice_from, go_slice_to, glen, encryptionKeySize, nacl.KeyLength.
  rewrite !length_app, decide_True by lia. simpl.
  rewrite Nat2Z.id, drop_app_length, length_app, decide_True by lia.
  by rewrite take_app_length'.
Qed.
Lemma i8_byte z : -128 ≤ z < 128 → i8 (b2z (z2b z)) = z.
Proof.
  intros. rewrite b2z_z2b. unfold i8. rewrite Zplus_mod_idemp_l, Z.mod_small by lia. lia.
Qed.
Lemma Decode_Encode pk : keys_sized pk → -128 ≤ index pk < 128 → Decode (Encode pk) = Ok pk.
Proof.
  intros Hs Hi. rewrite Encode_sized by done. destruct pk as [a b c e i], Hs as (H1 & H2 & H3 & H4).
  simpl in *. unfold Decode.
  assert (glen (a ++ b ++ c ++ e ++ [z2b i]) = 129) as Hl
    by (unfold glen; rewrite !length_app; simpl; lia).
  set (data := a ++ b ++ c ++ e ++ [z2b i]) in *.
  assert (key_field data 0 = Ok a) as -> by (by apply (key_field_app [])).
  assert (key_field data 32 = Ok b) as -> by (apply key_field_app; [unfold glen; lia|done]).
  assert (key_field data 64 = Ok c) as ->.
  { unfold data. rewrite (app_assoc a). apply key_field_app; [unfold glen; rewrite length_app; lia|done]. }
  assert (key_field data 96 = Ok e) as ->.
  { unfold data. rewrite (app_assoc a), (app_assoc (a ++ b)).
    apply key_field_app; [unfold glen; rewrite !length_app; lia|done]. }
  rewrite Hl. cbn [guard_err bool_decide mbind res_bind].
  unfold data. rewrite (go_index_eq _ _ (z2b i)); [|lia|].
  - simpl. by rewrite i8_byte.
  - by rewrite !lookup_app_r, H1, H2, H3, H4 by lia.
Qed.

(** ** Derived keys *)
Section derived.
Context `{CryptoLaws}.
Lemma slice_Poseidon b : go_slice_to (PoseidonHash b) commitmentKeySize = Ok (PoseidonHash b).
Proof.
  unfold go_slice_to, commitmentKeySize, nacl.KeyLength.
  rewrite decide_True by (rewrite law_Poseidon_len; lia). by rewrite take_ge by (rewrite law_Poseidon_len; lia).
Qed.
Lemma DecodePrivate_Ok s priv : nacl.DecodePrivate s = Ok priv →
  length (nacl.priv_bytes priv) = 32%nat ∧ length (nacl.pub_bytes priv) = 32%nat ∧
  nacl.DecodePrivate (sprintf_x (nacl.priv_bytes priv)) = Ok priv.
Proof.
  unfold nacl.DecodePrivate. intros Hr. go_inv Hr. unfold nacl.key_decode in *.
  match goal with H : hex_DecodeString _ ≫= _ = Ok _ |- _ => rename H into Hk end.
  go_inv Hk. go_bool. cbn [nacl.priv_bytes nacl.pub_bytes]. unfold glen, nacl.KeyLength in *.
  rewrite hex_DecodeString_sprintf_x. cbn [mbind res_bind].
  rewrite bool_decide_eq_false_2 by lia. cbn [guard_err mbind res_bind].
  match goal with H : X25519 _ = Some _ |- _ => pose proof (law_X25519_len _ _ H); rewrite H end.
  split_and!; [lia|done|done].
Qed.

(** What [generateKeys] promises: the private key opens what is encrypted for
    the public one, and the reveal key hashes to the commitment. *)
Lemma generateKeys_Ok k pid pk : generateKeys k pid = Ok pk →
  keys_sized pk ∧ index pk = kk_myIndex k ∧
  (∃ priv, nacl.DecodePrivate (sprintf_x (privKey pk)) = Ok priv ∧ nacl.pub_bytes priv = pubKey pk) ∧
  commitmentKey pk = PoseidonHash (revealKey pk).
Proof.
  unfold generateKeys. intros Hr. go_inv Hr. rewrite !slice_Poseidon in *. simplify_eq.
  destruct (nacl.DecodePrivate _) as [priv| |] eqn:Hd; simplify_eq.
  apply DecodePrivate_Ok in Hd as (H1 & H2 & Hd). unfold keys_sized. simpl.
  rewrite !law_Poseidon_len. eauto 10.
Qed.
End derived.

(** The keys the keeper derives for a process are read back unchanged
    from the 129 bytes it stores. *)
Theorem stored_keys_roundtrip `{CryptoLaws} k pid pk :
  generateKeys k pid = Ok pk → -128 ≤ kk_myIndex k < 128 → Decode (Encode pk) = Ok pk.
Proof.
  intros Hg Hi. apply generateKeys_Ok in Hg as (Hs & Hx & _). apply Decode_Encode; [done|by rewrite Hx].
Qed.

(** ** Publication and reveal *)
Section answers.
Context {DB L : Type} `{StateDBSpec DB} `{AminoLaws} `{CryptoLaws} `{TxJSON} `{GenesisJSON} `{!EventListener DB L}.
Implicit Types s : State DB L.

Lemma keys_grow_lookup l l' i key : keys_grow l l' → l !! i = Some key → key ≠ "" → l' !! i = Some key.
Proof.
  intros Hg Hl Hne. destruct (Forall2_lookup_l _ _ _ _ _ Hg Hl) as (key' & Hl' & [Hk|Hk]); congruence.
Qed.
Lemma slen_keyfield b : length b = 32%nat → slen (sprintf_x b) = 64.
Proof. intros Hl. rewrite slen_sprintf_x. unfold glen. lia. Qed.
Lemma sized_nonempty b : length b = 32%nat → sprintf_x b ≠ "".
Proof. intros Hl E. apply slen_keyfield in Hl. by rewrite E in Hl. Qed.

(** A slot filled with the keeper's own keys takes its reveal. *)
Lemma checkReveal_generated k pid pk nonce p : generateKeys k pid = Ok pk → 1 ≤ kk_myIndex k ≤ MaxKeyIndex →
  p_EncryptionPublicKeys p !! Z.to_nat (kk_myIndex k) = Some (sprintf_x (pubKey pk)) →
  p_CommitmentKeys p !! Z.to_nat (kk_myIndex k) = Some (sprintf_x (commitmentKey pk)) →
  checkRevealProcessKeys (reveal_tx_of pk (b2s pid) nonce) p = Ok ().
Proof.
  intros Hg Hi Hpub Hcom. apply generateKeys_Ok in Hg as ((L1 & L2 & L3 & L4) & Hx & (priv & Hd & Hp) & Hc).
  unfold checkRevealProcessKeys. cbn [at_RevealKey at_EncryptionPrivateKey at_KeyIndex reveal_tx_of].
  rewrite !slen_keyfield by done. rewrite Hx.
  rewrite !(bool_decide_eq_false_2 _) by lia. cbn [orb guard_err mbind res_bind].
  assert (0 ≤ kk_myIndex k) as Hnn by lia.
  rewrite (go_index_eq _ _ _ Hnn Hpub). cbn [mbind res_bind]. rewrite slen_keyfield by done. cbn [bool_decide guard_err].
  rewrite (go_index_eq _ _ _ Hnn Hcom). cbn [mbind res_bind].
  rewrite !slen_keyfield by done. cbn [bool_decide guard_err mbind res_bind decide].
  rewrite !decide_True by lia. rewrite Hd. cbn [mbind res_bind].
  rewrite Hp, bool_decide_eq_true_2 by done. cbn [negb guard_err mbind res_bind].
  rewrite hex_DecodeString_sprintf_x. cbn [mbind res_bind]. 
  by rewrite Hc, (bool_decide_eq_true_2 (_ = _)) by done.
Qed.

(** C35: once the keys the keeper derives for a process stand committed in its
    slot, the reveal transaction it builds passes the check in every later
    state of the chain in which the process is over or cancelled and the slot
    has not been answered yet. *)
Theorem published_keys_answered s cs s' k pid pk nonce p p' h :
  store_inv (Store s) → steps s cs s' →
  generateKeys k pid = Ok pk → 1 ≤ kk_myIndex k ≤ MaxKeyIndex →
  Process_ (Store s) pid true = Ok p → RequireKeys p = true →
  p_EncryptionPublicKeys p !! Z.to_nat (kk_myIndex k) = Some (at_EncryptionPublicKey (publish_tx pk (b2s pid) nonce)) →
  p_CommitmentKeys p !! Z.to_nat (kk_myIndex k) = Some (at_CommitmentKey (publish_tx pk (b2s pid) nonce)) →
  Process_ (Store s') pid false = Ok p' → Header_ (Store s') false = Ok (Some h) →
  p_Canceled p' = true ∨ end_block p' ≤ h_Height h →
  p_EncryptionPrivateKeys p' !! Z.to_nat (kk_myIndex k) = Some "" →
  p_RevealKeys p' !! Z.to_nat (kk_myIndex k) = Some "" →
  check_process_keys (reveal_tx_of pk (b2s pid) nonce) (Store s') = Ok ().
Proof.
  intros Hi Hst Hg Hx Hp Hreq Hpub Hcom Hp' Hh Hover Hpriv Hrev.
  destruct (steps_good _ _ _ Hst Hi) as [Hi' [_ Hl]].
  apply Process_cproc in Hp; [|apply Hi]. destruct (Hl _ _ Hp) as (p1 & Hp1 & Hev1).
  destruct (si_procs _ Hi' _ _ Hp1) as (p2 & Hp2 & Hev2).
  assert (p2 = p') as -> by (apply Process_wproc in Hp'; [congruence|apply Hi']).
  assert (evolves p p') as Hev by (by etransitivity). clear p1 Hp1 Hev1 Hev2.
  pose proof (generateKeys_Ok _ _ _ Hg) as ((L1 & _ & _ & L4) & Hidx & _).
  unfold check_process_keys. cbn [at_ProcessID at_Type at_KeyIndex reveal_tx_of].
  rewrite s2b_b2s, hex_DecodeString_sprintf_x. cbn [mbind res_bind]. rewrite Hp'. cbn [mbind res_bind].
  assert (RequireKeys p' = true) as -> by (unfold RequireKeys in *; by rewrite (ev_type _ _ Hev)).
  cbn [negb guard_err mbind res_bind]. rewrite Hh. cbn [of_option mbind res_bind].
  rewrite decide_False by done.
  assert (bool_decide (h_Height h < end_block p') && negb (p_Canceled p') = false) as ->.
  { destruct Hover as [->|]; [by rewrite andb_false_r|by rewrite bool_decide_eq_false_2 by lia]. }
  cbn [guard_err mbind res_bind]. unfold keys_at. rewrite Hidx.
  assert (0 ≤ kk_myIndex k) as Hnn by lia.
  rewrite (go_index_eq _ _ _ Hnn Hpriv), (go_index_eq _ _ _ Hnn Hrev).
  apply checkReveal_generated with k; [done|done|..];
    (eapply keys_grow_lookup; [apply Hev|eassumption|by apply sized_nonempty]).
Qed.
End answers.

(** ** The schedule *)
Lemma sprintf_d_inj a b : sprintf_d a = sprintf_d b → a = b.
Proof.
  assert (∀ z s, 0 ≤ z → format_uint z ≠ "-" +:+ s) as Hsign.
  { intros z s Hz E. apply (f_equal NilZero.uint_of_string) in E. unfold format_uint in E.
    rewrite NilZero.usu in E by apply N_to_uint_nonnil. simpl in E.
    by destruct (NilEmpty.uint_of_string _). }
  unfold sprintf_d. repeat case_decide; intros E.
  - apply (inj (String.append "-")) in E. apply format_uint_inj in E; lia.
  - by destruct (Hsign b (format_uint (- a)) ltac:(lia)).
  - by destruct (Hsign a (format_uint (- b)) ltac:(lia)).
  - apply format_uint_inj; [lia..|done].
Qed.
Lemma block_key_inj a b : block_key a = block_key b → a = b.
Proof.
  intros E. apply sprintf_d_inj. unfold block_key in E. apply (f_equal b2s) in E. rewrite !b2s_s2b in E.
  by apply (inj (String.append dbPrefixBlock)) in E.
Qed.
Lemma block_key_ne h : block_key h ≠ [].
Proof. done. Qed.
Lemma db_Has_ne (key : bytes) (db : Database) : key ≠ [] → db_Has key db = Ok (bool_decide (is_Some (db !! key))).
Proof. intros. unfold db_Has. by rewrite decide_False. Qed.
Lemma db_Get_Some (key v : bytes) (db : Database) : key ≠ [] → db !! key = Some v → db_Get key db = Ok v.
Proof. intros ? E. unfold db_Get. by rewrite decide_False, E. Qed.
Lemma kk_Put_run `{CryptoLib} key v k : key ≠ [] →
  kk_Put key v k = (Ok (), set_kk_storage (<[key := v]> (kk_storage k)) k).
Proof. intros. unfold kk_Put, updates, db_Put. by rewrite decide_False. Qed.
Lemma kk_Del_run `{CryptoLib} key k : key ≠ [] →
  kk_Del key k = (Ok (), set_kk_storage (delete key (kk_storage k)) k).
Proof. intros. unfold kk_Del, updates, db_Del. by rewrite decide_False. Qed.
#[local] Hint Resolve block_key_ne : core.

Section schedule.
Context `{AminoLaws} `{CryptoLib}.

(** The processes the database lists for a block. *)
Definition scheduled (db : Database) (h : Z) : list string :=
  match db !! block_key h with
  | Some data => match UnmarshalBinaryBare (Some data) with Ok pids => pids | _ => [] end
  | None => []
  end.
Definition schedule_ok (db : Database) : Prop :=
  ∀ h data, db !! block_key h = Some data → is_ok (UnmarshalBinaryBare (A := list string) (Some data)) = true.

Lemma schedule_one_run pid h k : schedule_ok (kk_storage k) →
  ∃ db, schedule_one pid h k = (Ok (), set_kk_storage db k) ∧ schedule_ok db ∧
    ∀ h', scheduled db h' = if decide (h' = h) then scheduled (kk_storage k) h ++ [pid] else scheduled (kk_storage k) h'.
Proof.
  intros Hok. destruct (law_amino_strings (scheduled (kk_storage k) h ++ [pid])) as (b & Hm & Hb & Hu);
    [by destruct (scheduled _ h)|].
  exists (<[block_key h := b]> (kk_storage k)).
  assert (∀ h' : Z, scheduled (<[block_key h := b]> (kk_storage k)) h' = if decide (h' = h)
    then scheduled (kk_storage k) h ++ [pid] else scheduled (kk_storage k) h') as Hs.
  { intros h'. unfold scheduled at 1. destruct (decide (h' = h)) as [->|Hne].
    - by rewrite lookup_insert_eq, Hu.
    - rewrite lookup_insert_ne; [done|]. intros E%block_key_inj. congruence. }
  split_and!; [|intros h' data|done].
  - unfold schedule_one. rewrite GM_run. cbn [reads]. rewrite db_Has_ne by done.
    unfold scheduled in Hm at 1. rewrite GM_run.
    destruct (kk_storage k !! block_key h) as [data|] eqn:E.
    + rewrite bool_decide_eq_true_2 by done. rewrite GM_run. cbn [reads].
      rewrite (db_Get_Some _ data) by done. cbn [lift].
      specialize (Hok h data E). destruct (UnmarshalBinaryBare (Some data)) as [pids| |]; [|done|done].
      rewrite GM_run. cbn [lift]. unfold marshal. rewrite Hm. by apply kk_Put_run.
    + rewrite bool_decide_eq_false_2 by (by intros []). cbn [mret GM_ret].
      rewrite GM_run. cbn [lift]. unfold marshal. rewrite Hm. by apply kk_Put_run.
  - destruct (decide (h' = h)) as [->|Hne].
    + rewrite lookup_insert_eq. intros [= <-]. by rewrite Hu.
    + rewrite lookup_insert_ne; [apply Hok|]. intros E%block_key_inj. congruence.
Qed.

Lemma schedule_loop_run l : ∀ k, schedule_ok (kk_storage k) →
  ∃ db, for_each l (λ '(pid, height), logged (schedule_one pid height)) k = (Ok (), set_kk_storage db k) ∧
    schedule_ok db ∧ ∀ h pid, pid ∈ scheduled db h ↔ pid ∈ scheduled (kk_storage k) h ∨ (pid, h) ∈ l.
Proof.
  induction l as [|[p h0] l IH]; intros k Hok.
  - exists (kk_storage k). destruct k. split_and!; [done|done|]. intros. set_solver.
  - destruct (schedule_one_run p h0 k Hok) as (db1 & Hr & Hok1 & Hs1).
    destruct (IH (set_kk_storage db1 k) Hok1) as (db2 & Hr2 & Hok2 & Hs2).
    exists db2. split_and!; [|done|].
    + cbn [for_each]. rewrite GM_run, (logged_run _ _ _ _ Hr) by done. by rewrite Hr2.
    + intros h pid. rewrite Hs2. cbn [kk_storage set_kk_storage]. rewrite Hs1.
      destruct (decide (h = h0)) as [->|]; set_solver.
Qed.

(** At a commit every process in the pool is entered in the schedule
    under its block, nothing already scheduled is lost, nothing else is
    entered, and the two goroutines are started. *)
Theorem commit_schedules k height : schedule_ok (kk_storage k) →
  ∃ k', keykeeper_Commit height k = (Ok (), k') ∧ schedule_ok (kk_storage k') ∧
    kk_tasks k' = kk_tasks k ++ [RevealTask height; PublishTask] ∧
    kk_keyPool k' = kk_keyPool k ∧
    ∀ h pid, pid ∈ scheduled (kk_storage k') h ↔
             pid ∈ scheduled (kk_storage k) h ∨ default ∅ (kk_blockPool k) !! pid = Some h.
Proof.
  intros Hok. destruct (schedule_loop_run (map_to_list (default ∅ (kk_blockPool k))) k Hok)
    as (db & Hr & Hok' & Hs).
  eexists. unfold keykeeper_Commit, scheduleRevealKeys. rewrite GM_run, GM_run. cbn [get_st]. rewrite Hr.
  split_and!; [done|done|done|done|]. intros h pid. rewrite Hs. by rewrite elem_of_map_to_list.
Qed.
End schedule.

(** ** Revealing what was scheduled *)
Section reveals.
Context {DB : Type} `{StateDB DB} `{AminoLib} `{CryptoLaws} `{TxJSON} `{KeyKeeperEnv}.

Lemma block_not_process h pid : block_key h ≠ process_key pid.
Proof. done. Qed.

(** The keeper answers for [pid] with a transaction it built and signed. *)
Definition reveal_of (k : KeyKeeper) (pid : string) (tx : bytes) : Prop :=
  ∃ pk nonce, generateKeys k (s2b pid) = Ok pk ∧
    sign_admin (kk_signer k) (reveal_tx_of pk pid nonce) = Ok tx.
(** The parts of the keeper a reveal leaves alone. *)
Record same_keeper (k k' : KeyKeeper) : Prop := {
  sk_signer : kk_signer k' = kk_signer k;
  sk_index : kk_myIndex k' = kk_myIndex k;
  sk_blocks h : kk_storage k' !! block_key h = kk_storage k !! block_key h }.
#[local] Instance same_keeper_trans : Transitive same_keeper.
Proof. intros k1 k2 k3 [A1 A2 A3] [B1 B2 B3]. split; [congruence..|]. intros h. by rewrite B3. Qed.
Lemma generateKeys_same k k' pid : same_keeper k k' → generateKeys k' pid = generateKeys k pid.
Proof. intros [E1 E2 _]. unfold generateKeys. by rewrite E1, E2. Qed.
Lemma reveal_of_same k k' pid tx : same_keeper k k' → reveal_of k' pid tx → reveal_of k pid tx.
Proof.
  intros Hs (pk & nonce & Hg & Hsig). exists pk, nonce.
  by rewrite <- (generateKeys_same _ _ _ Hs), <- (sk_signer _ _ Hs).
Qed.

Hypothesis mempool_answers : ∀ l tx, is_panic (Mempool_CheckTx l tx) = false.

Lemma RandomHex_run n k :
  RandomHex n k = (Ok (sprintf_x (RandomBytes (kk_draws k) n)), set_kk_draws (S (kk_draws k)) k).
Proof. done. Qed.
Lemma signAndSendTx_run tx k : is_ok (sign_admin (kk_signer k) tx) = true →
  ∃ txb r, sign_admin (kk_signer k) tx = Ok txb ∧ is_panic r = false ∧
    signAndSendTx tx k = (r, set_kk_sent (kk_sent k ++ [txb]) k).
Proof.
  intros Hsign. unfold signAndSendTx. rewrite GM_run. cbn [reads].
  destruct (sign_admin (kk_signer k) tx) as [txb| |] eqn:Ht; [|done|done].
  rewrite GM_run. unfold SendTX. rewrite GM_run. cbn [get_st]. rewrite GM_run. cbn [modify lift].
  pose proof (mempool_answers (kk_sent k) txb) as Hm.
  destruct (Mempool_CheckTx (kk_sent k) txb) as [r|e|]; [|by exists txb, (Err e)|done].
  eexists txb, _. split_and!; [done| |done]. by destruct (bool_decide _).
Qed.

Lemma revealKeys_run k pid pk : generateKeys k (s2b pid) = Ok pk →
  (∀ tx, is_ok (sign_admin (kk_signer k) tx) = true) →
  ∃ k' tx, logged (revealKeys pid) k = (Ok (), k') ∧ kk_sent k' = kk_sent k ++ [tx] ∧
    reveal_of k pid tx ∧ same_keeper k k'.
Proof.
  intros Hg Hsign. unfold logged, try_. rewrite GM_run. unfold revealKeys. rewrite GM_run. cbn [reads].
  rewrite Hg, GM_run, RandomHex_run, GM_run.
  match goal with |- context [signAndSendTx ?tx ?k0] =>
    destruct (signAndSendTx_run tx k0 (Hsign _)) as (txb & r & Ht & Hr & ->) end.
  assert (reveal_of k pid txb) as Hrev by (by do 2 eexists).
  destruct r as [[]| |]; [|by do 2 eexists|done].
  erewrite (logged_run _ _ _ (Ok ())); [|by apply kk_Del_run|done].
  do 2 eexists. split_and!; [done|done|done|]. split; [done|done|]. intros h. simpl.
  by rewrite lookup_delete_ne by apply not_eq_sym, block_not_process.
Qed.

(** The publication of the keys [pk] for [pid]. *)
Definition publication_of (k : KeyKeeper) (entry : string * option processKeys) (tx : bytes) : Prop :=
  ∃ pk nonce, entry.2 = Some pk ∧ sign_admin (kk_signer k) (publish_tx pk entry.1 nonce) = Ok tx.
Lemma publishKeys_run k pid pk : (∀ tx, is_ok (sign_admin (kk_signer k) tx) = true) →
  ∃ k' tx, logged (publishKeys (Some pk) pid) k = (Ok (), k') ∧ kk_sent k' = kk_sent k ++ [tx] ∧
    publication_of k (pid, Some pk) tx ∧ kk_signer k' = kk_signer k.
Proof.
  intros Hsign. unfold logged, try_. rewrite GM_run. unfold publishKeys. rewrite GM_run. cbn [lift].
  rewrite GM_run, RandomHex_run, GM_run.
  match goal with |- context [signAndSendTx ?tx ?k0] =>
    destruct (signAndSendTx_run tx k0 (Hsign _)) as (txb & r & Ht & Hr & ->) end.
  assert (publication_of k (pid, Some pk) txb) as Hpub by (by do 2 eexists).
  destruct r as [[]| |]; [|by do 2 eexists|done].
  rewrite GM_run. cbn [reads]. rewrite db_Has_ne by done. rewrite GM_run. cbn [lift].
  destruct (bool_decide (is_Some _)); [by do 2 eexists|]. cbn [guard_err].
  rewrite kk_Put_run by done. by do 2 eexists.
Qed.
Lemma publish_loop_run l : ∀ k, (∀ tx, is_ok (sign_admin (kk_signer k) tx) = true) →
  Forall (λ e, is_Some e.2) l →
  ∃ k' txs, for_each l (λ '(pid, pk), logged (publishKeys pk pid)) k = (Ok (), k') ∧
    kk_sent k' = kk_sent k ++ txs ∧ Forall2 (publication_of k) l txs.
Proof.
  induction l as [|[pid o] l IH]; intros k Hsign Hall.
  - exists k, []. split_and!; [done|by rewrite app_nil_r|done].
  - inversion Hall as [|? ? [pk Hpk] Hrest]; subst. simpl in Hpk. subst o.
    destruct (publishKeys_run k pid pk Hsign) as (k1 & tx & Hr1 & Hs1 & Ht1 & Hk1).
    destruct (IH k1) as (k2 & txs & Hr2 & Hs2 & Ht2); [by rewrite Hk1|done|].
    exists k2, (tx :: txs). split_and!.
    + cbn [for_each]. rewrite GM_run, Hr1. apply Hr2.
    + rewrite Hs2, Hs1. by rewrite <- app_assoc.
    + constructor; [done|]. unfold publication_of in *. by rewrite Hk1 in Ht2.
Qed.

(** C36: when the publishing goroutine runs before the next block begins, the
    keeper submits one signed publication for each process of its pool. *)
Theorem pending_keys_published d k i pool :
  (∀ tx, is_ok (sign_admin (kk_signer k) tx) = true) →
  kk_keyPool k = Some pool → map_Forall (λ _ o, is_Some o) pool → kk_tasks k !! i = Some PublishTask →
  ∃ k' txs, run_keykeeper_task d i k = (Ok (), k') ∧ kk_sent k' = kk_sent k ++ txs ∧
    Forall2 (publication_of k) (map_to_list pool) txs.
Proof.
  intros Hsign Hp Hall Ht. unfold run_keykeeper_task. rewrite GM_run. cbn [reads]. rewrite Ht, GM_run.
  cbn [modify]. unfold publishPendingKeys. rewrite GM_run. cbn [get_st kk_keyPool set_kk_tasks]. rewrite Hp.
  destruct (publish_loop_run (map_to_list pool) (set_kk_tasks (delete i (kk_tasks k)) k) Hsign)
    as (k' & txs & Hr & Hs & Hf); [|by exists k', txs].
  apply list.Forall_forall. intros [pid o] Hin%elem_of_map_to_list. by eapply Hall.
Qed.

(** A process of the schedule whose slot holds a key. *)
Definition awaits_reveal (d : DB) (k : KeyKeeper) (pid : string) : Prop :=
  ∃ p key, Process_ d (s2b pid) false = Ok p ∧ RequireKeys p = true ∧
    go_index (p_EncryptionPublicKeys p) (kk_myIndex k) = Ok key ∧ key ≠ "" ∧
    is_ok (generateKeys k (s2b pid)) = true.

Lemma reveal_loop_run d pids : ∀ k, Forall (awaits_reveal d k) pids →
  (∀ tx, is_ok (sign_admin (kk_signer k) tx) = true) →
  ∃ k' txs, reveal_loop d pids k = (Ok true, k') ∧ kk_sent k' = kk_sent k ++ txs ∧
    Forall2 (reveal_of k) pids txs ∧ same_keeper k k'.
Proof.
  induction pids as [|pid pids IH]; intros k Hall Hsign.
  - exists k, []. split_and!; [done|by rewrite app_nil_r|done|by split].
  - inversion Hall as [|? ? (p & key & Hp & Hreq & Hkey & Hne & Hg) Hrest]; subst.
    destruct (generateKeys k (s2b pid)) as [pk| |] eqn:Eg; [|done|done].
    destruct (revealKeys_run k pid pk Eg Hsign) as (k1 & tx & Hr1 & Hs1 & Ht1 & Hk1).
    destruct (IH k1) as (k2 & txs & Hr2 & Hs2 & Ht2 & Hk2).
    { eapply Forall_impl; [exact Hrest|]. intros q (p' & key' & A & B & C & D & E).
      exists p', key'. by rewrite (sk_index _ _ Hk1), (generateKeys_same _ _ _ Hk1). }
    { intros. by rewrite (sk_signer _ _ Hk1). }
    exists k2, (tx :: txs). split_and!.
    + cbn [reveal_loop]. rewrite GM_run. unfold reveal_round. rewrite Hp, Hreq. cbn [negb].
      rewrite GM_run. cbn [reads]. rewrite Hkey, GM_run, decide_True by done. rewrite Hr1. apply Hr2.
    + rewrite Hs2, Hs1. by rewrite <- app_assoc.
    + constructor; [done|]. eapply Forall2_impl; [exact Ht2|]. intros. by eapply reveal_of_same.
    + by etransitivity.
Qed.

(** At the block for which processes are scheduled the keeper submits to
    the mempool, in order, one signed reveal for each of them, and clears the
    entry. *)
Theorem scheduled_reveals_submitted d k h data pids :
  (∀ tx, is_ok (sign_admin (kk_signer k) tx) = true) →
  kk_storage k !! block_key h = Some data → UnmarshalBinaryBare (Some data) = Ok pids →
  Forall (awaits_reveal d k) pids →
  ∃ k' txs, checkRevealProcess d h k = (Ok (), k') ∧ kk_sent k' = kk_sent k ++ txs ∧
    Forall2 (reveal_of k) pids txs ∧ kk_storage k' !! block_key h = None.
Proof.
  intros Hsign Hd Hu Hall. destruct (reveal_loop_run d pids k Hall Hsign) as (k1 & txs & Hr & Hs & Ht & Hk).
  exists (set_kk_storage (delete (block_key h) (kk_storage k1)) k1), txs. split_and!.
  - unfold checkRevealProcess. rewrite GM_run. cbn [reads].
    rewrite db_Has_ne, Hd, bool_decide_eq_true_2 by done. cbn [negb].
    rewrite GM_run. cbn [reads]. rewrite (db_Get_Some _ data) by done.
    rewrite GM_run. cbn [lift]. rewrite Hu, GM_run, Hr.
    apply (logged_run _ _ _ (Ok ())); [by apply kk_Del_run|done].
  - by simpl.
  - done.
  - simpl. apply lookup_delete_eq.
Qed.
End reveals.

(** ** Two flaws *)
Section flaws.
Context {DB : Type} `{StateDBSpec DB} `{AminoLaws} `{CryptoLib} `{TxJSON} `{KeyKeeperEnv}.

(** The constructor refuses only slot 0.  A keeper set up for any slot
    outside the sixteen panics on the creation of every process that needs
    keys, and with it the node that delivers the transaction. *)
Theorem keeper_slot_panics path signer i db k d pid p :
  NewKeyKeeper path signer i db = Ok k → ¬ (0 ≤ i < MaxKeyIndex) →
  store_inv d → Process_ d pid false = Ok p → RequireKeys p = true →
  is_panic (keykeeper_OnProcess d pid (keykeeper_Rollback k)) = true.
Proof.
  intros Hn Hi Hinv Hp Hreq. unfold NewKeyKeeper in Hn. go_inv Hn.
  unfold keykeeper_OnProcess. rewrite Hp, Hreq. cbn [negb kk_myIndex keykeeper_Rollback set_kk_pools].
  apply Process_wproc in Hp; [|apply Hinv]. destruct (wproc_wf _ _ _ Hinv Hp) as [_ Hwf].
  pose proof (wf_pub _ Hwf) as Hl. unfold key_slots in Hl. rewrite Hreq in Hl.
  rewrite (go_index_out_of_range (p_EncryptionPublicKeys p)); [done|]. unfold glen, MaxKeyIndex in *. lia.
Qed.

(** The publishing goroutine reads the pool when it runs.  If the next
    block begins before it does, the pool is empty by then: nothing has been
    submitted and nothing is left to submit, so the keys of the processes the
    commit announced are never published. *)
Theorem late_publication_lost d k height : schedule_ok (kk_storage k) →
  ∃ k1 k2, keykeeper_Commit height k = (Ok (), k1) ∧
    run_keykeeper_task d (S (length (kk_tasks k))) (keykeeper_Rollback k1) = (Ok (), k2) ∧
    kk_sent k2 = kk_sent k ∧ kk_keyPool k2 = Some ∅ ∧ kk_tasks k2 = kk_tasks k ++ [RevealTask height].
Proof.
  intros Hok. destruct (schedule_loop_run (map_to_list (default ∅ (kk_blockPool k))) k Hok) as (db & Hr & _).
  unfold keykeeper_Commit, scheduleRevealKeys. rewrite GM_run, GM_run. cbn [get_st]. rewrite Hr.
  eexists _, _. split; [done|]. unfold run_keykeeper_task. rewrite GM_run.
  cbn [reads modify kk_tasks set_kk_tasks set_kk_storage keykeeper_Rollback set_kk_pools].
  rewrite lookup_app_r by lia. replace (S _ - _)%nat with 1%nat by lia. cbn [lookup list_lookup].
  split; [done|]. split_and!; [done|done|]. cbn [kk_tasks set_kk_tasks].
  rewrite delete_take_drop, take_app_ge, drop_app_ge by lia.
  replace (S _ - _)%nat with 1%nat by lia. replace (S _ - _)%nat with 2%nat by lia. by rewrite app_nil_r.
Qed.
End flaws.

(** ** A keeper that is the oracle of the concrete node *)
#[export] Instance concrete_env : KeyKeeperEnv := {|
  RandomBytes n len := replicate (Z.to_nat len) (z2b (Z.of_nat n));
  Mempool_CheckTx _ _ := Ok (mkResponseTx 0 []) |}.
Definition keeper_signer : ethereum.SignKeys := ethereum.mkSignKeys (Some (oracle_key : ecdsa_PrivateKey)) ∅.
Definition keeper : KeyKeeper := mkKeyKeeper ∅ (Some ∅) (Some ∅) keeper_signer 1 [] [] 0.
Definition keeper_keys : processKeys :=
  match generateKeys keeper pid1 with Ok pk => pk | _ => mkProcessKeys [] [] [] [] 0 end.
Lemma keeper_keys_eq : generateKeys keeper pid1 = Ok keeper_keys.
Proof. vm_compute. reflexivity. Qed.
Lemma concrete_mempool : ∀ l tx, is_panic (Mempool_CheckTx l tx) = false.
Proof. done. Qed.
Lemma keeper_signs : ∀ tx, is_ok (sign_admin keeper_signer tx) = true.
Proof. done. Qed.

Definition published_block : list abci_call :=
  encrypted_block ++ [CDeliverTx (match sign_admin keeper_signer (publish_tx keeper_keys (b2s pid1) "") with
                                  | Ok b => b | _ => [] end) 0; CCommit].
Lemma published_block_runs : runs published_block = true.
Proof. vm_compute. reflexivity. Qed.
Definition ended_block : list abci_call := published_block ++ [CBeginBlock (header_at 11) 0].
Lemma ended_block_runs : runs ended_block = true.
Proof. vm_compute. reflexivity. Qed.

Lemma stored_keys_roundtrip_witness : Decode (Encode keeper_keys) = Ok keeper_keys.
Proof.
  apply (stored_keys_roundtrip keeper pid1); [exact keeper_keys_eq|]. split; [discriminate|reflexivity].
Defined.

(** A test on the result of a query, decided by evaluation. *)
Lemma res_test {A} (r : res A) (f : A → bool) : match r with Ok a => f a | _ => false end = true →
  ∃ a, r = Ok a ∧ f a = true.
Proof. destruct r; [eauto|done|done]. Qed.

Definition slot_is (l : list string) (key : string) : bool := bool_decide (l !! 1%nat = Some key).
Definition published_ok (p : Process) : bool :=
  RequireKeys p && slot_is (p_EncryptionPublicKeys p) (sprintf_x (pubKey keeper_keys))
  && slot_is (p_CommitmentKeys p) (sprintf_x (commitmentKey keeper_keys)).
Definition unanswered (p : Process) : bool :=
  bool_decide (end_block p ≤ 11) && slot_is (p_EncryptionPrivateKeys p) "" && slot_is (p_RevealKeys p) "".

Lemma published_keys_answered_witness :
  check_process_keys (reveal_tx_of keeper_keys (b2s pid1) "") (Store (node_at ended_block)) = Ok ().
Proof.
  destruct (res_test (Process_ (Store (node_at published_block)) pid1 true) published_ok)
    as (p & Hp & [[H1 H2]%andb_true_iff H3]%andb_true_iff); [vm_compute; reflexivity|].
  destruct (res_test (Process_ (Store (node_at ended_block)) pid1 false) unanswered)
    as (p' & Hp' & [[H4 H5]%andb_true_iff H6]%andb_true_iff); [vm_compute; reflexivity|].
  destruct (res_test (Header_ (Store (node_at ended_block)) false)
    (λ h, bool_decide (h = Some (header_at 11)))) as (h & Hh & ->%bool_decide_eq_true);
    [vm_compute; reflexivity|].
  apply (published_keys_answered (node_at published_block) [CBeginBlock (header_at 11) 0] (node_at ended_block)
    keeper pid1 keeper_keys "" p p' (header_at 11)).
  - exact (node_at_inv _ published_block_runs).
  - exact (node_at_steps _ _ published_block_runs ended_block_runs).
  - exact keeper_keys_eq.
  - split; discriminate.
  - exact Hp.
  - exact H1.
  - exact (bool_decide_eq_true_1 _ H2).
  - exact (bool_decide_eq_true_1 _ H3).
  - exact Hp'.
  - exact Hh.
  - right. exact (bool_decide_eq_true_1 _ H4).
  - exact (bool_decide_eq_true_1 _ H5).
  - exact (bool_decide_eq_true_1 _ H6).
Defined.

(** The keeper after it has seen the process, and after the commit. *)
Definition informed : KeyKeeper :=
  match keykeeper_OnProcess (Store (node_at encrypted_block)) pid1 keeper with Ok k => k | _ => keeper end.
Lemma empty_schedule : schedule_ok ∅.
Proof. intros h data E. by rewrite lookup_empty in E. Qed.
Lemma informed_storage : kk_storage informed = ∅.
Proof. vm_compute. reflexivity. Qed.
Lemma informed_blocks : kk_blockPool informed = Some {[b2s pid1 := 11]}.
Proof. vm_compute. reflexivity. Qed.

Lemma commit_schedules_witness :
  ∃ k', keykeeper_Commit 1 informed = (Ok (), k') ∧ b2s pid1 ∈ scheduled (kk_storage k') 11.
Proof.
  destruct (commit_schedules informed 1) as (k' & Hc & _ & _ & _ & Hs).
  - rewrite informed_storage. exact empty_schedule.
  - exists k'. split; [exact Hc|]. apply Hs. right. rewrite informed_blocks. reflexivity.
Defined.

Definition due_data : bytes := enc [b2s pid1].
Definition due : KeyKeeper := set_kk_storage {[block_key 11 := due_data]} keeper.
Lemma scheduled_reveals_submitted_witness : ∃ k' tx,
  checkRevealProcess (Store (node_at ended_block)) 11 due = (Ok (), k') ∧ kk_sent k' = [tx] ∧
  reveal_of due (b2s pid1) tx.
Proof.
  destruct (scheduled_reveals_submitted concrete_mempool (Store (node_at ended_block)) due 11 due_data [b2s pid1])
    as (k' & txs & Hr & Hs & Hf & _).
  - exact keeper_signs.
  - reflexivity.
  - vm_compute. reflexivity.
  - constructor; [|constructor].
    destruct (res_test (Process_ (Store (node_at ended_block)) pid1 false) published_ok)
      as (p & Hp & [[H1 H2]%andb_true_iff _]%andb_true_iff); [vm_compute; reflexivity|].
    apply bool_decide_eq_true_1 in H2. eexists p, _. rewrite s2b_b2s.
    split; [exact Hp|]. split; [exact H1|]. split; [by apply go_index_eq; [|exact H2]|].
    split; vm_compute; [discriminate|reflexivity].
  - inversion Hf as [|? tx ? l' Htx Hnil]; subst. inversion Hnil; subst.
    exists k', tx. split; [exact Hr|]. split; [exact Hs|exact Htx].
Defined.

Lemma pending_keys_published_witness : ∃ k' tx,
  run_keykeeper_task (Store (node_at encrypted_block)) 0 (set_kk_tasks [PublishTask] informed) = (Ok (), k') ∧
  kk_sent k' = [tx] ∧ publication_of informed (b2s pid1, Some keeper_keys) tx.
Proof.
  destruct (pending_keys_published concrete_mempool (Store (node_at encrypted_block))
    (set_kk_tasks [PublishTask] informed) 0 {[b2s pid1 := Some keeper_keys]})
    as (k' & txs & Hr & Hs & Hf).
  - vm_compute. reflexivity.
  - vm_compute. reflexivity.
  - apply map_Forall_singleton. by eexists.
  - reflexivity.
  - rewrite map_to_list_singleton in Hf. inversion Hf as [|? tx ? l' Htx Hnil]; subst. inversion Hnil; subst.
    exists k', tx. split; [exact Hr|]. split; [|exact Htx]. rewrite Hs. vm_compute. reflexivity.
Defined.

Lemma keeper_slot_panics_witness :
  is_panic (keykeeper_OnProcess (Store (node_at encrypted_block)) pid1
    (keykeeper_Rollback (mkKeyKeeper ∅ None None keeper_signer 16 [] [] 0))) = true.
Proof.
  destruct (res_test (Process_ (Store (node_at encrypted_block)) pid1 false) RequireKeys) as (p & Hp & Hr);
    [vm_compute; reflexivity|].
  apply (keeper_slot_panics "dir" (Some keeper_signer) 16 (Ok ∅) _ _ _ p).
  - reflexivity.
  - intros [_ Hlt]. vm_compute in Hlt. discriminate Hlt.
  - exact (node_at_inv _ encrypted_block_runs).
  - exact Hp.
  - exact Hr.
Defined.

Lemma late_publication_lost_witness : ∃ k2,
  run_keykeeper_task (Store (node_at encrypted_block)) 1
    (keykeeper_Rollback (keykeeper_Commit 1 informed).2) = (Ok (), k2) ∧ kk_sent k2 = kk_sent informed.
Proof.
  destruct (late_publication_lost (Store (node_at encrypted_block)) informed 1) as (k1 & k2 & Hc & Hr & Hs & _).
  - rewrite informed_storage. exact empty_schedule.
  - exists k2. rewrite Hc. split; [exact Hr|exact Hs].
Defined.
