(* ===== verification/Api.v ===== *)
(** * The API messages: [types/api.go]

    A request carries its inner message as raw bytes, with the signature over
    them; [MetaRequest] and [MetaResponse] hold the fields of every method.  A
    nil pointer is [None]. *)

From stdpp Require Import base strings list.
From Stdlib Require Import ZArith.
From S2P Require Import Prelude GoLib Types.
Open Scope Z_scope.

(** [common.Address.String]: the checksummed hexadecimal form. *)
Class AddressText := { Address_String : bytes → string }.

Record RequestMessage := mkRequestMessage {
  rm_MetaRequest : bytes;
  rm_ID : string;
  rm_Signature : string }.
Record MetaRequest := mkMetaRequest {
  rq_CensusID : string;
  rq_CensusURI : string;
  rq_ClaimData : string;
  rq_ClaimsData : list string;
  rq_Content : string;
  rq_Digested : bool;
  rq_EntityId : string;
  rq_From : Z;
  rq_FromID : string;
  rq_ListSize : Z;
  rq_Method : string;
  rq_Name : string;
  rq_Nullifier : string;
  rq_Payload : option VoteTx;
  rq_ProcessID : string;
  rq_ProofData : string;
  rq_PubKeys : list string;
  rq_RawTx : string;
  rq_RootHash : string;
  rq_Signature : string;
  rq_Timestamp : Z;
  rq_Type : string;
  rq_URI : string }.
Record ResponseMessage := mkResponseMessage {
  sm_MetaResponse : bytes;
  sm_ID : string;
  sm_Signature : string }.
Record Key := mkKey {
  key_Idx : Z;
  key_Key : string }.
Record MetaResponse := mkMetaResponse {
  rp_APIList : list string;
  rp_BlockTime : option (list Z);
  rp_BlockTimestamp : Z;
  rp_CensusID : string;
  rp_CensusList : list string;
  rp_ClaimsData : list string;
  rp_CommitmentKeys : list Key;
  rp_Content : string;
  rp_EncryptionPrivKeys : list Key;
  rp_EncryptionPublicKeys : list Key;
  rp_EntityID : string;
  rp_EntityIDs : list string;
  rp_Files : bytes;
  rp_Finished : option bool;
  rp_Health : Z;
  rp_Height : option Z;
  rp_InvalidClaims : list Z;
  rp_Message : string;
  rp_Nullifier : string;
  rp_Nullifiers : option (list string);
  rp_Ok : bool;
  rp_Paused : option bool;
  rp_Payload : string;
  rp_ProcessIDs : list string;
  rp_ProcessList : list string;
  rp_Registered : option bool;
  rp_Request : string;
  rp_Results : list (list Z);
  rp_RevealKeys : list Key;
  rp_Root : string;
  rp_Siblings : string;
  rp_Size : option Z;
  rp_State : string;
  rp_Timestamp : Z;
  rp_Type : string;
  rp_URI : string;
  rp_ValidProof : option bool }.
Definition zero_response : MetaResponse :=
  mkMetaResponse [] None 0 "" [] [] [] "" [] [] "" [] [] None 0 None [] "" "" None false None "" [] [] None ""
    [] [] "" "" None "" 0 "" "" None.
Record CensusDump := mkCensusDump {
  cd_RootHash : string;
  cd_ClaimsData : list string }.

Definition SetError (v : error) (r : MetaResponse) : MetaResponse :=
  mkMetaResponse (rp_APIList r) (rp_BlockTime r) (rp_BlockTimestamp r) (rp_CensusID r) (rp_CensusList r)
    (rp_ClaimsData r) (rp_CommitmentKeys r) (rp_Content r) (rp_EncryptionPrivKeys r) (rp_EncryptionPublicKeys r)
    (rp_EntityID r) (rp_EntityIDs r) (rp_Files r) (rp_Finished r) (rp_Health r) (rp_Height r) (rp_InvalidClaims
    r) v (rp_Nullifier r) (rp_Nullifiers r) false (rp_Paused r) (rp_Payload r) (rp_ProcessIDs r) (rp_ProcessList
    r) (rp_Registered r) (rp_Request r) (rp_Results r) (rp_RevealKeys r) (rp_Root r) (rp_Siblings r) (rp_Size r)
    (rp_State r) (rp_Timestamp r) (rp_Type r) (rp_URI r) (rp_ValidProof r).
(** The zero request, and a request of some fields. *)
Definition zero_request : MetaRequest :=
  mkMetaRequest "" "" "" [] "" false "" 0 "" 0 "" "" "" None "" "" [] "" "" "" 0 "" "".
Definition set_rq_CensusID v (r : MetaRequest) : MetaRequest :=
  mkMetaRequest v (rq_CensusURI r) (rq_ClaimData r) (rq_ClaimsData r) (rq_Content r) (rq_Digested r)
    (rq_EntityId r) (rq_From r) (rq_FromID r) (rq_ListSize r) (rq_Method r) (rq_Name r) (rq_Nullifier r)
    (rq_Payload r) (rq_ProcessID r) (rq_ProofData r) (rq_PubKeys r) (rq_RawTx r) (rq_RootHash r) (rq_Signature
    r) (rq_Timestamp r) (rq_Type r) (rq_URI r).
Definition set_rq_ClaimData v (r : MetaRequest) : MetaRequest :=
  mkMetaRequest (rq_CensusID r) (rq_CensusURI r) v (rq_ClaimsData r) (rq_Content r) (rq_Digested r) (rq_EntityId
    r) (rq_From r) (rq_FromID r) (rq_ListSize r) (rq_Method r) (rq_Name r) (rq_Nullifier r) (rq_Payload r)
    (rq_ProcessID r) (rq_ProofData r) (rq_PubKeys r) (rq_RawTx r) (rq_RootHash r) (rq_Signature r) (rq_Timestamp
    r) (rq_Type r) (rq_URI r).
Definition set_rq_Digested v (r : MetaRequest) : MetaRequest :=
  mkMetaRequest (rq_CensusID r) (rq_CensusURI r) (rq_ClaimData r) (rq_ClaimsData r) (rq_Content r) v
    (rq_EntityId r) (rq_From r) (rq_FromID r) (rq_ListSize r) (rq_Method r) (rq_Name r) (rq_Nullifier r)
    (rq_Payload r) (rq_ProcessID r) (rq_ProofData r) (rq_PubKeys r) (rq_RawTx r) (rq_RootHash r) (rq_Signature
    r) (rq_Timestamp r) (rq_Type r) (rq_URI r).
Definition set_rq_FromID v (r : MetaRequest) : MetaRequest :=
  mkMetaRequest (rq_CensusID r) (rq_CensusURI r) (rq_ClaimData r) (rq_ClaimsData r) (rq_Content r) (rq_Digested
    r) (rq_EntityId r) (rq_From r) v (rq_ListSize r) (rq_Method r) (rq_Name r) (rq_Nullifier r) (rq_Payload r)
    (rq_ProcessID r) (rq_ProofData r) (rq_PubKeys r) (rq_RawTx r) (rq_RootHash r) (rq_Signature r) (rq_Timestamp
    r) (rq_Type r) (rq_URI r).
Definition set_rq_EntityId v (r : MetaRequest) : MetaRequest :=
  mkMetaRequest (rq_CensusID r) (rq_CensusURI r) (rq_ClaimData r) (rq_ClaimsData r) (rq_Content r) (rq_Digested
    r) v (rq_From r) (rq_FromID r) (rq_ListSize r) (rq_Method r) (rq_Name r) (rq_Nullifier r) (rq_Payload r)
    (rq_ProcessID r) (rq_ProofData r) (rq_PubKeys r) (rq_RawTx r) (rq_RootHash r) (rq_Signature r) (rq_Timestamp
    r) (rq_Type r) (rq_URI r).
Definition set_rq_ListSize v (r : MetaRequest) : MetaRequest :=
  mkMetaRequest (rq_CensusID r) (rq_CensusURI r) (rq_ClaimData r) (rq_ClaimsData r) (rq_Content r) (rq_Digested
    r) (rq_EntityId r) (rq_From r) (rq_FromID r) v (rq_Method r) (rq_Name r) (rq_Nullifier r) (rq_Payload r)
    (rq_ProcessID r) (rq_ProofData r) (rq_PubKeys r) (rq_RawTx r) (rq_RootHash r) (rq_Signature r) (rq_Timestamp
    r) (rq_Type r) (rq_URI r).
Definition set_rq_Method v (r : MetaRequest) : MetaRequest :=
  mkMetaRequest (rq_CensusID r) (rq_CensusURI r) (rq_ClaimData r) (rq_ClaimsData r) (rq_Content r) (rq_Digested
    r) (rq_EntityId r) (rq_From r) (rq_FromID r) (rq_ListSize r) v (rq_Name r) (rq_Nullifier r) (rq_Payload r)
    (rq_ProcessID r) (rq_ProofData r) (rq_PubKeys r) (rq_RawTx r) (rq_RootHash r) (rq_Signature r) (rq_Timestamp
    r) (rq_Type r) (rq_URI r).
Definition set_rq_Nullifier v (r : MetaRequest) : MetaRequest :=
  mkMetaRequest (rq_CensusID r) (rq_CensusURI r) (rq_ClaimData r) (rq_ClaimsData r) (rq_Content r) (rq_Digested
    r) (rq_EntityId r) (rq_From r) (rq_FromID r) (rq_ListSize r) (rq_Method r) (rq_Name r) v (rq_Payload r)
    (rq_ProcessID r) (rq_ProofData r) (rq_PubKeys r) (rq_RawTx r) (rq_RootHash r) (rq_Signature r) (rq_Timestamp
    r) (rq_Type r) (rq_URI r).
Definition set_rq_Payload v (r : MetaRequest) : MetaRequest :=
  mkMetaRequest (rq_CensusID r) (rq_CensusURI r) (rq_ClaimData r) (rq_ClaimsData r) (rq_Content r) (rq_Digested
    r) (rq_EntityId r) (rq_From r) (rq_FromID r) (rq_ListSize r) (rq_Method r) (rq_Name r) (rq_Nullifier r) v
    (rq_ProcessID r) (rq_ProofData r) (rq_PubKeys r) (rq_RawTx r) (rq_RootHash r) (rq_Signature r) (rq_Timestamp
    r) (rq_Type r) (rq_URI r).
Definition set_rq_ProcessID v (r : MetaRequest) : MetaRequest :=
  mkMetaRequest (rq_CensusID r) (rq_CensusURI r) (rq_ClaimData r) (rq_ClaimsData r) (rq_Content r) (rq_Digested
    r) (rq_EntityId r) (rq_From r) (rq_FromID r) (rq_ListSize r) (rq_Method r) (rq_Name r) (rq_Nullifier r)
    (rq_Payload r) v (rq_ProofData r) (rq_PubKeys r) (rq_RawTx r) (rq_RootHash r) (rq_Signature r) (rq_Timestamp
    r) (rq_Type r) (rq_URI r).
Definition set_rq_RootHash v (r : MetaRequest) : MetaRequest :=
  mkMetaRequest (rq_CensusID r) (rq_CensusURI r) (rq_ClaimData r) (rq_ClaimsData r) (rq_Content r) (rq_Digested
    r) (rq_EntityId r) (rq_From r) (rq_FromID r) (rq_ListSize r) (rq_Method r) (rq_Name r) (rq_Nullifier r)
    (rq_Payload r) (rq_ProcessID r) (rq_ProofData r) (rq_PubKeys r) (rq_RawTx r) v (rq_Signature r)
    (rq_Timestamp r) (rq_Type r) (rq_URI r).
Definition set_rq_Timestamp v (r : MetaRequest) : MetaRequest :=
  mkMetaRequest (rq_CensusID r) (rq_CensusURI r) (rq_ClaimData r) (rq_ClaimsData r) (rq_Content r) (rq_Digested
    r) (rq_EntityId r) (rq_From r) (rq_FromID r) (rq_ListSize r) (rq_Method r) (rq_Name r) (rq_Nullifier r)
    (rq_Payload r) (rq_ProcessID r) (rq_ProofData r) (rq_PubKeys r) (rq_RawTx r) (rq_RootHash r) (rq_Signature
    r) v (rq_Type r) (rq_URI r).
Definition set_rp_APIList v (r : MetaResponse) : MetaResponse :=
  mkMetaResponse v (rp_BlockTime r) (rp_BlockTimestamp r) (rp_CensusID r) (rp_CensusList r) (rp_ClaimsData r)
    (rp_CommitmentKeys r) (rp_Content r) (rp_EncryptionPrivKeys r) (rp_EncryptionPublicKeys r) (rp_EntityID r)
    (rp_EntityIDs r) (rp_Files r) (rp_Finished r) (rp_Health r) (rp_Height r) (rp_InvalidClaims r) (rp_Message
    r) (rp_Nullifier r) (rp_Nullifiers r) (rp_Ok r) (rp_Paused r) (rp_Payload r) (rp_ProcessIDs r)
    (rp_ProcessList r) (rp_Registered r) (rp_Request r) (rp_Results r) (rp_RevealKeys r) (rp_Root r)
    (rp_Siblings r) (rp_Size r) (rp_State r) (rp_Timestamp r) (rp_Type r) (rp_URI r) (rp_ValidProof r).
Definition set_rp_BlockTime v (r : MetaResponse) : MetaResponse :=
  mkMetaResponse (rp_APIList r) v (rp_BlockTimestamp r) (rp_CensusID r) (rp_CensusList r) (rp_ClaimsData r)
    (rp_CommitmentKeys r) (rp_Content r) (rp_EncryptionPrivKeys r) (rp_EncryptionPublicKeys r) (rp_EntityID r)
    (rp_EntityIDs r) (rp_Files r) (rp_Finished r) (rp_Health r) (rp_Height r) (rp_InvalidClaims r) (rp_Message
    r) (rp_Nullifier r) (rp_Nullifiers r) (rp_Ok r) (rp_Paused r) (rp_Payload r) (rp_ProcessIDs r)
    (rp_ProcessList r) (rp_Registered r) (rp_Request r) (rp_Results r) (rp_RevealKeys r) (rp_Root r)
    (rp_Siblings r) (rp_Size r) (rp_State r) (rp_Timestamp r) (rp_Type r) (rp_URI r) (rp_ValidProof r).
Definition set_rp_BlockTimestamp v (r : MetaResponse) : MetaResponse :=
  mkMetaResponse (rp_APIList r) (rp_BlockTime r) v (rp_CensusID r) (rp_CensusList r) (rp_ClaimsData r)
    (rp_CommitmentKeys r) (rp_Content r) (rp_EncryptionPrivKeys r) (rp_EncryptionPublicKeys r) (rp_EntityID r)
    (rp_EntityIDs r) (rp_Files r) (rp_Finished r) (rp_Health r) (rp_Height r) (rp_InvalidClaims r) (rp_Message
    r) (rp_Nullifier r) (rp_Nullifiers r) (rp_Ok r) (rp_Paused r) (rp_Payload r) (rp_ProcessIDs r)
    (rp_ProcessList r) (rp_Registered r) (rp_Request r) (rp_Results r) (rp_RevealKeys r) (rp_Root r)
    (rp_Siblings r) (rp_Size r) (rp_State r) (rp_Timestamp r) (rp_Type r) (rp_URI r) (rp_ValidProof r).
Definition set_rp_CensusID v (r : MetaResponse) : MetaResponse :=
  mkMetaResponse (rp_APIList r) (rp_BlockTime r) (rp_BlockTimestamp r) v (rp_CensusList r) (rp_ClaimsData r)
    (rp_CommitmentKeys r) (rp_Content r) (rp_EncryptionPrivKeys r) (rp_EncryptionPublicKeys r) (rp_EntityID r)
    (rp_EntityIDs r) (rp_Files r) (rp_Finished r) (rp_Health r) (rp_Height r) (rp_InvalidClaims r) (rp_Message
    r) (rp_Nullifier r) (rp_Nullifiers r) (rp_Ok r) (rp_Paused r) (rp_Payload r) (rp_ProcessIDs r)
    (rp_ProcessList r) (rp_Registered r) (rp_Request r) (rp_Results r) (rp_RevealKeys r) (rp_Root r)
    (rp_Siblings r) (rp_Size r) (rp_State r) (rp_Timestamp r) (rp_Type r) (rp_URI r) (rp_ValidProof r).
Definition set_rp_CensusList v (r : MetaResponse) : MetaResponse :=
  mkMetaResponse (rp_APIList r) (rp_BlockTime r) (rp_BlockTimestamp r) (rp_CensusID r) v (rp_ClaimsData r)
    (rp_CommitmentKeys r) (rp_Content r) (rp_EncryptionPrivKeys r) (rp_EncryptionPublicKeys r) (rp_EntityID r)
    (rp_EntityIDs r) (rp_Files r) (rp_Finished r) (rp_Health r) (rp_Height r) (rp_InvalidClaims r) (rp_Message
    r) (rp_Nullifier r) (rp_Nullifiers r) (rp_Ok r) (rp_Paused r) (rp_Payload r) (rp_ProcessIDs r)
    (rp_ProcessList r) (rp_Registered r) (rp_Request r) (rp_Results r) (rp_RevealKeys r) (rp_Root r)
    (rp_Siblings r) (rp_Size r) (rp_State r) (rp_Timestamp r) (rp_Type r) (rp_URI r) (rp_ValidProof r).
Definition set_rp_ClaimsData v (r : MetaResponse) : MetaResponse :=
  mkMetaResponse (rp_APIList r) (rp_BlockTime r) (rp_BlockTimestamp r) (rp_CensusID r) (rp_CensusList r) v
    (rp_CommitmentKeys r) (rp_Content r) (rp_EncryptionPrivKeys r) (rp_EncryptionPublicKeys r) (rp_EntityID r)
    (rp_EntityIDs r) (rp_Files r) (rp_Finished r) (rp_Health r) (rp_Height r) (rp_InvalidClaims r) (rp_Message
    r) (rp_Nullifier r) (rp_Nullifiers r) (rp_Ok r) (rp_Paused r) (rp_Payload r) (rp_ProcessIDs r)
    (rp_ProcessList r) (rp_Registered r) (rp_Request r) (rp_Results r) (rp_RevealKeys r) (rp_Root r)
    (rp_Siblings r) (rp_Size r) (rp_State r) (rp_Timestamp r) (rp_Type r) (rp_URI r) (rp_ValidProof r).
Definition set_rp_CommitmentKeys v (r : MetaResponse) : MetaResponse :=
  mkMetaResponse (rp_APIList r) (rp_BlockTime r) (rp_BlockTimestamp r) (rp_CensusID r) (rp_CensusList r)
    (rp_ClaimsData r) v (rp_Content r) (rp_EncryptionPrivKeys r) (rp_EncryptionPublicKeys r) (rp_EntityID r)
    (rp_EntityIDs r) (rp_Files r) (rp_Finished r) (rp_Health r) (rp_Height r) (rp_InvalidClaims r) (rp_Message
    r) (rp_Nullifier r) (rp_Nullifiers r) (rp_Ok r) (rp_Paused r) (rp_Payload r) (rp_ProcessIDs r)
    (rp_ProcessList r) (rp_Registered r) (rp_Request r) (rp_Results r) (rp_RevealKeys r) (rp_Root r)
    (rp_Siblings r) (rp_Size r) (rp_State r) (rp_Timestamp r) (rp_Type r) (rp_URI r) (rp_ValidProof r).
Definition set_rp_Content v (r : MetaResponse) : MetaResponse :=
  mkMetaResponse (rp_APIList r) (rp_BlockTime r) (rp_BlockTimestamp r) (rp_CensusID r) (rp_CensusList r)
    (rp_ClaimsData r) (rp_CommitmentKeys r) v (rp_EncryptionPrivKeys r) (rp_EncryptionPublicKeys r) (rp_EntityID
    r) (rp_EntityIDs r) (rp_Files r) (rp_Finished r) (rp_Health r) (rp_Height r) (rp_InvalidClaims r)
    (rp_Message r) (rp_Nullifier r) (rp_Nullifiers r) (rp_Ok r) (rp_Paused r) (rp_Payload r) (rp_ProcessIDs r)
    (rp_ProcessList r) (rp_Registered r) (rp_Request r) (rp_Results r) (rp_RevealKeys r) (rp_Root r)
    (rp_Siblings r) (rp_Size r) (rp_State r) (rp_Timestamp r) (rp_Type r) (rp_URI r) (rp_ValidProof r).
Definition set_rp_EncryptionPrivKeys v (r : MetaResponse) : MetaResponse :=
  mkMetaResponse (rp_APIList r) (rp_BlockTime r) (rp_BlockTimestamp r) (rp_CensusID r) (rp_CensusList r)
    (rp_ClaimsData r) (rp_CommitmentKeys r) (rp_Content r) v (rp_EncryptionPublicKeys r) (rp_EntityID r)
    (rp_EntityIDs r) (rp_Files r) (rp_Finished r) (rp_Health r) (rp_Height r) (rp_InvalidClaims r) (rp_Message
    r) (rp_Nullifier r) (rp_Nullifiers r) (rp_Ok r) (rp_Paused r) (rp_Payload r) (rp_ProcessIDs r)
    (rp_ProcessList r) (rp_Registered r) (rp_Request r) (rp_Results r) (rp_RevealKeys r) (rp_Root r)
    (rp_Siblings r) (rp_Size r) (rp_State r) (rp_Timestamp r) (rp_Type r) (rp_URI r) (rp_ValidProof r).
Definition set_rp_EncryptionPublicKeys v (r : MetaResponse) : MetaResponse :=
  mkMetaResponse (rp_APIList r) (rp_BlockTime r) (rp_BlockTimestamp r) (rp_CensusID r) (rp_CensusList r)
    (rp_ClaimsData r) (rp_CommitmentKeys r) (rp_Content r) (rp_EncryptionPrivKeys r) v (rp_EntityID r)
    (rp_EntityIDs r) (rp_Files r) (rp_Finished r) (rp_Health r) (rp_Height r) (rp_InvalidClaims r) (rp_Message
    r) (rp_Nullifier r) (rp_Nullifiers r) (rp_Ok r) (rp_Paused r) (rp_Payload r) (rp_ProcessIDs r)
    (rp_ProcessList r) (rp_Registered r) (rp_Request r) (rp_Results r) (rp_RevealKeys r) (rp_Root r)
    (rp_Siblings r) (rp_Size r) (rp_State r) (rp_Timestamp r) (rp_Type r) (rp_URI r) (rp_ValidProof r).
Definition set_rp_EntityIDs v (r : MetaResponse) : MetaResponse :=
  mkMetaResponse (rp_APIList r) (rp_BlockTime r) (rp_BlockTimestamp r) (rp_CensusID r) (rp_CensusList r)
    (rp_ClaimsData r) (rp_CommitmentKeys r) (rp_Content r) (rp_EncryptionPrivKeys r) (rp_EncryptionPublicKeys r)
    (rp_EntityID r) v (rp_Files r) (rp_Finished r) (rp_Health r) (rp_Height r) (rp_InvalidClaims r) (rp_Message
    r) (rp_Nullifier r) (rp_Nullifiers r) (rp_Ok r) (rp_Paused r) (rp_Payload r) (rp_ProcessIDs r)
    (rp_ProcessList r) (rp_Registered r) (rp_Request r) (rp_Results r) (rp_RevealKeys r) (rp_Root r)
    (rp_Siblings r) (rp_Size r) (rp_State r) (rp_Timestamp r) (rp_Type r) (rp_URI r) (rp_ValidProof r).
Definition set_rp_Files v (r : MetaResponse) : MetaResponse :=
  mkMetaResponse (rp_APIList r) (rp_BlockTime r) (rp_BlockTimestamp r) (rp_CensusID r) (rp_CensusList r)
    (rp_ClaimsData r) (rp_CommitmentKeys r) (rp_Content r) (rp_EncryptionPrivKeys r) (rp_EncryptionPublicKeys r)
    (rp_EntityID r) (rp_EntityIDs r) v (rp_Finished r) (rp_Health r) (rp_Height r) (rp_InvalidClaims r)
    (rp_Message r) (rp_Nullifier r) (rp_Nullifiers r) (rp_Ok r) (rp_Paused r) (rp_Payload r) (rp_ProcessIDs r)
    (rp_ProcessList r) (rp_Registered r) (rp_Request r) (rp_Results r) (rp_RevealKeys r) (rp_Root r)
    (rp_Siblings r) (rp_Size r) (rp_State r) (rp_Timestamp r) (rp_Type r) (rp_URI r) (rp_ValidProof r).
Definition set_rp_Health v (r : MetaResponse) : MetaResponse :=
  mkMetaResponse (rp_APIList r) (rp_BlockTime r) (rp_BlockTimestamp r) (rp_CensusID r) (rp_CensusList r)
    (rp_ClaimsData r) (rp_CommitmentKeys r) (rp_Content r) (rp_EncryptionPrivKeys r) (rp_EncryptionPublicKeys r)
    (rp_EntityID r) (rp_EntityIDs r) (rp_Files r) (rp_Finished r) v (rp_Height r) (rp_InvalidClaims r)
    (rp_Message r) (rp_Nullifier r) (rp_Nullifiers r) (rp_Ok r) (rp_Paused r) (rp_Payload r) (rp_ProcessIDs r)
    (rp_ProcessList r) (rp_Registered r) (rp_Request r) (rp_Results r) (rp_RevealKeys r) (rp_Root r)
    (rp_Siblings r) (rp_Size r) (rp_State r) (rp_Timestamp r) (rp_Type r) (rp_URI r) (rp_ValidProof r).
Definition set_rp_Height v (r : MetaResponse) : MetaResponse :=
  mkMetaResponse (rp_APIList r) (rp_BlockTime r) (rp_BlockTimestamp r) (rp_CensusID r) (rp_CensusList r)
    (rp_ClaimsData r) (rp_CommitmentKeys r) (rp_Content r) (rp_EncryptionPrivKeys r) (rp_EncryptionPublicKeys r)
    (rp_EntityID r) (rp_EntityIDs r) (rp_Files r) (rp_Finished r) (rp_Health r) v (rp_InvalidClaims r)
    (rp_Message r) (rp_Nullifier r) (rp_Nullifiers r) (rp_Ok r) (rp_Paused r) (rp_Payload r) (rp_ProcessIDs r)
    (rp_ProcessList r) (rp_Registered r) (rp_Request r) (rp_Results r) (rp_RevealKeys r) (rp_Root r)
    (rp_Siblings r) (rp_Size r) (rp_State r) (rp_Timestamp r) (rp_Type r) (rp_URI r) (rp_ValidProof r).
Definition set_rp_InvalidClaims v (r : MetaResponse) : MetaResponse :=
  mkMetaResponse (rp_APIList r) (rp_BlockTime r) (rp_BlockTimestamp r) (rp_CensusID r) (rp_CensusList r)
    (rp_ClaimsData r) (rp_CommitmentKeys r) (rp_Content r) (rp_EncryptionPrivKeys r) (rp_EncryptionPublicKeys r)
    (rp_EntityID r) (rp_EntityIDs r) (rp_Files r) (rp_Finished r) (rp_Health r) (rp_Height r) v (rp_Message r)
    (rp_Nullifier r) (rp_Nullifiers r) (rp_Ok r) (rp_Paused r) (rp_Payload r) (rp_ProcessIDs r) (rp_ProcessList
    r) (rp_Registered r) (rp_Request r) (rp_Results r) (rp_RevealKeys r) (rp_Root r) (rp_Siblings r) (rp_Size r)
    (rp_State r) (rp_Timestamp r) (rp_Type r) (rp_URI r) (rp_ValidProof r).
Definition set_rp_Message v (r : MetaResponse) : MetaResponse :=
  mkMetaResponse (rp_APIList r) (rp_BlockTime r) (rp_BlockTimestamp r) (rp_CensusID r) (rp_CensusList r)
    (rp_ClaimsData r) (rp_CommitmentKeys r) (rp_Content r) (rp_EncryptionPrivKeys r) (rp_EncryptionPublicKeys r)
    (rp_EntityID r) (rp_EntityIDs r) (rp_Files r) (rp_Finished r) (rp_Health r) (rp_Height r) (rp_InvalidClaims
    r) v (rp_Nullifier r) (rp_Nullifiers r) (rp_Ok r) (rp_Paused r) (rp_Payload r) (rp_ProcessIDs r)
    (rp_ProcessList r) (rp_Registered r) (rp_Request r) (rp_Results r) (rp_RevealKeys r) (rp_Root r)
    (rp_Siblings r) (rp_Size r) (rp_State r) (rp_Timestamp r) (rp_Type r) (rp_URI r) (rp_ValidProof r).
Definition set_rp_Nullifier v (r : MetaResponse) : MetaResponse :=
  mkMetaResponse (rp_APIList r) (rp_BlockTime r) (rp_BlockTimestamp r) (rp_CensusID r) (rp_CensusList r)
    (rp_ClaimsData r) (rp_CommitmentKeys r) (rp_Content r) (rp_EncryptionPrivKeys r) (rp_EncryptionPublicKeys r)
    (rp_EntityID r) (rp_EntityIDs r) (rp_Files r) (rp_Finished r) (rp_Health r) (rp_Height r) (rp_InvalidClaims
    r) (rp_Message r) v (rp_Nullifiers r) (rp_Ok r) (rp_Paused r) (rp_Payload r) (rp_ProcessIDs r)
    (rp_ProcessList r) (rp_Registered r) (rp_Request r) (rp_Results r) (rp_RevealKeys r) (rp_Root r)
    (rp_Siblings r) (rp_Size r) (rp_State r) (rp_Timestamp r) (rp_Type r) (rp_URI r) (rp_ValidProof r).
Definition set_rp_Nullifiers v (r : MetaResponse) : MetaResponse :=
  mkMetaResponse (rp_APIList r) (rp_BlockTime r) (rp_BlockTimestamp r) (rp_CensusID r) (rp_CensusList r)
    (rp_ClaimsData r) (rp_CommitmentKeys r) (rp_Content r) (rp_EncryptionPrivKeys r) (rp_EncryptionPublicKeys r)
    (rp_EntityID r) (rp_EntityIDs r) (rp_Files r) (rp_Finished r) (rp_Health r) (rp_Height r) (rp_InvalidClaims
    r) (rp_Message r) (rp_Nullifier r) v (rp_Ok r) (rp_Paused r) (rp_Payload r) (rp_ProcessIDs r)
    (rp_ProcessList r) (rp_Registered r) (rp_Request r) (rp_Results r) (rp_RevealKeys r) (rp_Root r)
    (rp_Siblings r) (rp_Size r) (rp_State r) (rp_Timestamp r) (rp_Type r) (rp_URI r) (rp_ValidProof r).
Definition set_rp_Ok v (r : MetaResponse) : MetaResponse :=
  mkMetaResponse (rp_APIList r) (rp_BlockTime r) (rp_BlockTimestamp r) (rp_CensusID r) (rp_CensusList r)
    (rp_ClaimsData r) (rp_CommitmentKeys r) (rp_Content r) (rp_EncryptionPrivKeys r) (rp_EncryptionPublicKeys r)
    (rp_EntityID r) (rp_EntityIDs r) (rp_Files r) (rp_Finished r) (rp_Health r) (rp_Height r) (rp_InvalidClaims
    r) (rp_Message r) (rp_Nullifier r) (rp_Nullifiers r) v (rp_Paused r) (rp_Payload r) (rp_ProcessIDs r)
    (rp_ProcessList r) (rp_Registered r) (rp_Request r) (rp_Results r) (rp_RevealKeys r) (rp_Root r)
    (rp_Siblings r) (rp_Size r) (rp_State r) (rp_Timestamp r) (rp_Type r) (rp_URI r) (rp_ValidProof r).
Definition set_rp_Payload v (r : MetaResponse) : MetaResponse :=
  mkMetaResponse (rp_APIList r) (rp_BlockTime r) (rp_BlockTimestamp r) (rp_CensusID r) (rp_CensusList r)
    (rp_ClaimsData r) (rp_CommitmentKeys r) (rp_Content r) (rp_EncryptionPrivKeys r) (rp_EncryptionPublicKeys r)
    (rp_EntityID r) (rp_EntityIDs r) (rp_Files r) (rp_Finished r) (rp_Health r) (rp_Height r) (rp_InvalidClaims
    r) (rp_Message r) (rp_Nullifier r) (rp_Nullifiers r) (rp_Ok r) (rp_Paused r) v (rp_ProcessIDs r)
    (rp_ProcessList r) (rp_Registered r) (rp_Request r) (rp_Results r) (rp_RevealKeys r) (rp_Root r)
    (rp_Siblings r) (rp_Size r) (rp_State r) (rp_Timestamp r) (rp_Type r) (rp_URI r) (rp_ValidProof r).
Definition set_rp_ProcessIDs v (r : MetaResponse) : MetaResponse :=
  mkMetaResponse (rp_APIList r) (rp_BlockTime r) (rp_BlockTimestamp r) (rp_CensusID r) (rp_CensusList r)
    (rp_ClaimsData r) (rp_CommitmentKeys r) (rp_Content r) (rp_EncryptionPrivKeys r) (rp_EncryptionPublicKeys r)
    (rp_EntityID r) (rp_EntityIDs r) (rp_Files r) (rp_Finished r) (rp_Health r) (rp_Height r) (rp_InvalidClaims
    r) (rp_Message r) (rp_Nullifier r) (rp_Nullifiers r) (rp_Ok r) (rp_Paused r) (rp_Payload r) v
    (rp_ProcessList r) (rp_Registered r) (rp_Request r) (rp_Results r) (rp_RevealKeys r) (rp_Root r)
    (rp_Siblings r) (rp_Size r) (rp_State r) (rp_Timestamp r) (rp_Type r) (rp_URI r) (rp_ValidProof r).
Definition set_rp_ProcessList v (r : MetaResponse) : MetaResponse :=
  mkMetaResponse (rp_APIList r) (rp_BlockTime r) (rp_BlockTimestamp r) (rp_CensusID r) (rp_CensusList r)
    (rp_ClaimsData r) (rp_CommitmentKeys r) (rp_Content r) (rp_EncryptionPrivKeys r) (rp_EncryptionPublicKeys r)
    (rp_EntityID r) (rp_EntityIDs r) (rp_Files r) (rp_Finished r) (rp_Health r) (rp_Height r) (rp_InvalidClaims
    r) (rp_Message r) (rp_Nullifier r) (rp_Nullifiers r) (rp_Ok r) (rp_Paused r) (rp_Payload r) (rp_ProcessIDs
    r) v (rp_Registered r) (rp_Request r) (rp_Results r) (rp_RevealKeys r) (rp_Root r) (rp_Siblings r) (rp_Size
    r) (rp_State r) (rp_Timestamp r) (rp_Type r) (rp_URI r) (rp_ValidProof r).
Definition set_rp_Registered v (r : MetaResponse) : MetaResponse :=
  mkMetaResponse (rp_APIList r) (rp_BlockTime r) (rp_BlockTimestamp r) (rp_CensusID r) (rp_CensusList r)
    (rp_ClaimsData r) (rp_CommitmentKeys r) (rp_Content r) (rp_EncryptionPrivKeys r) (rp_EncryptionPublicKeys r)
    (rp_EntityID r) (rp_EntityIDs r) (rp_Files r) (rp_Finished r) (rp_Health r) (rp_Height r) (rp_InvalidClaims
    r) (rp_Message r) (rp_Nullifier r) (rp_Nullifiers r) (rp_Ok r) (rp_Paused r) (rp_Payload r) (rp_ProcessIDs
    r) (rp_ProcessList r) v (rp_Request r) (rp_Results r) (rp_RevealKeys r) (rp_Root r) (rp_Siblings r) (rp_Size
    r) (rp_State r) (rp_Timestamp r) (rp_Type r) (rp_URI r) (rp_ValidProof r).
Definition set_rp_Request v (r : MetaResponse) : MetaResponse :=
  mkMetaResponse (rp_APIList r) (rp_BlockTime r) (rp_BlockTimestamp r) (rp_CensusID r) (rp_CensusList r)
    (rp_ClaimsData r) (rp_CommitmentKeys r) (rp_Content r) (rp_EncryptionPrivKeys r) (rp_EncryptionPublicKeys r)
    (rp_EntityID r) (rp_EntityIDs r) (rp_Files r) (rp_Finished r) (rp_Health r) (rp_Height r) (rp_InvalidClaims
    r) (rp_Message r) (rp_Nullifier r) (rp_Nullifiers r) (rp_Ok r) (rp_Paused r) (rp_Payload r) (rp_ProcessIDs
    r) (rp_ProcessList r) (rp_Registered r) v (rp_Results r) (rp_RevealKeys r) (rp_Root r) (rp_Siblings r)
    (rp_Size r) (rp_State r) (rp_Timestamp r) (rp_Type r) (rp_URI r) (rp_ValidProof r).
Definition set_rp_Results v (r : MetaResponse) : MetaResponse :=
  mkMetaResponse (rp_APIList r) (rp_BlockTime r) (rp_BlockTimestamp r) (rp_CensusID r) (rp_CensusList r)
    (rp_ClaimsData r) (rp_CommitmentKeys r) (rp_Content r) (rp_EncryptionPrivKeys r) (rp_EncryptionPublicKeys r)
    (rp_EntityID r) (rp_EntityIDs r) (rp_Files r) (rp_Finished r) (rp_Health r) (rp_Height r) (rp_InvalidClaims
    r) (rp_Message r) (rp_Nullifier r) (rp_Nullifiers r) (rp_Ok r) (rp_Paused r) (rp_Payload r) (rp_ProcessIDs
    r) (rp_ProcessList r) (rp_Registered r) (rp_Request r) v (rp_RevealKeys r) (rp_Root r) (rp_Siblings r)
    (rp_Size r) (rp_State r) (rp_Timestamp r) (rp_Type r) (rp_URI r) (rp_ValidProof r).
Definition set_rp_RevealKeys v (r : MetaResponse) : MetaResponse :=
  mkMetaResponse (rp_APIList r) (rp_BlockTime r) (rp_BlockTimestamp r) (rp_CensusID r) (rp_CensusList r)
    (rp_ClaimsData r) (rp_CommitmentKeys r) (rp_Content r) (rp_EncryptionPrivKeys r) (rp_EncryptionPublicKeys r)
    (rp_EntityID r) (rp_EntityIDs r) (rp_Files r) (rp_Finished r) (rp_Health r) (rp_Height r) (rp_InvalidClaims
    r) (rp_Message r) (rp_Nullifier r) (rp_Nullifiers r) (rp_Ok r) (rp_Paused r) (rp_Payload r) (rp_ProcessIDs
    r) (rp_ProcessList r) (rp_Registered r) (rp_Request r) (rp_Results r) v (rp_Root r) (rp_Siblings r) (rp_Size
    r) (rp_State r) (rp_Timestamp r) (rp_Type r) (rp_URI r) (rp_ValidProof r).
Definition set_rp_Root v (r : MetaResponse) : MetaResponse :=
  mkMetaResponse (rp_APIList r) (rp_BlockTime r) (rp_BlockTimestamp r) (rp_CensusID r) (rp_CensusList r)
    (rp_ClaimsData r) (rp_CommitmentKeys r) (rp_Content r) (rp_EncryptionPrivKeys r) (rp_EncryptionPublicKeys r)
    (rp_EntityID r) (rp_EntityIDs r) (rp_Files r) (rp_Finished r) (rp_Health r) (rp_Height r) (rp_InvalidClaims
    r) (rp_Message r) (rp_Nullifier r) (rp_Nullifiers r) (rp_Ok r) (rp_Paused r) (rp_Payload r) (rp_ProcessIDs
    r) (rp_ProcessList r) (rp_Registered r) (rp_Request r) (rp_Results r) (rp_RevealKeys r) v (rp_Siblings r)
    (rp_Size r) (rp_State r) (rp_Timestamp r) (rp_Type r) (rp_URI r) (rp_ValidProof r).
Definition set_rp_Siblings v (r : MetaResponse) : MetaResponse :=
  mkMetaResponse (rp_APIList r) (rp_BlockTime r) (rp_BlockTimestamp r) (rp_CensusID r) (rp_CensusList r)
    (rp_ClaimsData r) (rp_CommitmentKeys r) (rp_Content r) (rp_EncryptionPrivKeys r) (rp_EncryptionPublicKeys r)
    (rp_EntityID r) (rp_EntityIDs r) (rp_Files r) (rp_Finished r) (rp_Health r) (rp_Height r) (rp_InvalidClaims
    r) (rp_Message r) (rp_Nullifier r) (rp_Nullifiers r) (rp_Ok r) (rp_Paused r) (rp_Payload r) (rp_ProcessIDs
    r) (rp_ProcessList r) (rp_Registered r) (rp_Request r) (rp_Results r) (rp_RevealKeys r) (rp_Root r) v
    (rp_Size r) (rp_State r) (rp_Timestamp r) (rp_Type r) (rp_URI r) (rp_ValidProof r).
Definition set_rp_Size v (r : MetaResponse) : MetaResponse :=
  mkMetaResponse (rp_APIList r) (rp_BlockTime r) (rp_BlockTimestamp r) (rp_CensusID r) (rp_CensusList r)
    (rp_ClaimsData r) (rp_CommitmentKeys r) (rp_Content r) (rp_EncryptionPrivKeys r) (rp_EncryptionPublicKeys r)
    (rp_EntityID r) (rp_EntityIDs r) (rp_Files r) (rp_Finished r) (rp_Health r) (rp_Height r) (rp_InvalidClaims
    r) (rp_Message r) (rp_Nullifier r) (rp_Nullifiers r) (rp_Ok r) (rp_Paused r) (rp_Payload r) (rp_ProcessIDs
    r) (rp_ProcessList r) (rp_Registered r) (rp_Request r) (rp_Results r) (rp_RevealKeys r) (rp_Root r)
    (rp_Siblings r) v (rp_State r) (rp_Timestamp r) (rp_Type r) (rp_URI r) (rp_ValidProof r).
Definition set_rp_State v (r : MetaResponse) : MetaResponse :=
  mkMetaResponse (rp_APIList r) (rp_BlockTime r) (rp_BlockTimestamp r) (rp_CensusID r) (rp_CensusList r)
    (rp_ClaimsData r) (rp_CommitmentKeys r) (rp_Content r) (rp_EncryptionPrivKeys r) (rp_EncryptionPublicKeys r)
    (rp_EntityID r) (rp_EntityIDs r) (rp_Files r) (rp_Finished r) (rp_Health r) (rp_Height r) (rp_InvalidClaims
    r) (rp_Message r) (rp_Nullifier r) (rp_Nullifiers r) (rp_Ok r) (rp_Paused r) (rp_Payload r) (rp_ProcessIDs
    r) (rp_ProcessList r) (rp_Registered r) (rp_Request r) (rp_Results r) (rp_RevealKeys r) (rp_Root r)
    (rp_Siblings r) (rp_Size r) v (rp_Timestamp r) (rp_Type r) (rp_URI r) (rp_ValidProof r).
Definition set_rp_Timestamp v (r : MetaResponse) : MetaResponse :=
  mkMetaResponse (rp_APIList r) (rp_BlockTime r) (rp_BlockTimestamp r) (rp_CensusID r) (rp_CensusList r)
    (rp_ClaimsData r) (rp_CommitmentKeys r) (rp_Content r) (rp_EncryptionPrivKeys r) (rp_EncryptionPublicKeys r)
    (rp_EntityID r) (rp_EntityIDs r) (rp_Files r) (rp_Finished r) (rp_Health r) (rp_Height r) (rp_InvalidClaims
    r) (rp_Message r) (rp_Nullifier r) (rp_Nullifiers r) (rp_Ok r) (rp_Paused r) (rp_Payload r) (rp_ProcessIDs
    r) (rp_ProcessList r) (rp_Registered r) (rp_Request r) (rp_Results r) (rp_RevealKeys r) (rp_Root r)
    (rp_Siblings r) (rp_Size r) (rp_State r) v (rp_Type r) (rp_URI r) (rp_ValidProof r).
Definition set_rp_Type v (r : MetaResponse) : MetaResponse :=
  mkMetaResponse (rp_APIList r) (rp_BlockTime r) (rp_BlockTimestamp r) (rp_CensusID r) (rp_CensusList r)
    (rp_ClaimsData r) (rp_CommitmentKeys r) (rp_Content r) (rp_EncryptionPrivKeys r) (rp_EncryptionPublicKeys r)
    (rp_EntityID r) (rp_EntityIDs r) (rp_Files r) (rp_Finished r) (rp_Health r) (rp_Height r) (rp_InvalidClaims
    r) (rp_Message r) (rp_Nullifier r) (rp_Nullifiers r) (rp_Ok r) (rp_Paused r) (rp_Payload r) (rp_ProcessIDs
    r) (rp_ProcessList r) (rp_Registered r) (rp_Request r) (rp_Results r) (rp_RevealKeys r) (rp_Root r)
    (rp_Siblings r) (rp_Size r) (rp_State r) (rp_Timestamp r) v (rp_URI r) (rp_ValidProof r).
Definition set_rp_URI v (r : MetaResponse) : MetaResponse :=
  mkMetaResponse (rp_APIList r) (rp_BlockTime r) (rp_BlockTimestamp r) (rp_CensusID r) (rp_CensusList r)
    (rp_ClaimsData r) (rp_CommitmentKeys r) (rp_Content r) (rp_EncryptionPrivKeys r) (rp_EncryptionPublicKeys r)
    (rp_EntityID r) (rp_EntityIDs r) (rp_Files r) (rp_Finished r) (rp_Health r) (rp_Height r) (rp_InvalidClaims
    r) (rp_Message r) (rp_Nullifier r) (rp_Nullifiers r) (rp_Ok r) (rp_Paused r) (rp_Payload r) (rp_ProcessIDs
    r) (rp_ProcessList r) (rp_Registered r) (rp_Request r) (rp_Results r) (rp_RevealKeys r) (rp_Root r)
    (rp_Siblings r) (rp_Size r) (rp_State r) (rp_Timestamp r) (rp_Type r) v (rp_ValidProof r).
Definition set_rp_ValidProof v (r : MetaResponse) : MetaResponse :=
  mkMetaResponse (rp_APIList r) (rp_BlockTime r) (rp_BlockTimestamp r) (rp_CensusID r) (rp_CensusList r)
    (rp_ClaimsData r) (rp_CommitmentKeys r) (rp_Content r) (rp_EncryptionPrivKeys r) (rp_EncryptionPublicKeys r)
    (rp_EntityID r) (rp_EntityIDs r) (rp_Files r) (rp_Finished r) (rp_Health r) (rp_Height r) (rp_InvalidClaims
    r) (rp_Message r) (rp_Nullifier r) (rp_Nullifiers r) (rp_Ok r) (rp_Paused r) (rp_Payload r) (rp_ProcessIDs
    r) (rp_ProcessList r) (rp_Registered r) (rp_Request r) (rp_Results r) (rp_RevealKeys r) (rp_Root r)
    (rp_Siblings r) (rp_Size r) (rp_State r) (rp_Timestamp r) (rp_Type r) (rp_URI r) v.
