(* ===== verification/Graviton.v ===== *)
(** * The graviton state database: [statedb/gravitonstate/graviton.go]

    The merkle tree the censuses live in.  deroproject/graviton is not part of
    the repository: [Graviton] lists the functions the code calls on a store
    and its trees, [GravitonLaws] the documented facts about them.  A store
    keeps every committed version of its named trees; a tree handle holds
    uncommitted changes.  Loading the latest snapshot never fails here. *)

From stdpp Require Import base gmap strings list fin_maps sorting.
From Stdlib Require Import ZArith Lia.
From S2P Require Import Prelude GoLib StateDB Crypto IavlState.
Open Scope Z_scope.

Definition u64 (z : Z) : Z := z mod 2^64.

Class Graviton `{CryptoLib} := {
  gstore : Type;
  gtree : Type;
  g_NewMemStore : gstore;
  (** On the latest snapshot of a store. *)
  g_GetTree : gstore → string → option gtree;
  g_GetTreeWithVersion : gstore → string → Z → option gtree;
  g_GetTreeHighestVersion : gstore → string → option Z;
  g_GetTreeWithRootHash : gstore → bytes → option gtree;
  (** On a tree. *)
  g_Get : gtree → bytes → option bytes;
  g_Put : gtree → bytes → bytes → option gtree;
  g_Commit : gtree → gstore → option (gtree * gstore);
  g_Discard : gtree → option gtree;
  g_Hash : gtree → option bytes;
  g_GetVersion : gtree → Z;
  g_GetParentVersion : gtree → Z;
  (** The entries in the order of a cursor. *)
  g_items : gtree → list (bytes * bytes);
  g_GenerateProof : gtree → bytes → option graviton_proof;
  g_Marshal : graviton_proof → bytes }.

(** A tree reads back what was put into it, committing keeps it; its root hash
    is determined by its content; the proof it makes for a key it holds is
    verified against its root. *)
Class GravitonLaws `{Graviton} := {
  law_g_Put t k v t' k' : g_Put t k v = Some t' → g_Get t' k' = if decide (k' = k) then Some v else g_Get t k';
  law_g_Commit t st t' st' k : g_Commit t st = Some (t', st') → g_Get t' k = g_Get t k;
  law_g_Hash t : ∃ h, g_Hash t = Some h ∧ length h = 32%nat;
  law_g_Hash_ext t t' : (∀ k, g_Get t k = g_Get t' k) → g_Hash t = g_Hash t';
  law_g_items t k v : (k, v) ∈ g_items t ↔ g_Get t k = Some v;
  law_g_proof t k v : g_Get t k = Some v →
    ∃ p, g_GenerateProof t k = Some p ∧ ∀ h, g_Hash t = Some h → graviton_VerifyMembership p h k = true;
  law_g_Marshal p : graviton_Unmarshal (g_Marshal p) = Some p }.

Section graviton.
Context `{Graviton}.

Record GravitonTree := mkGravitonTree {
  gt_tree : gtree;
  gt_version : Z;
  gt_size : Z }.
Record VersionTree := mkVersionTree {
  vt_Name : string;
  vt_tree : gtree }.
Record GravitonState := mkGravitonState {
  gs_store : gstore;
  gs_hash : bytes;
  gs_trees : gmap string GravitonTree;
  gs_imTrees : gmap string GravitonTree;
  gs_lastCommitVersion : Z;
  gs_vTree : VersionTree }.

Definition set_gs_store st (g : GravitonState) : GravitonState :=
  mkGravitonState st (gs_hash g) (gs_trees g) (gs_imTrees g) (gs_lastCommitVersion g) (gs_vTree g).
Definition set_gs_hash h (g : GravitonState) : GravitonState :=
  mkGravitonState (gs_store g) h (gs_trees g) (gs_imTrees g) (gs_lastCommitVersion g) (gs_vTree g).
Definition set_gs_trees ts (g : GravitonState) : GravitonState :=
  mkGravitonState (gs_store g) (gs_hash g) ts (gs_imTrees g) (gs_lastCommitVersion g) (gs_vTree g).
Definition set_gs_imTrees ts (g : GravitonState) : GravitonState :=
  mkGravitonState (gs_store g) (gs_hash g) (gs_trees g) ts (gs_lastCommitVersion g) (gs_vTree g).
Definition set_gs_last v (g : GravitonState) : GravitonState :=
  mkGravitonState (gs_store g) (gs_hash g) (gs_trees g) (gs_imTrees g) v (gs_vTree g).
Definition set_gs_vTree v (g : GravitonState) : GravitonState :=
  mkGravitonState (gs_store g) (gs_hash g) (gs_trees g) (gs_imTrees g) (gs_lastCommitVersion g) v.
Abbreviation GMS := (GM GravitonState).

(** ** The tree of versions *)
Definition VersionTree_Init (st : gstore) : res VersionTree :=
  t ← of_option "cannot get tree" (g_GetTree st "versions"); Ok (mkVersionTree "versions" t).
Definition VersionTree_Version (v : VersionTree) : Z := g_GetVersion (vt_tree v).
Definition VersionTree_LoadVersion (st : gstore) (version : Z) (v : VersionTree) : res VersionTree :=
  let version := if decide (version = -1) then g_GetParentVersion (vt_tree v) else version in
  match g_GetTreeWithVersion st (vt_Name v) (u64 version) with
  | Some t => Ok (mkVersionTree (vt_Name v) t)
  | None => t ← of_option "cannot get tree" (g_GetTree st (vt_Name v)); Ok (mkVersionTree (vt_Name v) t)
  end.
Definition VersionTree_Add (name : string) (version : Z) (v : VersionTree) : res VersionTree :=
  t ← of_option "cannot put" (g_Put (vt_tree v) (s2b name) (s2b (format_uint version)));
  Ok (mkVersionTree (vt_Name v) t).
(** A missing entry is version 0. *)
Definition VersionTree_Get (name : string) (v : VersionTree) : res Z :=
  match g_Get (vt_tree v) (s2b name) with Some vb => parse_uint (b2s vb) | None => Ok 0 end.

(** ** The state *)

(** [open] is what [NewDiskStore] finds at the path. *)
Definition GravitonState_Init (storageType : string) (open : res gstore) : res GravitonState :=
  st ← (if bool_decide (storageType = "disk") || bool_decide (storageType = "") then open
        else if decide (storageType = "mem") then Ok g_NewMemStore
        else Err "storageType not supported");
  v ← VersionTree_Init st;
  Ok (mkGravitonState st [] ∅ ∅ 0 v).

Definition gs_Version (g : GravitonState) : Z := gs_lastCommitVersion g.

Definition immutable_one (k : string) : GMS () :=
  updates (λ g,
    match gs_trees g !! k with
    | Some t0 =>
        t ← of_option "cannot get tree version" (g_GetTreeWithVersion (gs_store g) k (g_GetVersion (gt_tree t0)));
        Ok (set_gs_imTrees (<[k := mkGravitonTree t (gs_lastCommitVersion g) 0]> (gs_imTrees g)) g)
    | None => Ok g
    end).
(** Go ranges over the map of trees in an order it leaves open. *)
Definition updateImmutable : GMS () :=
  g ← get_st; for_each (map_to_list (gs_trees g)).*1 immutable_one.

Definition load_one (v : Z) (k : string) : GMS () :=
  updates (λ g,
    vt ← (if decide (v ≠ 0) then VersionTree_Get k (gs_vTree g)
          else Ok (default 0 (g_GetTreeHighestVersion (gs_store g) k)));
    t2 ← of_option "cannot get tree version" (g_GetTreeWithVersion (gs_store g) k vt);
    match gs_trees g !! k with
    | Some t0 =>
        Ok (set_gs_trees (<[k := mkGravitonTree t2 (VersionTree_Version (gs_vTree g)) (gt_size t0)]> (gs_trees g)) g)
    | None => Ok g
    end).
Definition gs_LoadVersion (v : Z) : GMS () :=
  _ ← updates (λ g, vt ← VersionTree_LoadVersion (gs_store g) v (gs_vTree g); Ok (set_gs_vTree vt g));
  g ← get_st;
  _ ← for_each (map_to_list (gs_trees g)).*1 (load_one v);
  _ ← modify (λ g, set_gs_last (VersionTree_Version (gs_vTree g)) g);
  updateImmutable.

Definition gs_AddTree (name : string) : GMS () :=
  _ ← updates (λ g,
        t ← of_option "cannot get tree" (g_GetTree (gs_store g) name);
        Ok (set_gs_trees (<[name := mkGravitonTree t 0 0]> (gs_trees g)) g));
  updateImmutable.

Definition gs_Tree (name : string) (g : GravitonState) : option GravitonTree := gs_trees g !! name.
Definition gs_ImmutableTree (name : string) (g : GravitonState) : option GravitonTree := gs_imTrees g !! name.
Definition TreeWithRoot (root : bytes) (g : GravitonState) : option GravitonTree :=
  t ← g_GetTreeWithRootHash (gs_store g) root; Some (mkGravitonTree t (gs_Version g) 0).

(** Keys in the order of [sort.Strings]; nil if a tree has no hash. *)
Definition gs_getHash (g : GravitonState) : bytes :=
  match mapM (λ k, t ← gs_trees g !! k; g_Hash (gt_tree t)) (merge_sort string_le (map_to_list (gs_trees g)).*1) with
  | Some hs => ethereum.HashRaw (concat hs)
  | None => []
  end.
Definition gs_Hash (g : GravitonState) : bytes := gs_getHash g.

Definition commit_one (name : string) : GMS () :=
  updates (λ g,
    match gs_trees g !! name with
    | Some t0 =>
        '(t, st) ← of_option "cannot commit" (g_Commit (gt_tree t0) (gs_store g));
        v ← VersionTree_Add name (g_GetVersion t) (gs_vTree g);
        Ok (set_gs_vTree v (set_gs_store st
              (set_gs_trees (<[name := mkGravitonTree t (gt_version t0) (gt_size t0)]> (gs_trees g)) g)))
    | None => Ok g
    end).
Definition gs_Commit : GMS bytes :=
  g ← get_st;
  _ ← for_each (map_to_list (gs_trees g)).*1 commit_one;
  _ ← updates (λ g,
        '(t, st) ← of_option "cannot commit" (g_Commit (vt_tree (gs_vTree g)) (gs_store g));
        Ok (set_gs_store st (set_gs_vTree (mkVersionTree (vt_Name (gs_vTree g)) t) g)));
  _ ← modify (λ g, set_gs_last (VersionTree_Version (gs_vTree g)) g);
  _ ← updateImmutable;
  _ ← modify (λ g, set_gs_hash (gs_getHash g) g);
  reads (λ g, Ok (gs_hash g)).

Definition discard_one (name : string) : GMS () :=
  updates (λ g,
    match gs_trees g !! name with
    | Some t0 =>
        t ← of_option "cannot discard" (g_Discard (gt_tree t0));
        Ok (set_gs_trees (<[name := mkGravitonTree t (gt_version t0) (gt_size t0)]> (gs_trees g)) g)
    | None => Ok g
    end).
Definition gs_Rollback : GMS () :=
  g ← get_st; for_each (map_to_list (gs_trees g)).*1 discard_one.

(** ** Trees *)

(** An error of the library reads as nil. *)
Definition gt_Get (key : bytes) (t : GravitonTree) : option bytes := g_Get (gt_tree t) key.
Definition gt_Add (key value : bytes) (t : GravitonTree) : res GravitonTree :=
  if decide (g_Get (gt_tree t) key = Some value) then Ok t
  else
    t' ← of_option "cannot put" (g_Put (gt_tree t) key value);
    Ok (mkGravitonTree t' (gt_version t) (u64 (gt_size t + 1))).
Definition gt_Version (t : GravitonTree) : Z := gt_version t.

(** The callback answers [true] to stop. *)
Fixpoint gt_iterate_loop {A} (items : list (bytes * bytes)) (prefix : bytes)
    (callback : bytes → bytes → A → A * bool) (a : A) : A :=
  match items with
  | [] => a
  | (k, v) :: items' =>
      if has_prefix prefix k then
        let '(a', stop) := callback k v a in
        if (stop : bool) then a' else gt_iterate_loop items' prefix callback a'
      else gt_iterate_loop items' prefix callback a
  end.
Definition gt_Iterate {A} (prefix : bytes) (callback : bytes → bytes → A → A * bool) (a : A) (t : GravitonTree) : A :=
  gt_iterate_loop (g_items (gt_tree t)) prefix callback a.

Definition gt_Hash (t : GravitonTree) : bytes := default [] (g_Hash (gt_tree t)).

Definition gt_count (t : GravitonTree) : Z := u64 (glen (g_items (gt_tree t))).
(** The counter is filled on the first call that finds it zero. *)
Definition gt_Count (t : GravitonTree) : Z * GravitonTree :=
  if decide (gt_size t = 0) then (gt_count t, mkGravitonTree (gt_tree t) (gt_version t) (gt_count t))
  else (gt_size t, t).

Definition gt_Verify (key proof : bytes) (root : option bytes) (t : GravitonTree) : res bool :=
  match graviton_Unmarshal proof with
  | None => Ok false
  | Some p =>
      match root with
      | None => match g_Hash (gt_tree t) with
                | Some r => Ok (graviton_VerifyMembership p r key)
                | None => Ok false
                end
      | Some root => r ← go_slice_to root 32; Ok (graviton_VerifyMembership p r key)
      end
  end.
Definition gt_Proof (key : bytes) (t : GravitonTree) : res (option bytes) :=
  proof ← of_option "cannot generate proof" (g_GenerateProof (gt_tree t) key);
  let proofBytes := g_Marshal proof in
  valid ← gt_Verify key proofBytes None t;
  Ok (if (valid : bool) then Some proofBytes else None).
End graviton.
