(* ===== verification/Trie.v ===== *)
(** * Census trees: [trie/trie.go]

    A tree of a census is one tree of a graviton state of its own.  The handle
    points into that state ([tr_snapshot] is [None]) or, when it comes from
    [Snapshot], at a past version of it.  [now] is the clock, in seconds. *)

From stdpp Require Import base gmap strings list fin_maps.
From Stdlib Require Import ZArith Lia.
From S2P Require Import Prelude GoLib Crypto Database Graviton.
Open Scope Z_scope.

Section trie.
Context `{Graviton}.

Record Tree := mkTree {
  tr_store : GravitonState;
  tr_snapshot : option GravitonTree;
  tr_dataDir : string;
  tr_name : string;
  tr_public : bool;
  tr_lastAccessUnix : Z }.
Abbreviation MT := (GM Tree).

Definition MaxIndexSize : Z := 128.
Definition MaxValueSize : Z := 256.

Definition set_tr_store g (t : Tree) : Tree :=
  mkTree g (tr_snapshot t) (tr_dataDir t) (tr_name t) (tr_public t) (tr_lastAccessUnix t).
Definition set_tr_snapshot s (t : Tree) : Tree :=
  mkTree (tr_store t) s (tr_dataDir t) (tr_name t) (tr_public t) (tr_lastAccessUnix t).
Definition set_tr_public b (t : Tree) : Tree :=
  mkTree (tr_store t) (tr_snapshot t) (tr_dataDir t) (tr_name t) b (tr_lastAccessUnix t).
Definition updateAccessTime (now : Z) (t : Tree) : Tree :=
  mkTree (tr_store t) (tr_snapshot t) (tr_dataDir t) (tr_name t) (tr_public t) now.

(** The state tree behind the handle. *)
Definition tr_tree (t : Tree) : res GravitonTree :=
  match tr_snapshot t with
  | Some g => Ok g
  | None => match gs_Tree (tr_name t) (tr_store t) with
            | Some g => Ok g
            | None => Panic "nil pointer dereference"
            end
  end.
Definition set_tree (g : GravitonTree) (t : Tree) : Tree :=
  match tr_snapshot t with
  | Some _ => set_tr_snapshot (Some g) t
  | None => set_tr_store (set_gs_trees (<[tr_name t := g]> (gs_trees (tr_store t))) (tr_store t)) t
  end.

(** [iname[:32]] of a longer name; the directory keeps the whole name. *)
Definition inner_name (name : string) : string :=
  if decide (32 < slen name) then String.substring 0 32 name else name.
Definition tree_dir (name storageDir : string) : string := storageDir +:+ "/" +:+ name.
(** [open] is the store found in the directory. *)
Definition NewTree (name storageDir : string) (open : res gstore) (now : Z) : res Tree :=
  let iname := inner_name name in
  gs ← GravitonState_Init "disk" open;
  gs ← (match (_ ← gs_AddTree iname; gs_LoadVersion 0) gs with
        | (Ok _, gs') => Ok gs'
        | (Err e, _) => Err e
        | (Panic w, _) => Panic w
        end);
  Ok (updateAccessTime now (mkTree gs None (tree_dir name storageDir) iname false 0)).

Definition LastAccess (t : Tree) : Z := tr_lastAccessUnix t.
Definition Publish (t : Tree) : Tree := set_tr_public true t.
Definition UnPublish (t : Tree) : Tree := set_tr_public false t.
Definition IsPublic (t : Tree) : bool := tr_public t.

(** Operations of the state the handle points to. *)
Definition on_tree (f : GravitonTree → res GravitonTree) : MT () :=
  updates (λ t, g ← tr_tree t; g' ← f g; Ok (set_tree g' t)).
Definition commit_store : MT () := λ t,
  match gs_Commit (tr_store t) with
  | (Ok _, g) => (Ok (), set_tr_store g t)
  | (Err e, g) => (Err e, set_tr_store g t)
  | (Panic w, g) => (Panic w, set_tr_store g t)
  end.

Definition AddClaim (index value : bytes) (now : Z) : MT () :=
  _ ← modify (updateAccessTime now);
  _ ← lift (guard_err (bool_decide (glen index < 4)) "claim index too small");
  _ ← lift (guard_err (bool_decide (MaxIndexSize < glen index) || bool_decide (MaxValueSize < glen value))
              "index or value claim data too big");
  _ ← on_tree (gt_Add index value);
  commit_store.

Definition GenProof (index value : bytes) (now : Z) : MT string :=
  _ ← modify (updateAccessTime now);
  proof ← reads (λ t, g ← tr_tree t; gt_Proof index g);
  mret (match proof with Some p => sprintf_x p | None => "" end).

Definition Tree_CheckProof (index value : bytes) (mpHex : string) (now : Z) : MT bool :=
  _ ← modify (updateAccessTime now);
  proof ← lift (hex_DecodeString mpHex);
  reads (λ t, g ← tr_tree t; gt_Verify index proof None g).

Definition Root (now : Z) : MT string :=
  _ ← modify (updateAccessTime now);
  reads (λ t, g ← tr_tree t; Ok (sprintf_x (gt_Hash g))).

(** [TrimHex] written out in the source; [None] is nil. *)
Definition treeWithRoot (root : string) (t : Tree) : res (option GravitonTree) :=
  if decide (root = "") then g ← tr_tree t; Ok (Some g)
  else match hex_DecodeString (TrimHex root) with
       | Ok r => Ok (TreeWithRoot r (tr_store t))
       | Err _ => Ok None
       | Panic w => Panic w
       end.
Definition found (e : error) (root : string) : MT GravitonTree :=
  reads (λ t, g ← treeWithRoot root t; of_option e g).

Definition Dump (root : string) (now : Z) : MT (list string) :=
  _ ← modify (updateAccessTime now);
  g ← found "dump: root not found" root;
  mret (gt_Iterate [] (λ k _ claims, (claims ++ [sprintf_x k], false)) [] g).

(** The counter of the current tree is filled when it is asked for without a
    root; a tree found by its root is a fresh object. *)
Definition Size (root : string) : MT Z :=
  g ← found "size: root not found" root;
  let '(n, g') := gt_Count g in
  _ ← modify (λ t, if decide (root = "") then set_tree g' t else t);
  mret (i64 n).

Definition DumpPlain (root : string) (responseBase64 : bool) (now : Z) : MT (list string * list string) :=
  _ ← modify (updateAccessTime now);
  g ← found "dumpplain: root not found" root;
  let enc := if responseBase64 then b64_EncodeToString else b2s in
  mret (gt_Iterate [] (λ k v '(indexes, values), ((indexes ++ [enc k], values ++ [enc v]), false)) ([], []) g).

Fixpoint import_loop (claims : list string) : MT () :=
  match claims with
  | [] => mret ()
  | c :: claims' =>
      cb ← lift (hex_DecodeString (TrimHex c));
      _ ← on_tree (gt_Add cb []);
      import_loop claims'
  end.
Definition ImportDump (claims : list string) (now : Z) : MT () :=
  _ ← modify (updateAccessTime now);
  _ ← import_loop claims;
  commit_store.

Definition Snapshot (root : string) (t : Tree) : res Tree :=
  g ← treeWithRoot root t;
  g ← of_option "snapshot: root not valid or not found" g;
  Ok (mkTree (tr_store t) (Some g) "" "" (tr_public t) 0).

Definition HashExist (hash : string) (now : Z) : MT bool :=
  _ ← modify (updateAccessTime now);
  reads (λ t, g ← treeWithRoot hash t; Ok (bool_decide (is_Some g))).
End trie.
