(* ===== verification/Census.v ===== *)
(** * The census manager: [census/]

    A gateway keeps one merkle tree per census.  [Manager] holds the list of
    namespaces, saved in a configuration file, the trees that are loaded and
    the queue of censuses to fetch.  [Handler] answers API requests,
    [CheckAuth] decides which of them are authorised, [importTree] takes in a
    census fetched from the remote storage.

    The remote storage, the zstd compressor and the JSON codec of the dumps
    and of the configuration file are parameters ([CensusEnv]).  [m_disk] is
    the content of the storage directory: opening a tree reads what an earlier
    tree committed there, even if its namespace has been deleted. *)

From stdpp Require Import base gmap strings list fin_maps.
From Stdlib Require Import ZArith Lia.
From S2P Require Import Prelude GoLib Types Crypto Database Graviton Trie Api.
Open Scope Z_scope.

Record Namespace := mkNamespace {
  ns_Name : string;
  ns_Keys : list string }.
Record Namespaces := mkNamespaces {
  nss_RootKey : string;
  nss_Namespaces : list Namespace }.

(** What the manager calls outside the repository. *)
Class CensusEnv := {
  URIprefix : string;
  Storage_Retrieve : string → res bytes;
  Storage_Publish : bytes → res string;
  os_IsTimeout : error → bool;
  zstd_EncodeAll : bytes → bytes;
  zstd_DecodeAll : bytes → res bytes;
  json_CensusDump : bytes → res CensusDump;
  marshal_CensusDump : CensusDump → res bytes;
  json_Namespaces : bytes → res Namespaces;
  marshal_Namespaces : Namespaces → res bytes }.

(** ** [census/compression.go] *)
Definition isZstd (src : bytes) : bool :=
  match src with
  | a :: b :: c :: d :: _ =>
      bool_decide (b2z a = 0x28) && bool_decide (b2z b = 0xB5) &&
      bool_decide (b2z c = 0x2f) && bool_decide (b2z d = 0xFD)
  | _ => false
  end.
Definition compressBytes `{CensusEnv} (src : bytes) : bytes := zstd_EncodeAll src.
Definition decompressBytes `{CensusEnv} (src : bytes) : bytes :=
  if negb (isZstd src) then src
  else match zstd_DecodeAll src with Ok dst => dst | _ => [] end.

(** ** [census/census.go] *)
Section census.
Context `{Graviton} `{CensusEnv}.

Record Manager := mkManager {
  m_StorageDir : string;
  m_AuthWindow : Z;
  m_Census : Namespaces;
  m_Trees : gmap string Tree;
  m_hasRemote : bool;
  m_importQueue : list (string * string);
  m_queueSize : Z;
  m_failedQueue : gmap string string;
  m_disk : gmap string gstore;
  m_config : option bytes }.
Abbreviation M := (GM Manager).

(** [new(Manager)]. *)
Definition new_Manager : Manager := mkManager "" 0 (mkNamespaces "" []) ∅ false [] 0 ∅ ∅ None.
Definition set_m_Census v (m : Manager) : Manager :=
  mkManager (m_StorageDir m) (m_AuthWindow m) v (m_Trees m) (m_hasRemote m) (m_importQueue m) (m_queueSize m)
    (m_failedQueue m) (m_disk m) (m_config m).
Definition set_m_Trees v (m : Manager) : Manager :=
  mkManager (m_StorageDir m) (m_AuthWindow m) (m_Census m) v (m_hasRemote m) (m_importQueue m) (m_queueSize m)
    (m_failedQueue m) (m_disk m) (m_config m).
Definition set_m_importQueue v (m : Manager) : Manager :=
  mkManager (m_StorageDir m) (m_AuthWindow m) (m_Census m) (m_Trees m) (m_hasRemote m) v (m_queueSize m)
    (m_failedQueue m) (m_disk m) (m_config m).
Definition set_m_queueSize v (m : Manager) : Manager :=
  mkManager (m_StorageDir m) (m_AuthWindow m) (m_Census m) (m_Trees m) (m_hasRemote m) (m_importQueue m) v
    (m_failedQueue m) (m_disk m) (m_config m).
Definition set_m_failedQueue v (m : Manager) : Manager :=
  mkManager (m_StorageDir m) (m_AuthWindow m) (m_Census m) (m_Trees m) (m_hasRemote m) (m_importQueue m)
    (m_queueSize m) v (m_disk m) (m_config m).
Definition set_m_disk v (m : Manager) : Manager :=
  mkManager (m_StorageDir m) (m_AuthWindow m) (m_Census m) (m_Trees m) (m_hasRemote m) (m_importQueue m)
    (m_queueSize m) (m_failedQueue m) v (m_config m).
Definition set_m_config v (m : Manager) : Manager :=
  mkManager (m_StorageDir m) (m_AuthWindow m) (m_Census m) (m_Trees m) (m_hasRemote m) (m_importQueue m)
    (m_queueSize m) (m_failedQueue m) (m_disk m) v.

Definition ErrNamespaceExist : error := "namespace already exists".

(** The store of a directory; a directory that does not exist yet is empty. *)
Definition open_dir (dir : string) (m : Manager) : res gstore := Ok (default g_NewMemStore (m_disk m !! dir)).
(** A loaded tree and the directory it commits to. *)
Definition put_census (name : string) (tr : Tree) (m : Manager) : Manager :=
  set_m_disk (<[tr_dataDir tr := gs_store (tr_store tr)]> (m_disk m)) (set_m_Trees (<[name := tr]> (m_Trees m)) m).
(** An operation of the loaded tree [name]. *)
Definition on_census {A} (name : string) (op : GM Tree A) : M A := λ m,
  match m_Trees m !! name with
  | None => (Panic "nil pointer dereference", m)
  | Some tr => let '(r, tr') := op tr in (r, put_census name tr' m)
  end.

Definition save : M () :=
  data ← reads (λ m, marshal_Namespaces (m_Census m));
  modify (set_m_config (Some data)).

Definition open_tree (name : string) (now : Z) : M () :=
  updates (λ m,
    tr ← NewTree name (m_StorageDir m) (open_dir (tree_dir name (m_StorageDir m)) m) now;
    Ok (put_census name tr m)).
Definition LoadTree (name : string) (now : Z) : M () :=
  m ← get_st;
  if decide (is_Some (m_Trees m !! name)) then mret ()
  else
    _ ← open_tree name now;
    on_census name (modify Publish).
Definition UnloadTree (name : string) (m : Manager) : Manager := set_m_Trees (delete name (m_Trees m)) m.

Definition Exists (name : string) (m : Manager) : bool :=
  existsb (λ ns, bool_decide (name = ns_Name ns)) (nss_Namespaces (m_Census m)).

Definition set_namespaces (l : list Namespace) (m : Manager) : Manager :=
  set_m_Census (mkNamespaces (nss_RootKey (m_Census m)) l) m.
Definition AddNamespace (name : string) (pubKeys : list string) (now : Z) : M () :=
  m ← get_st;
  _ ← lift (guard_err (Exists name m) ErrNamespaceExist);
  _ ← open_tree name now;
  _ ← modify (λ m, set_namespaces (nss_Namespaces (m_Census m) ++ [mkNamespace name pubKeys]) m);
  save.
(** The first namespace of the name is cut out of the slice. *)
Definition DelNamespace (name : string) : M () :=
  _ ← lift (guard_err (bool_decide (slen name = 0)) "no valid namespace provided");
  m ← get_st;
  if negb (Exists name m) then mret ()
  else
    _ ← modify (λ m,
          let l := nss_Namespaces (m_Census m) in
          match find_index (λ ns, bool_decide (ns_Name ns = name)) l with
          | Some i => set_namespaces (remove_at i l) m
          | None => m
          end);
    save.

Definition Count (m : Manager) : Z * Z * Z :=
  let slash n := existsb (λ c, bool_decide (c = Byte.x2f)) (s2b (ns_Name n)) in
  let l := nss_Namespaces (m_Census m) in
  (glen (filter (λ n, slash n = true) l), glen (filter (λ n, slash n = false) l),
   Z.of_nat (size (m_Trees m))).

Fixpoint load_all (l : list Namespace) (now : Z) : M () :=
  match l with
  | [] => mret ()
  | ns :: l' => _ ← logged (LoadTree (ns_Name ns) now); load_all l' now
  end.
(** [m] is the zero manager with the directory as it is found; its
    configuration file may exist or not. *)
Definition Init (storageDir rootKey : string) (now : Z) : M () :=
  m0 ← get_st;
  _ ← modify (λ m, mkManager storageDir 10 (m_Census m) ∅ (m_hasRemote m) [] (m_queueSize m) ∅ (m_disk m) (m_config m));
  match m_config m0 with
  | None =>
      _ ← modify (λ m, set_m_config (Some [])
            (set_m_Census (mkNamespaces (if decide (slen rootKey < ethereum.PubKeyLength) then "" else rootKey) []) m));
      save
  | Some jsonBytes =>
      match json_Namespaces jsonBytes with
      | Panic w => lift (Panic w)
      | Err _ => mret ()
      | Ok cns =>
          let cns := if decide (ethereum.PubKeyLength ≤ slen rootKey)
                     then mkNamespaces rootKey (nss_Namespaces cns) else cns in
          _ ← modify (set_m_Census cns);
          load_all (nss_Namespaces cns) now
      end
  end.

(** ** [census/auth.go] *)

(** The loop over the namespaces.  [ns = &n] takes the address of the loop
    variable, which Go (before 1.22; the module declares 1.14) reuses in every
    round: once taken, [ns] shows whatever the variable holds. *)
Fixpoint auth_loop (l : list Namespace) (censusID : string) (n : Namespace) (taken : bool) : Namespace * bool :=
  match l with
  | [] => (n, taken)
  | x :: l' => auth_loop l' censusID x (taken || bool_decide (ns_Name x = censusID))
  end.
Definition find_namespace (l : list Namespace) (censusID : string) : Namespace :=
  let empty := mkNamespace "" [] in
  match auth_loop l censusID empty false with (n, true) => n | (_, false) => empty end.

Fixpoint verify_keys (message : bytes) (sig : string) (keys : list string) : res () :=
  match keys with
  | [] => Err "unauthorized"
  | n :: keys' =>
      match ethereum.Verify message sig n with
      | Panic w => Panic w
      | Ok true => Ok ()
      | Ok false | Err _ => verify_keys message sig keys'
      end
  end.

Definition check_keys (outer : RequestMessage) (keys : list string) : res () :=
  match keys with
  | [] => Ok ()
  | [k] => if decide (slen k < ethereum.PubKeyLength) then Ok ()
           else verify_keys (rm_MetaRequest outer) (rm_Signature outer) keys
  | _ => verify_keys (rm_MetaRequest outer) (rm_Signature outer) keys
  end.

Definition CheckAuth (reqOuter : RequestMessage) (reqInner : MetaRequest) (now : Z) (m : Manager) : res () :=
  _ ← guard_err (bool_decide (slen (rm_Signature reqOuter) < ethereum.SignatureLength) ||
                 bool_decide (slen (rq_CensusID reqInner) < 1))
        "signature or censusId not provided or invalid";
  let ns := find_namespace (nss_Namespaces (m_Census m)) (rq_CensusID reqInner) in
  let root := nss_RootKey (m_Census m) in
  if bool_decide (rq_Method reqInner = "addCensus") && bool_decide (slen root < ethereum.PubKeyLength) then Ok ()
  else
    let keys := if decide (rq_Method reqInner = "addCensus") then [root] else ns_Keys ns in
    let currentTime := i32 now in
    _ ← guard_err (bool_decide (i32 (currentTime + m_AuthWindow m) < rq_Timestamp reqInner) ||
                   bool_decide (rq_Timestamp reqInner < i32 (currentTime - m_AuthWindow m)))
          "timestamp is not valid";
    check_keys reqOuter keys.

(** ** [census/importqueue.go] *)

(** [uri[len(prefix):]]. *)
Definition str_from (n : Z) (s : string) : res string := b ← go_slice_from (s2b s) n; Ok (b2s b).

(** The second half of [importTree], on the new namespace. *)
Definition import_claims (dump : CensusDump) (cid : string) (now : Z) : M () :=
  r ← try_ (on_census cid (ImportDump (cd_ClaimsData dump) now));
  match r with
  | Panic w => lift (Panic w)
  | Err _ => lift (Err "error importing dump")
  | Ok _ =>
      root ← on_census cid (Root now);
      if decide (root ≠ cd_RootHash dump) then
        _ ← logged (DelNamespace cid);
        lift (Err "root hash does not match on imported census, aborting import")
      else on_census cid (modify Publish)
  end.
Definition importTree (tree : bytes) (cid : string) (now : Z) : M () :=
  dump ← lift (match json_CensusDump tree with
               | Err _ => Err "retrieved census does not have a valid format"
               | r => r
               end);
  _ ← lift (guard_err (bool_decide (cd_RootHash dump ≠ cid))
              "dump root Hash and Ethereum root hash do not match, aborting import");
  _ ← lift (guard_err (bool_decide (glen (cd_ClaimsData dump) = 0)) "no claims found on the retreived census");
  r ← try_ (AddNamespace cid [] now);
  match r with
  | Panic w => lift (Panic w)
  | Err e => if decide (e = ErrNamespaceExist) then mret () else lift (Err "cannot create new census namespace")
  | Ok _ => import_claims dump cid now
  end.

Definition ImportQueueSize (m : Manager) : Z := m_queueSize m.
Definition queueAdd (i : Z) (m : Manager) : Manager := set_m_queueSize (i32 (m_queueSize m + i)) m.
Definition ImportFailedQueue (m : Manager) : gmap string string := m_failedQueue m.
Definition ImportFailedQueueSize (m : Manager) : Z := Z.of_nat (size (m_failedQueue m)).
Definition AddToImportQueue (censusID censusURI : string) (m : Manager) : Manager :=
  set_m_importQueue (m_importQueue m ++ [(censusID, censusURI)]) m.

(** One round of [importQueueDaemon], on the head of the queue. *)
Definition import_round (now : Z) : M () :=
  m ← get_st;
  match m_importQueue m with
  | [] => mret ()
  | (cid, uri) :: queue =>
      _ ← modify (set_m_importQueue queue);
      if Exists cid m then mret ()
      else
        _ ← modify (queueAdd 1);
        path ← lift (str_from (slen URIprefix) uri);
        match Storage_Retrieve path with
        | Panic w => lift (Panic w)
        | Err e =>
            _ ← modify (λ m, if os_IsTimeout e then set_m_failedQueue (<[cid := uri]> (m_failedQueue m)) m else m);
            modify (queueAdd (-1))
        | Ok censusRaw =>
            _ ← logged (importTree (decompressBytes censusRaw) cid now);
            modify (queueAdd (-1))
        end
  end.
(** One entry of the failed queue in [importFailedQueueDaemon]. *)
Definition retry_one (now : Z) (entry : string * string) : M () :=
  let '(cid, uri) := entry in
  path ← lift (str_from (slen URIprefix) uri);
  match Storage_Retrieve path with
  | Panic w => lift (Panic w)
  | Err _ => mret ()
  | Ok censusRaw =>
      _ ← logged (importTree (decompressBytes censusRaw) cid now);
      modify (λ m, set_m_failedQueue (delete cid (m_failedQueue m)) m)
  end.
Definition retry_round (now : Z) : M () :=
  m ← get_st; for_each (map_to_list (ImportFailedQueue m)) (retry_one now).

(** ** [census/handler.go] *)
Definition invalid_auth : error := "invalid authentication".
(** [SetError(err)] with the message of a failed call. *)
Definition failing {A} (resp : MetaResponse) (r : res A) (k : A → M MetaResponse) : M MetaResponse :=
  match r with
  | Ok a => k a
  | Err e => mret (SetError e resp)
  | Panic w => lift (Panic w)
  end.
Definition digest (r : MetaRequest) (data : bytes) : bytes :=
  if rq_Digested r then data else PoseidonHash data.

Definition handle_addCensus (r : MetaRequest) (isAuth : bool) (censusPrefix : string) (now : Z)
    (resp : MetaResponse) : M MetaResponse :=
  if isAuth then
    let name := censusPrefix +:+ rq_CensusID r in
    e ← try_ (AddNamespace name (rq_PubKeys r) now);
    failing resp e (λ _,
      _ ← on_census name (modify Publish);
      mret (set_rp_CensusID name resp))
  else mret (SetError invalid_auth resp).

(** The loop of [addClaimBulk]: the indexes of the claims it refuses. *)
Fixpoint bulk_loop (id : string) (r : MetaRequest) (claims : list string) (i : Z) (now : Z) : M (list Z) :=
  match claims with
  | [] => mret []
  | c :: claims' =>
      ok ← (match b64_DecodeString c with
            | Panic w => lift (Panic w)
            | Err _ => mret false
            | Ok data =>
                e ← try_ (on_census id (AddClaim (digest r data) [] now));
                mret (is_ok e)
            end);
      rest ← bulk_loop id r claims' (i + 1) now;
      mret (if (ok : bool) then rest else i :: rest)
  end.
Definition handle_addClaimBulk (id : string) (r : MetaRequest) (auth : bool) (now : Z) (resp : MetaResponse) :
    M MetaResponse :=
  if auth then
    invalid ← bulk_loop id r (rq_ClaimsData r) 0 now;
    mret (set_rp_InvalidClaims invalid resp)
  else mret (SetError invalid_auth resp).

(** A claim that does not decode is an error in the response, but the
    function goes on with the bytes decoded so far. *)
Definition handle_addClaim (id : string) (r : MetaRequest) (auth : bool) (now : Z) (resp : MetaResponse) :
    M MetaResponse :=
  if auth then
    let resp := match b64_DecodeString (rq_ClaimData r) with Err e => SetError e resp | _ => resp end in
    let data := b64_DecodeString_bytes (rq_ClaimData r) in
    e ← try_ (on_census id (AddClaim (digest r data) [] now));
    failing resp e (λ _, mret resp)
  else mret (SetError invalid_auth resp).

Definition handle_importDump (id : string) (r : MetaRequest) (auth : bool) (now : Z) (resp : MetaResponse) :
    M MetaResponse :=
  if auth then
    if decide (0 < glen (rq_ClaimsData r)) then
      e ← try_ (on_census id (ImportDump (rq_ClaimsData r) now)); failing resp e (λ _, mret resp)
    else mret resp
  else mret (SetError invalid_auth resp).

Definition handle_importRemote (id : string) (r : MetaRequest) (auth : bool) (now : Z) (resp : MetaResponse) :
    M MetaResponse :=
  m ← get_st;
  if negb auth then mret (SetError invalid_auth resp)
  else if negb (m_hasRemote m) then mret (SetError "not supported" resp)
  else if negb (has_prefix (s2b URIprefix) (s2b (rq_URI r))) || bool_decide (slen (rq_URI r) ≤ slen URIprefix)
  then mret (SetError "URI not supported" resp)
  else
    path ← lift (str_from (slen URIprefix) (rq_URI r));
    match Storage_Retrieve path with
    | Panic w => lift (Panic w)
    | Err _ => mret (SetError "cannot retrieve census" resp)
    | Ok censusRaw =>
        match json_CensusDump (decompressBytes censusRaw) with
        | Panic w => lift (Panic w)
        | Err _ => mret (SetError "retrieved census do not have a correct format" resp)
        | Ok dump =>
            if decide (0 < glen (cd_ClaimsData dump)) then
              e ← try_ (on_census id (ImportDump (cd_ClaimsData dump) now));
              failing resp (match e with Err _ => Err "error importing census" | e => e end) (λ _, mret resp)
            else mret (SetError "no claims found" resp)
        end
    end.

Definition handle_checkProof (id : string) (r : MetaRequest) (now : Z) (resp : MetaResponse) : M MetaResponse :=
  if decide (slen (rq_ProofData r) < 1) then mret (SetError "proofData not provided" resp)
  else
    root ← (if decide (slen (rq_RootHash r) < 1) then on_census id (Root now) else mret (rq_RootHash r));
    failing resp (b64_DecodeString (rq_ClaimData r)) (λ data,
      failing resp (trie_CheckProof root (rq_ProofData r) (digest r data) []) (λ validProof,
        mret (set_rp_ValidProof (Some validProof) resp))).

(** The tree the methods with a root hash work on: the loaded tree, or a
    snapshot of it, a new object only this request sees. *)
Definition on_version {A} (id : string) (snap : option Tree) (op : GM Tree A) : M A :=
  match snap with
  | None => on_census id op
  | Some tr => lift (op tr).1
  end.

Definition handle_genProof (id : string) (snap : option Tree) (r : MetaRequest) (now : Z) (resp : MetaResponse) :
    M MetaResponse :=
  failing resp (b64_DecodeString (rq_ClaimData r)) (λ data,
    e ← try_ (on_version id snap (GenProof (digest r data) [] now));
    failing resp e (λ siblings, mret (set_rp_Siblings siblings resp))).

(** The size is set to zero next to an error. *)
Definition handle_getSize (id : string) (snap : option Tree) (now : Z) (resp : MetaResponse) : M MetaResponse :=
  root ← on_version id snap (Root now);
  e ← try_ (on_version id snap (Size root));
  match e with
  | Ok size => mret (set_rp_Size (Some size) resp)
  | Err e => mret (set_rp_Size (Some 0) (SetError e resp))
  | Panic w => lift (Panic w)
  end.

Definition handle_dump (id : string) (snap : option Tree) (r : MetaRequest) (auth : bool) (now : Z)
    (resp : MetaResponse) : M MetaResponse :=
  if negb auth then mret (SetError invalid_auth resp)
  else
    root ← (if decide (slen (rq_RootHash r) < 1) then on_version id snap (Root now) else mret (rq_RootHash r));
    e ← try_ (if decide (rq_Method r = "dump") then on_version id snap (Dump root now)
              else on_version id snap (p ← DumpPlain root true now; mret p.1));
    failing resp e (λ dumpValues, mret (set_rp_ClaimsData dumpValues resp)).

(** The last part of [publish]: the published census gets a namespace of its
    own under its root. *)
Definition publish_local (root : string) (pubKeys claims : list string) (now : Z) (resp : MetaResponse) :
    M MetaResponse :=
  e ← try_ (AddNamespace root pubKeys now);
  match e with
  | Panic w => lift (Panic w)
  | Err _ => mret resp
  | Ok _ =>
      e ← try_ (on_census root (ImportDump claims now));
      match e with
      | Panic w => lift (Panic w)
      | Err e => _ ← logged (DelNamespace root); mret (SetError e resp)
      | Ok _ => _ ← on_census root (modify Publish); mret resp
      end
  end.
Definition handle_publish (id : string) (snap : option Tree) (r : MetaRequest) (auth : bool) (now : Z)
    (resp : MetaResponse) : M MetaResponse :=
  m ← get_st;
  if negb auth then mret (SetError invalid_auth resp)
  else if negb (m_hasRemote m) then mret (SetError "not supported" resp)
  else
    root ← on_version id snap (Root now);
    e ← try_ (on_version id snap (Dump root now));
    failing resp e (λ claims,
      failing resp (marshal_CensusDump (mkCensusDump root claims)) (λ dumpBytes,
        failing resp (Storage_Publish (compressBytes dumpBytes)) (λ cid,
          root' ← on_version id snap (Root now);
          publish_local root' (rq_PubKeys r) claims now (set_rp_Root root' (set_rp_URI (URIprefix +:+ cid) resp))))).

Definition handle_versioned (id : string) (r : MetaRequest) (auth : bool) (now : Z) (resp : MetaResponse) (tr : Tree) :
    M MetaResponse :=
  snap ← (if decide (1 < slen (rq_RootHash r))
          then lift (match Snapshot (rq_RootHash r) tr with
                     | Ok s => Ok (inr (Some s))
                     | Err _ => Ok (inl ())
                     | Panic w => Panic w
                     end)
          else mret (inr None));
  match snap with
  | inl () => mret (SetError "invalid root hash" resp)
  | inr snap =>
      if decide (rq_Method r = "genProof") then handle_genProof id snap r now resp
      else if decide (rq_Method r = "getSize") then handle_getSize id snap now resp
      else if bool_decide (rq_Method r = "dump") || bool_decide (rq_Method r = "dumpPlain")
      then handle_dump id snap r auth now resp
      else if decide (rq_Method r = "publish") then handle_publish id snap r auth now resp
      else mret resp
  end.

Definition trimmed (r : MetaRequest) : MetaRequest :=
  set_rq_CensusID (TrimHex (rq_CensusID r)) (set_rq_RootHash (TrimHex (rq_RootHash r)) r).

(** The methods on an existing census. *)
Definition handle_census (r : MetaRequest) (isAuth : bool) (censusPrefix : string) (now : Z) (resp : MetaResponse) :
    M MetaResponse :=
  m ← get_st;
  let id := rq_CensusID r in
  if negb (Exists id m) then mret (SetError ("censusId not valid or not found " +:+ id) resp)
  else
    let validAuthPrefix := bool_decide (slen censusPrefix = 0) || has_prefix (s2b censusPrefix) (s2b id) in
    let auth := isAuth && validAuthPrefix in
    match m_Trees m !! id with
    | None => mret (SetError "censusId cannot be loaded" resp)
    | Some tr =>
        if negb (IsPublic tr) then mret (SetError "census not yet published" resp)
        else if decide (rq_Method r = "getRoot") then
          root ← on_census id (Root now); mret (set_rp_Root root resp)
        else if decide (rq_Method r = "addClaimBulk") then handle_addClaimBulk id r auth now resp
        else if decide (rq_Method r = "addClaim") then handle_addClaim id r auth now resp
        else if decide (rq_Method r = "importDump") then handle_importDump id r auth now resp
        else if decide (rq_Method r = "importRemote") then handle_importRemote id r auth now resp
        else if decide (rq_Method r = "checkProof") then handle_checkProof id r now resp
        else handle_versioned id r auth now resp tr
    end.

Definition Handler (r : MetaRequest) (isAuth : bool) (censusPrefix : string) (now : Z) : M MetaResponse :=
  let resp := set_rp_Timestamp (i32 now) (set_rp_Ok true zero_response) in
  let r := trimmed r in
  if decide (rq_Method r = "addCensus") then handle_addCensus r isAuth censusPrefix now resp
  else if decide (rq_Method r = "getCensusList") then
    m ← get_st;
    mret (if isAuth then set_rp_CensusList (map_to_list (m_Trees m)).*1 resp else SetError invalid_auth resp)
  else handle_census r isAuth censusPrefix now resp.
End census.
