(* ===== verification/CensusConcrete.v ===== *)
(** * Census libraries that run in the kernel

    Instances of [Graviton] and [CensusEnv] simple enough to evaluate.  A
    store keeps the content of every committed version of its trees; the root
    is a hash of the content.  The remote storage is content-addressed: the
    path of a file is its content. *)

From stdpp Require Import base gmap strings list fin_maps.
From Stdlib Require Import ZArith Lia.
From S2P Require Import Prelude GoLib Crypto Database Graviton Trie Api Census Concrete.
Open Scope Z_scope.

Abbreviation claims := (gmap bytes bytes).
Record cgtree := mkCgtree {
  cg_name : string;
  cg_content : claims;
  cg_committed : claims;
  cg_version : nat }.
Definition history (st : gmap string (list claims)) (name : string) : list claims := default [] (st !! name).
Definition version_of (st : gmap string (list claims)) (name : string) (v : nat) : option cgtree :=
  match v with
  | O => Some (mkCgtree name ∅ ∅ 0)
  | S i => c ← history st name !! i; Some (mkCgtree name c c v)
  end.
Definition latest (st : gmap string (list claims)) (name : string) : option cgtree :=
  version_of st name (length (history st name)).
Definition claims_hash (c : claims) : bytes :=
  poly_hash 13 (concat (map (λ kv, kv.1 ++ [Byte.x00] ++ kv.2 ++ [Byte.x00]) (map_to_list c))).
Definition with_hash (st : gmap string (list claims)) (h : bytes) : option cgtree :=
  head (omap (λ p : string * list claims,
          match find_index (λ c, bool_decide (claims_hash c = h)) p.2 with
          | Some i => version_of st p.1 (S i)
          | None => None
          end) (map_to_list st)).

#[export] Instance concrete_graviton : Graviton := {|
  gstore := gmap string (list claims);
  gtree := cgtree;
  g_NewMemStore := ∅;
  g_GetTree := latest;
  g_GetTreeWithVersion st name v := if decide (v = 0) then latest st name else version_of st name (Z.to_nat v);
  g_GetTreeHighestVersion st name := Some (Z.of_nat (length (history st name)));
  g_GetTreeWithRootHash := with_hash;
  g_Get t k := cg_content t !! k;
  g_Put t k v := Some (mkCgtree (cg_name t) (<[k := v]> (cg_content t)) (cg_committed t) (cg_version t));
  g_Commit t st :=
    let h := history st (cg_name t) ++ [cg_content t] in
    Some (mkCgtree (cg_name t) (cg_content t) (cg_content t) (length h), <[cg_name t := h]> st);
  g_Discard t := Some (mkCgtree (cg_name t) (cg_committed t) (cg_committed t) (cg_version t));
  g_Hash t := Some (claims_hash (cg_content t));
  g_GetVersion t := Z.of_nat (cg_version t);
  g_GetParentVersion t := Z.of_nat (pred (cg_version t));
  g_items t := map_to_list (cg_content t);
  g_GenerateProof t k := (λ _, (claims_hash (cg_content t) ++ k) : bytes) <$> cg_content t !! k;
  g_Marshal p := p |}.

Lemma length_le_bytes n x : length (le_bytes n x) = n.
Proof. revert x. induction n; intros; simpl; by f_equal. Qed.
#[export] Instance concrete_graviton_laws : GravitonLaws.
Proof.
  constructor; simpl.
  - intros t k v t' k' [= <-]. simpl. case_decide; [subst; apply lookup_insert_eq|by apply lookup_insert_ne].
  - by intros t st t' st' k [= <- <-].
  - intros t. eexists. split; [done|]. apply length_le_bytes.
  - intros t t' E. do 2 f_equal. by apply map_eq.
  - intros t k v. apply elem_of_map_to_list.
  - intros t k v ->. simpl. eexists. split; [done|]. intros h [= <-]. by apply bool_decide_eq_true.
  - done.
Qed.

#[export] Instance concrete_census : CensusEnv := {|
  URIprefix := "ipfs://";
  Storage_Retrieve := b64_DecodeString;
  Storage_Publish b := Ok (b64_EncodeToString b);
  os_IsTimeout _ := false;
  zstd_EncodeAll b := b;
  zstd_DecodeAll b := Ok b;
  json_CensusDump b := '(root, l) ← dec (A := string * list string) b; Ok (mkCensusDump root l);
  marshal_CensusDump d := Ok (enc (cd_RootHash d, cd_ClaimsData d));
  json_Namespaces b :=
    '(root, l) ← dec (A := string * list (string * list string)) b;
    Ok (mkNamespaces root (map (λ p, mkNamespace p.1 p.2) l));
  marshal_Namespaces n := Ok (enc (nss_RootKey n, map (λ p, (ns_Name p, ns_Keys p)) (nss_Namespaces n))) |}.

(** A new gateway, with its root key. *)
Definition pubkey (k : byte) : string := sprintf_x (CompressPubkey (k : ecdsa_PublicKey)).
Definition zero_manager : Manager := mkManager "" 0 (mkNamespaces "" []) ∅ true [] 0 ∅ ∅ None.
Definition new_manager (rootKey : string) : Manager := (Init "census" rootKey 100 zero_manager).2.
(** The empty tree of a census. *)
Definition empty_tree (name : string) : Tree :=
  match NewTree name "census" (Ok (∅ : gmap string (list claims))) 100 with
  | Ok t => t
  | _ => mkTree (mkGravitonState (∅ : gmap string (list claims)) [] ∅ ∅ 0 (mkVersionTree "" (mkCgtree "" ∅ ∅ 0)))
           None "" "" false 0
  end.
Definition claim (k : byte) : bytes := PoseidonHash [k].
Definition filled_tree (name : string) (ks : list byte) : Tree :=
  foldl (λ t k, (AddClaim (claim k) [] 100 t).2) (empty_tree name) ks.
Definition root_of (t : Tree) : string := match (Root 100 t).1 with Ok r => r | _ => "" end.
