(* ===== verification/TrieFacts.v ===== *)
(** * Census trees: proofs and dumps

    A claim added to a census tree can be proved: the proof the tree makes is
    accepted by the check the vochain runs on a vote.  A dump of a tree,
    imported into an empty one, gives a tree of the same root. *)

From stdpp Require Import base gmap strings list fin_maps.
From Stdlib Require Import ZArith Lia.
From S2P Require Import Prelude GoLib Types StateDB Crypto IavlState Codec State Transaction Database Graviton Trie.
From S2P Require Import Census Concrete CensusConcrete.
Open Scope Z_scope.

Section content.
Context `{GravitonLaws}.

(** What a key of the named tree of a state holds. *)
Definition content (g : GravitonState) (name : string) (k : bytes) : option bytes :=
  t ← gs_trees g !! name; g_Get (gt_tree t) k.
Definition same_content (g g' : GravitonState) : Prop :=
  dom (gs_trees g') = dom (gs_trees g) ∧ ∀ name k, content g' name k = content g name k.
#[local] Instance same_content_refl : Reflexive same_content.
Proof. done. Qed.
#[local] Instance same_content_trans : Transitive same_content.
Proof. intros g1 g2 g3 [D1 C1] [D2 C2]. split; [congruence|]. intros. by rewrite C2. Qed.

Lemma same_content_trees g g' : gs_trees g' = gs_trees g → same_content g g'.
Proof. unfold same_content, content. intros E. by rewrite E. Qed.

Lemma same_content_updateImmutable : stays same_content updateImmutable.
Proof.
  unfold updateImmutable, immutable_one. stays_tac. case_match; [|by simplify_eq].
  match goal with Hr : _ = Ok _ |- _ => go_inv Hr end. by apply same_content_trees.
Qed.
Lemma same_content_commit_one name : stays same_content (commit_one name).
Proof.
  apply stays_updates; [apply _|]. intros g g' Hr. destruct (gs_trees g !! name) as [t0|] eqn:E; [|by simplify_eq].
  go_inv Hr. case_match. go_inv Hr. simplify_eq.
  match goal with Hc : g_Commit _ _ = Some _ |- _ => rename Hc into Hcommit end.
  split; simpl.
  - rewrite dom_insert_L. apply elem_of_dom_2 in E. set_solver.
  - intros name' k. unfold content. simpl. destruct (decide (name' = name)) as [->|Hne].
    + rewrite lookup_insert_eq, E. simpl. by apply (law_g_Commit _ _ _ _ _ Hcommit).
    + by rewrite lookup_insert_ne.
Qed.
#[local] Hint Resolve same_content_updateImmutable same_content_commit_one : stays.
Lemma same_content_Commit : stays same_content gs_Commit.
Proof.
  unfold gs_Commit. stays_tac.
  - match goal with Hr : _ = Ok _ |- _ => go_inv Hr end. case_match. simplify_eq. by apply same_content_trees.
  - by apply same_content_trees.
  - by apply same_content_trees.
Qed.
End content.

(** ** Handles *)
Section handles.
Context `{GravitonLaws}.

(** The tree of a handle that holds, key by key, what [f] says. *)
Definition holds (t : Tree) (f : bytes → option bytes) : Prop :=
  ∃ g, tr_tree t = Ok g ∧ ∀ k, g_Get (gt_tree g) k = f k.

Lemma holds_commit t t' r f : commit_store t = (r, t') → holds t f →
  holds t' f ∧ tr_snapshot t' = tr_snapshot t.
Proof.
  unfold commit_store. intros Hc (g & Hg & Hf).
  pose proof (same_content_Commit (tr_store t)) as [Hd Hk].
  destruct (gs_Commit (tr_store t)) as [rc g'] eqn:Ec. simpl in Hd, Hk.
  assert (t' = set_tr_store g' t) as -> by (by destruct rc; simplify_eq).
  split; [|done]. unfold holds, tr_tree in *. simpl. destruct (tr_snapshot t) as [sn|]; [by simplify_eq; eauto|].
  unfold gs_Tree in *. specialize (Hk (tr_name t)). unfold content in Hk.
  destruct (gs_trees (tr_store t) !! tr_name t) as [g0|] eqn:E; [|done]. simplify_eq.
  apply elem_of_dom_2 in E as Hin. rewrite <- Hd in Hin. apply elem_of_dom in Hin as [g1 Hg1].
  exists g1. rewrite Hg1 in Hk |- *. split; [done|]. intros k. specialize (Hk k). simpl in Hk. by rewrite Hk, Hf.
Qed.

Lemma set_tree_tree g t : tr_tree (set_tree g t) = Ok g.
Proof.
  unfold set_tree, tr_tree. destruct (tr_snapshot t) as [s|] eqn:E; simpl; [done|]. rewrite E.
  unfold gs_Tree. simpl. by rewrite lookup_insert_eq.
Qed.
Lemma set_tree_snapshot g t : tr_snapshot t = None → tr_snapshot (set_tree g t) = None.
Proof. intros E. unfold set_tree. rewrite E. simpl. exact E. Qed.

Lemma gt_Add_get key value g g' k : gt_Add key value g = Ok g' →
  g_Get (gt_tree g') k = if decide (k = key) then Some value else g_Get (gt_tree g) k.
Proof.
  unfold gt_Add. case_decide as E; intros Hr.
  - simplify_eq. case_decide; [by subst|done].
  - go_inv Hr. simpl.
    match goal with Hp : g_Put _ _ _ = Some _ |- _ => by rewrite (law_g_Put _ _ _ _ _ Hp) end.
Qed.
Lemma on_tree_Ok f t t' : on_tree f t = (Ok (), t') → ∃ g, tr_tree t = Ok g.
Proof. unfold on_tree, updates. destruct (tr_tree t); naive_solver. Qed.
Lemma on_tree_add key value t t' f : on_tree (gt_Add key value) t = (Ok (), t') → holds t f →
  holds t' (λ k, if decide (k = key) then Some value else f k).
Proof.
  unfold on_tree, updates. intros Hr (g & Hg & Hf). rewrite Hg in Hr. simpl in Hr.
  destruct (gt_Add key value g) as [g'| |] eqn:Ea; simplify_eq/=.
  exists g'. split; [apply set_tree_tree|]. intros k. rewrite (gt_Add_get _ _ _ _ _ Ea).
  case_decide; [done|apply Hf].
Qed.

Lemma tr_tree_access now t : tr_tree (updateAccessTime now t) = tr_tree t.
Proof. done. Qed.
Lemma Root_run now t g : tr_tree t = Ok g →
  Root now t = (Ok (sprintf_x (gt_Hash g)), updateAccessTime now t).
Proof. intros Hg. unfold Root. rewrite GM_run. cbn [modify]. unfold reads. by rewrite tr_tree_access, Hg. Qed.

(** The proof a tree makes for a key it holds. *)
Lemma gt_Proof_holds g k v h : g_Get (gt_tree g) k = Some v → g_Hash (gt_tree g) = Some h →
  ∃ p, gt_Proof k g = Ok (Some (g_Marshal p)) ∧ graviton_VerifyMembership p h k = true.
Proof.
  intros Hk Hh. destruct (law_g_proof _ _ _ Hk) as (p & Hp & Hv). exists p. split; [|by apply Hv].
  unfold gt_Proof. rewrite Hp. simpl. unfold gt_Verify. rewrite law_g_Marshal, Hh. simpl. by rewrite (Hv _ Hh).
Qed.

(** Once a claim has been added to a census tree, the proof the tree
    generates for it is accepted, against the tree's root, by the check the
    vochain applies to the proof of a vote. *)
Theorem added_claim_provable index value now t t' :
  AddClaim index value now t = (Ok (), t') →
  ∃ proof root t1 t2, GenProof index value now t' = (Ok proof, t1) ∧ Root now t1 = (Ok root, t2) ∧
    checkMerkleProof root proof index = Ok true.
Proof.
  unfold AddClaim. intros Hr. repeat (go_inv_step Hr; go_simpl).
  match goal with Ha : on_tree _ _ = _ |- _ => destruct (on_tree_Ok _ _ _ Ha) as [g0 Hg0];
    eapply on_tree_add in Ha as Hh; [|by eexists] end.
  destruct (holds_commit _ _ _ _ Hr Hh) as [(g & Hg & Hget) _].
  specialize (Hget index). rewrite decide_True in Hget by done.
  destruct (law_g_Hash (gt_tree g)) as (h & Hh' & Hlen).
  destruct (gt_Proof_holds _ _ _ _ Hget Hh') as (p & Hp & Hv).
  exists (sprintf_x (g_Marshal p)), (sprintf_x h). do 2 eexists. split_and!.
  - unfold GenProof. rewrite GM_run. cbn [modify]. rewrite GM_run. unfold reads.
    rewrite tr_tree_access, Hg. cbn [mbind res_bind]. by rewrite Hp.
  - rewrite (Root_run _ _ g) by (by rewrite tr_tree_access). unfold gt_Hash. by rewrite Hh'.
  - unfold checkMerkleProof, trie_CheckProof. rewrite !hex_DecodeString_sprintf_x. cbn [mbind res_bind].
    unfold gravitonstate_Verify. rewrite law_g_Marshal. cbn [of_option mbind res_bind].
    rewrite bool_decide_eq_false_2 by (unfold glen; lia). cbn [guard_err mbind res_bind]. by rewrite Hv.
Qed.

(** ** Dumps *)
Lemma dump_iterate items acc :
  gt_iterate_loop items [] (λ k _ claims, (claims ++ [sprintf_x k], false)) acc
  = acc ++ map sprintf_x items.*1.
Proof.
  revert acc. induction items as [|[k v] items IH]; intros acc; simpl; [by rewrite app_nil_r|].
  rewrite IH. by rewrite <- app_assoc.
Qed.
Lemma Dump_run root now t claims t' : Dump root now t = (Ok claims, t') →
  ∃ g, treeWithRoot root t = Ok (Some g) ∧ claims = map sprintf_x (g_items (gt_tree g)).*1.
Proof.
  unfold Dump, found, gt_Iterate. rewrite GM_run. cbn [modify]. rewrite GM_run. unfold reads.
  change (treeWithRoot root (updateAccessTime now t)) with (treeWithRoot root t).
  destruct (treeWithRoot root t) as [[g|]| |]; [|done..]. simpl. rewrite dump_iterate.
  intros [= <- <-]. by exists g.
Qed.

Lemma holds_ext t f f' : holds t f → (∀ k, f k = f' k) → holds t f'.
Proof. intros (g & Hg & Hf) E. exists g. split; [done|]. intros k. by rewrite Hf. Qed.
Lemma import_loop_holds ks : ∀ t t' f, import_loop (map sprintf_x ks) t = (Ok (), t') → holds t f →
  holds t' (λ k, if decide (k ∈ ks) then Some [] else f k).
Proof.
  induction ks as [|key ks IH]; intros t t' f Hr Hh; simpl in Hr.
  - injection Hr as <-. eapply holds_ext; [exact Hh|]. intros k. by rewrite decide_False by set_solver.
  - rewrite TrimHex_sprintf_x, GM_run, hex_DecodeString_sprintf_x in Hr. cbn [lift] in Hr.
    rewrite GM_run in Hr. destruct (on_tree _ t) as [[[]| |] t1] eqn:Ea; [|done|done].
    eapply holds_ext; [eapply IH; [exact Hr|by eapply on_tree_add]|]. intros k. simpl.
    destruct (decide (k ∈ ks)); [by rewrite decide_True by set_solver|].
    destruct (decide (k = key)) as [->|]; [by rewrite decide_True by set_solver|].
    by rewrite decide_False by set_solver.
Qed.

(** C27: the claims dumped from a census tree, at its current or at a past
    root, give a tree of the same root when imported into an empty tree. *)
Theorem dump_import_roundtrip root now t t1 claims g t2 t3 :
  Dump root now t = (Ok claims, t1) → treeWithRoot root t = Ok (Some g) →
  (∀ k v, g_Get (gt_tree g) k = Some v → v = []) →
  holds t2 (λ _, None) → ImportDump claims now t2 = (Ok (), t3) →
  ∃ t4, Root now t3 = (Ok (sprintf_x (gt_Hash g)), t4).
Proof.
  intros Hd Hg Hempty Hh Hi. apply Dump_run in Hd as (g' & Hg' & ->).
  assert (g' = g) as -> by congruence.
  unfold ImportDump in Hi. rewrite GM_run in Hi. cbn [modify] in Hi.
  go_inv Hi. match goal with Hl : import_loop _ _ = _ |- _ => eapply import_loop_holds in Hl; [|exact Hh] end.
  destruct (holds_commit _ _ _ _ Hi ltac:(eassumption)) as [(g3 & Hg3 & Hf) _].
  eexists. rewrite (Root_run _ _ _ Hg3). unfold gt_Hash. rewrite (law_g_Hash_ext _ (gt_tree g)); [done|].
  intros k. rewrite Hf. destruct (g_Get (gt_tree g) k) as [v|] eqn:E.
  - rewrite decide_True; [by rewrite (Hempty _ _ E)|]. apply law_g_items in E.
    apply list_elem_of_fmap. by exists (k, v).
  - rewrite decide_False; [done|]. intros ((k' & v) & -> & Hin)%list_elem_of_fmap.
    apply law_g_items in Hin. simpl in E. congruence.
Qed.
End handles.

(** ** A census of two claims *)
Lemma run_eq {S A} (m : GM S A) s r : (m s).1 = r → m s = (r, (m s).2).
Proof. intros <-. by destruct (m s). Qed.

Lemma added_claim_provable_witness : ∃ proof root,
  checkMerkleProof root proof (claim Byte.x02) = Ok true.
Proof.
  assert ((AddClaim (claim Byte.x02) [] 100 (filled_tree "census" [Byte.x01])).1 = Ok ()) as Ha by (by vm_compute).
  destruct (added_claim_provable _ _ _ _ _ (run_eq _ _ _ Ha)) as (proof & root & t1 & t2 & _ & _ & Hc).
  exists proof, root. exact Hc.
Defined.

Definition dumped : Tree := filled_tree "census" [Byte.x01; Byte.x02].
Definition tree_of (t : Tree) : GravitonTree :=
  match tr_tree t with Ok g => g | _ => mkGravitonTree (mkCgtree "" ∅ ∅ 0 : gtree) 0 0 end.
Lemma tree_of_Ok t : is_ok (tr_tree t) = true → tr_tree t = Ok (tree_of t).
Proof. unfold tree_of. by destruct (tr_tree t). Qed.
Definition dumped_tree : GravitonTree := tree_of dumped.
Definition dumped_claims : list string := match (Dump "" 100 dumped).1 with Ok l => l | _ => [] end.
Lemma dumped_empty_values k v : g_Get (gt_tree dumped_tree) k = Some v → v = [].
Proof.
  assert (map_Forall (λ _ v, v = []) (cg_content (gt_tree dumped_tree : cgtree))) as Hm
    by (apply (bool_decide_eq_true_1 _); by vm_compute).
  exact (Hm k v).
Qed.
Lemma empty_tree_holds : holds (empty_tree "copy") (λ _, None).
Proof.
  exists (tree_of (empty_tree "copy")). split; [apply tree_of_Ok; by vm_compute|]. intros k.
  assert (cg_content (gt_tree (tree_of (empty_tree "copy")) : cgtree) = ∅) as Hc
    by (apply (bool_decide_eq_true_1 _); by vm_compute).
  change (cg_content (gt_tree (tree_of (empty_tree "copy")) : cgtree) !! k = None). rewrite Hc. apply lookup_empty.
Qed.
Lemma dump_import_roundtrip_witness :
  length dumped_claims = 2%nat ∧
  ∃ t4, Root 100 (ImportDump dumped_claims 100 (empty_tree "copy")).2 = (Ok (root_of dumped), t4).
Proof.
  split; [by vm_compute|].
  assert ((Dump "" 100 dumped).1 = Ok dumped_claims) as Hd by (by vm_compute).
  assert (treeWithRoot "" dumped = Ok (Some dumped_tree)) as Ht.
  { unfold treeWithRoot. rewrite decide_True, tree_of_Ok by (by vm_compute). reflexivity. }
  assert ((ImportDump dumped_claims 100 (empty_tree "copy")).1 = Ok ()) as Hi by (by vm_compute).
  assert (root_of dumped = sprintf_x (gt_Hash dumped_tree)) as -> by (by vm_compute).
  exact (dump_import_roundtrip _ _ _ _ _ _ _ _ (run_eq _ _ _ Hd) Ht dumped_empty_values empty_tree_holds
           (run_eq _ _ _ Hi)).
Defined.
