(* ===== verification/CensusFacts.v ===== *)
(** * The census manager: what a request and an import can change

    [request_confined]: an API request without a valid signature changes no
    census; an authorised one, where the gateway gives it a prefix, only the
    censuses under that prefix.  [import_authentic]: a census fetched from the
    remote storage is published only if the root of its tree is the root it
    was asked for.  [auth_verdict]: the keys registered for a census
    do not matter to [CheckAuth]. *)

From stdpp Require Import base gmap strings list fin_maps.
From Stdlib Require Import ZArith Lia.
From S2P Require Import Prelude GoLib Crypto Database Graviton Trie Api Census.
From S2P Require Import Concrete CensusConcrete.
Open Scope Z_scope.

Section views.
Context `{Graviton}.

(** A tree up to the time it was last used and its counter of claims. *)
Definition view (t : Tree) :=
  (tr_public t, tr_dataDir t, tr_name t, gs_store (tr_store t), gt_tree <$> gs_trees (tr_store t),
   gt_tree <$> tr_snapshot t).
Definition like (t t' : Tree) : Prop := view t' = view t.
#[export] Instance like_refl : Reflexive like.
Proof. done. Qed.
#[export] Instance like_trans : Transitive like.
Proof. unfold like. intros ? ? ?. congruence. Qed.

Lemma like_access now : stays like (modify (updateAccessTime now)).
Proof. by apply stays_modify. Qed.
#[local] Hint Resolve like_access : stays.
Lemma like_found e root : stays like (found e root).
Proof. unfold found. auto with stays. Qed.
#[local] Hint Resolve like_found : stays.
Lemma like_set_tree g g' t : tr_tree t = Ok g → gt_tree g' = gt_tree g → like t (set_tree g' t).
Proof.
  unfold tr_tree, set_tree, gs_Tree, like, view. destruct (tr_snapshot t) as [s|] eqn:Es; simpl.
  - intros [= ->] E. by rewrite E.
  - case_match eqn:Et; [|done]. intros [= ->] E. rewrite Es, fmap_insert, E.
    rewrite insert_id; [done|]. by rewrite lookup_fmap, Et.
Qed.

Lemma like_Root now : stays like (Root now).
Proof. unfold Root. stays_tac. Qed.
Lemma like_GenProof index value now : stays like (GenProof index value now).
Proof. unfold GenProof. stays_tac. Qed.
Lemma like_Dump root now : stays like (Dump root now).
Proof. unfold Dump. stays_tac. Qed.
Lemma like_DumpPlain root b now : stays like (DumpPlain root b now).
Proof. unfold DumpPlain. stays_tac. Qed.
Lemma like_Size root : stays like (Size root).
Proof.
  intros t. unfold Size, found. rewrite GM_run. unfold reads.
  destruct (treeWithRoot root t) as [[g|]|e|w] eqn:Eg; [|done..]. simpl.
  destruct (gt_Count g) as [n g'] eqn:Ec. simpl. case_decide as Er; [|done].
  apply (like_set_tree g).
  - revert Eg. unfold treeWithRoot. rewrite decide_True by done. destruct (tr_tree t); simpl; congruence.
  - revert Ec. unfold gt_Count. by case_decide; intros [= <- <-].
Qed.

(** Importing claims does not publish. *)
Definition same_public (t t' : Tree) : Prop := tr_public t' = tr_public t.
#[export] Instance same_public_refl : Reflexive same_public.
Proof. done. Qed.
#[export] Instance same_public_trans : Transitive same_public.
Proof. unfold same_public. intros ? ? ?. congruence. Qed.
Lemma set_tree_public g t : same_public t (set_tree g t).
Proof. unfold same_public, set_tree. by case_match. Qed.
Lemma on_tree_public f : stays same_public (on_tree f).
Proof.
  apply (stays_updates same_public). intros t t' Hr. go_inv Hr. apply set_tree_public.
Qed.
#[local] Hint Resolve on_tree_public : stays.
Lemma import_loop_public claims : stays same_public (import_loop claims).
Proof. induction claims; simpl; stays_tac. Qed.
Lemma commit_store_public : stays same_public commit_store.
Proof. intros t. unfold commit_store. by destruct (gs_Commit _) as [[]]. Qed.
#[local] Hint Resolve import_loop_public commit_store_public : stays.
Lemma ImportDump_public claims now : stays same_public (ImportDump claims now).
Proof. unfold ImportDump. stays_tac. done. Qed.
(** The errors of opening a tree come from the library. *)
Definition avoids {S A} (e : error) (m : GM S A) : Prop := ∀ s, (m s).1 ≠ Err e.
Lemma avoids_bind {S A B} e (m : GM S A) (f : A → GM S B) : avoids e m → (∀ a, avoids e (f a)) → avoids e (m ≫= f).
Proof. intros Hm Hf s. specialize (Hm s). rewrite GM_run. destruct (m s) as [[]]; [apply Hf|simpl in *; congruence..]. Qed.
Lemma avoids_for_each {S A} e (l : list A) (f : A → GM S ()) : (∀ a, avoids e (f a)) → avoids e (for_each l f).
Proof. intros Hf. induction l; [done|]. by apply avoids_bind. Qed.
Lemma avoids_updates {S} e (f : S → res S) : (∀ s, f s ≠ Err e) → avoids e (updates f).
Proof. intros Hf s. specialize (Hf s). unfold updates. destruct (f s); simpl; congruence. Qed.
Lemma updateImmutable_error e : e ≠ "cannot get tree version" → avoids e updateImmutable.
Proof.
  intros He. apply avoids_bind; [done|]. intros g. apply avoids_for_each. intros k. apply avoids_updates.
  intros s. case_match; [|done]. destruct (g_GetTreeWithVersion _ _ _); simpl; congruence.
Qed.
Lemma NewTree_error name dir st now : NewTree name dir (Ok st) now ≠ Err ErrNamespaceExist.
Proof.
  unfold NewTree, GravitonState_Init, VersionTree_Init. simpl.
  destruct (g_GetTree st "versions") as [v|]; simpl; [|done].
  assert (avoids ErrNamespaceExist (_ ← gs_AddTree (inner_name name); gs_LoadVersion 0)) as Ha.
  { pose proof (updateImmutable_error ErrNamespaceExist ltac:(done)).
    apply avoids_bind; [|intros _].
    - apply avoids_bind; [|done]. apply avoids_updates. intros g. by destruct (g_GetTree _ _).
    - apply avoids_bind; [|intros _; apply avoids_bind; [done|intros g; apply avoids_bind;
        [|intros _; by apply avoids_bind]]].
      + apply avoids_updates. intros g. unfold VersionTree_LoadVersion. rewrite decide_False by done.
        destruct (g_GetTreeWithVersion _ _ _); [done|].
        destruct (g_GetTree _ _); simpl; discriminate.
      + apply avoids_for_each. intros k. apply avoids_updates. intros g'.
        rewrite decide_False by lia. simpl.
        destruct (g_GetTreeWithVersion _ _ _); simpl; [case_match|]; discriminate. }
  match goal with |- context [(gs_AddTree _ ≫= ?f) ?g] =>
    specialize (Ha g); destruct ((gs_AddTree (inner_name name) ≫= f) g) as [[]] end; simpl in *; congruence.
Qed.
Lemma NewTree_unpublished name dir open now tr : NewTree name dir open now = Ok tr → tr_public tr = false.
Proof. unfold NewTree. intros Hr. go_inv Hr. done. Qed.
End views.
#[export] Hint Resolve like_Root like_GenProof like_Dump like_DumpPlain like_Size : stays.

Section frames.
Context `{Graviton} `{CensusEnv}.
Implicit Types (m : Manager) (name : string).

(** ** Nothing but access times *)
Definition tree_view name m := view <$> m_Trees m !! name.
Definition unchanged m m' : Prop :=
  m_Census m' = m_Census m ∧ ∀ name, tree_view name m' = tree_view name m.
#[export] Instance unchanged_refl : Reflexive unchanged.
Proof. done. Qed.
#[export] Instance unchanged_trans : Transitive unchanged.
Proof. intros m1 m2 m3 [C1 T1] [C2 T2]. split; [congruence|]. intros. by rewrite T2. Qed.

Lemma on_census_run {A} name (op : GM Tree A) m :
  (m_Trees m !! name = None ∧ on_census name op m = (Panic "nil pointer dereference", m)) ∨
  ∃ tr, m_Trees m !! name = Some tr ∧ on_census name op m = ((op tr).1, put_census name (op tr).2 m).
Proof.
  unfold on_census. destruct (m_Trees m !! name) as [tr|]; [right|by left].
  exists tr. by destruct (op tr).
Qed.
Lemma on_census_like {A} name (op : GM Tree A) : stays like op → stays unchanged (on_census name op).
Proof.
  intros Hop m. destruct (on_census_run name op m) as [[_ ->]|(tr & Htr & ->)]; [done|]. split; [done|].
  intros name'. unfold tree_view. simpl. destruct (decide (name' = name)) as [->|].
  - rewrite lookup_insert_eq, Htr. simpl. f_equal. apply Hop.
  - by rewrite lookup_insert_ne.
Qed.
#[local] Hint Extern 1 (stays unchanged (on_census _ _)) => apply on_census_like; solve [auto with stays] : stays.
Lemma on_version_like {A} name snap (op : GM Tree A) : stays like op → stays unchanged (on_version name snap op).
Proof. intros Hop. unfold on_version. case_match; stays_tac. Qed.
#[local] Hint Resolve on_version_like : stays.

(** ** What an authorised request keeps

    The censuses of the list stay in it; those [P] protects keep their tree. *)
Definition kept (P : string → Prop) m m' : Prop :=
  nss_RootKey (m_Census m') = nss_RootKey (m_Census m) ∧
  nss_Namespaces (m_Census m) ⊆ nss_Namespaces (m_Census m') ∧
  ∀ name, Exists name m = true → P name → tree_view name m' = tree_view name m.

Lemma Exists_spec name m : Exists name m = true ↔ ∃ ns, ns ∈ nss_Namespaces (m_Census m) ∧ ns_Name ns = name.
Proof.
  unfold Exists. rewrite existsb_exists. split.
  - intros (ns & Hin & Hn). go_bool. exists ns. split; [by apply list_elem_of_In|done].
  - intros (ns & Hin & <-). exists ns. split; [by apply list_elem_of_In|]. by apply bool_decide_eq_true.
Qed.
Lemma Exists_mono name m m' : nss_Namespaces (m_Census m) ⊆ nss_Namespaces (m_Census m') →
  Exists name m = true → Exists name m' = true.
Proof. rewrite !Exists_spec. set_solver. Qed.

#[export] Instance kept_refl P : Reflexive (kept P).
Proof. done. Qed.
#[export] Instance kept_trans P : Transitive (kept P).
Proof.
  intros m1 m2 m3 (R1 & N1 & T1) (R2 & N2 & T2). split_and!; [congruence|by etransitivity|].
  intros name He HP. rewrite T2, T1; [done..| |done]. by eapply Exists_mono.
Qed.
Lemma unchanged_kept P m m' : unchanged m m' → kept P m m'.
Proof. intros [C T]. unfold kept. by rewrite C. Qed.
Lemma stays_unchanged_kept P {A} (op : GM Manager A) : stays unchanged op → stays (kept P) op.
Proof. intros Hop m. apply unchanged_kept, Hop. Qed.

(** An operation on a tree [P] does not protect. *)
Lemma on_census_kept P {A} name (op : GM Tree A) : ¬ P name → stays (kept P) (on_census name op).
Proof.
  intros HP m. destruct (on_census_run name op m) as [[_ ->]|(tr & Htr & ->)]; [done|]. split_and!; [done..|].
  intros name' _ HP'. unfold tree_view. simpl. rewrite lookup_insert_ne; [done|]. by intros ->.
Qed.

(** ** The list of censuses *)
Lemma save_run m :
  (∃ r, save m = (r, m) ∧ is_ok r = false ∧ ∀ e, r = Err e → marshal_Namespaces (m_Census m) = Err e) ∨
  ∃ data, save m = (Ok (), set_m_config (Some data) m).
Proof.
  unfold save. rewrite GM_run. unfold reads.
  destruct (marshal_Namespaces (m_Census m)) as [data|e|w]; [right; by eauto|left; eexists..].
  - split_and!; [done..|]. by intros ? [= ->].
  - by split_and!.
Qed.
(** A namespace is added with a tree of its own, not yet published, or
    nothing happens. *)
Lemma AddNamespace_run name keys now m r m' : AddNamespace name keys now m = (r, m') →
  (m' = m ∧ is_ok r = false ∧ (r = Err ErrNamespaceExist ↔ Exists name m = true)) ∨
  ∃ tr, Exists name m = false ∧ tr_public tr = false ∧
    nss_RootKey (m_Census m') = nss_RootKey (m_Census m) ∧
    nss_Namespaces (m_Census m') = nss_Namespaces (m_Census m) ++ [mkNamespace name keys] ∧
    m_Trees m' = <[name := tr]> (m_Trees m) ∧
    ∀ e, r = Err e → marshal_Namespaces (m_Census m') = Err e.
Proof.
  unfold AddNamespace. rewrite GM_run. cbn [get_st]. rewrite GM_run. unfold lift.
  destruct (Exists name m) eqn:Ee; cbn [guard_err]; [intros [= <- <-]; by left|].
  rewrite GM_run. unfold open_tree, updates, open_dir.
  destruct (NewTree _ _ _ _) as [tr|e|w] eqn:Et; cbn [mbind res_bind].
  - rewrite GM_run. cbn [modify]. intros Hs. right. exists tr. apply NewTree_unpublished in Et.
    match type of Hs with save ?s = _ => destruct (save_run s) as [(r1 & E & _ & He)|(data & E)] end;
      rewrite E in Hs; injection Hs as <- <-; by split_and!.
  - intros [= <- <-]. left. split_and!; [done..|]. split; [|done]. intros [= ->]. by apply NewTree_error in Et.
  - intros [= <- <-]. left. by split_and!.
Qed.
Lemma AddNamespace_kept P name keys now : stays (kept P) (AddNamespace name keys now).
Proof.
  intros m. destruct (AddNamespace name keys now m) as [r m'] eqn:Ea.
  destruct (AddNamespace_run _ _ _ _ _ _ Ea) as [(-> & _)|(tr & He & _ & Hr & Hn & Ht & _)]; [done|].
  split_and!; [done|simpl; rewrite Hn; set_solver|]. intros name' He' _. unfold tree_view. simpl.
  rewrite Ht, lookup_insert_ne; [done|]. intros ->. congruence.
Qed.

(** What touches only the census [name]: its tree, its entries of the list. *)
Definition touches name m m' : Prop :=
  nss_RootKey (m_Census m') = nss_RootKey (m_Census m) ∧
  (∀ ns, ns_Name ns ≠ name → ns ∈ nss_Namespaces (m_Census m) → ns ∈ nss_Namespaces (m_Census m')) ∧
  ∀ name', name' ≠ name → m_Trees m' !! name' = m_Trees m !! name'.
#[export] Instance touches_refl name : Reflexive (touches name).
Proof. done. Qed.
#[export] Instance touches_trans name : Transitive (touches name).
Proof.
  intros m1 m2 m3 (R1 & N1 & T1) (R2 & N2 & T2). split_and!; [congruence|auto|].
  intros name' Hne. by rewrite T2, T1.
Qed.
Lemma on_census_touches {A} name (op : GM Tree A) : stays (touches name) (on_census name op).
Proof.
  intros m. destruct (on_census_run name op m) as [[_ ->]|(tr & _ & ->)]; [done|]. split_and!; [done..|].
  intros name' Hne. simpl. by rewrite lookup_insert_ne.
Qed.
Lemma save_touches name : stays (touches name) save.
Proof. intros m. destruct (save_run m) as [(r & -> & _)|(data & ->)]; done. Qed.
Lemma DelNamespace_touches name : stays (touches name) (DelNamespace name).
Proof.
  unfold DelNamespace. pose proof (save_touches name). stays_tac.
  destruct (find_index _ _) as [i|] eqn:Ei; [|done].
  apply find_index_Some in Ei as (l1 & x & l2 & El & <- & Hx & _). go_bool.
  split_and!; [done| |done]. intros ns Hne. simpl. rewrite El, remove_at_app. set_solver.
Qed.
Lemma AddNamespace_touches name keys now : stays (touches name) (AddNamespace name keys now).
Proof.
  intros m. destruct (AddNamespace name keys now m) as [r m'] eqn:Ea.
  destruct (AddNamespace_run _ _ _ _ _ _ Ea) as [(-> & _)|(tr & He & _ & Hr & Hn & Ht & _)]; [done|].
  split_and!; [done|intros ns _; simpl; rewrite Hn; set_solver|]. intros name' Hne. simpl.
  by rewrite Ht, lookup_insert_ne.
Qed.
Lemma touches_kept P name m m' : Exists name m = false → touches name m m' → kept P m m'.
Proof.
  intros He (R & N & T). split_and!; [done| |].
  - intros ns Hns. apply N; [|done]. intros <-. apply not_true_iff_false in He. apply He, Exists_spec. eauto.
  - intros name' He' _. unfold tree_view. rewrite T; [done|]. intros ->. congruence.
Qed.
#[local] Hint Resolve on_census_touches DelNamespace_touches AddNamespace_touches : stays.

Lemma publish_local_touches root keys claims now resp : stays (touches root) (publish_local root keys claims now resp).
Proof. unfold publish_local. stays_tac. Qed.
Lemma publish_local_kept P root keys claims now resp : stays (kept P) (publish_local root keys claims now resp).
Proof.
  intros m. destruct (Exists root m) eqn:Ee.
  - unfold publish_local, try_, AddNamespace. rewrite GM_run. unfold try_. rewrite GM_run. cbn [get_st].
    rewrite GM_run. unfold lift. by rewrite Ee.
  - eapply touches_kept; [done|]. apply publish_local_touches.
Qed.

(** ** The handlers *)
Lemma stays_failing R `{!Reflexive R} {A} resp (r : res A) (k : A → GM Manager MetaResponse) :
  (∀ a, stays R (k a)) → stays R (failing resp r k).
Proof. intros Hk. unfold failing. case_match; auto with stays. Qed.
Lemma on_census_like_kept P {A} name (op : GM Tree A) : stays like op → stays (kept P) (on_census name op).
Proof. intros. by apply stays_unchanged_kept, on_census_like. Qed.
Lemma on_version_like_kept P {A} name snap (op : GM Tree A) :
  stays like op → stays (kept P) (on_version name snap op).
Proof. intros. by apply stays_unchanged_kept, on_version_like. Qed.
#[local] Hint Resolve on_census_like_kept on_version_like_kept on_census_kept AddNamespace_kept publish_local_kept : stays.
Ltac handler_tac :=
  repeat first [stays_step | lazymatch goal with |- stays ?R (failing _ _ _) => apply (stays_failing R); intros ? end].

Lemma plain_root id snap now : stays like (p ← DumpPlain id snap now; mret p.1).
Proof. stays_tac. Qed.
#[local] Hint Resolve plain_root : stays.

Lemma bulk_loop_kept P id r claims i now : ¬ P id → stays (kept P) (bulk_loop id r claims i now).
Proof. intros HP. revert i. induction claims; intros i; simpl; handler_tac. Qed.
#[local] Hint Resolve bulk_loop_kept : stays.

(** Without authorisation: no method changes anything. *)
Lemma handle_versioned_unchanged id r now resp tr : stays unchanged (handle_versioned id r false now resp tr).
Proof.
  unfold handle_versioned, handle_genProof, handle_getSize, handle_dump, handle_publish. cbn [negb]. handler_tac.
Qed.
Lemma handle_checkProof_unchanged id r now resp : stays unchanged (handle_checkProof id r now resp).
Proof. unfold handle_checkProof. handler_tac. Qed.
Lemma handle_importRemote_unchanged id r now resp : stays unchanged (handle_importRemote id r false now resp).
Proof. unfold handle_importRemote. cbn [negb]. handler_tac. Qed.
#[local] Hint Resolve handle_versioned_unchanged handle_checkProof_unchanged handle_importRemote_unchanged : stays.

(** With it: the census [id] changes, and a publication adds one. *)
Lemma handle_versioned_kept P id r now resp tr : stays (kept P) (handle_versioned id r true now resp tr).
Proof. unfold handle_versioned, handle_genProof, handle_getSize, handle_dump, handle_publish. handler_tac. Qed.
Lemma handle_importRemote_kept P id r now resp : ¬ P id → stays (kept P) (handle_importRemote id r true now resp).
Proof. intros HP. unfold handle_importRemote. handler_tac. Qed.
Lemma handle_checkProof_kept P id r now resp : stays (kept P) (handle_checkProof id r now resp).
Proof. apply stays_unchanged_kept, handle_checkProof_unchanged. Qed.
#[local] Hint Resolve handle_versioned_kept handle_importRemote_kept handle_checkProof_kept : stays.

(** The censuses a request may not change. *)
Definition outside (isAuth : bool) (prefix name : string) : Prop :=
  isAuth = false ∨ prefix ≠ "" ∧ has_prefix (s2b prefix) (s2b name) = false.

Lemma handle_census_unauthorised r prefix now resp : stays unchanged (handle_census r false prefix now resp).
Proof. unfold handle_census. cbn [andb]. unfold handle_addClaimBulk, handle_addClaim, handle_importDump. handler_tac. Qed.
Lemma handle_census_kept P r prefix now resp :
  (prefix = "" ∨ has_prefix (s2b prefix) (s2b (rq_CensusID r)) = true → ¬ P (rq_CensusID r)) →
  stays (kept P) (handle_census r true prefix now resp).
Proof.
  intros HP. unfold handle_census. cbn [andb].
  destruct (bool_decide (slen prefix = 0) || has_prefix (s2b prefix) (s2b (rq_CensusID r))) eqn:Ea.
  - assert (¬ P (rq_CensusID r)).
    { apply HP. apply orb_true_iff in Ea as [Ea|Ea]; [left|by right]. go_bool. by destruct prefix. }
    unfold handle_addClaimBulk, handle_addClaim, handle_importDump. handler_tac.
  - apply stays_unchanged_kept. unfold handle_addClaimBulk, handle_addClaim, handle_importDump. handler_tac.
Qed.

Lemma handle_addCensus_kept r prefix now resp :
  stays (kept (outside true prefix)) (handle_addCensus r true prefix now resp).
Proof.
  unfold handle_addCensus.
  assert (¬ outside true prefix (prefix +:+ rq_CensusID r)).
  { intros [|[_ Hn]]; [done|]. apply not_true_iff_false in Hn. apply Hn, has_prefix_spec.
    rewrite s2b_app. eauto. }
  handler_tac.
Qed.

(** The methods a gateway serves to anyone change nothing, whoever asks. *)
Definition read_methods : list string := ["getRoot"; "getSize"; "genProof"; "checkProof"].
Lemma Handler_read_unchanged r isAuth prefix now :
  rq_Method r ∈ read_methods → stays unchanged (Handler r isAuth prefix now).
Proof.
  intros Hm. assert (rq_Method r = "getRoot" ∨ rq_Method r = "getSize" ∨ rq_Method r = "genProof" ∨
                     rq_Method r = "checkProof") as Hr by (unfold read_methods in Hm; set_solver).
  unfold Handler, handle_addCensus, handle_census, handle_addClaimBulk, handle_addClaim, handle_importDump,
    handle_versioned, handle_genProof, handle_getSize.
  assert (rq_Method (trimmed r) = rq_Method r) as -> by done.
  destruct Hr as [->|[->|[->| ->]]];
    handler_tac; exfalso; first [congruence | discriminate].
Qed.

Lemma Handler_unauthorised r prefix now : stays unchanged (Handler r false prefix now).
Proof. unfold Handler, handle_addCensus. handler_tac. apply handle_census_unauthorised. Qed.
Lemma Handler_kept r prefix now : stays (kept (outside true prefix)) (Handler r true prefix now).
Proof.
  unfold Handler. handler_tac.
  - apply handle_addCensus_kept.
  - apply handle_census_kept. intros Hp [|[Hne Hf]]; [done|]. destruct Hp; congruence.
Qed.

(** A request without a valid signature changes no census: neither the
    list, nor a tree, its claims, its root and whether it is published.  An
    authorised request loses no census of the list, and where the gateway
    gives it a prefix, no tree of a listed census outside that prefix
    changes. *)
Theorem request_confined r isAuth censusPrefix now m :
  kept (outside isAuth censusPrefix) m (Handler r isAuth censusPrefix now m).2 ∧
  (isAuth = false → unchanged m (Handler r isAuth censusPrefix now m).2).
Proof.
  destruct isAuth.
  - split; [|done]. apply Handler_kept.
  - pose proof (Handler_unauthorised r censusPrefix now m). split; [by apply unchanged_kept|done].
Qed.
End frames.

(** ** Imports *)
Section imports.
Context `{Graviton} `{CensusEnv}.
Implicit Types (m : Manager).

Lemma importTree_touches tree cid now : stays (touches cid) (importTree tree cid now).
Proof.
  pose proof (DelNamespace_touches cid). pose proof (AddNamespace_touches cid).
  assert (∀ A (op : GM Tree A), stays (touches cid) (on_census cid op)) by (intros; apply on_census_touches).
  unfold importTree, import_claims. stays_tac.
Qed.

(** The tree an import may leave behind next to an error. *)
Definition unpublished m cid : Prop := ∃ tr, m_Trees m !! cid = Some tr ∧ tr_public tr = false.
Lemma on_census_unpublished {A} cid (op : GM Tree A) m r m' : stays same_public op →
  on_census cid op m = (r, m') → unpublished m cid → unpublished m' cid.
Proof.
  intros Hop Hr (tr & Htr & Hp). destruct (on_census_run cid op m) as [[? _]|(tr' & Htr' & E)]; [congruence|].
  rewrite E in Hr. injection Hr as <- <-. exists (op tr').2. simpl. rewrite lookup_insert_eq. split; [done|].
  rewrite (Hop tr'). congruence.
Qed.
Lemma DelNamespace_trees name m : m_Trees (DelNamespace name m).2 = m_Trees m.
Proof.
  assert (stays (λ m m', m_Trees m' = m_Trees m) (DelNamespace name)) as Hd; [|apply Hd].
  assert (stays (λ m m', m_Trees m' = m_Trees m) save).
  { intros m0. by destruct (save_run m0) as [(? & -> & _)|(? & ->)]. }
  assert (Reflexive (λ m m', m_Trees m' = m_Trees m)) by done.
  assert (Transitive (λ m m', m_Trees m' = m_Trees m)) by (intros ? ? ?; congruence).
  unfold DelNamespace. stays_tac. by case_match.
Qed.
Lemma logged_Del_run name m r m' : logged (DelNamespace name) m = (r, m') → m_Trees m' = m_Trees m.
Proof.
  unfold logged, try_. rewrite GM_run. pose proof (DelNamespace_trees name m) as Hd.
  destruct (DelNamespace name m) as [[]]; intros [= <- <-]; exact Hd.
Qed.

Lemma import_claims_run dump cid now m r m' : import_claims dump cid now m = (r, m') →
  unpublished m cid →
  (is_ok r = true → ∃ tr, m_Trees m' !! cid = Some tr ∧ tr_public tr = true ∧ (Root now tr).1 = Ok (cd_RootHash dump)) ∧
  (is_ok r = false → unpublished m' cid).
Proof.
  unfold import_claims. intros Hr Hu. rewrite GM_run in Hr. unfold try_ in Hr.
  destruct (on_census cid (ImportDump _ now) m) as [ri m1] eqn:Ei.
  eapply on_census_unpublished in Ei; [|apply ImportDump_public|exact Hu].
  destruct ri as [[]|e|w]; [|by injection Hr as <- <-..]. rewrite GM_run in Hr.
  destruct (on_census_run cid (Root now) m1) as [[_ E]|(tr & Htr & E)]; rewrite E in Hr.
  { by injection Hr as <- <-. }
  assert (unpublished (put_census cid (Root now tr).2 m1) cid) as Hu2.
  { destruct Ei as (tr' & Htr' & Hp). assert (tr' = tr) as -> by congruence. exists (Root now tr).2.
    simpl. by rewrite lookup_insert_eq. }
  destruct (Root now tr).1 as [root'|e|w] eqn:Eroot; [|by injection Hr as <- <-..].
  case_decide as Hroot.
  - rewrite GM_run in Hr. destruct (logged _ _) as [rd md] eqn:Ed. apply logged_Del_run in Ed.
    assert (unpublished md cid) by (unfold unpublished; by rewrite Ed).
    by destruct rd; injection Hr as <- <-.
  - unfold on_census in Hr. simpl in Hr. rewrite lookup_insert_eq in Hr. injection Hr as <- <-.
    split; [|done]. intros _. eexists. simpl. rewrite lookup_insert_eq. split; [done|]. split; [done|].
    by rewrite <- Hroot.
Qed.

(** What an import may end with. *)
Definition import_outcome cid now m (r : res ()) m' : Prop :=
  (Exists cid m = true → m' = m) ∧
  (Exists cid m = false → is_ok r = true →
     ∃ tr, m_Trees m' !! cid = Some tr ∧ IsPublic tr = true ∧ (Root now tr).1 = Ok cid) ∧
  (Exists cid m = false → is_ok r = false → m' = m ∨ unpublished m' cid).
Lemma import_refused cid now m r : is_ok r = false → import_outcome cid now m r m.
Proof. intros E. unfold import_outcome. rewrite E. split_and!; [done..|by left]. Qed.

(** C28: an import of the census [cid] changes nothing else.  If [cid] is
    already listed, nothing changes.  If not, and the import succeeds, the
    census is published and the root of its tree is [cid]; if it fails, no
    tree has been published under [cid].  (The error value of the JSON encoder
    is never the one of the manager.) *)
Theorem import_authentic tree cid now m r m' :
  (∀ n, marshal_Namespaces n ≠ Err ErrNamespaceExist) →
  importTree tree cid now m = (r, m') → touches cid m m' ∧ import_outcome cid now m r m'.
Proof.
  intros Hjson Hr. split; [by eapply stays_run; [apply importTree_touches|]|].
  unfold importTree in Hr. rewrite GM_run in Hr. unfold lift in Hr at 1.
  destruct (match json_CensusDump tree with Err _ => _ | _ => _ end) as [dump|e|w];
    [|by injection Hr as <- <-; apply import_refused..].
  rewrite GM_run in Hr. unfold lift in Hr at 1.
  destruct (bool_decide (cd_RootHash dump ≠ cid)) eqn:Eroot; cbn [guard_err] in Hr;
    [by injection Hr as <- <-; apply import_refused|].
  rewrite GM_run in Hr. unfold lift in Hr at 1.
  destruct (bool_decide (glen (cd_ClaimsData dump) = 0)); cbn [guard_err] in Hr;
    [by injection Hr as <- <-; apply import_refused|].
  rewrite GM_run in Hr. unfold try_ in Hr. destruct (AddNamespace cid [] now m) as [ra m1] eqn:Ea.
  apply AddNamespace_run in Ea as [(-> & Ha & Hex)|(tr & He & Hp & _ & _ & Ht & Herr)].
  - destruct ra as [?|e|w]; [done| |by injection Hr as <- <-; apply import_refused].
    case_decide as Ee; injection Hr as <- <-; [|by apply import_refused].
    assert (Exists cid m = true) as E by (apply Hex; congruence). unfold import_outcome. by rewrite E.
  - assert (unpublished m1 cid) as Hu by (exists tr; by rewrite Ht, lookup_insert_eq).
    unfold import_outcome. rewrite He. split; [done|]. destruct ra as [[]|e|w].
    + destruct (import_claims_run _ _ _ _ _ _ Hr Hu) as [Hok Hno]. go_bool. apply dec_stable in Eroot.
      rewrite Eroot in Hok. split; [done|]. intros _ Hr'. right. auto.
    + rewrite decide_False in Hr; [injection Hr as <- <-; split; [done|by right]|]. intros ->. by apply (Hjson (m_Census m1)), Herr.
    + injection Hr as <- <-. split; [done|by right].
Qed.
End imports.

(** ** Authorisation *)
Section auth.
Context `{Graviton} `{CensusEnv}.
Implicit Types (m : Manager).

Lemma auth_loop_last l id n taken :
  auth_loop l id n taken = (default n (last l), taken || existsb (λ ns, bool_decide (id = ns_Name ns)) l).
Proof.
  revert n taken. induction l as [|x l IH]; intros n taken; [simpl; by rewrite orb_false_r|].
  rewrite last_cons. simpl. rewrite IH. f_equal; [by destruct (last l)|]. rewrite orb_assoc. do 2 f_equal. apply bool_decide_ext. naive_solver.
Qed.
Lemma find_namespace_last m id : find_namespace (nss_Namespaces (m_Census m)) id =
  if Exists id m then default (mkNamespace "" []) (last (nss_Namespaces (m_Census m))) else mkNamespace "" [].
Proof. unfold find_namespace, Exists. rewrite auth_loop_last. simpl. by destruct (existsb _ _). Qed.

Lemma verify_keys_verdict msg sig keys : keys ≠ [] →
  verify_keys msg sig keys = Ok () ↔ ethereum.SignKeys_Verify msg sig = Ok true.
Proof.
  intros Hk. assert (∀ keys, verify_keys msg sig keys = Ok () → ethereum.SignKeys_Verify msg sig = Ok true) as Hv.
  { intros ks. induction ks as [|k ks IH]; simpl; [done|]. unfold ethereum.Verify.
    destruct (ethereum.SignKeys_Verify msg sig) as [[]| |]; [done|exact IH|exact IH|done]. }
  split; [apply Hv|]. destruct keys as [|k ks]; [done|]. simpl. unfold ethereum.Verify. by intros ->.
Qed.

(** No usable key: nobody is kept out. *)
Definition no_key (keys : list string) : Prop :=
  match keys with [] => True | [k] => slen k < ethereum.PubKeyLength | _ => False end.
Lemma check_keys_verdict outer keys : check_keys outer keys = Ok () ↔
  no_key keys ∨ ethereum.SignKeys_Verify (rm_MetaRequest outer) (rm_Signature outer) = Ok true.
Proof.
  destruct keys as [|k [|k' ks]]; unfold check_keys, no_key.
  - naive_solver.
  - case_decide; [naive_solver|]. rewrite verify_keys_verdict by done. naive_solver.
  - rewrite verify_keys_verdict by done. naive_solver.
Qed.

(** When a request other than addCensus is authorised.  Its signature
    must be a signature, but of anyone: no registered key is compared with the
    signer.  The keys only matter through there being any, and those looked at
    are the keys of the last census of the list, whatever census is named; an
    unknown census has none. *)
Theorem auth_verdict outer inner now m :
  rq_Method inner ≠ "addCensus" →
  ethereum.SignatureLength ≤ slen (rm_Signature outer) → 1 ≤ slen (rq_CensusID inner) →
  i32 (i32 now - m_AuthWindow m) ≤ rq_Timestamp inner ≤ i32 (i32 now + m_AuthWindow m) →
  let keys := if Exists (rq_CensusID inner) m
              then ns_Keys (default (mkNamespace "" []) (last (nss_Namespaces (m_Census m)))) else [] in
  CheckAuth outer inner now m = Ok () ↔
  no_key keys ∨ ethereum.SignKeys_Verify (rm_MetaRequest outer) (rm_Signature outer) = Ok true.
Proof.
  intros Hm Hs Hi Ht keys. unfold CheckAuth.
  rewrite (bool_decide_eq_false_2 (slen (rm_Signature outer) < _)) by lia.
  rewrite (bool_decide_eq_false_2 (slen (rq_CensusID inner) < 1)) by lia. cbn [orb guard_err mbind res_bind].
  rewrite (bool_decide_eq_false_2 (rq_Method inner = "addCensus")), decide_False by done. cbn [andb].
  rewrite (bool_decide_eq_false_2 (_ < rq_Timestamp inner)) by lia.
  rewrite (bool_decide_eq_false_2 (rq_Timestamp inner < _)) by lia. cbn [orb guard_err mbind res_bind].
  rewrite find_namespace_last. replace (ns_Keys _) with keys; [apply check_keys_verdict|].
  unfold keys. by destruct (Exists _ _).
Qed.
End auth.

(** ** Runs *)

(** The gateway of root key 5, with a census of key 6. *)
Definition gateway : Manager := (AddNamespace "members" [pubkey Byte.x06] 100 (new_manager (pubkey Byte.x05))).2.
Definition stranger_msg : bytes := s2b "addClaim members".
Definition stranger_outer : RequestMessage := mkRequestMessage stranger_msg "1" (sign Byte.x09 stranger_msg).
Definition stranger_inner : MetaRequest :=
  set_rq_CensusID "members" (set_rq_ClaimData (b64_EncodeToString (claim Byte.x09)) (set_rq_Digested true
    (set_rq_Method "addClaim" (set_rq_Timestamp 100 zero_request)))).
(** Key 9, which no census knows, is authorised. *)
Lemma auth_verdict_witness : CheckAuth stranger_outer stranger_inner 100 gateway = Ok ().
Proof.
  apply (auth_verdict stranger_outer stranger_inner 100 gateway);
    [done|by apply Z.leb_le; vm_compute..|split; by apply Z.leb_le; vm_compute|]. right. by vm_compute.
Defined.

Definition members : Tree := filled_tree "members" [Byte.x01; Byte.x02].
Definition members_root : string := root_of members.
Definition members_dump : bytes := enc (members_root, match (Dump "" 100 members).1 with Ok l => l | _ => [] end).
Definition forged_dump : bytes := enc (members_root, [sprintf_x (claim Byte.x03)]).
Lemma json_error n : marshal_Namespaces n ≠ Err ErrNamespaceExist.
Proof. discriminate. Qed.
Lemma import_authentic_witness :
  ∃ tr, m_Trees (importTree members_dump members_root 100 gateway).2 !! members_root = Some tr ∧
    IsPublic tr = true ∧ (Root 100 tr).1 = Ok members_root.
Proof.
  assert ((importTree members_dump members_root 100 gateway).1 = Ok ()) as Hr by (by vm_compute).
  assert (Exists members_root gateway = false) as He by (by vm_compute).
  destruct (import_authentic members_dump members_root 100 gateway (Ok ())
              (importTree members_dump members_root 100 gateway).2 json_error) as [_ (_ & Hok & _)].
  - rewrite <- Hr. apply surjective_pairing.
  - exact (Hok He eq_refl).
Defined.

(** A census that was once answered with a wrong dump can no longer be
    imported: the failed import takes the namespace away but leaves the tree in
    its directory, and the next import adds its claims to the wrong ones. *)
Theorem forged_dump_poisons_import :
  (importTree members_dump members_root 100 gateway).1 = Ok () ∧
  let m := (importTree forged_dump members_root 100 gateway).2 in
  Exists members_root m = false ∧
  (importTree members_dump members_root 100 m).1
  = Err "root hash does not match on imported census, aborting import".
Proof. by vm_compute. Qed.
