(* ===== verification/VochainInfo.v ===== *)
(** * Block times of the chain: [vochain/vochaininfo/vochaininfo.go]

    A loop that wakes up every [sleepSecs] seconds, looks at the height of the
    chain and keeps the average block time over five windows, of 1, 10, 60,
    360 and 1440 minutes.  [tick] is one round of the loop; the local
    variables of [Start] are the fields of [Loop].  Tendermint's block height
    and mempool size are arguments of the round. *)

From stdpp Require Import base strings list.
From Stdlib Require Import ZArith Lia.
From S2P Require Import Prelude GoLib Types StateDB State.
Open Scope Z_scope.

(** One window: rounds and blocks since it was last averaged, in [int64], and
    the average in milliseconds, in [int32]. *)
Record Window := mkWindow {
  w_n : Z;
  w_h : Z;
  w_avg : Z }.
Definition zero_window : Window := mkWindow 0 0 0.

(** [if sleepSecs*n >= limit && h > 0 { a = int32((n*sleepSecs*1000)/h); n = 0; h = 0 }]
    after [n++] and [h += blocks]. *)
Definition window_tick (sleepSecs limit blocks : Z) (w : Window) : Window :=
  let n := i64 (w_n w + 1) in
  let h := i64 (w_h w + blocks) in
  if bool_decide (limit ≤ i64 (sleepSecs * n)) && bool_decide (0 < h)
  then mkWindow 0 0 (i32 (i64 (Z.quot (i64 (i64 (n * sleepSecs) * 1000)) h)))
  else mkWindow n h (w_avg w).

Record Loop := mkLoop {
  lp_pheight : Z;
  lp_sync : bool;
  lp_w1 : Window;
  lp_w10 : Window;
  lp_w60 : Window;
  lp_w360 : Window;
  lp_w1440 : Window }.
Definition zero_loop : Loop := mkLoop 0 false zero_window zero_window zero_window zero_window zero_window.

Record VochainInfo := mkVochainInfo {
  vi_sync : bool;
  vi_height : Z;
  vi_voteTreeSize : Z;
  vi_processTreeSize : Z;
  vi_mempoolSize : Z;
  vi_voteCacheSize : Z;
  vi_avgs : list Z }.
Definition NewVochainInfo : VochainInfo := mkVochainInfo false 0 0 0 0 0 [0; 0; 0; 0; 0].

Definition Height (vi : VochainInfo) : Z := vi_height vi.
Definition BlockTimes (vi : VochainInfo) : list Z := vi_avgs vi.
Definition TreeSizes (vi : VochainInfo) : Z * Z := (vi_processTreeSize vi, vi_voteTreeSize vi).
Definition MempoolSize (vi : VochainInfo) : Z := vi_mempoolSize vi.
Definition vi_VoteCacheSize (vi : VochainInfo) : Z := vi_voteCacheSize vi.

(** The arithmetic of a round. *)
Definition loop_tick (sleepSecs height : Z) (l : Loop) : Loop :=
  let blocks := i64 (height - lp_pheight l) in
  if bool_decide (0 < lp_pheight l) && bool_decide (blocks < Z.quot sleepSecs 2) then
    mkLoop height true
      (window_tick sleepSecs 60 blocks (lp_w1 l)) (window_tick sleepSecs 600 blocks (lp_w10 l))
      (window_tick sleepSecs 3600 blocks (lp_w60 l)) (window_tick sleepSecs 21600 blocks (lp_w360 l))
      (window_tick sleepSecs 86400 blocks (lp_w1440 l))
  else mkLoop height false (lp_w1 l) (lp_w10 l) (lp_w60 l) (lp_w360 l) (lp_w1440 l).
Definition loop_avgs (l : Loop) : list Z :=
  [w_avg (lp_w1 l); w_avg (lp_w10 l); w_avg (lp_w60 l); w_avg (lp_w360 l); w_avg (lp_w1440 l)].

Section info.
Context {DB L : Type} `{StateDB DB}.

(** The sizes are those of the trees being worked on. *)
Definition tick (sleepSecs height mempoolSize : Z) (s : State DB L) (l : Loop) : res (Loop * VochainInfo) :=
  let l' := loop_tick sleepSecs height l in
  p ← TreeCount (Store s) ProcessTree;
  v ← TreeCount (Store s) VoteTree;
  Ok (l', mkVochainInfo (lp_sync l') height v p mempoolSize (VoteCacheSize s) (loop_avgs l')).
End info.

(** ** The averages *)

(** A window after rounds of [sleepSecs] in which fewer than one block per two
    seconds came in. *)
Definition window_ok (sleepSecs : Z) (w : Window) : Prop :=
  0 ≤ w_n w ∧ 0 ≤ w_h w ∧ 2 * w_h w ≤ w_n w * sleepSecs ∧ (w_avg w = 0 ∨ 2000 ≤ w_avg w).
(** A window that can count one more round without overflow: the average of
    all its time fits [int32] milliseconds, 24 days. *)
Definition window_fits (sleepSecs : Z) (w : Window) : Prop := (w_n w + 1) * sleepSecs * 1000 < 2^31.

Lemma i32_id z : - 2^31 ≤ z < 2^31 → i32 z = z.
Proof. unfold i32. intros. rewrite Z.mod_small; lia. Qed.

Lemma window_tick_exact sleepSecs limit blocks w :
  0 < sleepSecs → 0 ≤ blocks → 2 * blocks ≤ sleepSecs → window_ok sleepSecs w → window_fits sleepSecs w →
  window_tick sleepSecs limit blocks w =
  if bool_decide (limit ≤ sleepSecs * (w_n w + 1)) && bool_decide (0 < w_h w + blocks)
  then mkWindow 0 0 ((w_n w + 1) * sleepSecs * 1000 / (w_h w + blocks))
  else mkWindow (w_n w + 1) (w_h w + blocks) (w_avg w).
Proof.
  intros Hs Hb Hb2 (Hn & Hh & Hr & _) Hf. unfold window_fits in Hf. unfold window_tick.
  assert (0 ≤ (w_n w + 1) * sleepSecs < 2^31) as Hprod by nia.
  assert (0 ≤ w_n w + 1 < 2^31) by nia. assert (0 ≤ w_h w + blocks < 2^31) by nia.
  rewrite !(i64_id (w_n w + 1)), !(i64_id (w_h w + blocks)) by (unfold in_i64; lia).
  rewrite (i64_id (sleepSecs * (w_n w + 1))) by (unfold in_i64; lia).
  destruct (bool_decide _); [|done]. destruct (bool_decide (0 < w_h w + blocks)) eqn:Eh; [|done]. go_bool.
  simpl. rewrite (i64_id ((w_n w + 1) * sleepSecs)) by (unfold in_i64; lia).
  rewrite (i64_id ((w_n w + 1) * sleepSecs * 1000)) by (unfold in_i64; lia).
  rewrite Z.quot_div_nonneg by lia.
  assert (0 ≤ (w_n w + 1) * sleepSecs * 1000 / (w_h w + blocks) ≤ (w_n w + 1) * sleepSecs * 1000).
  { split; [apply Z.div_pos; lia|]. apply Z.div_le_upper_bound; nia. }
  rewrite i64_id, i32_id by (unfold in_i64; lia). done.
Qed.
Lemma window_tick_ok sleepSecs limit blocks w :
  0 < sleepSecs → 0 ≤ blocks → 2 * blocks ≤ sleepSecs → window_ok sleepSecs w → window_fits sleepSecs w →
  window_ok sleepSecs (window_tick sleepSecs limit blocks w).
Proof.
  intros Hs Hb Hb2 Hw Hf. rewrite window_tick_exact by done. destruct Hw as (Hn & Hh & Hr & Ha).
  destruct (bool_decide _); [|unfold window_ok; simpl; split_and!; [lia..|nia|done]].
  destruct (bool_decide (0 < _)) eqn:Eh; [|unfold window_ok; simpl; split_and!; [lia..|nia|done]]. go_bool.
  unfold window_ok. simpl. split_and!; [lia..|]. right. apply Z.div_le_lower_bound; [lia|]. nia.
Qed.

(** The loop over the heights it reads. *)
Fixpoint run_ticks (sleepSecs : Z) (heights : list Z) (l : Loop) : Loop :=
  match heights with
  | [] => l
  | h :: hs => run_ticks sleepSecs hs (loop_tick sleepSecs h l)
  end.
Fixpoint increasing (h : Z) (heights : list Z) : Prop :=
  match heights with [] => True | h' :: hs => h ≤ h' < 2^62 ∧ increasing h' hs end.

(** Windows count at most the rounds of the run. *)
Definition counted (sleepSecs j : Z) (w : Window) : Prop := window_ok sleepSecs w ∧ w_n w ≤ j.
Lemma counted_fits sleepSecs j w : 0 < sleepSecs → (j + 1) * sleepSecs * 1000 < 2^31 →
  counted sleepSecs j w → window_fits sleepSecs w.
Proof. intros Hs Hj [(Hn & _) Hle]. unfold window_fits. nia. Qed.
Lemma window_tick_counted sleepSecs limit blocks j w :
  0 < sleepSecs → 0 ≤ blocks → 2 * blocks ≤ sleepSecs → 0 ≤ j → (j + 1) * sleepSecs * 1000 < 2^31 →
  counted sleepSecs j w → counted sleepSecs (j + 1) (window_tick sleepSecs limit blocks w).
Proof.
  intros Hs Hb Hb2 Hj0 Hj Hw. pose proof (counted_fits _ _ _ Hs Hj Hw) as Hf. destruct Hw as [Hok Hle]. split.
  - by apply window_tick_ok.
  - rewrite window_tick_exact by done. destruct (_ && _); simpl; lia.
Qed.
Definition loop_windows (l : Loop) : list Window := [lp_w1 l; lp_w10 l; lp_w60 l; lp_w360 l; lp_w1440 l].
Lemma loop_tick_counted sleepSecs height j l : 0 < sleepSecs → 0 ≤ lp_pheight l ≤ height → height < 2^62 →
  0 ≤ j → (j + 1) * sleepSecs * 1000 < 2^31 → Forall (counted sleepSecs j) (loop_windows l) →
  Forall (counted sleepSecs (j + 1)) (loop_windows (loop_tick sleepSecs height l)).
Proof.
  intros Hs Hp Hh Hj0 Hj Hok. unfold loop_tick. rewrite i64_id by (unfold in_i64; lia).
  destruct (bool_decide (0 < _) && _) eqn:Ec.
  - go_bool. assert (2 * (height - lp_pheight l) ≤ sleepSecs).
    { pose proof (Z.quot_div_nonneg sleepSecs 2 ltac:(lia) ltac:(lia)) as E.
      pose proof (Z.mul_div_le sleepSecs 2 ltac:(lia)). lia. }
    unfold loop_windows in *. rewrite !list.Forall_cons in *. destruct_and!.
    split_and!; try (apply window_tick_counted; done || lia). constructor.
  - eapply Forall_impl; [exact Hok|]. intros w [? ?]. split; [done|lia].
Qed.
Lemma run_ticks_counted sleepSecs heights : ∀ l j, 0 < sleepSecs → 0 ≤ lp_pheight l → increasing (lp_pheight l) heights →
  0 ≤ j → (j + glen heights) * sleepSecs * 1000 < 2^31 → Forall (counted sleepSecs j) (loop_windows l) →
  Forall (window_ok sleepSecs) (loop_windows (run_ticks sleepSecs heights l)).
Proof.
  unfold glen. induction heights as [|h hs IH]; intros l j Hs Hp Hi Hj0 Hj Hw.
  - eapply Forall_impl; [exact Hw|]. by intros w [? _].
  - destruct Hi as [Hh Hi]. cbn [length] in Hj.
    assert (lp_pheight (loop_tick sleepSecs h l) = h) as Eh by (unfold loop_tick; by destruct (_ && _)).
    apply (IH _ (j + 1)); rewrite ?Eh; [done|lia|done|lia|nia|].
    apply loop_tick_counted; [done|lia..| |done]. nia.
Qed.

(** C37: on a chain whose height never decreases, for as long as the time
    watched fits 32 bits of milliseconds, every block time reported is 0 (no
    average yet) or at least the two seconds below which the loop considers
    the chain to be catching up; nothing is divided by zero or overflows. *)
Theorem block_times_plausible sleepSecs heights :
  0 < sleepSecs → increasing 0 heights → glen heights * sleepSecs * 1000 < 2^31 →
  Forall (λ a, a = 0 ∨ 2000 ≤ a) (loop_avgs (run_ticks sleepSecs heights zero_loop)).
Proof.
  intros Hs Hi Hl.
  assert (counted sleepSecs 0 zero_window) as Hz by (unfold counted, window_ok; simpl; lia).
  assert (Forall (window_ok sleepSecs) (loop_windows (run_ticks sleepSecs heights zero_loop))) as Hw.
  { apply (run_ticks_counted _ _ _ 0); [done|simpl; lia|done|lia|lia|]. by repeat constructor. }
  unfold loop_windows in Hw. rewrite !list.Forall_cons in Hw. unfold loop_avgs. rewrite !list.Forall_cons.
  destruct Hw as ((_&_&_&?)&(_&_&_&?)&(_&_&_&?)&(_&_&_&?)&(_&_&_&?)&_). split_and!; done.
Qed.
(** Two rounds a minute, one block every ten seconds: a block time of 10 s. *)
Lemma block_times_plausible_witness :
  Forall (λ a, a = 0 ∨ 2000 ≤ a) (loop_avgs (run_ticks 30 [100; 103; 106; 109] zero_loop)) ∧
  loop_avgs (run_ticks 30 [100; 103; 106; 109] zero_loop) = [10000; 0; 0; 0; 0].
Proof.
  split; [|by vm_compute]. apply block_times_plausible; [lia| |by vm_compute]. simpl. lia.
Defined.
