(* ===== verification/CensusDownloader.v ===== *)
(** * The census downloader: [vochain/censusdownloader]

    A listener of the vochain that puts the census of every new process into
    the import queue of the census manager.  [Commit] hands each entry to the
    manager from a goroutine of its own: [dl_tasks] holds the calls that have
    been started, [run_download] runs one of them. *)

From stdpp Require Import base gmap strings list fin_maps.
From Stdlib Require Import ZArith Lia.
From S2P Require Import Prelude GoLib Types StateDB Crypto Codec State Database Graviton Trie Api Census.
From S2P Require Import Concrete CensusConcrete.
Open Scope Z_scope.

(** [Node.ConsensusReactor().FastSync()], at the moment of the call. *)
Class NodeSync (DB : Type) := { FastSync : DB → bool }.

Section downloader.
Context {DB : Type} `{Graviton} `{CensusEnv} `{!NodeSync DB}.

Record CensusDownloader := mkCensusDownloader {
  dl_census : Manager;
  dl_queue : gmap string string;
  dl_importOnlyNew : bool;
  dl_isFastSync : bool;
  dl_tasks : list (string * string) }.
Definition set_dl_queue q (c : CensusDownloader) : CensusDownloader :=
  mkCensusDownloader (dl_census c) q (dl_importOnlyNew c) (dl_isFastSync c) (dl_tasks c).
Definition set_dl_isFastSync b (c : CensusDownloader) : CensusDownloader :=
  mkCensusDownloader (dl_census c) (dl_queue c) (dl_importOnlyNew c) b (dl_tasks c).
Definition set_dl_tasks ts (c : CensusDownloader) : CensusDownloader :=
  mkCensusDownloader (dl_census c) (dl_queue c) (dl_importOnlyNew c) (dl_isFastSync c) ts.
Definition set_dl_census m (c : CensusDownloader) : CensusDownloader :=
  mkCensusDownloader m (dl_queue c) (dl_importOnlyNew c) (dl_isFastSync c) (dl_tasks c).

Definition NewCensusDownloader (m : Manager) (importOnlyNew : bool) : CensusDownloader :=
  mkCensusDownloader m ∅ importOnlyNew false [].

Definition valid_download (root uri : string) : bool :=
  has_prefix (s2b URIprefix) (s2b uri) && negb (bool_decide (slen root = 0)) &&
  negb (bool_decide (slen uri ≤ slen URIprefix)).
Definition importCensus (root uri : string) (c : CensusDownloader) : CensusDownloader :=
  if valid_download root uri then set_dl_tasks (dl_tasks c ++ [(root, uri)]) c else c.

Definition downloader_Rollback (d : DB) (c : CensusDownloader) : CensusDownloader :=
  set_dl_isFastSync (FastSync d) (set_dl_queue ∅ c).
(** Go ranges over the map in an order it leaves open. *)
Definition downloader_Commit (c : CensusDownloader) : CensusDownloader :=
  foldl (λ c kv, importCensus kv.1 kv.2 c) c (map_to_list (dl_queue c)).
Definition downloader_OnProcess (mkroot mkuri : string) (c : CensusDownloader) : CensusDownloader :=
  if negb (dl_importOnlyNew c) || negb (dl_isFastSync c)
  then set_dl_queue (<[TrimHex mkroot := mkuri]> (dl_queue c)) c else c.

#[export] Instance downloader_listener : EventListener DB CensusDownloader := {|
  OnVote _ _ := Ok;
  OnProcess _ _ _ mkroot mkuri c := Ok (downloader_OnProcess mkroot mkuri c);
  OnCancel _ _ := Ok;
  OnProcessKeys _ _ _ _ := Ok;
  OnRevealKeys _ _ _ _ := Ok;
  ListenerCommit _ _ c := Ok (downloader_Commit c);
  ListenerRollback d c := Ok (downloader_Rollback d c) |}.

(** One of the goroutines. *)
Definition run_download (i : nat) (c : CensusDownloader) : CensusDownloader :=
  match dl_tasks c !! i with
  | Some (root, uri) => set_dl_tasks (remove_at i (dl_tasks c)) (set_dl_census (AddToImportQueue root uri (dl_census c)) c)
  | None => c
  end.

(** ** What a block queues *)

(** The processes of a block, in the order of their transactions. *)
Definition on_processes (ps : list (string * string)) (c : CensusDownloader) : CensusDownloader :=
  foldl (λ c p, downloader_OnProcess p.1 p.2 c) c ps.
(** The census of the last of them with the root. *)
Definition last_uri (ps : list (string * string)) (root : string) : option string :=
  foldl (λ o p, if decide (TrimHex p.1 = root) then Some p.2 else o) None ps.

Lemma Commit_tasks l c : dl_tasks (foldl (λ c kv, importCensus kv.1 kv.2 c) c l)
  = dl_tasks c ++ filter (λ kv, valid_download kv.1 kv.2 = true) l.
Proof.
  revert c. induction l as [|[root uri] l IH]; intros c; [simpl; by rewrite app_nil_r|].
  simpl. rewrite IH. unfold importCensus. rewrite filter_cons. simpl.
  destruct (valid_download root uri); simpl; [by rewrite <- app_assoc|done].
Qed.
Lemma on_processes_queue ps : ∀ c, negb (dl_importOnlyNew c) || negb (dl_isFastSync c) = true →
  (∀ root, dl_queue (on_processes ps c) !! root =
     match last_uri ps root with Some u => Some u | None => dl_queue c !! root end) ∧
  dl_tasks (on_processes ps c) = dl_tasks c.
Proof.
  induction ps as [|[mkroot mkuri] ps IH] using rev_ind; intros c Hc; [done|].
  unfold on_processes, last_uri in *. rewrite !foldl_app. simpl.
  destruct (IH _ Hc) as [Hq Ht].
  assert (negb (dl_importOnlyNew (on_processes ps c)) || negb (dl_isFastSync (on_processes ps c)) = true) as Hc'.
  { clear -Hc. revert c Hc. induction ps as [|p ps IH]; intros c Hc; [done|]. apply IH.
    unfold downloader_OnProcess. by rewrite Hc. }
  unfold on_processes in Hc'. unfold downloader_OnProcess at 1 3. rewrite Hc'. simpl. split; [|done].
  intros root. rewrite foldl_app. simpl. case_decide as E.
  - rewrite <- E. apply lookup_insert_eq.
  - rewrite lookup_insert_ne by done. apply Hq.
Qed.

(** The goroutines a commit starts are exactly one for each census root
    of the processes created in the block, with the address of the last of
    them and only if it is an address of the remote storage. *)
Theorem block_census_downloads ps d c root uri :
  dl_importOnlyNew c = false ∨ FastSync d = false → dl_tasks c = [] →
  let c' := downloader_Commit (on_processes ps (downloader_Rollback d c)) in
  NoDup (dl_tasks c').*1 ∧
  ((root, uri) ∈ dl_tasks c' ↔ last_uri ps root = Some uri ∧ valid_download root uri = true).
Proof.
  intros Hnew Ht c'.
  destruct (on_processes_queue ps (downloader_Rollback d c)) as [Hq Htask].
  { simpl. destruct Hnew as [->| ->]; [done|apply orb_true_r]. }
  unfold c', downloader_Commit. rewrite Commit_tasks, Htask. simpl. rewrite Ht. simpl. split.
  - eapply sublist_NoDup; [|apply fmap_sublist, sublist_filter]. apply NoDup_fst_map_to_list.
  - rewrite list_elem_of_filter, elem_of_map_to_list, Hq. simpl. rewrite lookup_empty.
    destruct (last_uri ps root); naive_solver.
Qed.
End downloader.

(** A node that is not catching up, one process and a second one of the same
    census at another address. *)
#[local] Instance synced : NodeSync () := {| FastSync _ := false |}.
Definition fresh_downloader : CensusDownloader := NewCensusDownloader zero_manager true.
Lemma block_census_downloads_witness :
  ("aa", "ipfs://b") ∈ dl_tasks (downloader_Commit (on_processes [("0xaa", "ipfs://a"); ("aa", "ipfs://b")]
                                   (downloader_Rollback () fresh_downloader))).
Proof.
  apply (block_census_downloads [("0xaa", "ipfs://a"); ("aa", "ipfs://b")] () fresh_downloader "aa" "ipfs://b");
    [by right|done|]. split; by vm_compute.
Defined.
