(* ===== verification/Node.v ===== *)
(** * The node as its clients see it: [BaseApplication.SendTX] of [vochain/app.go]

    The API router and the Ethereum oracle hold a [BaseApplication]: they read
    its state and hand transactions to the mempool of the Tendermint node,
    which is not part of the repository.  It may refuse a transaction (full,
    too big, seen before); what it admits it passes to [CheckTx] of the
    application, and the answer goes back to the caller. *)

From stdpp Require Import base gmap strings list.
From Stdlib Require Import ZArith.
From S2P Require Import Prelude GoLib Types StateDB Crypto Codec State Transaction App StateFacts Operations.
Open Scope Z_scope.

Class Mempool := { mempool_admits : list bytes → bytes → res () }.

Section node.
Context {DB L : Type} `{StateDB DB} `{AminoLib} `{CryptoLib} `{TxJSON} `{!EventListener DB L} `{Mempool}.

Record Node := mkNode {
  n_State : State DB L;
  n_mempool : list bytes }.
Definition node_store (n : Node) : DB := Store (n_State n).
Definition on_state {A} (op : GM (State DB L) A) : GM Node A := λ n,
  let '(a, s) := op (n_State n) in (a, mkNode s (n_mempool n)).
Definition node_SendTX (tx : bytes) (now : Z) : GM Node ResponseTx :=
  n ← get_st;
  _ ← lift (mempool_admits (n_mempool n) tx);
  _ ← modify (λ n, mkNode (n_State n) (n_mempool n ++ [tx]));
  on_state (CheckTx tx now false).

(** Sending a transaction does not change the store. *)
Lemma node_SendTX_store tx now n : node_store (node_SendTX tx now n).2 = node_store n.
Proof.
  unfold node_SendTX. rewrite GM_run. cbn [get_st]. rewrite GM_run. unfold lift.
  destruct (mempool_admits _ _); [|done..]. rewrite GM_run. cbn [modify]. unfold on_state. cbn [n_State n_mempool].
  pose proof (CheckTx_Store tx now false (n_State n)) as Hs.
  destruct (CheckTx tx now false (n_State n)) as [x s]. exact Hs.
Qed.
End node.
Arguments Node : clear implicits.
