(* ===== verification/Router.v ===== *)
(** * The API router: [router/]

    A gateway answers API messages.  [getRequest] decodes a message, looks its
    method up and, for a private method, checks the signature against the
    authorised addresses; [Route] then runs the callback.  The callbacks of
    the census API hand the request to the census manager, with the address of
    the signer as prefix; those of the vote API read the state and the results
    or send a transaction.

    The callbacks run in goroutines: a round of [Route] runs its callback to
    the end.  The mempool, the block store, the remote storage, the JSON codec
    and the health of the machine are parameters ([RouterEnv], [CensusEnv]);
    Tendermint's mempool runs [CheckTx] on what it admits. *)

From stdpp Require Import base gmap strings list fin_maps.
From Stdlib Require Import ZArith Lia Ascii.
From S2P Require Import Prelude GoLib Types StateDB Crypto Codec State Transaction App Database.
From S2P Require Import Scrutinizer Graviton Trie Api Census VochainInfo Node.
Open Scope Z_scope.

Definition MaxListSize : Z := 256.
Definition MaxListIterations : Z := 64.

(** The connection a message came from; nil is [None]. *)
Record Message := mkMessage {
  msg_Data : bytes;
  msg_TimeStamp : Z;
  msg_Context : option Z }.

(** The method values registered as handlers. *)
Inductive Callback :=
  | cb_info
  | cb_fetchFile | cb_addFile | cb_pinList | cb_pinFile | cb_unpinFile
  | cb_censusLocal
  | cb_submitRawTx | cb_submitEnvelope | cb_getEnvelopeStatus | cb_getEnvelope | cb_getEnvelopeHeight
  | cb_getProcessList | cb_getEnvelopeList | cb_getBlockHeight | cb_getProcessKeys | cb_getBlockStatus
  | cb_getProcessCount | cb_getResults | cb_getProcListResults | cb_getProcListLiveResults
  | cb_getScrutinizerEntities | cb_getScrutinizerEntityCount.
#[export] Instance Callback_eq_dec : EqDecision Callback.
Proof. solve_decision. Defined.
Record registeredMethod := mkRegisteredMethod {
  rg_public : bool;
  rg_handler : Callback }.

Record routerRequest := mkRouterRequest {
  rr_MetaRequest : MetaRequest;
  rr_Context : option Z;
  rr_method : string;
  rr_id : string;
  rr_authenticated : bool;
  rr_address : bytes;
  rr_private : bool }.
(** [ethcommon.Address{}]. *)
Definition zero_address : bytes := replicate 20 Byte.x00.
Definition zero_routerRequest : routerRequest := mkRouterRequest zero_request None "" "" false zero_address false.

Class RouterEnv := {
  json_RequestMessage : bytes → res RequestMessage;
  json_MetaRequest : bytes → res MetaRequest;
  (** [crypto.SortedMarshalJSON] of the inner response. *)
  marshal_MetaResponse : MetaResponse → res bytes;
  marshal_ResponseMessage : ResponseMessage → res bytes;
  marshal_pins : gmap string string → res bytes;
  Storage_ListPins : res (gmap string string);
  Storage_Pin : string → res ();
  Storage_Unpin : string → res ();
  getHealth : res Z;
  BlockStore_Time : Z → option Z }.

Section router.
Context {DB L : Type} `{StateDB DB} `{AminoLib} `{CryptoLib} `{TxJSON} `{!EventListener DB L}.
Context `{ScrutinizerCodec} `{!Graviton} `{CensusEnv} `{RouterEnv} `{AddressText} `{Mempool}.
(** [r.Scrutinizer] points to one of the listeners of the state. *)
Variable scrutinizer_of : L → option Scrutinizer.

Record Router := mkRouter {
  r_methods : gmap string registeredMethod;
  r_signer : ethereum.SignKeys;
  r_census : Manager;
  r_vocapp : Node DB L;
  r_vocinfo : VochainInfo;
  r_allowPrivate : bool;
  r_PrivateCalls : Z;
  r_PublicCalls : Z;
  r_APIs : list string;
  r_sent : list Message }.
Abbreviation M := (GM Router).
Definition set_r_methods v (r : Router) : Router :=
  mkRouter v (r_signer r) (r_census r) (r_vocapp r) (r_vocinfo r) (r_allowPrivate r) (r_PrivateCalls r)
    (r_PublicCalls r) (r_APIs r) (r_sent r).
Definition set_r_census v (r : Router) : Router :=
  mkRouter (r_methods r) (r_signer r) v (r_vocapp r) (r_vocinfo r) (r_allowPrivate r) (r_PrivateCalls r)
    (r_PublicCalls r) (r_APIs r) (r_sent r).
Definition set_r_vocapp v (r : Router) : Router :=
  mkRouter (r_methods r) (r_signer r) (r_census r) v (r_vocinfo r) (r_allowPrivate r) (r_PrivateCalls r)
    (r_PublicCalls r) (r_APIs r) (r_sent r).
Definition set_r_vocinfo v (r : Router) : Router :=
  mkRouter (r_methods r) (r_signer r) (r_census r) (r_vocapp r) v (r_allowPrivate r) (r_PrivateCalls r)
    (r_PublicCalls r) (r_APIs r) (r_sent r).
Definition set_r_calls priv pub (r : Router) : Router :=
  mkRouter (r_methods r) (r_signer r) (r_census r) (r_vocapp r) (r_vocinfo r) (r_allowPrivate r) priv
    pub (r_APIs r) (r_sent r).
Definition set_r_APIs v (r : Router) : Router :=
  mkRouter (r_methods r) (r_signer r) (r_census r) (r_vocapp r) (r_vocinfo r) (r_allowPrivate r)
    (r_PrivateCalls r) (r_PublicCalls r) v (r_sent r).
Definition set_r_sent v (r : Router) : Router :=
  mkRouter (r_methods r) (r_signer r) (r_census r) (r_vocapp r) (r_vocinfo r) (r_allowPrivate r)
    (r_PrivateCalls r) (r_PublicCalls r) (r_APIs r) v.

(** ** Registration: [router/router.go] *)

(** A duplicate ends the process ([log.Fatalf]). *)
Definition register (name : string) (m : registeredMethod) : M () :=
  r ← get_st;
  if decide (is_Some (r_methods r !! name)) then lift (Panic "duplicate method")
  else modify (λ r, set_r_methods (<[name := m]> (r_methods r)) r).
Definition registerPrivate (name : string) (h : Callback) : M () := register name (mkRegisteredMethod false h).
Definition registerPublic (name : string) (h : Callback) : M () := register name (mkRegisteredMethod true h).

(** [vocapp] is nil until the vote API is enabled, and so is [vocinfo]; only
    callbacks registered then read them.  The metrics are left out. *)
Definition NewRouter (signer : ethereum.SignKeys) (allowPrivate : bool) (s : Node DB L) : res Router :=
  match registerPublic "getGatewayInfo" cb_info
          (mkRouter ∅ signer new_Manager s NewVochainInfo allowPrivate 0 0 [] []) with
  | (Ok _, r) => Ok r
  | (Err e, _) => Err e
  | (Panic w, _) => Panic w
  end.

Definition EnableFileAPI : M () :=
  _ ← modify (λ r, set_r_APIs (r_APIs r ++ ["file"]) r);
  _ ← registerPublic "fetchFile" cb_fetchFile;
  _ ← registerPrivate "addFile" cb_addFile;
  _ ← registerPrivate "pinList" cb_pinList;
  _ ← registerPrivate "pinFile" cb_pinFile;
  registerPrivate "unpinFile" cb_unpinFile.

(** [if cm.RemoteStorage == nil { cm.RemoteStorage = r.storage }]; [storage]
    tells whether the gateway has one. *)
Definition with_storage (storage : bool) (cm : Manager) : Manager :=
  mkManager (m_StorageDir cm) (m_AuthWindow cm) (m_Census cm) (m_Trees cm) (m_hasRemote cm || storage) (m_importQueue cm) (m_queueSize cm)
    (m_failedQueue cm) (m_disk cm) (m_config cm).
Definition EnableCensusAPI (storage : bool) (cm : Manager) : M () :=
  _ ← modify (λ r, set_r_APIs (r_APIs r ++ ["census"]) r);
  _ ← modify (set_r_census (with_storage storage cm));
  _ ← registerPublic "getRoot" cb_censusLocal;
  _ ← registerPrivate "dump" cb_censusLocal;
  _ ← registerPrivate "dumpPlain" cb_censusLocal;
  _ ← registerPublic "getSize" cb_censusLocal;
  _ ← registerPublic "genProof" cb_censusLocal;
  _ ← registerPublic "checkProof" cb_censusLocal;
  _ ← registerPrivate "addCensus" cb_censusLocal;
  _ ← registerPrivate "addClaim" cb_censusLocal;
  _ ← registerPrivate "addClaimBulk" cb_censusLocal;
  _ ← registerPrivate "publish" cb_censusLocal;
  _ ← registerPrivate "importRemote" cb_censusLocal;
  registerPrivate "getCensusList" cb_censusLocal.

Definition EnableVoteAPI (s : Node DB L) (vi : VochainInfo) (hasScrutinizer : bool) : M () :=
  _ ← modify (λ r, set_r_vocinfo vi (set_r_vocapp s (set_r_APIs (r_APIs r ++ ["vote"]) r)));
  _ ← registerPrivate "submitRawTx" cb_submitRawTx;
  _ ← registerPublic "submitEnvelope" cb_submitEnvelope;
  _ ← registerPublic "getEnvelopeStatus" cb_getEnvelopeStatus;
  _ ← registerPublic "getEnvelope" cb_getEnvelope;
  _ ← registerPublic "getEnvelopeHeight" cb_getEnvelopeHeight;
  _ ← registerPublic "getProcessList" cb_getProcessList;
  _ ← registerPublic "getEnvelopeList" cb_getEnvelopeList;
  _ ← registerPublic "getBlockHeight" cb_getBlockHeight;
  _ ← registerPublic "getProcessKeys" cb_getProcessKeys;
  _ ← registerPublic "getBlockStatus" cb_getBlockStatus;
  _ ← registerPublic "getProcessCount" cb_getProcessCount;
  if (hasScrutinizer : bool) then
    _ ← modify (λ r, set_r_APIs (r_APIs r ++ ["results"]) r);
    _ ← registerPublic "getResults" cb_getResults;
    _ ← registerPublic "getProcListResults" cb_getProcListResults;
    _ ← registerPublic "getProcListLiveResults" cb_getProcListLiveResults;
    _ ← registerPublic "getScrutinizerEntities" cb_getScrutinizerEntities;
    registerPublic "getScrutinizerEntityCount" cb_getScrutinizerEntityCount
  else mret ().

(** ** Replies *)
Definition reply_of (request : routerRequest) (data : bytes) (now : Z) : Message :=
  mkMessage data (i32 now) (rr_Context request).
(** Continues without a signature if there is no key. *)
Definition sign_reply (inner : bytes) (r : Router) : res string :=
  match ethereum.Sign (r_signer r) inner with
  | Ok s => Ok s
  | Err _ => Ok ""
  | Panic w => Panic w
  end.
Definition buildReply (request : routerRequest) (resp : MetaResponse) (now : Z) (r : Router) : res Message :=
  let resp := set_rp_Timestamp (i32 now) (set_rp_Request (rr_id request) (set_rp_Ok true resp)) in
  match marshal_MetaResponse resp with
  | Panic w => Panic w
  | Err e => Ok (reply_of request (s2b e) now)
  | Ok respInner =>
      signature ← sign_reply respInner r;
      match marshal_ResponseMessage (mkResponseMessage respInner (rr_id request) signature) with
      | Panic w => Panic w
      | Err e => Ok (reply_of request (s2b e) now)
      | Ok respData => Ok (reply_of request respData now)
      end
  end.
(** [request.Send]; on a nil context a nil pointer dereference. *)
Definition Send (request : routerRequest) (msg : Message) : M () :=
  match rr_Context request with
  | None => lift (Panic "nil pointer dereference")
  | Some _ => modify (λ r, set_r_sent (r_sent r ++ [msg]) r)
  end.
Definition reply (request : routerRequest) (resp : MetaResponse) (now : Z) : M () :=
  msg ← reads (buildReply request resp now); Send request msg.
Definition sendError (request : routerRequest) (errMsg : error) (now : Z) : M () :=
  let response := SetError errMsg (set_rp_Timestamp (i32 now) (set_rp_Request (rr_id request) zero_response)) in
  match marshal_MetaResponse response with
  | Panic w => lift (Panic w)
  | Err _ => mret ()
  | Ok respInner =>
      signature ← reads (sign_reply respInner);
      match rr_Context request with
      | None => mret ()
      | Some _ =>
          data ← lift (match marshal_ResponseMessage (mkResponseMessage respInner (rr_id request) signature) with
                       | Err _ => Ok []
                       | d => d
                       end);
          Send request (reply_of request data now)
      end
  end.
(** [if err != nil { r.sendError(request, ...); return }]. *)
Definition or_send {A} (request : routerRequest) (now : Z) (msg : error → error) (r : res A) (k : A → M ()) : M () :=
  match r with
  | Ok a => k a
  | Err e => sendError request (msg e) now
  | Panic w => lift (Panic w)
  end.

(** ** Requests *)
Definition getRequest (payload : bytes) (context : option Z) (r : Router) : res (routerRequest * option error) :=
  match json_RequestMessage payload with
  | Panic w => Panic w
  | Err e => Ok (zero_routerRequest, Some e)
  | Ok reqOuter =>
      let request := mkRouterRequest zero_request context "" (rm_ID reqOuter) false zero_address false in
      match json_MetaRequest (rm_MetaRequest reqOuter) with
      | Panic w => Panic w
      | Err e => Ok (request, Some e)
      | Ok reqInner =>
          let with_auth auth addr priv :=
            mkRouterRequest reqInner context (rq_Method reqInner) (rm_ID reqOuter) auth addr priv in
          if decide (rq_Method reqInner = "") then Ok (with_auth false zero_address false, Some "method is empty")
          else match r_methods r !! rq_Method reqInner with
          | None => Ok (with_auth false zero_address false, Some "method not valid")
          | Some method =>
              if rg_public method then Ok (with_auth true zero_address false, None)
              else
                '(auth, addr, err) ←
                  (match ethereum.VerifySender (r_signer r) (rm_MetaRequest reqOuter) (rm_Signature reqOuter) with
                   | Ok (auth, addr) => Ok (auth, addr, None)
                   | Err e => Ok (false, zero_address, Some e)
                   | Panic w => Panic w
                   end);
                let open_ := r_allowPrivate r && negb auth && bool_decide (ethereum.sk_Authorized (r_signer r) = ∅) in
                Ok (with_auth (auth || open_) addr true, err)
          end
      end
  end.

Definition getInfo (request : routerRequest) (now : Z) : M () :=
  r ← get_st;
  health ← lift (match getHealth with Err _ => Ok (-1) | h => h end);
  reply request (set_rp_Health health (set_rp_APIList (r_APIs r) zero_response)) now.

(** ** The file API: [router/fileCallbacks.go] *)

(** [strings.Split] on a one-byte separator. *)
Fixpoint split_on (sep : byte) (s : bytes) : list bytes :=
  match s with
  | [] => [[]]
  | c :: s' =>
      if decide (c = sep) then [] :: split_on sep s'
      else match split_on sep s' with
           | w :: ws => (c :: w) :: ws
           | [] => [[c]]
           end
  end.
Definition parseTransportFromURI (uris : list bytes) : list bytes :=
  map (λ u, default [] (head (split_on Byte.x2f u))) uris.

(** The first address of a known transport is fetched; [None] if there is
    none. *)
Fixpoint fetch_loop (uris : list (bytes * bytes)) : option (res bytes) :=
  match uris with
  | [] => None
  | (t, u) :: uris' =>
      let t := b2s t in
      if decide (t = "ipfs:") then
        Some (content ← Storage_Retrieve (b2s (default [] (last (split_on Byte.x2f u))));
              _ ← guard_err (bool_decide (glen content = 0)) "no content fetched";
              Ok content)
      else if bool_decide (t = "bzz:") || bool_decide (t = "bzz-feed")
      then Some (Err "bzz and bzz-feed not implemented yet")
      else fetch_loop uris'
  end.
Definition fetchFile (request : routerRequest) (now : Z) : M () :=
  let parsedURIs := split_on Byte.x2c (s2b (rq_URI (rr_MetaRequest request))) in
  match fetch_loop (zip (parseTransportFromURI parsedURIs) parsedURIs) with
  | None => sendError request "error fetching file: (not supported)" now
  | Some r =>
      or_send request now (λ e, "error fetching file: (" +:+ e +:+ ")") r (λ content,
        reply request (set_rp_Content (b64_EncodeToString content) zero_response) now)
  end.
(** A type other than ipfs is not answered at all. *)
Definition addFile (request : routerRequest) (now : Z) : M () :=
  let q := rr_MetaRequest request in
  or_send request now (λ _, "could not decode base64 content") (b64_DecodeString (rq_Content q)) (λ content,
    if decide (rq_Type q = "ipfs") then
      or_send request now (λ e, "cannot add file (" +:+ e +:+ ")") (Storage_Publish content) (λ cid,
        reply request (set_rp_URI (URIprefix +:+ cid) zero_response) now)
    else mret ()).
Definition pinList (request : routerRequest) (now : Z) : M () :=
  or_send request now (λ e, "internal error fetching pins (" +:+ e +:+ ")") Storage_ListPins (λ pins,
    or_send request now (λ e, "internal error parsing pins (" +:+ e +:+ ")") (marshal_pins pins) (λ json,
      reply request (set_rp_Files json zero_response) now)).
Definition pinFile (request : routerRequest) (now : Z) : M () :=
  or_send request now (λ e, "error pinning file (" +:+ e +:+ ")") (Storage_Pin (rq_URI (rr_MetaRequest request)))
    (λ _, reply request zero_response now).
Definition unpinFile (request : routerRequest) (now : Z) : M () :=
  or_send request now (λ e, "could not unpin file (" +:+ e +:+ ")") (Storage_Unpin (rq_URI (rr_MetaRequest request)))
    (λ _, reply request zero_response now).

(** ** The census API: [router/censusCallbacks.go] *)
Definition on_manager {A} (op : GM Manager A) : M A := λ r,
  let '(a, m) := op (r_census r) in (a, set_r_census m r).
(** An address has always 20 bytes. *)
Definition census_prefix (addr : bytes) : string := TrimHex (Address_String addr) +:+ "/".
Definition censusLocal (request : routerRequest) (now : Z) : M () :=
  resp ← on_manager (Handler (rr_MetaRequest request) (rr_authenticated request) (census_prefix (rr_address request)) now);
  if rp_Ok resp then reply request resp now else sendError request (rp_Message resp) now.

(** ** The vote API: [router/voteCallbacks.go] *)
Definition on_vocapp {A} (op : GM (Node DB L) A) : M A := λ r,
  let '(a, n) := op (r_vocapp r) in (a, set_r_vocapp n r).
Definition the_scrutinizer (r : Router) : res Scrutinizer :=
  match scrutinizer_of (eventListeners (n_State (r_vocapp r))) with
  | Some s => Ok s
  | None => Panic "nil pointer dereference"
  end.

Definition submitRawTx (request : routerRequest) (now : Z) : M () :=
  or_send request now id (b64_DecodeString (rq_RawTx (rr_MetaRequest request))) (λ tx,
    r ← try_ (on_vocapp (node_SendTX tx now));
    or_send request now id r (λ res,
      if decide (rt_Code res ≠ 0) then sendError request (sprintf_x (rt_Data res)) now
      else reply request (set_rp_Payload (sprintf_x (rt_Data res)) zero_response) now)).

Definition vote_tx_args (p : VoteTx) : VoteTx :=
  mkVoteTx (vt_EncryptionKeyIndexes p) (vt_Nonce p) (vt_Nullifier p) (vt_ProcessID p) (vt_Proof p) (vt_Signature p)
    "vote" (vt_VotePackage p) [].
Definition submitEnvelope (request : routerRequest) (now : Z) : M () :=
  match rq_Payload (rr_MetaRequest request) with
  | None => sendError request "payload is empty" now
  | Some p =>
      or_send request now (λ _, "cannot marshal voteTx args") (marshal_VoteTx (vote_tx_args p)) (λ voteTxBytes,
        r ← try_ (on_vocapp (node_SendTX voteTxBytes now));
        or_send request now (λ e, "cannot broadcast tx: " +:+ e) r (λ res,
          if decide (rt_Code res ≠ 0) then sendError request (b2s (rt_Data res)) now
          else reply request (set_rp_Nullifier (sprintf_x (rt_Data res)) zero_response) now))
  end.

(** The checks of a hexadecimal field: prefix cut, length, decoding. *)
Definition hex_field (request : routerRequest) (now : Z) (s : string) (len : Z) (malformed undecodable : error)
    (k : bytes → M ()) : M () :=
  let s := TrimHex s in
  if negb (IsHexEncodedStringWithLength s len) then sendError request malformed now
  else or_send request now (λ _, undecodable) (hex_DecodeString s) k.
(** The process id, then the nullifier: lengths first, then the decoding.
    [getEnvelope] cuts the prefix of the nullifier a second time. *)
Definition envelope_fields (request : routerRequest) (now : Z) (what : error) (trim : string → string)
    (k : bytes → bytes → M ()) : M () :=
  let pid := TrimHex (rq_ProcessID (rr_MetaRequest request)) in
  let nullifier := TrimHex (rq_Nullifier (rr_MetaRequest request)) in
  if negb (IsHexEncodedStringWithLength pid ProcessIDsize)
  then sendError request ("cannot get envelope" +:+ what +:+ ": (malformed processId)") now
  else if negb (IsHexEncodedStringWithLength nullifier VoteNullifierSize)
  then sendError request ("cannot get envelope" +:+ what +:+ ": (malformed nullifier)") now
  else
    or_send request now (λ _, "cannot decode processID") (hex_DecodeString pid) (λ pid,
      or_send request now (λ e, "cannot decode nullifier: (" +:+ e +:+ ")") (hex_DecodeString (trim nullifier)) (k pid)).

(** An error of [Envelope] reads as "not registered". *)
Definition getEnvelopeStatus (request : routerRequest) (now : Z) : M () :=
  envelope_fields request now " status" id (λ pid nullifier,
    r ← get_st;
    let response := set_rp_Registered (Some false) zero_response in
    match Envelope (node_store (r_vocapp r)) pid nullifier true with
    | Panic w => lift (Panic w)
    | Err _ => reply request response now
    | Ok e =>
        match BlockStore_Time (v_Height e) with
        | None => sendError request "failed getting envelope block timestamp" now
        | Some t =>
            reply request (set_rp_BlockTimestamp (i32 t) (set_rp_Height (Some (v_Height e))
              (set_rp_Nullifier (sprintf_x (v_Nullifier e)) (set_rp_Registered (Some true) response)))) now
        end
    end).
Definition getEnvelope (request : routerRequest) (now : Z) : M () :=
  envelope_fields request now "" TrimHex (λ pid nullifier,
    r ← get_st;
    or_send request now (λ e, "cannot get envelope: (" +:+ e +:+ ")")
      (Envelope (node_store (r_vocapp r)) pid nullifier true) (λ e,
        reply request (set_rp_Payload (v_VotePackage e) (set_rp_Registered (Some true) zero_response)) now)).
Definition getEnvelopeHeight (request : routerRequest) (now : Z) : M () :=
  hex_field request now (rq_ProcessID (rr_MetaRequest request)) ProcessIDsize
    "cannot get envelope height: (malformed processId)" "cannot decode processID" (λ pid,
      r ← get_st;
      votes ← lift (CountVotes (node_store (r_vocapp r)) pid true);
      reply request (set_rp_Height (Some votes) zero_response) now).

(** [&State.Header(true).Height]: nil if there is no header. *)
Definition last_header (r : Router) : res Header :=
  h ← Header_ (node_store (r_vocapp r)) true;
  match h with Some h => Ok h | None => Panic "nil pointer dereference" end.
Definition getBlockHeight (request : routerRequest) (now : Z) : M () :=
  h ← reads last_header;
  reply request (set_rp_BlockTimestamp (i32 (h_Time h)) (set_rp_Height (Some (h_Height h)) zero_response)) now.
Definition getBlockStatus (request : routerRequest) (now : Z) : M () :=
  r ← get_st;
  h ← reads last_header;
  reply request (set_rp_BlockTimestamp (i32 (h_Time h)) (set_rp_Height (Some (h_Height h))
    (set_rp_BlockTime (Some (BlockTimes (r_vocinfo r))) zero_response))) now.

Definition list_max (n : Z) : Z := if bool_decide (MaxListIterations < n) || bool_decide (n ≤ 0) then MaxListIterations else n.
Definition process_list_args (q : MetaRequest) : res (bytes * bytes) :=
  let eid := TrimHex (rq_EntityId q) in
  _ ← guard_err (negb (IsHexEncodedStringWithLength eid EntityIDsize) &&
                 negb (IsHexEncodedStringWithLength eid EntityIDsizeV2))
        "cannot get process list: (malformed entityId)";
  let from := if decide (0 < slen (rq_FromID q)) then TrimHex (rq_FromID q) else rq_FromID q in
  _ ← guard_err (bool_decide (0 < slen (rq_FromID q)) && negb (IsHexEncodedStringWithLength from ProcessIDsize))
        "cannot get process list: (malformed fromId)";
  eid ← or_err "cannot decode entityID" (hex_DecodeString eid);
  from ← (if decide (from ≠ "") then or_err "cannot decode fromID" (hex_DecodeString from) else Ok []);
  Ok (eid, from).
Definition getProcessList (request : routerRequest) (now : Z) : M () :=
  or_send request now id (process_list_args (rr_MetaRequest request)) (λ '(eid, fromID),
    sc ← reads the_scrutinizer;
    or_send request now (λ e, "cannot get entity process list: (" +:+ e +:+ ")")
      (ProcessList eid fromID (list_max (rq_ListSize (rr_MetaRequest request))) sc) (λ processList,
        let response := set_rp_ProcessList (map sprintf_x processList) zero_response in
        reply request
          (if decide (glen processList = 0)
           then set_rp_Message "entity does not exist or has not yet created a process" response
           else set_rp_Size (Some (glen processList)) response) now)).
Definition getProcessCount (request : routerRequest) (now : Z) : M () :=
  count ← reads (λ r, CountProcesses (node_store (r_vocapp r)) true);
  reply request (set_rp_Size (Some count) zero_response) now.
Definition getScrutinizerEntityCount (request : routerRequest) (now : Z) : M () :=
  sc ← reads the_scrutinizer;
  reply request (set_rp_Size (Some (EntityCount sc)) zero_response) now.

(** The non-empty slots with their indexes. *)
Fixpoint keys_from (idx : Z) (l : list string) : list Key :=
  match l with
  | [] => []
  | k :: l' => if decide (0 < slen k) then mkKey idx k :: keys_from (idx + 1) l' else keys_from (idx + 1) l'
  end.
Definition getProcessKeys (request : routerRequest) (now : Z) : M () :=
  hex_field request now (rq_ProcessID (rr_MetaRequest request)) ProcessIDsize
    "cannot get envelope height: (malformed processId)" "cannot decode processID" (λ pid,
      r ← get_st;
      or_send request now (λ e, "cannot get process encryption public keys: (" +:+ e +:+ ")")
        (Process_ (node_store (r_vocapp r)) pid true) (λ process,
          reply request
            (set_rp_RevealKeys (keys_from 0 (p_RevealKeys process))
            (set_rp_CommitmentKeys (keys_from 0 (p_CommitmentKeys process))
            (set_rp_EncryptionPrivKeys (keys_from 0 (p_EncryptionPrivateKeys process))
            (set_rp_EncryptionPublicKeys (keys_from 0 (p_EncryptionPublicKeys process)) zero_response)))) now)).

Definition getEnvelopeList (request : routerRequest) (now : Z) : M () :=
  let q := rr_MetaRequest request in
  let pid := TrimHex (rq_ProcessID q) in
  if negb (IsHexEncodedStringWithLength pid ProcessIDsize)
  then sendError request "cannot get envelope list: (malformed processId)" now
  else if decide (MaxListSize < rq_ListSize q) then sendError request "listSize overflow, maximum is 256" now
  else
    let listSize := if decide (rq_ListSize q = 0) then 64 else rq_ListSize q in
    or_send request now (λ _, "cannot decode processID") (hex_DecodeString pid) (λ pid,
      r ← get_st;
      let nullifiers := EnvelopeList (node_store (r_vocapp r)) pid (rq_From q) listSize true in
      reply request (set_rp_Nullifiers (Some (map sprintf_x nullifiers)) zero_response) now).

Definition getResults (request : routerRequest) (now : Z) : M () :=
  hex_field request now (rq_ProcessID (rr_MetaRequest request)) ProcessIDsize
    "cannot get results: (malformed processId)" "cannot decode processID" (λ pid,
      r ← get_st;
      sc ← reads the_scrutinizer;
      or_send request now id (ProcessInfo (node_store (r_vocapp r)) pid) (λ procInfo,
        let response := set_rp_State (if p_Canceled procInfo then "canceled" else "active")
                          (set_rp_Type (p_Type procInfo) zero_response) in
        let vr := (VoteResult (node_store (r_vocapp r)) pid sc).1 in
        or_send request now id
          (match vr with
           | Ok vr => Ok (vr, false)
           | Err e => if decide (e = ErrNoResultsYet) then Ok ([], true) else Err e
           | Panic w => Panic w
           end) (λ '(vr, noResults),
             let response := if (noResults : bool) then set_rp_Message ErrNoResultsYet response else response in
             votes ← lift (CountVotes (node_store (r_vocapp r)) pid true);
             reply request (set_rp_Height (Some votes) (set_rp_Results vr response)) now))).

Definition getProcListResults (request : routerRequest) (now : Z) : M () :=
  let q := rr_MetaRequest request in
  sc ← reads the_scrutinizer;
  or_send request now (λ _, "cannot decode fromID") (ProcessListWithResults (list_max (rq_ListSize q)) (rq_FromID q) sc)
    (λ ids, reply request (set_rp_ProcessIDs ids zero_response) now).
Definition getProcListLiveResults (request : routerRequest) (now : Z) : M () :=
  let q := rr_MetaRequest request in
  sc ← reads the_scrutinizer;
  or_send request now id (ProcessListWithLiveResults (list_max (rq_ListSize q)) (rq_FromID q) sc)
    (λ ids, reply request (set_rp_ProcessIDs ids zero_response) now).
Definition getScrutinizerEntities (request : routerRequest) (now : Z) : M () :=
  let q := rr_MetaRequest request in
  sc ← reads the_scrutinizer;
  or_send request now id (EntityList (list_max (rq_ListSize q)) (rq_FromID q) sc)
    (λ ids, reply request (set_rp_EntityIDs ids zero_response) now).

(** ** Routing *)
Definition run_callback (cb : Callback) (request : routerRequest) (now : Z) : M () :=
  match cb with
  | cb_info => getInfo request now
  | cb_fetchFile => fetchFile request now
  | cb_addFile => addFile request now
  | cb_pinList => pinList request now
  | cb_pinFile => pinFile request now
  | cb_unpinFile => unpinFile request now
  | cb_censusLocal => censusLocal request now
  | cb_submitRawTx => submitRawTx request now
  | cb_submitEnvelope => submitEnvelope request now
  | cb_getEnvelopeStatus => getEnvelopeStatus request now
  | cb_getEnvelope => getEnvelope request now
  | cb_getEnvelopeHeight => getEnvelopeHeight request now
  | cb_getProcessList => getProcessList request now
  | cb_getEnvelopeList => getEnvelopeList request now
  | cb_getBlockHeight => getBlockHeight request now
  | cb_getProcessKeys => getProcessKeys request now
  | cb_getBlockStatus => getBlockStatus request now
  | cb_getProcessCount => getProcessCount request now
  | cb_getResults => getResults request now
  | cb_getProcListResults => getProcListResults request now
  | cb_getProcListLiveResults => getProcListLiveResults request now
  | cb_getScrutinizerEntities => getScrutinizerEntities request now
  | cb_getScrutinizerEntityCount => getScrutinizerEntityCount request now
  end.
Definition count_call (private : bool) (r : Router) : Router :=
  if private then set_r_calls (u64 (r_PrivateCalls r + 1)) (r_PublicCalls r) r
  else set_r_calls (r_PrivateCalls r) (u64 (r_PublicCalls r + 1)) r.
(** One message of the inbound channel. *)
Definition Route (data : bytes) (context : option Z) (now : Z) : M () :=
  p ← reads (getRequest data context);
  let '(request, err) := p in
  r ← get_st;
  match rr_authenticated request, err with
  | false, Some e => sendError request e now
  | _, _ =>
      match r_methods r !! rr_method request with
      | None => sendError request ("router has no method " +:+ rr_method request) now
      | Some method =>
          if negb (rg_public method) && negb (rr_authenticated request)
          then sendError request ("authentication is required for " +:+ rr_method request) now
          else
            _ ← modify (count_call (rr_private request));
            run_callback (rg_handler method) request now
      end
  end.
End router.
