(* ===== verification/RouterFacts.v ===== *)
(** * The API router: who can change what

    [census_changes_signed]: on a gateway that has been set up and has served
    any number of messages, a message changes the censuses only if it carries
    the signature of an authorised address, and then only below the prefix of
    that address.  [api_keeps_chain]: no message changes the state of the
    chain.  [envelope_status_answer]: what the status of a vote is answered. *)

From stdpp Require Import base gmap strings list fin_maps.
From Stdlib Require Import ZArith Lia.
From S2P Require Import Prelude GoLib Types StateDB Crypto Codec State Transaction App StateFacts Database.
From S2P Require Import Operations Scrutinizer ScrutinizerFacts Graviton Trie Api Census CensusFacts VochainInfo Node Router.
From S2P Require Import IavlState Invariant Concrete Safety Results CensusConcrete TrieFacts.
Open Scope Z_scope.

Section facts.
Context {DB L : Type} `{StateDB DB} `{AminoLib} `{CryptoLib} `{TxJSON} `{!EventListener DB L}.
Context `{ScrutinizerCodec} `{!Graviton} `{CensusEnv} `{RouterEnv} `{AddressText} `{Mempool}.
Context (scrutinizer_of : L → option Scrutinizer).
Implicit Types (r : Router (DB := DB) (L := L)).

(** ** What every callback keeps *)

(** The registered methods, the keys, the store of the chain. *)
Definition same_gate r r' : Prop :=
  r_methods r' = r_methods r ∧ r_signer r' = r_signer r ∧ r_allowPrivate r' = r_allowPrivate r ∧
  node_store (r_vocapp r') = node_store (r_vocapp r).
#[local] Instance same_gate_refl : Reflexive same_gate.
Proof. done. Qed.
#[local] Instance same_gate_trans : Transitive same_gate.
Proof. intros r1 r2 r3 (?&?&?&?) (?&?&?&?). split_and!; congruence. Qed.
(** And the censuses. *)
Definition same_census r r' : Prop := same_gate r r' ∧ r_census r' = r_census r.
#[local] Instance same_census_refl : Reflexive same_census.
Proof. done. Qed.
#[local] Instance same_census_trans : Transitive same_census.
Proof. intros r1 r2 r3 [? ?] [? ?]. split; [by etransitivity|congruence]. Qed.

Lemma reply_census request resp now : stays same_census (reply request resp now).
Proof. unfold reply, Send. stays_tac. done. Qed.
Lemma sendError_census request e now : stays same_census (sendError request e now).
Proof. unfold sendError, Send. stays_tac; done. Qed.
#[local] Hint Resolve reply_census sendError_census : stays.
Lemma or_send_census {A} request now msg (x : res A) k :
  (∀ a, stays same_census (k a)) → stays same_census (or_send request now msg x k).
Proof. intros Hk. unfold or_send. stays_tac. Qed.
Lemma SendTX_census tx now : stays same_census (on_vocapp (node_SendTX tx now)).
Proof.
  intros r. unfold on_vocapp. pose proof (node_SendTX_store tx now (r_vocapp r)) as Hs.
  by destruct (node_SendTX tx now (r_vocapp r)).
Qed.
#[local] Hint Resolve SendTX_census : stays.

Lemma hex_field_census request now s len e1 e2 k :
  (∀ a, stays same_census (k a)) → stays same_census (hex_field request now s len e1 e2 k).
Proof. intros Hk. unfold hex_field. stays_tac. by apply or_send_census. Qed.
Lemma envelope_fields_census request now e trim k :
  (∀ a b, stays same_census (k a b)) → stays same_census (envelope_fields request now e trim k).
Proof. intros Hk. unfold envelope_fields. stays_tac. do 2 (apply or_send_census; intros ?). done. Qed.

Ltac callback_tac :=
  repeat first
    [ stays_step
    | lazymatch goal with
      | |- stays _ (or_send _ _ _ _ _) => apply or_send_census; intros ?
      | |- stays _ (hex_field _ _ _ _ _ _ _) => apply hex_field_census; intros ?
      | |- stays _ (envelope_fields _ _ _ _ _) => apply envelope_fields_census; intros ? ?
      end ].

Lemma run_callback_census cb request now : cb ≠ cb_censusLocal →
  stays same_census (run_callback scrutinizer_of cb request now).
Proof.
  intros Hcb. destruct cb; try done; simpl;
    unfold getInfo, fetchFile, addFile, pinList, pinFile, unpinFile, submitRawTx, submitEnvelope, getEnvelopeStatus,
      getEnvelope, getEnvelopeHeight, getProcessList, getEnvelopeList, getBlockHeight, getProcessKeys, getBlockStatus,
      getProcessCount, getResults, getProcListResults, getProcListLiveResults, getScrutinizerEntities,
      getScrutinizerEntityCount; callback_tac.
Qed.

(** ** The census callback *)
Lemma censusLocal_run request now r :
  let r' := (censusLocal request now r).2 in
  same_gate r r' ∧
  r_census r' = (Handler (rr_MetaRequest request) (rr_authenticated request) (census_prefix (rr_address request)) now
                   (r_census r)).2.
Proof.
  unfold censusLocal. rewrite GM_run. unfold on_manager. destruct (Handler _ _ _ _ _) as [[resp|e|w] m]; [|done..].
  assert (∀ k : GM Router (), stays same_census k → same_gate r (k (set_r_census m r)).2 ∧ r_census (k (set_r_census m r)).2 = m) as Hk.
  { intros k Hk. destruct (Hk (set_r_census m r)) as [Hg Hc]. split; [|done]. exact Hg. }
  destruct (rp_Ok resp); apply Hk; auto with stays.
Qed.
Lemma run_callback_gate cb request now : stays same_gate (run_callback scrutinizer_of cb request now).
Proof.
  intros r. destruct (decide (cb = cb_censusLocal)) as [->|Hne].
  - apply censusLocal_run.
  - by apply run_callback_census.
Qed.

(** ** Requests *)
Lemma getRequest_signed data context r request err : getRequest data context r = Ok (request, err) →
  rr_authenticated request = true → 
  ∃ method, r_methods r !! rq_Method (rr_MetaRequest request) = Some method ∧
    rr_method request = rq_Method (rr_MetaRequest request) ∧
    (rg_public method = true ∨
     ∃ outer, json_RequestMessage data = Ok outer ∧ json_MetaRequest (rm_MetaRequest outer) = Ok (rr_MetaRequest request) ∧
       (ethereum.VerifySender (r_signer r) (rm_MetaRequest outer) (rm_Signature outer) = Ok (true, rr_address request) ∨
        r_allowPrivate r = true ∧ ethereum.sk_Authorized (r_signer r) = ∅)).
Proof.
  unfold getRequest. intros Hr Ha. destruct (json_RequestMessage data) as [outer|e|w]; [|by simplify_eq..].
  destruct (json_MetaRequest _) as [inner|e|w] eqn:Ei; [|by simplify_eq..].
  case_decide; [by simplify_eq|]. destruct (r_methods r !! rq_Method inner) as [method|] eqn:Em; [|by simplify_eq].
  destruct (rg_public method) eqn:Ep; [by simplify_eq; eauto 10|].
  destruct (ethereum.VerifySender _ _ _) as [[auth addr]|e|w] eqn:Ev; simplify_eq/=; [|].
  - exists method. split_and!; [done..|]. right. exists outer. split_and!; [done..|].
    destruct auth; [by left|]. simpl in Ha. go_bool. by right.
  - exists method. split_and!; [done..|]. right. exists outer. split_and!; [done..|]. simpl in Ha. go_bool. by right.
Qed.
Lemma getRequest_refused data context r request : getRequest data context r = Ok (request, None) →
  rr_authenticated request = false → ∃ method, r_methods r !! rr_method request = Some method ∧ rg_public method = false.
Proof.
  unfold getRequest. intros Hr Ha. destruct (json_RequestMessage data) as [outer|e|w]; [|by simplify_eq..].
  destruct (json_MetaRequest _) as [inner|e|w] eqn:Ei; [|by simplify_eq..].
  case_decide; [by simplify_eq|]. destruct (r_methods r !! rq_Method inner) as [method|] eqn:Em; [|by simplify_eq].
  destruct (rg_public method) eqn:Ep; [by simplify_eq|]. exists method.
  destruct (ethereum.VerifySender _ _ _) as [[auth addr]|e|w]; by simplify_eq/=.
Qed.

(** ** The life of a gateway *)

(** Set up with some of the APIs, then serving messages. *)
Inductive gateway_reach : Router (DB := DB) (L := L) → Prop :=
  | reach_new signer allowPrivate s r : NewRouter signer allowPrivate s = Ok r → gateway_reach r
  | reach_file r r' : gateway_reach r → EnableFileAPI r = (Ok (), r') → gateway_reach r'
  | reach_census r b cm r' : gateway_reach r → EnableCensusAPI b cm r = (Ok (), r') → gateway_reach r'
  | reach_vote r s vi b r' : gateway_reach r → EnableVoteAPI s vi b r = (Ok (), r') → gateway_reach r'
  | reach_message r data context now r' : gateway_reach r →
      Route scrutinizer_of data context now r = (Ok (), r') → gateway_reach r'.

(** The census methods open to anyone are the reading ones. *)
Definition census_methods r : Prop :=
  ∀ name m, r_methods r !! name = Some m → rg_handler m = cb_censusLocal → rg_public m = true → name ∈ read_methods.
Definition registers r r' : Prop := census_methods r → census_methods r'.
#[local] Instance registers_refl : Reflexive registers.
Proof. intros r Hr. exact Hr. Qed.
#[local] Instance registers_trans : Transitive registers.
Proof. unfold registers. auto. Qed.
Lemma register_ok name m :
  (rg_handler m = cb_censusLocal → rg_public m = true → name ∈ read_methods) → stays registers (register name m).
Proof.
  intros Hm. unfold register. stays_tac. intros Hr name' m'. simpl. destruct (decide (name' = name)) as [->|Hne].
  - rewrite lookup_insert_eq. by intros [= <-].
  - rewrite lookup_insert_ne by done. apply Hr.
Qed.
Lemma registerPrivate_ok name h : stays registers (registerPrivate name h).
Proof. by apply register_ok. Qed.
Lemma registerPublic_ok name h : h ≠ cb_censusLocal ∨ name ∈ read_methods → stays registers (registerPublic name h).
Proof. intros Hh. apply register_ok. simpl. naive_solver. Qed.
#[local] Hint Resolve registerPrivate_ok : stays.
#[local] Hint Extern 1 (stays registers (registerPublic _ _)) =>
  apply registerPublic_ok; first [left; discriminate | right; unfold read_methods; set_solver] : stays.

Lemma EnableFileAPI_ok : stays registers EnableFileAPI.
Proof. unfold EnableFileAPI. stays_tac. intros Hr. exact Hr. Qed.
Lemma EnableCensusAPI_ok b cm : stays registers (EnableCensusAPI b cm).
Proof. unfold EnableCensusAPI. stays_tac; intros Hr; exact Hr. Qed.
Lemma EnableVoteAPI_ok s vi b : stays registers (EnableVoteAPI s vi b).
Proof. unfold EnableVoteAPI. stays_tac; intros Hr; exact Hr. Qed.

Lemma count_call_same b r : same_census r (count_call b r).
Proof. by destruct b. Qed.
(** What a message does: nothing but an answer, or the callback of its method
    on an authenticated request. *)
Lemma Route_run data context now r :
  let r' := (Route scrutinizer_of data context now r).2 in
  same_census r r' ∨
  ∃ request err method r1, getRequest data context r = Ok (request, err) ∧ rr_authenticated request = true ∧
    r_methods r !! rr_method request = Some method ∧ same_census r r1 ∧
    r' = (run_callback scrutinizer_of (rg_handler method) request now r1).2.
Proof.
  unfold Route. rewrite GM_run. unfold reads. destruct (getRequest data context r) as [[request err]|e|w] eqn:Er; [|by left..].
  rewrite GM_run. cbn [get_st].
  destruct (rr_authenticated request) eqn:Ea.
  - destruct (r_methods r !! rr_method request) as [method|] eqn:Em; [|left; apply sendError_census].
    rewrite andb_false_r. right. exists request, err, method, (count_call (rr_private request) r).
    split_and!; [done..| |done]. apply count_call_same.
  - destruct err as [e|]; [left; apply sendError_census|].
    destruct (getRequest_refused _ _ _ _ Er Ea) as (method & -> & ->). left. apply sendError_census.
Qed.
Lemma Route_gate data context now : stays same_gate (Route scrutinizer_of data context now).
Proof.
  intros r. destruct (Route_run data context now r) as [[Hg _]|(request & err & method & r1 & _ & _ & _ & [Hg _] & ->)];
    [done|]. etransitivity; [exact Hg|]. apply run_callback_gate.
Qed.
Lemma gateway_census_methods r : gateway_reach r → census_methods r.
Proof.
  induction 1 as [signer ap s r Hn|r r' _ IH Hr|r b cm r' _ IH Hr|r s vi b r' _ IH Hr|r data ctx now r' _ IH Hr].
  - unfold NewRouter in Hn. destruct (registerPublic _ _ _) as [[]] eqn:E; simplify_eq.
    assert (stays registers (registerPublic (DB := DB) (L := L) "getGatewayInfo" cb_info)) as Hs by auto with stays.
    apply (stays_run _ _ _ _ _ Hs) in E. apply E. done.
  - exact (stays_run _ _ _ _ _ EnableFileAPI_ok Hr IH).
  - exact (stays_run _ _ _ _ _ (EnableCensusAPI_ok b cm) Hr IH).
  - exact (stays_run _ _ _ _ _ (EnableVoteAPI_ok s vi b) Hr IH).
  - apply (stays_run _ _ _ _ _ (Route_gate _ _ _)) in Hr as (Hm & _). unfold census_methods. by rewrite Hm.
Qed.

(** C21: no API message, of whatever method and signer, changes the store of
    the chain, the registered methods or the keys of the gateway. *)
Theorem api_keeps_chain data context now r : same_gate r (Route scrutinizer_of data context now r).2.
Proof. apply Route_gate. Qed.

(** Who signed a message. *)
Definition signed_by r data (addr : bytes) : Prop :=
  ∃ outer, json_RequestMessage data = Ok outer ∧
    ethereum.VerifySender (r_signer r) (rm_MetaRequest outer) (rm_Signature outer) = Ok (true, addr).

(** C8: on a gateway in service, a message changes the censuses (their list,
    or a tree beyond its access time) only if it is signed by an authorised
    address, and then a listed census whose name does not start with that
    address keeps its tree; or the gateway has been opened to everyone: private
    methods allowed and no address authorised. *)
Theorem census_changes_signed data context now r r' res : gateway_reach r →
  Route scrutinizer_of data context now r = (res, r') →
  unchanged (r_census r) (r_census r') ∨
  (∃ addr, signed_by r data addr ∧ addr ∈ ethereum.sk_Authorized (r_signer r) ∧
     kept (outside true (census_prefix addr)) (r_census r) (r_census r')) ∨
  (r_allowPrivate r = true ∧ ethereum.sk_Authorized (r_signer r) = ∅).
Proof.
  intros Hreach Hr. pose proof (Route_run data context now r) as Hrun. rewrite Hr in Hrun. cbn [snd] in Hrun.
  destruct Hrun as [[_ Hc]|(request & err & method & r1 & Hreq & Ha & Hm & [_ Hc] & ->)].
  { left. by rewrite Hc. }
  destruct (decide (rg_handler method = cb_censusLocal)) as [Eh|Hne].
  2: { left. destruct (run_callback_census _ request now Hne r1) as [_ Hc']. by rewrite Hc', Hc. }
  rewrite Eh. destruct (censusLocal_run request now r1) as [_ E]. cbn [run_callback]. rewrite E, Ha, Hc.
  destruct (getRequest_signed _ _ _ _ _ Hreq Ha) as (method' & Hm' & Hname & Hauth).
  assert (method' = method) as -> by (rewrite Hname in Hm; congruence).
  destruct Hauth as [Hp|(outer & Ho & Hi & [Hv|Hopen])].
  - left. apply Handler_read_unchanged. eapply gateway_census_methods; eauto.
  - right; left. exists (rr_address request). split_and!.
    + by exists outer.
    + unfold ethereum.VerifySender in Hv. go_inv Hv. simplify_eq. by case_bool_decide.
    + apply Handler_kept.
  - by do 2 right.
Qed.

(** ** A missing scrutinizer *)
Lemma registerPublic_run name h r r' : registerPublic name h r = (Ok (), r') →
  r_methods r' = <[name := mkRegisteredMethod true h]> (r_methods r) ∧ r_vocapp r' = r_vocapp r.
Proof.
  unfold registerPublic, register. rewrite GM_run. cbn [get_st]. case_decide; [done|]. by intros [= <-].
Qed.
Lemma registerPrivate_run name h r r' : registerPrivate name h r = (Ok (), r') →
  r_methods r' = <[name := mkRegisteredMethod false h]> (r_methods r) ∧ r_vocapp r' = r_vocapp r.
Proof.
  unfold registerPrivate, register. rewrite GM_run. cbn [get_st]. case_decide; [done|]. by intros [= <-].
Qed.
Lemma EnableVoteAPI_registers s vi r r' : EnableVoteAPI s vi false r = (Ok (), r') →
  r_methods r' !! "getProcessList" = Some (mkRegisteredMethod true cb_getProcessList) ∧ r_vocapp r' = s.
Proof.
  unfold EnableVoteAPI. intros Hr. go_inv Hr.
  repeat match goal with
  | Hx : registerPublic _ _ _ = (Ok (), _) |- _ => apply registerPublic_run in Hx as [? ?]
  | Hx : registerPrivate _ _ _ = (Ok (), _) |- _ => apply registerPrivate_run in Hx as [? ?]
  end.
  split; [|simpl in *; congruence].
  repeat match goal with Hm : r_methods ?x = _ |- context [r_methods ?x !! _] =>
    rewrite Hm; first [rewrite lookup_insert_eq; done | rewrite lookup_insert_ne by done] end.
Qed.

(** A gateway that serves the vote API but not the results one has no
    scrutinizer, and serves getProcessList all the same: any well-formed
    message of that method ends the process. *)
Theorem process_list_crashes data context now s vi r r' outer inner args :
  EnableVoteAPI s vi false r = (Ok (), r') → scrutinizer_of (eventListeners (n_State s)) = None →
  json_RequestMessage data = Ok outer → json_MetaRequest (rm_MetaRequest outer) = Ok inner →
  rq_Method inner = "getProcessList" → process_list_args inner = Ok args →
  (Route scrutinizer_of data context now r').1 = Panic "nil pointer dereference".
Proof.
  intros [Hm Hs]%EnableVoteAPI_registers Hsc Ho Hi Hmeth Hargs.
  unfold Route. rewrite GM_run. unfold reads, getRequest. rewrite Ho, Hi, Hmeth, decide_False, Hm by done.
  cbn [rg_public]. rewrite GM_run. cbn [get_st rr_authenticated rr_method]. rewrite Hm. cbn [rg_public negb andb].
  rewrite GM_run. cbn [modify rr_private rg_handler run_callback]. unfold getProcessList. cbn [rr_MetaRequest].
  rewrite Hargs. destruct args as [eid from]. cbn [or_send]. rewrite GM_run. unfold reads, the_scrutinizer.
  cbn [r_vocapp count_call set_r_calls]. by rewrite Hs, Hsc.
Qed.
End facts.

(** ** The status of a vote *)
Section status.
Context {DB L : Type} `{StateDBSpec DB} `{AminoLib} `{CryptoLib} `{TxJSON} `{!EventListener DB L}.
Context `{ScrutinizerCodec} `{!Graviton} `{CensusEnv} `{RouterEnv} `{AddressText} `{Mempool}.

(** What is answered about a vote: what the chain has committed under the
    process and the nullifier, with the time of its block. *)
Definition status_response (v : option Vote) : option MetaResponse :=
  match v with
  | None => Some (set_rp_Registered (Some false) zero_response)
  | Some v =>
      t ← BlockStore_Time (v_Height v);
      Some (set_rp_BlockTimestamp (i32 t) (set_rp_Height (Some (v_Height v))
              (set_rp_Nullifier (sprintf_x (v_Nullifier v)) (set_rp_Registered (Some true) zero_response))))
  end.

(** A request for the status of a vote is answered "registered", with
    the nullifier, height and time of the vote, exactly when the committed
    state of the chain holds a vote of that process and nullifier. *)
Theorem envelope_status_answer request now (r : Router (DB := DB) (L := L)) pid nul resp :
  store_ok (node_store (r_vocapp r)) → length pid = 32%nat → length nul = 32%nat →
  rq_ProcessID (rr_MetaRequest request) = sprintf_x pid → rq_Nullifier (rr_MetaRequest request) = sprintf_x nul →
  status_response (cvote (node_store (r_vocapp r)) (pid ++ nul)) = Some resp →
  getEnvelopeStatus request now r = reply request resp now r.
Proof.
  intros Hok Hp Hn Epid Enul Hresp. unfold getEnvelopeStatus, envelope_fields. rewrite Epid, Enul, !TrimHex_sprintf_x.
  change ProcessIDsize with (Z.of_nat 32). change VoteNullifierSize with (Z.of_nat 32).
  rewrite (hex_size pid 32), (hex_size nul 32) by done. cbn [negb]. unfold id. rewrite !hex_DecodeString_sprintf_x.
  cbn [or_send]. rewrite GM_run. cbn [get_st].
  pose proof (Envelope_cvote (node_store (r_vocapp r)) pid nul) as He.
  destruct (Envelope (node_store (r_vocapp r)) pid nul true) as [v|e|w] eqn:Ee.
  - specialize (He v Hok Hp Hn). destruct He as [Hcv _]. rewrite (Hcv eq_refl) in Hresp. simpl in Hresp.
    destruct (BlockStore_Time (v_Height v)) as [t|]; [|done]. by injection Hresp as <-.
  - destruct (cvote _ _) as [v|]; [by destruct (He v Hok Hp Hn) as [_ Hx]; specialize (Hx eq_refl)|]. by injection Hresp as <-.
  - pose proof (Envelope_no_panic (node_store (r_vocapp r)) pid nul true) as Hnp. by rewrite Ee in Hnp.
Qed.
End status.

(** ** A gateway

    A simple codec: a message is the signature, a bar and the fields of the
    request separated by bars. *)
Definition field (n : nat) (b : bytes) : string := b2s (default [] (split_on Byte.x7c b !! n)).
#[local] Instance concrete_router : RouterEnv := {|
  json_RequestMessage b := Ok (mkRequestMessage (drop (S (length (s2b (field 0 b)))) b) "1" (field 0 b));
  json_MetaRequest b :=
    Ok (set_rq_Method (field 0 b) (set_rq_CensusID (field 1 b) (set_rq_ProcessID (field 2 b)
          (set_rq_Nullifier (field 3 b) (set_rq_EntityId (field 4 b) zero_request)))));
  marshal_MetaResponse r := Ok (s2b (rp_Message r +:+ rp_Nullifier r));
  marshal_ResponseMessage m := Ok (sm_MetaResponse m);
  marshal_pins _ := Ok [];
  Storage_ListPins := Ok ∅;
  Storage_Pin _ := Ok ();
  Storage_Unpin _ := Ok ();
  getHealth := Ok 99;
  BlockStore_Time h := Some (1600000000 + h) |}.
#[local] Instance plain_addresses : AddressText := {| Address_String := sprintf_x |}.
#[local] Instance open_mempool : Mempool := {| mempool_admits _ _ := Ok () |}.
Definition inner_msg (fields : list string) : bytes := s2b (String.concat "|" fields).
Definition signed_msg (k : byte) (fields : list string) : bytes :=
  s2b (sign k (inner_msg fields)) ++ Byte.x7c :: inner_msg fields.

Definition no_scrutinizer : () → option Scrutinizer := λ _, None.
Definition chain : Node _ () := mkNode (node_at (block1 ++ block2)) [].
(** The gateway of authorised key 6, with the census API. *)
Definition gateway_keys : ethereum.SignKeys :=
  ethereum.AddAuthKey (PubkeyToAddress (Byte.x06 : ecdsa_PublicKey)) ethereum.NewSignKeys.
Definition new_gateway : Router :=
  match NewRouter gateway_keys true chain with
  | Ok r => r
  | _ => mkRouter ∅ gateway_keys gateway chain NewVochainInfo true 0 0 [] []
  end.
Definition census_gateway : Router := (EnableCensusAPI true gateway new_gateway).2.
Lemma census_gateway_reach : gateway_reach no_scrutinizer census_gateway.
Proof.
  assert (is_ok (NewRouter gateway_keys true chain) = true) as Hn by (by vm_compute).
  assert ((EnableCensusAPI true gateway new_gateway).1 = Ok ()) as Hc by (by vm_compute).
  eapply (reach_census _ new_gateway true gateway).
  - eapply (reach_new _ gateway_keys true chain). unfold new_gateway.
    destruct (NewRouter gateway_keys true chain); [reflexivity|discriminate..].
  - exact (run_eq (EnableCensusAPI true gateway) new_gateway (Ok ()) Hc).
Qed.
Definition add_census_msg : bytes := signed_msg Byte.x06 ["addCensus"; "friends"].
(** Key 6 adds a census of its own; the census "members" keeps its tree. *)
Lemma census_changes_signed_witness :
  let r' := (Route no_scrutinizer add_census_msg (Some 7) 100 census_gateway).2 in
  length (nss_Namespaces (m_Census (r_census r'))) = 2%nat ∧
  (unchanged (r_census census_gateway) (r_census r') ∨
   (∃ addr, signed_by census_gateway add_census_msg addr ∧ addr ∈ ethereum.sk_Authorized (r_signer census_gateway) ∧
      kept (outside true (census_prefix addr)) (r_census census_gateway) (r_census r')) ∨
   (r_allowPrivate census_gateway = true ∧ ethereum.sk_Authorized (r_signer census_gateway) = ∅)).
Proof.
  intros r'. split; [by vm_compute|].
  exact (census_changes_signed no_scrutinizer add_census_msg (Some 7) 100 census_gateway _ _ census_gateway_reach
           (surjective_pairing _)).
Defined.

Definition vote_gateway : Router := (EnableVoteAPI chain NewVochainInfo false new_gateway).2.
Definition list_msg : bytes := signed_msg Byte.x09 ["getProcessList"; ""; ""; ""; sprintf_x (replicate 20 Byte.x22)].
Definition list_request (msg : bytes) : MetaRequest :=
  match json_RequestMessage msg with
  | Ok outer => match json_MetaRequest (rm_MetaRequest outer) with Ok q => q | _ => zero_request end
  | _ => zero_request
  end.
Lemma process_list_crashes_witness :
  (Route no_scrutinizer list_msg (Some 7) 100 vote_gateway).1 = Panic "nil pointer dereference".
Proof.
  assert ((EnableVoteAPI chain NewVochainInfo false new_gateway).1 = Ok ()) as He by (by vm_compute).
  assert (process_list_args (list_request list_msg) = Ok (replicate 20 Byte.x22, [])) as Ha by (by vm_compute).
  eapply (process_list_crashes no_scrutinizer list_msg (Some 7) 100 chain NewVochainInfo new_gateway vote_gateway);
    [exact (run_eq (EnableVoteAPI chain NewVochainInfo false) new_gateway (Ok ()) He)|reflexivity|reflexivity|reflexivity|
     by vm_compute|exact Ha].
Defined.

Definition status_request : routerRequest :=
  mkRouterRequest (set_rq_ProcessID (sprintf_x pid1) (set_rq_Nullifier (sprintf_x (nullifier_of voter)) zero_request))
    (Some 7) "getEnvelopeStatus" "1" true zero_address false.
Definition registered_response : MetaResponse :=
  default zero_response (status_response (Some vote1)).
Lemma vote_gateway_chain : r_vocapp vote_gateway = chain.
Proof.
  assert ((EnableVoteAPI chain NewVochainInfo false new_gateway).1 = Ok ()) as He by (by vm_compute).
  exact (proj2 (EnableVoteAPI_registers _ _ _ _
    (run_eq (EnableVoteAPI chain NewVochainInfo false) new_gateway (Ok ()) He))).
Qed.
Lemma chain_ok : store_ok (node_store chain).
Proof. apply si_ok, node_at_inv, block12_runs. Qed.
Lemma envelope_status_answer_witness :
  rp_Registered registered_response = Some true ∧
  getEnvelopeStatus status_request 100 vote_gateway = reply status_request registered_response 100 vote_gateway.
Proof.
  split; [by vm_compute|].
  assert (length pid1 = 32%nat) as Hp by (by vm_compute).
  assert (length (nullifier_of voter) = 32%nat) as Hn by (by vm_compute).
  apply (envelope_status_answer status_request 100 vote_gateway pid1 (nullifier_of voter));
    rewrite ?vote_gateway_chain; [exact chain_ok|exact Hp|exact Hn|reflexivity|reflexivity|].
  rewrite (proj1 (Envelope_cvote (node_store chain) pid1 (nullifier_of voter) vote1 chain_ok Hp Hn) vote1_committed).
  reflexivity.
Defined.
