(* ===== verification/EthEvents.v ===== *)
(** * The Ethereum oracle: [chain/ethevents/], [chain/contractWrappers.go]

    The oracle watches the events of the voting contract.  An event waits in a
    queue, so that a reverted block can take it back, and is then given to the
    handlers: [HandleVochainOracle] turns the creation or cancellation of a
    process into a signed transaction for the vochain, [HandleCensus] queues
    the census of a new process for import.

    The contract, its ABI and the Ethereum client are parameters
    ([EthereumEnv]).  The queue holds pointers: the receiving loop of
    [runEventProcessor] declares its variable [evt] once and queues [&evt], so
    every entry of the queue shows the event received last; [ep_evt] is that
    variable. *)

From stdpp Require Import base gmap strings list fin_maps.
From Stdlib Require Import ZArith Lia.
From S2P Require Import Prelude GoLib Types StateDB Crypto Codec State Transaction App Database.
From S2P Require Import Graviton Trie Api Census Node.
Open Scope Z_scope.

(** The fields of [ethtypes.Log] that are used. *)
Record Log := mkLog {
  lg_Topics : list bytes;
  lg_Data : bytes;
  lg_TxHash : bytes;
  lg_TxIndex : Z;
  lg_Removed : bool }.
Definition zero_log : Log := mkLog [] [] (replicate 32 Byte.x00) 0 false.

Definition ethereumEventList : list string :=
  ["GenesisChanged(string)"; "ChainIdChanged(uint)"; "ProcessCreated(address,bytes32,string)";
   "ProcessCanceled(address,bytes32)"; "ValidatorAdded(string)"; "ValidatorRemoved(string)"; "OracleAdded(string)";
   "OracleRemoved(string)"; "PrivateKeyPublished(bytes32,string)"; "ResultsPublished(bytes32,string)"].

(** What the contract answers about a process; a nil big integer is [None]. *)
Record processMetadata := mkProcessMetadata {
  pm_EntityAddress : bytes;
  pm_CensusMerkleRoot : string;
  pm_CensusMerkleTree : string;
  pm_NumberOfBlocks : option Z;
  pm_StartBlock : option Z;
  pm_ProcessType : string }.

(** [abi.Unpack] of the events (the id of the process), [VotingProcess.Get],
    and [SortedMarshalJSON] of the transactions. *)
Class EthereumEnv := {
  unpack_ProcessCreated : bytes → res bytes;
  unpack_ProcessCanceled : bytes → res bytes;
  unpack_OracleAdded : bytes → res string;
  VotingProcess_Get : bytes → res processMetadata;
  sorted_NewProcessTx : NewProcessTx → res bytes;
  sorted_CancelProcessTx : CancelProcessTx → res bytes }.

Section events.
Context {DB L : Type} `{StateDB DB} `{AminoLib} `{CryptoLib} `{TxJSON} `{!EventListener DB L}.
Context `{!Graviton} `{CensusEnv} `{Mempool} `{AddressText} `{EthereumEnv}.

(** ** The contract: [chain/contractWrappers.go] *)

(** [big.Int.Int64] keeps the low 64 bits. *)
Definition big_Int64 (z : option Z) : Z := match z with Some z => i64 z | None => 0 end.
Definition ProcessTxArgs (pid : bytes) : res NewProcessTx :=
  meta ← or_err "error fetching process from Ethereum" (VotingProcess_Get pid);
  eid ← or_err "error decoding entity address" (hex_DecodeString (TrimHex (Address_String (pm_EntityAddress meta))));
  Ok (mkNewProcessTx (sprintf_x (ethereum.HashRaw eid)) (pm_CensusMerkleRoot meta) (pm_CensusMerkleTree meta)
        (big_Int64 (pm_NumberOfBlocks meta)) (sprintf_x pid)
        (if valid_process_type (pm_ProcessType meta) then pm_ProcessType meta else "") ""
        (big_Int64 (pm_StartBlock meta)) "newProcess" []).
Definition CancelProcessTxArgs (pid : bytes) : res CancelProcessTx :=
  _ ← or_err "error fetching process from Ethereum" (VotingProcess_Get pid);
  Ok (mkCancelProcessTx (sprintf_x pid) "" "cancelProcess" []).

(** ** The handlers: [chain/ethevents/handlers.go] *)
Inductive EventHandler := HandleVochainOracle_ | HandleCensus_.

Record EventProcessor := mkEventProcessor {
  ep_evt : Log;
  ep_eventQueue : gmap string Z;
  ep_EventProcessThreshold : Z }.
Record EthereumEvents := mkEthereumEvents {
  ev_EventHandlers : list EventHandler;
  ev_Signer : ethereum.SignKeys;
  ev_VochainApp : Node DB L;
  ev_Census : Manager;
  ev_EventProcessor : EventProcessor }.
Abbreviation M := (GM EthereumEvents).
Definition set_ev_EventHandlers v (e : EthereumEvents) : EthereumEvents :=
  mkEthereumEvents v (ev_Signer e) (ev_VochainApp e) (ev_Census e) (ev_EventProcessor e).
Definition set_ev_VochainApp v (e : EthereumEvents) : EthereumEvents :=
  mkEthereumEvents (ev_EventHandlers e) (ev_Signer e) v (ev_Census e) (ev_EventProcessor e).
Definition set_ev_Census v (e : EthereumEvents) : EthereumEvents :=
  mkEthereumEvents (ev_EventHandlers e) (ev_Signer e) (ev_VochainApp e) v (ev_EventProcessor e).
Definition set_ev_EventProcessor v (e : EthereumEvents) : EthereumEvents :=
  mkEthereumEvents (ev_EventHandlers e) (ev_Signer e) (ev_VochainApp e) (ev_Census e) v.

(** The threshold is of 60 seconds.  Dialling the endpoint and reading the ABI
    of the contract, which may fail before this, are left out. *)
Definition NewEthEvents (signer : ethereum.SignKeys) (cens : Manager) (vocapp : Node DB L) : EthereumEvents :=
  mkEthereumEvents [] signer vocapp cens (mkEventProcessor zero_log ∅ 60).
Definition AddEventHandler (h : EventHandler) (e : EthereumEvents) : EthereumEvents :=
  set_ev_EventHandlers (ev_EventHandlers e ++ [h]) e.

Definition processMeta (eventData : bytes) : res NewProcessTx := pid ← unpack_ProcessCreated eventData; ProcessTxArgs pid.
Definition cancelProcessMeta (eventData : bytes) : res CancelProcessTx :=
  pid ← unpack_ProcessCanceled eventData; CancelProcessTxArgs pid.

(** [SignKeys.SignJSON], on the sorted bytes. *)
Definition SignJSON (k : ethereum.SignKeys) (raw : res bytes) : res string :=
  raw ← or_err "unable to marshal message to sign" raw;
  sig ← or_err "error signing response body" (ethereum.Sign k raw);
  Ok ("0x" +:+ TrimHex sig).
Definition on_node {A} (op : GM (Node DB L) A) : M A := λ e,
  let '(a, n) := op (ev_VochainApp e) in (a, set_ev_VochainApp n e).
Definition sign_NewProcessTx (k : ethereum.SignKeys) (tx : NewProcessTx) : res bytes :=
  sig ← or_err "cannot sign oracle tx" (SignJSON k (sorted_NewProcessTx tx));
  or_err "error marshaling process tx" (marshal_NewProcessTx
    (mkNewProcessTx (np_EntityID tx) (np_MkRoot tx) (np_MkURI tx) (np_NumberOfBlocks tx) (np_ProcessID tx)
       (np_ProcessType tx) sig (np_StartBlock tx) (np_Type tx) (np_SignedBytes tx))).
Definition sign_CancelProcessTx (k : ethereum.SignKeys) (tx : CancelProcessTx) : res bytes :=
  sig ← or_err "cannot sign oracle tx" (SignJSON k (sorted_CancelProcessTx tx));
  or_err "error marshaling process tx" (marshal_CancelProcessTx
    (mkCancelProcessTx (cp_ProcessID tx) sig (cp_Type tx) (cp_SignedBytes tx))).
(** The code of the answer is not looked at. *)
Definition broadcast (tx : bytes) (now : Z) : M () :=
  r ← try_ (on_node (node_SendTX tx now));
  lift (match r with Ok _ => Ok () | Err _ => Err "cannot broadcast tx" | Panic w => Panic w end).

Definition handle_created (event : Log) (now : Z) : M () :=
  e ← get_st;
  processTx ← lift (processMeta (lg_Data event));
  pid ← lift (hex_DecodeString (np_ProcessID processTx));
  match Process_ (node_store (ev_VochainApp e)) pid true with
  | Panic w => lift (Panic w)
  | Ok _ => mret ()
  | Err err =>
      if decide (err ≠ ErrProcessNotFound) then lift (Err err)
      else
        tx ← lift (sign_NewProcessTx (ev_Signer e) processTx);
        broadcast tx now
  end.
Definition handle_canceled (event : Log) (now : Z) : M () :=
  e ← get_st;
  cancelTx ← lift (cancelProcessMeta (lg_Data event));
  pid ← lift (hex_DecodeString (cp_ProcessID cancelTx));
  p ← lift (Process_ (node_store (ev_VochainApp e)) pid true);
  if p_Canceled p then mret ()
  else
    tx ← lift (sign_CancelProcessTx (ev_Signer e) cancelTx);
    broadcast tx now.
(** [crypto.Keccak256Hash] of the n-th event. *)
Definition event_hash (n : nat) : bytes := Keccak256 (s2b (default "" (ethereumEventList !! n))).
(** The other events are stubs. *)
Definition HandleVochainOracle (event : Log) (now : Z) : M () :=
  topic ← lift (go_index (lg_Topics event) 0);
  if bool_decide (topic = event_hash 0) || bool_decide (topic = event_hash 1) then mret ()
  else if decide (topic = event_hash 2) then handle_created event now
  else if decide (topic = event_hash 3) then handle_canceled event now
  else if bool_decide (topic = event_hash 4) || bool_decide (topic = event_hash 5) then mret ()
  else if decide (topic = event_hash 6) then _ ← lift (unpack_OracleAdded (lg_Data event)); mret ()
  else mret ().

Definition HandleCensus (event : Log) : M () :=
  topic ← lift (go_index (lg_Topics event) 0);
  if decide (topic ≠ event_hash 2) then mret ()
  else
    processTx ← lift (processMeta (lg_Data event));
    _ ← lift (guard_err (negb (has_prefix (s2b URIprefix) (s2b (np_MkURI processTx))) ||
                         bool_decide (slen (np_MkRoot processTx) = 0)) "process not valid");
    modify (λ e, set_ev_Census (AddToImportQueue (np_MkRoot processTx) (np_MkURI processTx) (ev_Census e)) e).

Definition run_handler (h : EventHandler) (event : Log) (now : Z) : M () :=
  match h with HandleVochainOracle_ => HandleVochainOracle event now | HandleCensus_ => HandleCensus event end.
Definition run_handlers (event : Log) (now : Z) : M () :=
  e ← get_st; for_each (ev_EventHandlers e) (λ h, logged (run_handler h event now)).

(** ** The queue: [chain/ethevents/events.go] *)

(** The loop of [processEventLogsFromTo] over past events. *)
Definition processEventLogs (logs : list Log) (now : Z) : M () := for_each logs (λ event, run_handlers event now).

(** [fmt.Sprintf("%x%d", e.TxHash, e.TxIndex)]. *)
Definition eventID (e : Log) : string := sprintf_x (lg_TxHash e) +:+ sprintf_d (lg_TxIndex e).
Definition set_ep_queue q (ep : EventProcessor) : EventProcessor :=
  mkEventProcessor (ep_evt ep) q (ep_EventProcessThreshold ep).
Definition ep_add (e : Log) (now : Z) (ep : EventProcessor) : EventProcessor :=
  set_ep_queue (<[eventID e := now]> (ep_eventQueue ep)) ep.
Definition ep_del (e : Log) (ep : EventProcessor) : EventProcessor :=
  set_ep_queue (delete (eventID e) (ep_eventQueue ep)) ep.
(** Go ranges over the queue in an order it leaves open: the first entry of
    [order] that is old enough. *)
Definition ready (now : Z) (ep : EventProcessor) (id : string) : bool :=
  match ep_eventQueue ep !! id with
  | Some added => bool_decide (ep_EventProcessThreshold ep ≤ now - added)
  | None => false
  end.
Definition ep_next (order : list string) (now : Z) (ep : EventProcessor) : option Log * EventProcessor :=
  match List.find (ready now ep) order with
  | None => (None, ep)
  | Some id => (Some (ep_evt ep), set_ep_queue (delete id (ep_eventQueue ep)) ep)
  end.

(** A round of the receiving loop: the event is stored into the shared
    variable and its address queued.  The JSON text of the event, made for the
    log, is taken to exist. *)
Definition receive (event : Log) (now : Z) (ep : EventProcessor) : EventProcessor :=
  let ep := mkEventProcessor event (ep_eventQueue ep) (ep_EventProcessThreshold ep) in
  if lg_Removed event then ep_del event ep else ep_add event now ep.
(** A round of the processing loop. *)
Definition process_next (order : list string) (now : Z) : M () :=
  e ← get_st;
  let '(event, ep) := ep_next order now (ev_EventProcessor e) in
  _ ← modify (set_ev_EventProcessor ep);
  match event with
  | Some event => run_handlers event now
  | None => mret ()
  end.
End events.
