(* ===== verification/EthFacts.v ===== *)
(** * The Ethereum oracle: from an event to a process of the vochain

    [oracle_creates_process]: the transaction the oracle makes of a process of
    the contract is accepted by the vochain, which then stores the process
    with the parameters of the contract.  [only_last_event_handled]: the queue
    of events does not keep the events. *)

From stdpp Require Import base gmap strings list fin_maps.
From Stdlib Require Import ZArith Lia.
From S2P Require Import Prelude GoLib Types StateDB Crypto Codec State Transaction App StateFacts Invariant.
From S2P Require Import Operations Database Graviton Trie Api Census Node EthEvents.
From S2P Require Import IavlState Concrete Safety CensusConcrete.
Open Scope Z_scope.

(** A signature recovers to the key that made it. *)
Class SignLaws `{CryptoLib} := {
  sl_Public : ecdsa_PrivateKey → ecdsa_PublicKey;
  law_Sign h k : length h = 32%nat → ∃ sig v, ecdsa_Sign h k = Some sig ∧ length sig = 65%nat ∧ sig !! 64%nat = Some v ∧ b2z v ≤ 1 ∧
    SigToPub h sig = Some (sl_Public k) }.
(** [encoding/json] on the transactions of the oracle: what is printed is read
    back; the fields of the struct are in alphabetical order, so sorting them
    changes nothing. *)
Class OracleJSONLaws `{TxJSON} `{EthereumEnv} := {
  law_json_NewProcessTx tx : np_SignedBytes tx = [] →
    ∃ b, marshal_NewProcessTx tx = Ok b ∧ json_NewProcessTx b = Ok tx ∧ json_type b = Ok (np_Type tx);
  law_sorted_NewProcessTx tx : sorted_NewProcessTx tx = marshal_NewProcessTx tx }.
Class AddressLaws `{AddressText} := {
  law_Address_String a : length a = 20%nat → hex_DecodeString (TrimHex (Address_String a)) = Ok a }.

Section signing.
Context `{CryptoLaws} `{!SignLaws}.

Lemma TrimHex_0x s : TrimHex ("0x" +:+ s) = s.
Proof. done. Qed.
Lemma normalise_recovery_id sig v : sig !! 64%nat = Some v → b2z v ≤ 1 → ethereum.normalise_recovery sig = Ok sig.
Proof.
  intros Hv Hle. unfold ethereum.normalise_recovery. rewrite (go_index_eq sig 64 v) by (done || lia). cbn [mbind res_bind].
  rewrite decide_False by lia. rewrite bool_decide_eq_false_2 by lia. cbn [guard_err mbind res_bind].
  by rewrite list_insert_id.
Qed.
(** The key of the signer is what is recovered from the signature. *)
Lemma Sign_recovers k priv raw : ethereum.sk_Private k = Some priv →
  ∃ sig, ethereum.Sign k raw = Ok (sprintf_x sig) ∧ length sig = 65%nat ∧
    ∀ pre, pre = "" ∨ pre = "0x" →
      ethereum.PubKeyFromSignature raw (pre +:+ sprintf_x sig) = Ok (sprintf_x (FromECDSAPub (sl_Public priv))).
Proof.
  intros Hk. destruct (law_Sign (ethereum.Hash raw) priv (law_Keccak_len _)) as (sig & v & Hs & Hl & Hv & Hle & Hp).
  exists sig. unfold ethereum.Sign. rewrite Hk. cbn [mbind res_bind of_option]. rewrite Hs. split_and!; [done..|].
  intros pre Hpre. unfold ethereum.PubKeyFromSignature.
  assert (TrimHex (pre +:+ sprintf_x sig) = sprintf_x sig) as -> by (destruct Hpre as [->| ->]; [apply TrimHex_sprintf_x|apply TrimHex_0x]).
  rewrite slen_sprintf_x. unfold glen. rewrite Hl.
  rewrite !bool_decide_eq_false_2 by (unfold ethereum.SignatureLength; lia). cbn [orb guard_err mbind res_bind].
  rewrite hex_DecodeString_sprintf_x. cbn [mbind res_bind]. rewrite (normalise_recovery_id _ _ Hv Hle).
  cbn [mbind res_bind]. rewrite Hp. cbn [of_option mbind res_bind]. by rewrite ethereum.DecompressPubKey_compressed.
Qed.
Lemma SignJSON_recovers k priv raw : ethereum.sk_Private k = Some priv →
  ∃ sig, SignJSON k (Ok raw) = Ok sig ∧ ethereum.AddrFromSignature raw sig = Ok (PubkeyToAddress (sl_Public priv)).
Proof.
  intros Hk. destruct (Sign_recovers k priv raw Hk) as (sig & Hs & _ & Hp). exists ("0x" +:+ sprintf_x sig).
  unfold SignJSON. cbn [or_err mbind res_bind]. rewrite Hs. cbn [or_err mbind res_bind]. rewrite TrimHex_sprintf_x. split; [done|].
  unfold ethereum.AddrFromSignature. rewrite Hp by by right. cbn [mbind res_bind]. by rewrite ethereum.hexToPubKey_uncompressed.
Qed.
End signing.

Section oracle.
Context {DB L : Type} `{StateDBSpec DB} `{AminoLaws} `{CryptoLaws} `{!SignLaws} `{!EventListener DB L}.
Context `{EthereumEnv} `{OracleJSONLaws} `{AddressLaws} `{Mempool} `{!Graviton} `{CensusEnv}.
Implicit Types (d : DB) (s : State DB L).

(** The transaction for a process of the contract. *)
Definition contract_tx (pid : bytes) (meta : processMetadata) : NewProcessTx :=
  mkNewProcessTx (sprintf_x (ethereum.HashRaw (pm_EntityAddress meta))) (pm_CensusMerkleRoot meta)
    (pm_CensusMerkleTree meta) (big_Int64 (pm_NumberOfBlocks meta)) (sprintf_x pid) (pm_ProcessType meta) ""
    (big_Int64 (pm_StartBlock meta)) "newProcess" [].
Lemma ProcessTxArgs_Ok pid meta : VotingProcess_Get pid = Ok meta → length (pm_EntityAddress meta) = 20%nat →
  valid_process_type (pm_ProcessType meta) = true → ProcessTxArgs pid = Ok (contract_tx pid meta).
Proof.
  intros Hg Ha Hv. unfold ProcessTxArgs. rewrite Hg. cbn [or_err mbind res_bind].
  rewrite law_Address_String by done. cbn [or_err mbind res_bind]. by rewrite Hv.
Qed.

(** What the vochain decodes from the bytes the oracle sends. *)
Definition delivered_tx (tx : NewProcessTx) (sig : string) (raw : bytes) : NewProcessTx :=
  mkNewProcessTx (TrimHex (np_EntityID tx)) (TrimHex (np_MkRoot tx)) (np_MkURI tx) (np_NumberOfBlocks tx)
    (TrimHex (np_ProcessID tx)) (np_ProcessType tx) sig (np_StartBlock tx) (np_Type tx) raw.
Lemma sign_NewProcessTx_Ok k priv tx : ethereum.sk_Private k = Some priv →
  np_Signature tx = "" → np_SignedBytes tx = [] → np_Type tx = "newProcess" →
  ∃ b sig raw, sign_NewProcessTx k tx = Ok b ∧ UnmarshalTx b = Ok (GNewProcessTx (delivered_tx tx sig raw)) ∧
    ethereum.AddrFromSignature raw sig = Ok (PubkeyToAddress (sl_Public priv)).
Proof.
  intros Hk Hsig Hsb Hty. destruct (law_json_NewProcessTx tx Hsb) as (raw & Hraw & _ & _).
  destruct (SignJSON_recovers k priv raw Hk) as (sig & Hs & Ha).
  set (signed := mkNewProcessTx (np_EntityID tx) (np_MkRoot tx) (np_MkURI tx) (np_NumberOfBlocks tx) (np_ProcessID tx)
       (np_ProcessType tx) sig (np_StartBlock tx) (np_Type tx) (np_SignedBytes tx)).
  destruct (law_json_NewProcessTx signed Hsb) as (b & Hb & Hj & Ht).
  exists b, sig, raw. split_and!; [| |done].
  - unfold sign_NewProcessTx. rewrite law_sorted_NewProcessTx, Hraw, Hs. cbn [or_err mbind res_bind].
    fold signed. by rewrite Hb.
  - unfold UnmarshalTx. rewrite Ht. cbn [or_err mbind res_bind]. subst signed. cbn [np_Type]. rewrite Hty.
    rewrite decide_False by (by vm_compute). cbn -[finish_NewProcessTx]. rewrite Hj. cbn -[finish_NewProcessTx].
    unfold finish_NewProcessTx. simpl.
    assert (mkNewProcessTx (np_EntityID tx) (np_MkRoot tx) (np_MkURI tx) (np_NumberOfBlocks tx) (np_ProcessID tx)
      (np_ProcessType tx) "" (np_StartBlock tx) (np_Type tx) (np_SignedBytes tx) = tx) as ->
      by (destruct tx; simpl in *; by subst).
    by rewrite Hraw.
Qed.

(** A vochain ready to take the process: the oracle is among its oracles, the
    process is new and does not start in the past. *)
Definition expects (addr pid : bytes) (tx : NewProcessTx) d : Prop :=
  store_inv d ∧ (∃ os, Oracles d false = Ok os ∧ addr ∈ HexToAddress <$> os) ∧
  (∃ h, Header_ d false = Ok (Some h) ∧ h_Height h ≤ np_StartBlock tx) ∧
  0 < np_NumberOfBlocks tx ∧ Process_ d pid false = Err ErrProcessNotFound.

(** The process the vochain makes of it. *)
Definition contract_process (meta : processMetadata) : Process :=
  let keys := if ProcessRequireKeys (pm_ProcessType meta) then empty_keys else [] in
  mkProcess false keys keys keys (ethereum.HashRaw (pm_EntityAddress meta)) 0 (TrimHex (pm_CensusMerkleRoot meta))
    (big_Int64 (pm_NumberOfBlocks meta)) false keys (big_Int64 (pm_StartBlock meta)) (pm_ProcessType meta).

Lemma verify_oracle os addr raw sig : addr ∈ HexToAddress <$> os → ethereum.AddrFromSignature raw sig = Ok addr →
  verifySignatureAgainstOracles os raw sig = Ok (true, addr).
Proof.
  intros Hin Ha. unfold verifySignatureAgainstOracles, ethereum.VerifySender. rewrite Ha. cbn [mbind res_bind].
  rewrite bool_decide_eq_true_2; [done|]. by apply oracle_keys_spec.
Qed.
Lemma oracles_or_fail_Ok d os addr : Oracles d false = Ok os → addr ∈ HexToAddress <$> os → oracles_or_fail d = Ok os.
Proof. intros Ho Hin. unfold oracles_or_fail. rewrite Ho. destruct os; [by apply not_elem_of_nil in Hin|done]. Qed.

Lemma contract_tx_checks pid meta addr sig raw d : length pid = 32%nat →
  valid_process_type (pm_ProcessType meta) = true → ethereum.AddrFromSignature raw sig = Ok addr →
  expects addr pid (contract_tx pid meta) d →
  NewProcessTxCheck (delivered_tx (contract_tx pid meta) sig raw) d = Ok (contract_process meta).
Proof.
  intros Hp Hv Ha (Hi & (os & Ho & Hin) & (h & Hh & Hle) & Hn & Hnew).
  assert (length (ethereum.HashRaw (pm_EntityAddress meta)) = 32%nat) as Hl by apply law_Keccak_len.
  unfold NewProcessTxCheck, delivered_tx, contract_tx. cbn [np_EntityID np_MkRoot np_MkURI np_NumberOfBlocks np_ProcessID np_ProcessType np_Signature np_StartBlock
    np_Type np_SignedBytes].
  rewrite !TrimHex_sprintf_x. change ProcessIDsize with (Z.of_nat 32). change EntityIDsizeV2 with (Z.of_nat 32).
  rewrite (hex_size pid 32), (hex_size _ 32 Hl) by done. rewrite andb_false_r. cbn [negb guard_err mbind res_bind].
  rewrite !hex_DecodeString_sprintf_x. cbn [mbind res_bind].
  rewrite (oracles_or_fail_Ok _ _ _ Ho Hin). cbn [mbind res_bind]. rewrite Hh. cbn [mbind res_bind of_option].
  cbn [np_StartBlock np_NumberOfBlocks contract_tx] in Hle, Hn.
  rewrite (bool_decide_eq_false_2 (big_Int64 (pm_StartBlock meta) < h_Height h)) by lia. cbn [guard_err mbind res_bind].
  rewrite (bool_decide_eq_false_2 (big_Int64 (pm_NumberOfBlocks meta) ≤ 0)) by lia. cbn [guard_err mbind res_bind].
  rewrite (verify_oracle _ _ _ _ Hin Ha). cbn [mbind res_bind negb guard_err]. rewrite Hnew. cbn [mbind res_bind].
  by rewrite Hv.
Qed.

Lemma DeliverTx_Store b gtx now s : UnmarshalTx b = Ok gtx → Store (DeliverTx b now s).2 = Store (AddTx gtx now true s).2.
Proof.
  intros Hu. unfold DeliverTx. rewrite GM_run. unfold try_. rewrite GM_run. unfold lift. rewrite Hu.
  by destruct (AddTx gtx now true s) as [[]].
Qed.
Lemma delivered_stored b tx p pid now s : UnmarshalTx b = Ok (GNewProcessTx tx) → store_inv (Store s) →
  NewProcessTxCheck tx (Store s) = Ok p → hex_DecodeString (np_ProcessID tx) = Ok pid → p_Type p ≠ "" →
  Process_ (Store (DeliverTx b now s).2) pid false = Ok p.
Proof.
  intros Hu Hi Hc Hd Hty. rewrite (DeliverTx_Store _ _ _ _ Hu). simpl. rewrite bind_run, on_store_run, Hc.
  rewrite bind_mret_Store, bind_run, lift_run, Hd. eapply process_written_read.
  apply AddProcess_effect; [apply Hi|done].
Qed.


(** ** The queue of events *)

(** The events given to the handlers in some rounds of the processing loop. *)
Fixpoint handled (rounds : list (list string * Z)) (ep : EventProcessor) : list Log :=
  match rounds with
  | [] => []
  | (order, now) :: rounds' =>
      let '(event, ep') := ep_next order now ep in
      option_list event ++ handled rounds' ep'
  end.
Definition received (events : list (Log * Z)) (ep : EventProcessor) : EventProcessor :=
  foldl (λ ep p, receive p.1 p.2 ep) ep events.

Lemma receive_evt e now ep : ep_evt (receive e now ep) = e.
Proof. unfold receive. by destruct (lg_Removed e). Qed.
Lemma ep_next_evt order now ep event ep' : ep_next order now ep = (event, ep') →
  ep_evt ep' = ep_evt ep ∧ ∀ e, event = Some e → e = ep_evt ep.
Proof. unfold ep_next. case_match; intros [= <- <-]; naive_solver. Qed.

(** Whatever events have come in, with whatever delay and in whatever
    order the queue is read, every event the handlers get is the one received
    last: the events queued before it are lost. *)
Theorem only_last_event_handled events e t rounds ep x :
  x ∈ handled rounds (received (events ++ [(e, t)]) ep) → x = e.
Proof.
  unfold received. rewrite foldl_app. simpl. pose proof (receive_evt e t (foldl (λ ep p, receive p.1 p.2 ep) ep events)) as He.
  revert He. generalize (receive e t (foldl (λ ep p, receive p.1 p.2 ep) ep events)).
  induction rounds as [|[order now] rounds IH]; intros ep' He; simpl; [by intros ?%not_elem_of_nil|].
  destruct (ep_next order now ep') as [event ep2] eqn:En. apply ep_next_evt in En as [E Hev].
  rewrite elem_of_app. intros [Hx|Hx].
  - destruct event as [y|]; simpl in Hx; [|by apply not_elem_of_nil in Hx].
    apply list_elem_of_singleton in Hx as ->. rewrite (Hev y) by done. done.
  - eapply IH; [|exact Hx]. by rewrite E.
Qed.
End oracle.

(** ** The oracle of a chain with one oracle *)
#[export] Instance concrete_sign_laws : SignLaws.
Proof.
  refine (Build_SignLaws _ (λ k, k) _).
  intros h k Hh. exists (sig_of h k Byte.x00), Byte.x00. split_and!; [done|..].
  - unfold sig_of. simpl. rewrite !length_app, Hh. done.
  - unfold sig_of. simpl. rewrite lookup_app_r by lia. by rewrite Hh.
  - done.
  - simpl. by rewrite decide_True by done.
Defined.
Lemma json_type_tx_bytes {A} `{Countable A} type (x : A) : json_type (tx_bytes type x) = Ok type.
Proof.
  change (('(t, _) ← dec (A := string * positive) (enc (type, x)); Ok t) = Ok type).
  change (enc (type, x)) with (enc (type, encode x)). by rewrite dec_enc.
Qed.

Definition poll_meta : processMetadata :=
  mkProcessMetadata (replicate 20 Byte.x22) (sprintf_x root1) "ipfs://census" (Some 10) (Some 1) PollVote.
#[local] Instance concrete_ethereum : EthereumEnv := {|
  unpack_ProcessCreated := Ok;
  unpack_ProcessCanceled := Ok;
  unpack_OracleAdded b := Ok (b2s b);
  VotingProcess_Get _ := Ok poll_meta;
  sorted_NewProcessTx := marshal_NewProcessTx;
  sorted_CancelProcessTx := marshal_CancelProcessTx |}.
#[local] Instance concrete_oracle_json : OracleJSONLaws.
Proof.
  split; [|done]. intros tx _. eexists. split; [reflexivity|]. split; [|apply json_type_tx_bytes].
  change (json_of (tx_bytes (np_Type tx) tx) = Ok tx). unfold json_of, tx_bytes. by rewrite dec_enc.
Qed.
#[local] Instance hex_addresses : AddressText := {| Address_String := sprintf_x |}.
#[local] Instance hex_addresses_laws : AddressLaws.
Proof. constructor. intros a _. simpl. rewrite TrimHex_sprintf_x. apply hex_DecodeString_sprintf_x. Qed.
#[local] Instance any_mempool : Mempool := {| mempool_admits _ _ := Ok () |}.

Definition created_event : Log := mkLog [event_hash 2] pid1 (replicate 32 Byte.x01) 0 false.
Definition oracle_signer : ethereum.SignKeys := ethereum.mkSignKeys (Some (oracle_key : ecdsa_PrivateKey)) ∅.
Definition oracle_events : EthereumEvents :=
  AddEventHandler HandleVochainOracle_ (NewEthEvents oracle_signer zero_manager (mkNode (node_at first_block) [])).
Lemma first_block_expects :
  expects (PubkeyToAddress (sl_Public oracle_key)) pid1 (contract_tx pid1 poll_meta) (Store (node_at first_block)).
Proof.
  split_and!.
  - apply node_at_inv, first_block_runs.
  - exists [oracle_addr]. split; [by vm_compute|]. apply list_elem_of_singleton. by vm_compute.
  - exists (header_at 1). split; by vm_compute.
  - by vm_compute.
  - by vm_compute.
Qed.

(** Two processes created within a minute: only the second is handled, twice. *)
Definition event_of (pid : bytes) (tx : byte) : Log := mkLog [event_hash 2] pid (replicate 32 tx) 0 false.
Definition two_events : list (Log * Z) := [(event_of pid1 Byte.x01, 10)].
Definition queue_order : list string := [eventID (event_of pid1 Byte.x01); eventID (event_of pid1 Byte.x02)].
Definition second_event : Log := event_of root1 Byte.x02.
Lemma only_last_event_handled_witness :
  handled [(queue_order, 100); (queue_order, 101)]
    (received (two_events ++ [(second_event, 11)]) (mkEventProcessor zero_log ∅ 60)) = [second_event; second_event] ∧
  ∀ x, x ∈ [second_event; second_event] → x = second_event.
Proof.
  assert (handled [(queue_order, 100); (queue_order, 101)]
    (received (two_events ++ [(second_event, 11)]) (mkEventProcessor zero_log ∅ 60)) = [second_event; second_event]) as E
    by (by vm_compute).
  split; [exact E|]. intros x Hx. rewrite <- E in Hx.
  exact (only_last_event_handled two_events second_event 11 _ _ x Hx).
Defined.
