(* ===== verification/Ipfs.v ===== *)
(** * The storage of the node: [data/ipfs.go], [data/data.go]

    The methods of [IPFSHandle] over the API of [go-ipfs] ([IpfsCore]).  The
    start of the IPFS daemon ([Init], [Stop]) is not modelled. *)

From stdpp Require Import base gmap strings pretty list.
From Stdlib Require Import ZArith Lia.
From S2P Require Import Prelude GoLib Crypto.
Open Scope Z_scope.

(** What [Unixfs().Get] returns: the size, and the content of a regular file. *)
Record unixfs_node := mkUnixfsNode { un_Size : res Z; un_File : option (res bytes) }.
(** [Pin().Ls] returns a channel: the pins that will come out of it, and how
    many are in its buffer when it is returned. *)
Record pin_chan := mkPinChan { pc_pins : list (string * string); pc_buffered : Z }.

(** The libraries: the IPFS node ([ipfs] is its state, the paths are strings),
    the multiaddresses and the connections of libp2p. *)
Class IpfsCore := {
  ipfs : Type;
  core_AddAllAndPin : bytes → ipfs → res string * ipfs;
  core_ResolvePath : ipfs → string → res string;
  core_PinAdd : string → ipfs → res () * ipfs;
  core_PinRm : string → ipfs → res () * ipfs;
  core_PinLs : ipfs → bool → res pin_chan;
  core_UnixfsGet : ipfs → string → res unixfs_node;
  core_Peers : ipfs → res (list string);
  core_KnownAddrs : ipfs → res Z;
  core_Protect : string → ipfs → ipfs;
  core_Connect : string → ipfs → res () * ipfs;
  ma_NewMultiaddr : string → res string;
  peer_AddrInfoFromP2pAddr : string → res string;
  os_Writable : string → bool }.

Section ipfs_handle.
Context `{CryptoLib} `{IpfsCore}.

Definition MaxFileSizeBytes : Z := 1024 * 1024 * 50.

(** [ih_Files]: the files the node has written. *)
Record IPFSHandle := mkIPFSHandle { ih_Node : ipfs; ih_DataDir : string; ih_Files : gmap string bytes }.
Definition set_ih_Node n (i : IPFSHandle) : IPFSHandle := mkIPFSHandle n (ih_DataDir i) (ih_Files i).
Abbreviation MI := (GM IPFSHandle).
Definition on_node {A} (f : ipfs → res A * ipfs) : MI A := λ i,
  let '(r, n) := f (ih_Node i) in (r, set_ih_Node n i).

Definition IPFS_URIprefix : string := "ipfs://".

Definition WriteFile (path : string) (data : bytes) : MI () := updates (λ i,
  if os_Writable path then Ok (mkIPFSHandle (ih_Node i) (ih_DataDir i) (<[path := data]> (ih_Files i)))
  else Err "cannot write file").
Definition addAndPin (root : string) : MI string :=
  f ← reads (λ i, of_option "no such file or directory" (ih_Files i !! root));
  on_node (core_AddAllAndPin f).
Definition PublishBytes (msg : bytes) (fileDir : string) : MI string :=
  let filePath := fileDir +:+ "/" +:+ sprintf_x (ethereum.HashRaw msg) in
  _ ← WriteFile filePath msg;
  addAndPin filePath.
Definition ipfs_Publish (msg : bytes) : MI string := i ← get_st; PublishBytes msg (ih_DataDir i).

Definition ipfs_Pin (path : string) : MI () :=
  rp ← reads (λ i, core_ResolvePath (ih_Node i) path); on_node (core_PinAdd rp).
Definition ipfs_Unpin (path : string) : MI () :=
  rp ← reads (λ i, core_ResolvePath (ih_Node i) path); on_node (core_PinRm rp).

Definition ipfs_Stats (i : IPFSHandle) : res string :=
  peers ← core_Peers (ih_Node i);
  addresses ← core_KnownAddrs (ih_Node i);
  pins ← core_PinLs (ih_Node i) false;
  Ok ("peers:" +:+ pretty (glen peers) +:+ " addresses:" +:+ pretty addresses +:+
      " pins:" +:+ pretty (pc_buffered pins)).

Definition ListPins (i : IPFSHandle) : res (gmap string string) :=
  pins ← core_PinLs (ih_Node i) true;
  Ok (foldl (λ pinMap p, <[p.1 := p.2]> pinMap) ∅ (pc_pins pins)).

Definition TrimPrefix (s prefix : string) : string :=
  if String.prefix prefix s then String.substring (String.length prefix) (String.length s - String.length prefix) s
  else s.
Definition ipfs_Retrieve (path : string) (i : IPFSHandle) : res bytes :=
  node ← core_UnixfsGet (ih_Node i) (TrimPrefix path "ipfs://");
  _ ← match un_Size node with
      | Ok s => guard_err (bool_decide (MaxFileSizeBytes < s)) "file too big or size cannot be obtained"
      | Err _ => Err "file too big or size cannot be obtained"
      | Panic w => Panic w
      end;
  match un_File node with Some r => r | None => Err "received incorrect type from Unixfs().Get()" end.

(** [data.go]. *)
Inductive StorageID := IPFS | BZZ | NoStorage.
Definition StorageIDFromString (i : string) : StorageID :=
  if decide (i = "IPFS") then IPFS else if decide (i = "BZZ") then BZZ else NoStorage.
(** [start]: the start of the IPFS daemon. *)
Definition storage_Init (t : StorageID) (start : res IPFSHandle) : res IPFSHandle :=
  match t with IPFS => start | _ => Err "bad storage type or DataStore specification" end.

(** The paths of a listing are the keys of the map. *)
Lemma ListPins_keys i pins m : core_PinLs (ih_Node i) true = Ok pins → ListPins i = Ok m →
  ∀ p, is_Some (m !! p) ↔ p ∈ (pc_pins pins).*1.
Proof.
  intros Hl Hm p. unfold ListPins in Hm. rewrite Hl in Hm. cbn [mbind res_bind] in Hm. injection Hm as <-.
  assert (∀ l (m0 : gmap string string), is_Some (foldl (λ pinMap p, <[p.1:=p.2]> pinMap) m0 l !! p) ↔
    is_Some (m0 !! p) ∨ p ∈ l.*1) as Hg.
  { induction l as [|[k v] l IH]; intros m0; simpl; [by rewrite elem_of_nil; naive_solver|]. rewrite IH, lookup_insert_is_Some, elem_of_cons. destruct (decide (k = p)); naive_solver. }
  rewrite Hg, lookup_empty. split; [intros [[? ?]|?]; done|by right].
Qed.
End ipfs_handle.
