(* ===== verification/Iden3Tree.v ===== *)
(** * The synchronisation tree: [tree/tree.go]

    A merkle tree of the iden3 library, which the IPFS synchronisation fills
    with the pins of the nodes.  The library is a parameter ([Iden3]); the data
    of a claim is packed into its two slots here.  The time of the last access
    is left out: nothing in the repository reads it. *)

From stdpp Require Import base strings list.
From Stdlib Require Import ZArith Lia.
From S2P Require Import Prelude GoLib Database.
Open Scope Z_scope.

(** [claims.ClaimBasic]: two fixed-size arrays. *)
Record ClaimBasic := mkClaimBasic { cb_IndexSlot : bytes; cb_ValueSlot : bytes }.
#[export] Instance ClaimBasic_eq_dec : EqDecision ClaimBasic.
Proof. solve_decision. Defined.

(** What the repository calls of [go-iden3-core]: the claims, the merkle tree
    with its storage, the proofs; and the Unicode normalisation of
    [golang.org/x/text].  [mt_Walk] lists the claims of the leaves below a node,
    in the order of the walk. *)
Class Iden3 := {
  IndexSlotLen : nat;
  ValueSlotLen : nat;
  mtree : Type;
  mt_storage : Type;
  mt_NewMerkleTree : mt_storage → res mtree;
  mt_AddClaim : ClaimBasic → mtree → res mtree;
  mt_RootKey : mtree → bytes;
  mt_GetNode : mtree → bytes → bool;
  mt_Walk : mtree → option bytes → res (list ClaimBasic);
  mt_DumpClaims : mtree → option bytes → res (list string);
  mt_ImportDumpedClaims : list string → mtree → res () * mtree;
  mt_Snapshot : mtree → option bytes → res mtree;
  cb_HIndex : ClaimBasic → res bytes;
  cb_HValue : ClaimBasic → res bytes;
  mt_proof : Type;
  mt_GenerateProof : mtree → bytes → res mt_proof;
  mp_Existence : mt_proof → bool;
  mp_Bytes : mt_proof → bytes;
  mt_NewProofFromBytes : bytes → res mt_proof;
  mt_VerifyProof : bytes → mt_proof → bytes → bytes → bool;
  common3_HexEncode : bytes → string;
  common3_HexDecode : string → res bytes;
  norm_NFC : bytes → bytes }.

(** What the documentation of the library says of it: a claim is added unless
    its index is taken, nothing is ever removed, and the nodes of the storage
    are those of the tree and of its past roots. *)
Class Iden3Laws `{Iden3} := {
  mt_claims : mtree → list ClaimBasic;
  law_IndexSlotLen : (4 ≤ IndexSlotLen < 256)%nat;
  law_ValueSlotLen : (2 ≤ ValueSlotLen < 256)%nat;
  law_NewMerkleTree st t : mt_NewMerkleTree st = Ok t → mt_claims t = [];
  law_AddClaim_not_panic c t w : mt_AddClaim c t ≠ Panic w;
  law_AddClaim_Ok c t t' : mt_AddClaim c t = Ok t' → ∀ c', c' ∈ mt_claims t' ↔ c' = c ∨ c' ∈ mt_claims t;
  law_AddClaim_new c t : (∀ c', c' ∈ mt_claims t → cb_IndexSlot c' ≠ cb_IndexSlot c) → ∃ t', mt_AddClaim c t = Ok t';
  law_AddClaim_node c t t' h : mt_AddClaim c t = Ok t' → mt_GetNode t h = true → mt_GetNode t' h = true;
  law_RootKey t : length (mt_RootKey t) = 32%nat ∧ mt_GetNode t (mt_RootKey t) = true;
  law_Walk t : mt_Walk t None = Ok (mt_claims t) ∧ mt_Walk t (Some (mt_RootKey t)) = Ok (mt_claims t);
  law_Walk_node t h : mt_GetNode t h = true → ∃ cs, mt_Walk t (Some h) = Ok cs ∧ cs ⊆ mt_claims t;
  law_HexEncode b : common3_HexDecode (common3_HexEncode b) = Ok b;
  law_HexDecode_not_panic h w : common3_HexDecode h ≠ Panic w;
  law_HexEncode_len b : 2 * glen b ≤ slen (common3_HexEncode b) }.

Module tree.
Section iden3.
Context `{Iden3}.

Record Tree := mkTree { Tree_ : mtree; public : bool }.
Definition set_Tree_ m (t : Tree) : Tree := mkTree m (public t).

Definition MaxIndexSize : Z := Z.of_nat IndexSlotLen.
Definition MaxValueSize : Z := Z.of_nat ValueSlotLen - 2.

Definition NewTree (storage : mt_storage) : res Tree := mt ← mt_NewMerkleTree storage; Ok (mkTree mt false).
Definition MaxClaimSize : Z := MaxIndexSize.
Definition Publish (t : Tree) : Tree := mkTree (Tree_ t) true.
Definition UnPublish (t : Tree) : Tree := mkTree (Tree_ t) false.
Definition IsPublic (t : Tree) : bool := public t.

(** [copy(dst[off:], src)] into an array of [n] zero bytes. *)
Definition slot (n : nat) (b : bytes) : bytes := take n b ++ replicate (n - length b) Byte.x00.

(** The sizes of index and value are the first two bytes of the value slot. *)
Definition getClaimFromData (index value : bytes) : res ClaimBasic :=
  _ ← guard_err (bool_decide (Z.of_nat IndexSlotLen < glen index)) "index len can not be bigger";
  _ ← guard_err (bool_decide (Z.of_nat ValueSlotLen < glen value)) "extra len can not be bigger";
  Ok (mkClaimBasic (slot IndexSlotLen index)
        (z2b (glen index) :: z2b (glen value) :: slot (ValueSlotLen - 2) value)).

Definition getDataFromClaim (c : ClaimBasic) : res (bytes * bytes) :=
  indexSize ← go_index (cb_ValueSlot c) 0;
  valueSize ← go_index (cb_ValueSlot c) 1;
  index ← go_slice_to (cb_IndexSlot c) (b2z indexSize);
  upto ← go_slice_to (cb_ValueSlot c) (b2z valueSize + 2);
  Ok (index, drop 2 upto).

Definition AddClaim (index value : bytes) (t : Tree) : res Tree :=
  _ ← guard_err (bool_decide (glen index < 4)) "claim index too small, minimum size is 4 bytes";
  c ← getClaimFromData index value;
  mt ← mt_AddClaim c (Tree_ t);
  Ok (set_Tree_ mt t).

Definition GenProof (index value : bytes) (t : Tree) : res string :=
  e ← getClaimFromData index value;
  hash ← cb_HIndex e;
  mp ← mt_GenerateProof (Tree_ t) hash;
  if mp_Existence mp then Ok (common3_HexEncode (mp_Bytes mp)) else Ok "".

Definition stringToHash (hash : string) : res bytes := b ← common3_HexDecode hash; Ok (slot 32 b).

Definition CheckProof (root mpHex : string) (index value : bytes) : res bool :=
  mpBytes ← common3_HexDecode mpHex;
  mp ← mt_NewProofFromBytes mpBytes;
  rootHash ← stringToHash root;
  c ← getClaimFromData index value;
  hvalue ← cb_HValue c;
  hindex ← cb_HIndex c;
  Ok (mt_VerifyProof rootHash mp hindex hvalue).

Definition Root (t : Tree) : string := common3_HexEncode (mt_RootKey (Tree_ t)).
Definition Tree_CheckProof (index value : bytes) (mpHex : string) (t : Tree) : res bool :=
  CheckProof (Root t) mpHex index value.

(** No root means the current one. *)
Definition rootHash_of (root : string) : res (option bytes) :=
  if decide (0 < slen root) then h ← stringToHash root; Ok (Some h) else Ok None.
Definition Dump (root : string) (t : Tree) : res (list string) :=
  rootHash ← rootHash_of root; mt_DumpClaims (Tree_ t) rootHash.
Definition Size (root : string) (t : Tree) : res Z :=
  rootHash ← rootHash_of root; cs ← mt_Walk (Tree_ t) rootHash; Ok (glen cs).

(** The callback of the walk, on every leaf. *)
Fixpoint plain_claims (responseBase64 : bool) (cs : list ClaimBasic) : res (list string * list string) :=
  match cs with
  | [] => Ok ([], [])
  | c :: cs' =>
    '(index, value) ← getDataFromClaim c;
    '(ixs, vs) ← plain_claims responseBase64 cs';
    let show b := if responseBase64 then b64_EncodeToString b else b2s (norm_NFC b) in
    Ok (show index :: ixs, show value :: vs)
  end.
Definition DumpPlain (root : string) (responseBase64 : bool) (t : Tree) : res (list string * list string) :=
  rootHash ← rootHash_of root; cs ← mt_Walk (Tree_ t) rootHash; plain_claims responseBase64 cs.

(** Claims imported before an error stay. *)
Definition ImportDump (claims : list string) : GM Tree () := λ t,
  let '(r, mt) := mt_ImportDumpedClaims claims (Tree_ t) in (r, set_Tree_ mt t).
Definition Snapshot (root : string) (t : Tree) : res Tree :=
  rootHash ← rootHash_of root; mt ← mt_Snapshot (Tree_ t) rootHash; Ok (mkTree mt false).
Definition HashExist (hash : string) (t : Tree) : res bool :=
  h ← stringToHash hash; Ok (mt_GetNode (Tree_ t) h).

(** ** Packing and unpacking *)
Lemma length_slot n b : length (slot n b) = n.
Proof. unfold slot. rewrite length_app, length_take, length_replicate. lia. Qed.
Lemma slot_prefix n b : (length b ≤ n)%nat → take (length b) (slot n b) = b.
Proof. intros. unfold slot. rewrite (take_ge b n) by done. by rewrite take_app_length. Qed.
Lemma slot_exact n b : length b = n → slot n b = b.
Proof. intros <-. unfold slot. rewrite take_ge, Nat.sub_diag by done. apply app_nil_r. Qed.
Context `{!Iden3Laws}.

Lemma getClaimFromData_Ok index value : glen index ≤ MaxIndexSize → glen value ≤ Z.of_nat ValueSlotLen →
  getClaimFromData index value = Ok (mkClaimBasic (slot IndexSlotLen index)
    (z2b (glen index) :: z2b (glen value) :: slot (ValueSlotLen - 2) value)).
Proof. intros Hi Hv. unfold getClaimFromData. by rewrite !bool_decide_eq_false_2 by (unfold MaxIndexSize in *; lia). Qed.

(** A claim gives back the data it was made of, as long as the value leaves
    room for the two sizes. *)
Lemma claim_data index value c : getClaimFromData index value = Ok c → glen value ≤ MaxValueSize →
  getDataFromClaim c = Ok (index, value).
Proof.
  unfold getClaimFromData. intros Hc Hv. go_inv Hc. go_bool.
  pose proof law_IndexSlotLen. pose proof law_ValueSlotLen. unfold MaxValueSize, glen in *.
  unfold getDataFromClaim. cbn [cb_ValueSlot cb_IndexSlot go_index decide mbind res_bind].
  rewrite (go_index_eq _ 0 (z2b (glen index))), (go_index_eq _ 1 (z2b (glen value))) by done. cbn [mbind res_bind].
  unfold glen. rewrite !b2z_z2b, !Z.mod_small by lia. unfold go_slice_to.
  rewrite length_slot, (decide_True (P := 0 ≤ Z.of_nat (length index) ≤ _)) by lia. cbn [mbind res_bind length].
  rewrite length_slot, decide_True by lia.
  cbn [mbind res_bind]. rewrite Nat2Z.id, slot_prefix by lia.
  replace (Z.to_nat (Z.of_nat (length value) + 2)) with (S (S (length value))) by lia. simpl.
  by rewrite drop_0, slot_prefix by lia.
Qed.

(** A value that fits the slot but not the room left in it is accepted, cut
    short, and the claim cannot be read back. *)
Lemma long_value_panics index value c : getClaimFromData index value = Ok c → MaxValueSize < glen value →
  ∃ w, getDataFromClaim c = Panic w.
Proof.
  unfold getClaimFromData. intros Hc Hv. go_inv Hc. go_bool.
  pose proof law_IndexSlotLen. pose proof law_ValueSlotLen. unfold MaxValueSize, glen in *.
  unfold getDataFromClaim. cbn [cb_ValueSlot cb_IndexSlot go_index decide mbind res_bind].
  rewrite (go_index_eq _ 0 (z2b (glen index))), (go_index_eq _ 1 (z2b (glen value))) by done. cbn [mbind res_bind].
  unfold glen. rewrite !b2z_z2b, !Z.mod_small by lia. unfold go_slice_to.
  rewrite length_slot, (decide_True (P := 0 ≤ Z.of_nat (length index) ≤ _)) by lia. cbn [mbind res_bind length].
  rewrite length_slot, decide_False by lia.
  by eexists.
Qed.

Lemma plain_claims_spec (b : bool) cs (ds : list (bytes * bytes)) : Forall2 (λ c d, getDataFromClaim c = Ok d) cs ds →
  let show (x : bytes) := if b then b64_EncodeToString x else b2s (norm_NFC x) in
  plain_claims b cs = Ok (show <$> ds.*1, show <$> ds.*2).
Proof.
  intros Hf. induction Hf as [|c d cs ds Hc Hf IH]; [done|]. destruct d as [i v]. simpl in *. by rewrite Hc, IH.
Qed.

Lemma Root_known t : HashExist (Root t) t = Ok true.
Proof.
  unfold HashExist, stringToHash, Root. rewrite law_HexEncode. cbn [mbind res_bind].
  destruct (law_RootKey (Tree_ t)) as [Hl Hg]. by rewrite slot_exact, Hg by done.
Qed.
Lemma slen_Root t : 31 < slen (Root t).
Proof.
  unfold Root. pose proof (law_HexEncode_len (mt_RootKey (Tree_ t))). destruct (law_RootKey (Tree_ t)) as [Hl _].
  unfold glen in *. lia.
Qed.
Lemma rootHash_of_Root t : rootHash_of (Root t) = Ok (Some (mt_RootKey (Tree_ t))).
Proof.
  unfold rootHash_of. pose proof (slen_Root t). rewrite decide_True by lia. unfold stringToHash, Root.
  rewrite law_HexEncode. cbn [mbind res_bind]. by rewrite slot_exact by apply law_RootKey.
Qed.
End iden3.
End tree.
