(* ===== verification/IpfsSync.v ===== *)
(** * The synchronisation of pins: [ipfssync/ipfssync.go]

    The nodes of a group tell each other the root of their tree of pins, ask
    for the pins of a root they do not know, and pin what they learn.  The
    transport is the list [is_sent] of what was handed to it: to one address,
    or to everybody.  [now] is the clock, in seconds. *)

From stdpp Require Import base gmap strings list.
From Stdlib Require Import ZArith Lia.
From S2P Require Import Prelude GoLib Crypto Database Ipfs Iden3Tree.
Open Scope Z_scope.

Record Message := mkMessage {
  msg_Type : string;
  msg_Address : string;
  msg_Maddress : string;
  msg_NodeID : string;
  msg_Hash : string;
  msg_PinList : list string;
  msg_Timestamp : Z }.
(** [encoding/json] on the struct. *)
Class SyncJSON := {
  marshal_SyncMessage : Message → res bytes;
  json_SyncMessage : bytes → res Message }.

Module ipfssync.
Section ipfssync.
Context `{CryptoLib} `{IpfsCore} `{Iden3} `{SyncJSON}.

Record IPFSsync := mkIPFSsync {
  is_DataDir : string;
  is_Topic : string;
  is_PrivKey : string;
  is_Port : Z;
  is_HelloTime : Z;
  is_UpdateTime : Z;
  is_TimestampWindow : Z;
  is_private : bool;
  is_Address : string;
  is_myMultiAddr : string;
  is_Storage : IPFSHandle;
  is_hashTree : option tree.Tree;
  is_lastHash : string;
  is_sent : list (option string * bytes) }.
Abbreviation MS := (GM IPFSsync).

Definition set_Storage x (s : IPFSsync) : IPFSsync :=
  mkIPFSsync (is_DataDir s) (is_Topic s) (is_PrivKey s) (is_Port s) (is_HelloTime s) (is_UpdateTime s)
    (is_TimestampWindow s) (is_private s) (is_Address s) (is_myMultiAddr s) x (is_hashTree s) (is_lastHash s) (is_sent s).
Definition set_hashTree x (s : IPFSsync) : IPFSsync :=
  mkIPFSsync (is_DataDir s) (is_Topic s) (is_PrivKey s) (is_Port s) (is_HelloTime s) (is_UpdateTime s)
    (is_TimestampWindow s) (is_private s) (is_Address s) (is_myMultiAddr s) (is_Storage s) x (is_lastHash s) (is_sent s).
Definition set_lastHash x (s : IPFSsync) : IPFSsync :=
  mkIPFSsync (is_DataDir s) (is_Topic s) (is_PrivKey s) (is_Port s) (is_HelloTime s) (is_UpdateTime s)
    (is_TimestampWindow s) (is_private s) (is_Address s) (is_myMultiAddr s) (is_Storage s) (is_hashTree s) x (is_sent s).
Definition set_sent x (s : IPFSsync) : IPFSsync :=
  mkIPFSsync (is_DataDir s) (is_Topic s) (is_PrivKey s) (is_Port s) (is_HelloTime s) (is_UpdateTime s)
    (is_TimestampWindow s) (is_private s) (is_Address s) (is_myMultiAddr s) (is_Storage s) (is_hashTree s) (is_lastHash s) x.
Definition set_address (addr maddr : string) (s : IPFSsync) : IPFSsync :=
  mkIPFSsync (is_DataDir s) (is_Topic s) (is_PrivKey s) (is_Port s) (is_HelloTime s) (is_UpdateTime s)
    (is_TimestampWindow s) (is_private s) addr maddr (is_Storage s) (is_hashTree s) (is_lastHash s) (is_sent s).

(** The storage is an [IPFSHandle]; any transport is subpub. *)
Definition NewIPFSsync (dataDir groupKey privKeyHex transport : string) (storage : IPFSHandle) : IPFSsync :=
  mkIPFSsync dataDir groupKey privKeyHex 4171 40 20 30 (bool_decide (transport = "privlibp2p")) "" "" storage None "" [].

(** The tree is there once the node has started. *)
Definition hashTree (s : IPFSsync) : res tree.Tree :=
  match is_hashTree s with Some t => Ok t | None => Panic "nil pointer dereference" end.
Definition on_storage {A} (m : GM IPFSHandle A) : MS A := λ s,
  let '(r, i) := m (is_Storage s) in (r, set_Storage i s).

(** A Go map is listed in no particular order. *)
Definition myPins (s : IPFSsync) : list string :=
  match ListPins (is_Storage s) with Ok list => (map_to_list list).*1 | _ => [] end.

(** [is.hashTree.AddClaim(pin, []byte{})], the error is dropped. *)
Definition addClaim (pin : bytes) : MS () :=
  logged (updates (λ s, t ← hashTree s; t' ← tree.AddClaim pin [] t; Ok (set_hashTree (Some t') s))).
Definition updateLocalPins : MS () := s ← get_st; for_each (myPins s) (λ p, addClaim (s2b p)).

Definition addPin (v : string) : MS () :=
  match b64_DecodeString v with
  | Ok pin => if decide (tree.MaxClaimSize < glen pin) then mret () else addClaim pin
  | _ => mret ()
  end.
Definition addPins (pins : list string) : MS () :=
  before ← reads hashTree;
  let currentRoot := tree.Root before in
  _ ← for_each pins addPin;
  after ← reads hashTree;
  if decide (currentRoot ≠ tree.Root after) then modify (set_lastHash currentRoot) else mret ().

Definition syncPins : MS () :=
  t ← reads hashTree;
  '(mkPins, _) ← lift (tree.DumpPlain "" false t);
  pins ← reads (λ s, ListPins (is_Storage s));
  for_each mkPins (λ v, if decide (is_Some (pins !! v)) then mret () else logged (on_storage (ipfs_Pin v))).

(** ** Sending *)
Definition send (to : option string) (d : bytes) : MS () := modify (λ s, set_sent (is_sent s ++ [(to, d)]) s).
Definition unicastMsg (address : string) (ipfsmsg : Message) : MS () :=
  d ← lift (marshal_SyncMessage ipfsmsg); send (Some address) d.
Definition broadcastMsg (ipfsmsg : Message) : MS () :=
  d ← lift (marshal_SyncMessage ipfsmsg); send None d.

Definition askPins (address hash : string) (now : Z) : MS () :=
  s ← get_st; unicastMsg address (mkMessage "fetch" (is_Address s) "" "" hash [] (i32 now)).

(** The elements of [a] that are not in [b]. *)
Definition diff (a b : list string) : list string :=
  let mb := foldl (λ mb x, <[x := ()]> mb) (∅ : gmap string ()) b in
  filter (λ x, mb !! x = None) a.

Definition zero_hash : string := "0x0000000000000000000000000000000000000000000000000000000000000000".
Definition listPins (fromHash : string) (t : tree.Tree) : res (list string) :=
  match tree.DumpPlain "" true t with
  | Panic w => Panic w
  | Err _ => Ok []
  | Ok (myClaims, _) =>
    if decide (fromHash = "" ∨ fromHash = zero_hash) then Ok myClaims
    else match tree.HashExist fromHash t with
         | Ok true =>
           match tree.DumpPlain fromHash true t with
           | Panic w => Panic w
           | Err _ => Ok []
           | Ok (theirClaims, _) => Ok (diff myClaims theirClaims)
           end
         | Panic w => Panic w
         | _ => Ok myClaims
         end
  end.
Definition sendPins (address theirHash : string) (now : Z) : MS () :=
  s ← get_st;
  t ← lift (hashTree s);
  pins ← lift (listPins theirHash t);
  unicastMsg address (mkMessage "fetchReply" (is_Address s) "" "" (tree.Root t) pins (i32 now)).

Definition update_message (s : IPFSsync) (t : tree.Tree) (now : Z) : Message :=
  mkMessage "update" (is_Address s) "" "" (tree.Root t) [] (i32 now).
Definition sendUpdate (now : Z) : MS () :=
  s ← get_st;
  t ← lift (hashTree s);
  match tree.Size (tree.Root t) t with
  | Ok n => if decide (0 < n) then logged (broadcastMsg (update_message s t now)) else mret ()
  | Err _ => mret ()
  | Panic w => lift (Panic w)
  end.
Definition sendHello (now : Z) : MS () :=
  s ← get_st;
  logged (broadcastMsg (mkMessage "hello" (is_Address s) (is_myMultiAddr s) "" "" [] (i32 now))).

(** ** Receiving *)
Definition strings_Contains (s sub : string) : bool :=
  match String.index 0 sub s with Some _ => true | None => false end.
Definition connect_peer (maddr : string) : MS () :=
  multiAddr ← lift (ma_NewMultiaddr maddr);
  peerInfo ← lift (peer_AddrInfoFromP2pAddr multiAddr);
  _ ← on_storage (modify (λ i, set_ih_Node (core_Protect peerInfo (ih_Node i)) i));
  on_storage (on_node (core_Connect peerInfo)).

(** The subtraction is one of 32-bit integers. *)
Definition too_old (now : Z) (msg : Message) (s : IPFSsync) : bool :=
  bool_decide (is_TimestampWindow s < i32 (i32 now - msg_Timestamp msg)).
Definition long_enough (msg : Message) : bool :=
  bool_decide (31 < slen (msg_Hash msg)) && bool_decide (31 < slen (msg_Address msg)).

Definition Handle (msg : Message) (now : Z) : MS () :=
  s ← get_st;
  if decide (msg_Address msg = is_Address s) then mret ()
  else if too_old now msg s then mret ()
  else if decide (msg_Type msg = "hello") then
    peers ← lift (core_Peers (ih_Node (is_Storage s)));
    if existsb (strings_Contains (msg_Maddress msg)) peers then mret ()
    else connect_peer (msg_Maddress msg)
  else if decide (msg_Type msg = "update") then
    if long_enough msg then
      t ← lift (hashTree s);
      match tree.HashExist (msg_Hash msg) t with
      | Ok false => if decide (is_lastHash s ≠ msg_Hash msg) then askPins (msg_Address msg) (tree.Root t) now else mret ()
      | Panic w => lift (Panic w)
      | _ => mret ()
      end
    else mret ()
  else if decide (msg_Type msg = "fetchReply") then
    if long_enough msg then
      t ← lift (hashTree s);
      if decide (msg_Hash msg ≠ tree.Root t) then addPins (msg_PinList msg) else mret ()
    else mret ()
  else if decide (msg_Type msg = "fetch") then
    if long_enough msg then
      t ← lift (hashTree s);
      if decide (msg_Hash msg ≠ tree.Root t) then sendPins (msg_Address msg) (msg_Hash msg) now else mret ()
    else mret ()
  else mret ().

(** ** The node

    [init]: the result of the initialisation of the transport, which gives the
    node its address and its multiaddress. *)
Definition Start (storage : res mt_storage) (init : res (string * string)) : MS () :=
  st ← lift (match storage with Ok st => Ok st | _ => Panic "log.Fatal" end);
  tr ← lift (match tree.NewTree st with Ok tr => Ok tr | _ => Panic "log.Fatal" end);
  _ ← modify (set_hashTree (Some tr));
  _ ← updateLocalPins;
  '(addr, maddr) ← lift (match init with Ok a => Ok a | _ => Panic "log.Fatal" end);
  modify (set_address addr maddr).

(** One turn of the loop that receives. *)
Definition receive (d : bytes) (now : Z) : MS () :=
  match json_SyncMessage d with
  | Ok syncMsg => logged (Handle syncMsg now)
  | Err _ => mret ()
  | Panic w => lift (Panic w)
  end.
(** One turn of the loop that sends updates. *)
Definition update_turn (now : Z) : MS () := _ ← updateLocalPins; sendUpdate now.

(** What may happen to a started node; [EvStorage]: the IPFS node changes by
    itself or at the hand of another user of it. *)
Inductive sync_event :=
  | EvMessage (d : bytes) | EvHello | EvUpdate | EvSync | EvStorage (i : IPFSHandle).
Definition sync_step (e : sync_event) (now : Z) : MS () :=
  match e with
  | EvMessage d => receive d now
  | EvHello => sendHello now
  | EvUpdate => update_turn now
  | EvSync => logged syncPins
  | EvStorage i => modify (set_Storage i)
  end.
Inductive sync_steps : IPFSsync → IPFSsync → Prop :=
  | sync_steps_refl s : sync_steps s s
  | sync_steps_step s e now s' : sync_steps (sync_step e now s).2 s' → sync_steps s s'.

(** What an operation sends. *)
Definition answers {A} (m : MS A) (s : IPFSsync) : list (option string * bytes) :=
  drop (length (is_sent s)) (is_sent (m s).2).
(** Messages reach a node. *)
Definition deliver (ms : list (option string * bytes)) (now : Z) : MS () := for_each ms (λ m, receive m.2 now).
End ipfssync.
End ipfssync.
