(* ===== verification/IpfsSyncFacts.v ===== *)
(** * The nodes of a group end up with each other's pins

    [sync_grows]: nothing a node does, and no message from the network, loses a
    pin or puts something in the tree that cannot be read back.
    [pins_converge]: the exchange update - fetch - fetchReply hands over every
    pin of the sender, whatever else the two nodes do in between. *)

From stdpp Require Import base gmap strings list.
From Stdlib Require Import ZArith Lia.
From S2P Require Import Prelude GoLib Crypto Database Concrete Ipfs Iden3Tree IpfsSync.
Import ipfssync.
Open Scope Z_scope.

(** What is printed is read back. *)
Class SyncJSONLaws `{SyncJSON} := {
  law_json_SyncMessage m : ∃ d, marshal_SyncMessage m = Ok d ∧ json_SyncMessage d = Ok m }.

Section facts.
Context `{CryptoLib} `{IpfsCore} `{Iden3Laws} `{SyncJSONLaws}.
Implicit Types (s : IPFSsync) (t : tree.Tree) (c : ClaimBasic).

Definition tree_claims t : list ClaimBasic := mt_claims (tree.Tree_ t).
(** The claim of a pin. *)
Definition claim_of (p : bytes) c : Prop := 4 ≤ glen p ∧ tree.getClaimFromData p [] = Ok c.
Definition pins_ok t : Prop := ∀ c, c ∈ tree_claims t → ∃ p, claim_of p c.

Lemma claim_of_size p c : claim_of p c → glen p ≤ tree.MaxIndexSize.
Proof. intros [_ Hc]. unfold tree.getClaimFromData in Hc. go_inv Hc. go_bool. unfold tree.MaxIndexSize. lia. Qed.
Lemma claim_of_slot p c : claim_of p c → cb_IndexSlot c = tree.slot IndexSlotLen p.
Proof. intros [_ Hc]. unfold tree.getClaimFromData in Hc. by go_inv Hc. Qed.
Lemma claim_of_data p c : claim_of p c → tree.getDataFromClaim c = Ok (p, []).
Proof.
  intros [_ Hc]. eapply tree.claim_data; [done|]. pose proof law_ValueSlotLen. unfold tree.MaxValueSize, glen. simpl. lia.
Qed.
Lemma claim_of_exists p : 4 ≤ glen p ≤ tree.MaxIndexSize → ∃ c, claim_of p c.
Proof.
  intros [? ?]. eexists. split; [done|]. apply tree.getClaimFromData_Ok; [done|]. unfold glen. simpl. lia.
Qed.
Lemma claim_of_inj p c c' : claim_of p c → claim_of p c' → c = c'.
Proof. intros [_ E1] [_ E2]. congruence. Qed.

(** ** Growth of the tree *)
Definition tree_grows t t' : Prop :=
  (∀ c, c ∈ tree_claims t → c ∈ tree_claims t') ∧
  (∀ h, mt_GetNode (tree.Tree_ t) h = true → mt_GetNode (tree.Tree_ t') h = true) ∧
  (pins_ok t → pins_ok t').
#[export] Instance tree_grows_refl : Reflexive tree_grows.
Proof. done. Qed.
#[export] Instance tree_grows_trans : Transitive tree_grows.
Proof. intros t1 t2 t3 (?&?&?) (?&?&?). split_and!; eauto. Qed.

Lemma AddClaim_grows p t t' : tree.AddClaim p [] t = Ok t' → tree_grows t t'.
Proof.
  intros Ha. unfold tree.AddClaim in Ha. go_inv Ha. go_bool.
  match goal with E : mt_AddClaim ?c _ = Ok ?m |- _ => rename E into Hm; rename c into c0; rename m into m0 end.
  unfold tree_grows, pins_ok, tree_claims, tree.set_Tree_. cbn [tree.Tree_]. split_and!.
  - intros c Hc. apply (law_AddClaim_Ok _ _ _ Hm). by right.
  - intros h. by apply (law_AddClaim_node _ _ _ _ Hm).
  - intros Hok c [->|Hc]%(law_AddClaim_Ok _ _ _ Hm); [|by apply Hok]. exists p. split; [lia|done].
Qed.
(** The index of a pin is in the tree after it is added, or was there. *)
Definition has_index (i : bytes) t : Prop := ∃ c, c ∈ tree_claims t ∧ cb_IndexSlot c = i.
Lemma AddClaim_index p c t : claim_of p c →
  has_index (cb_IndexSlot c) t ∨ ∃ t', tree.AddClaim p [] t = Ok t' ∧ c ∈ tree_claims t'.
Proof.
  intros [Hp Hc].
  destruct (decide (cb_IndexSlot c ∈ cb_IndexSlot <$> tree_claims t)) as [(c' & -> & Hin)%list_elem_of_fmap|Hn].
  - left. by exists c'.
  - right. destruct (law_AddClaim_new c (tree.Tree_ t)) as [m Hm].
    { intros c' Hc' E. apply Hn. rewrite <-E. by apply list_elem_of_fmap_2. }
    exists (tree.set_Tree_ m t). unfold tree.AddClaim. rewrite bool_decide_eq_false_2 by lia. cbn [guard_err mbind res_bind].
    rewrite Hc. cbn [mbind res_bind]. rewrite Hm. split; [done|]. apply (law_AddClaim_Ok _ _ _ Hm). by left.
Qed.

(** ** Growth of the node *)
Definition last_known s : Prop :=
  is_lastHash s = "" ∨ ∃ t, is_hashTree s = Some t ∧ tree.HashExist (is_lastHash s) t = Ok true.
Record grows s s' : Prop := mkGrows {
  g_Address : is_Address s' = is_Address s;
  g_Window : is_TimestampWindow s' = is_TimestampWindow s;
  g_tree t : is_hashTree s = Some t → ∃ t', is_hashTree s' = Some t' ∧ tree_grows t t';
  g_last : last_known s → last_known s';
  g_sent : is_sent s `prefix_of` is_sent s' }.
#[export] Instance grows_refl : Reflexive grows.
Proof. intros s. split; eauto. by intros t ->; exists t. Qed.
#[export] Instance grows_trans : Transitive grows.
Proof.
  intros s1 s2 s3 [] []. split; try congruence; [|by auto|by etrans].
  intros t Ht. destruct (g_tree0 t Ht) as (t' & Ht' & ?). destruct (g_tree1 t' Ht') as (t'' & ? & ?).
  exists t''. split; [done|]. by etransitivity.
Qed.
Lemma HashExist_grows h t t' : tree_grows t t' → tree.HashExist h t = Ok true → tree.HashExist h t' = Ok true.
Proof.
  intros (_ & Hn & _) Hh. unfold tree.HashExist in *. go_inv Hh. rewrite Hrun. cbn [mbind res_bind]. f_equal. by apply Hn.
Qed.
Lemma grows_hashTree t t' s : is_hashTree s = Some t → tree_grows t t' → grows s (set_hashTree (Some t') s).
Proof.
  intros Ht Hg. split; [done|done| | |done].
  - intros t0. rewrite Ht. intros [= <-]. by exists t'.
  - intros [?|(t0 & Ht0 & Hk)]; [by left|right]. exists t'. split; [done|]. simplify_eq. by eapply HashExist_grows.
Qed.

Ltac same_tree := split; [done|done|intros t Ht; exists t; by split|done|done].
Lemma stays_addClaim p : stays grows (addClaim p).
Proof.
  apply stays_logged; [typeclasses eauto..|]. apply stays_updates; [typeclasses eauto|]. intros s s' Hs. go_inv Hs.
  unfold hashTree in Hrun. destruct (is_hashTree s) as [t|] eqn:Et; [|done]. injection Hrun as ->.
  eapply grows_hashTree; [done|]. by eapply AddClaim_grows.
Qed.
Lemma stays_on_storage {A} (m : GM IPFSHandle A) : stays grows (on_storage m).
Proof. intros s. unfold on_storage. destruct (m (is_Storage s)) as [r i]. cbn [snd]. same_tree. Qed.
Lemma stays_send to d : stays grows (send to d).
Proof. apply stays_modify. intros s. split; [done|done|intros t Ht; exists t; by split|done|]. by apply prefix_app_r. Qed.
#[local] Hint Resolve stays_addClaim stays_on_storage stays_send : stays.
Lemma stays_unicastMsg a m : stays grows (unicastMsg a m).
Proof. unfold unicastMsg. stays_tac. Qed.
Lemma stays_broadcastMsg m : stays grows (broadcastMsg m).
Proof. unfold broadcastMsg. stays_tac. Qed.
#[local] Hint Resolve stays_unicastMsg stays_broadcastMsg : stays.
Lemma stays_updateLocalPins : stays grows updateLocalPins.
Proof. unfold updateLocalPins. stays_tac. Qed.
Lemma stays_addPin v : stays grows (addPin v).
Proof. unfold addPin. stays_tac. Qed.
#[local] Hint Resolve stays_updateLocalPins stays_addPin : stays.

Lemma grows_lastHash t t' s : is_hashTree s = Some t' → tree_grows t t' → grows s (set_lastHash (tree.Root t) s).
Proof.
  intros Ht Hg. split; [done|done|intros t0 E; exists t0; by split| |done]. intros _. right. exists t'. split; [done|].
  eapply HashExist_grows; [done|]. apply tree.Root_known.
Qed.
Lemma hashTree_Ok s t : hashTree s = Ok t ↔ is_hashTree s = Some t.
Proof. unfold hashTree. destruct (is_hashTree s); naive_solver. Qed.
Lemma stays_addPins pins : stays grows (addPins pins).
Proof.
  intros s. unfold addPins. rewrite GM_run. unfold reads at 1. destruct (hashTree s) as [t| |] eqn:Et; [|done|done].
  apply hashTree_Ok in Et. rewrite GM_run. destruct (for_each pins addPin s) as [r s1] eqn:Ef.
  assert (grows s s1) as Hg by (eapply stays_run; [|exact Ef]; stays_tac).
  destruct r as [[]| |]; [|done|done]. rewrite GM_run. unfold reads. destruct (hashTree s1) as [t1| |] eqn:Et1; [|done|done].
  apply hashTree_Ok in Et1. destruct (g_tree _ _ Hg _ Et) as (t' & Ht' & Htg). simplify_eq.
  case_decide; [|done]. etransitivity; [exact Hg|]. by eapply grows_lastHash.
Qed.
#[local] Hint Resolve stays_addPins : stays.
Lemma stays_Handle msg now : stays grows (Handle msg now).
Proof. unfold Handle, askPins, sendPins, connect_peer. stays_tac. Qed.
#[local] Hint Resolve stays_Handle : stays.
Lemma stays_receive d now : stays grows (receive d now).
Proof. unfold receive. stays_tac. Qed.
#[local] Hint Resolve stays_receive : stays.
Lemma stays_sync_step e now : stays grows (sync_step e now).
Proof.
  destruct e; cbn [sync_step].
  all: try (unfold sendHello, update_turn, sendUpdate, syncPins; stays_tac; fail).
  apply stays_modify. intros s. same_tree.
Qed.
Lemma steps_grow s s' : sync_steps s s' → grows s s'.
Proof. induction 1 as [|s e now s' _ IH]; [done|]. etransitivity; [|exact IH]. apply stays_sync_step. Qed.

(** ** Reading the tree *)
Lemma pins_of cs : (∀ c, c ∈ cs → ∃ p, claim_of p c) → ∃ ps, Forall2 claim_of ps cs.
Proof.
  induction cs as [|c cs IH]; intros Hcs; [by exists []|].
  destruct (Hcs c) as [p Hp]; [set_solver|]. destruct IH as [ps Hps]; [set_solver|]. exists (p :: ps). by constructor.
Qed.
Lemma plain_claims_pins b ps cs : Forall2 claim_of ps cs →
  ∃ vs, tree.plain_claims b cs = Ok ((λ x, if b then b64_EncodeToString x else b2s (norm_NFC x)) <$> ps, vs).
Proof.
  intros Hf. eexists. rewrite (tree.plain_claims_spec b cs ((λ p, (p, [])) <$> ps)).
  - rewrite <-!list_fmap_compose. done.
  - apply Forall2_fmap_r, Forall2_flip. eapply Forall2_impl; [exact Hf|]. intros p c Hp. by apply claim_of_data.
Qed.
Lemma DumpPlain_own b t : pins_ok t → ∃ ps vs, Forall2 claim_of ps (tree_claims t) ∧
  tree.DumpPlain "" b t = Ok ((λ x, if b then b64_EncodeToString x else b2s (norm_NFC x)) <$> ps, vs).
Proof.
  intros Hok. destruct (pins_of _ Hok) as [ps Hps]. destruct (plain_claims_pins b _ _ Hps) as [vs Hvs].
  exists ps, vs. split; [done|]. unfold tree.DumpPlain. change (tree.rootHash_of "") with (@Ok (option bytes) None).
  cbn [mbind res_bind]. by rewrite (proj1 (law_Walk (tree.Tree_ t))).
Qed.

Lemma elem_of_diff x a b : x ∈ diff a b ↔ x ∈ a ∧ x ∉ b.
Proof.
  unfold diff. rewrite list_elem_of_filter.
  assert (∀ l (m : gmap string ()), foldl (λ mb x, <[x:=()]> mb) m l !! x = None ↔ m !! x = None ∧ x ∉ l) as Hm.
  { induction l as [|y l IH]; intros m; simpl; [by rewrite elem_of_nil; naive_solver|].
    rewrite IH, lookup_insert_None, elem_of_cons. naive_solver. }
  rewrite Hm, lookup_empty. naive_solver.
Qed.

(** The node of the tree a hash names. *)
Definition below (h : string) t c : Prop :=
  ∃ hb cs, tree.stringToHash h = Ok hb ∧ mt_GetNode (tree.Tree_ t) hb = true ∧
    mt_Walk (tree.Tree_ t) (Some hb) = Ok cs ∧ c ∈ cs.
Lemma below_Root t c : below (tree.Root t) t c ↔ c ∈ tree_claims t.
Proof.
  destruct (law_RootKey (tree.Tree_ t)) as [Hl Hg]. destruct (law_Walk (tree.Tree_ t)) as [_ Hw].
  assert (tree.stringToHash (tree.Root t) = Ok (mt_RootKey (tree.Tree_ t))) as Hs.
  { unfold tree.stringToHash, tree.Root. rewrite law_HexEncode. cbn [mbind res_bind]. by rewrite tree.slot_exact. }
  split.
  - intros (hb & cs & Hb & _ & Hcs & Hc). rewrite Hs in Hb. injection Hb as <-. rewrite Hw in Hcs. by injection Hcs as <-.
  - intros Hc. exists (mt_RootKey (tree.Tree_ t)), (mt_claims (tree.Tree_ t)). done.
Qed.
(** A hash the tree knows: the claims below it are claims of the tree. *)
Lemma HashExist_below h t : tree.HashExist h t = Ok true →
  ∃ hb cs, tree.stringToHash h = Ok hb ∧ mt_GetNode (tree.Tree_ t) hb = true ∧
    mt_Walk (tree.Tree_ t) (Some hb) = Ok cs ∧ ∀ c, c ∈ cs → c ∈ tree_claims t.
Proof.
  unfold tree.HashExist. intros Hh. go_inv Hh. destruct (law_Walk_node _ _ Hh) as (cs & Hw & Hsub).
  exists a, cs. split_and!; [done..|]. intros c. apply Hsub.
Qed.

(** The list sent for a hash leaves out only what is below that hash. *)
Lemma listPins_covers h t : pins_ok t → ∃ l, listPins h t = Ok l ∧
  ∀ c, c ∈ tree_claims t → (∃ p, claim_of p c ∧ b64_EncodeToString p ∈ l) ∨ below h t c.
Proof.
  intros Hok. destruct (DumpPlain_own true t Hok) as (ps & vs & Hps & Hd). unfold listPins. rewrite Hd.
  assert (∀ c, c ∈ tree_claims t → ∃ p, claim_of p c ∧ b64_EncodeToString p ∈ b64_EncodeToString <$> ps) as Hall.
  { intros c [i Hi]%list_elem_of_lookup. destruct (Forall2_lookup_r _ _ _ _ _ Hps Hi) as (p & Hp & Hc).
    exists p. split; [done|]. apply list_elem_of_fmap_2. by eapply list_elem_of_lookup_2. }
  case_decide as Hz; [exists (b64_EncodeToString <$> ps); naive_solver|].
  destruct (tree.HashExist h t) as [[]|e|w] eqn:He; [|exists (b64_EncodeToString <$> ps); naive_solver..|].
  2:{ exfalso. unfold tree.HashExist, tree.stringToHash in He.
      destruct (common3_HexDecode h) eqn:Hx; simpl in He; try done. by apply law_HexDecode_not_panic in Hx. }
  destruct (HashExist_below _ _ He) as (hb & cs & Hb & Hg & Hw & Hsub).
  destruct (pins_of cs) as [ps' Hps']; [by intros c Hc; apply Hok, Hsub|].
  destruct (plain_claims_pins true _ _ Hps') as [vs' Hvs'].
  assert (tree.DumpPlain h true t = Ok (b64_EncodeToString <$> ps', vs')) as ->.
  { unfold tree.DumpPlain, tree.rootHash_of. rewrite decide_True.
    - rewrite Hb. cbn [mbind res_bind]. by rewrite Hw.
    - destruct h; [naive_solver|]. unfold slen. simpl. lia. }
  eexists. split; [done|]. intros c Hc. destruct (Hall c Hc) as (p & Hp & Hin).
  destruct (decide (b64_EncodeToString p ∈ b64_EncodeToString <$> ps')) as [(q & Hq & Hqin)%list_elem_of_fmap|Hn].
  - right. exists hb, cs. split_and!; [done..|]. apply b64_EncodeToString_inj in Hq as <-.
    apply list_elem_of_lookup in Hqin as [i Hi]. destruct (Forall2_lookup_l _ _ _ _ _ Hps' Hi) as (c' & Hc' & Hcl).
    rewrite (claim_of_inj _ _ _ Hp Hcl). by eapply list_elem_of_lookup_2.
  - left. exists p. split; [done|]. by apply elem_of_diff.
Qed.

(** ** The three messages *)
Lemma has_index_grows i t t' : tree_grows t t' → has_index i t → has_index i t'.
Proof. intros (Hc & _) (c & Hin & Hi). exists c. auto. Qed.
Lemma AddClaim_not_panic p v t w : tree.AddClaim p v t ≠ Panic w.
Proof.
  unfold tree.AddClaim, tree.getClaimFromData, guard_err. repeat case_bool_decide; cbn [mbind res_bind]; try done.
  destruct (mt_AddClaim _ _) eqn:Em; cbn [mbind res_bind]; [discriminate|discriminate|]. intros _. by apply law_AddClaim_not_panic in Em.
Qed.
Lemma addClaim_run p s t : is_hashTree s = Some t → ∃ s' t', addClaim p s = (Ok (), s') ∧ is_hashTree s' = Some t' ∧
  ∀ c, claim_of p c → has_index (cb_IndexSlot c) t'.
Proof.
  intros Ht. unfold addClaim, logged, try_, updates. rewrite GM_run. unfold hashTree. rewrite Ht. cbn [mbind res_bind].
  destruct (tree.AddClaim p [] t) as [t'|e|w] eqn:Ea; cbn [mbind res_bind].
  - eexists _, t'. split_and!; [done..|]. intros c Hc. destruct (AddClaim_index p c t Hc) as [Hi|(t2 & Ha & Hin)].
    + eapply has_index_grows; [|done]. by eapply AddClaim_grows.
    + rewrite Ea in Ha. injection Ha as <-. by exists c.
  - exists s, t. split_and!; [done..|]. intros c Hc. destruct (AddClaim_index p c t Hc) as [Hi|(t2 & Ha & _)]; [done|by rewrite Ea in Ha].
  - by apply AddClaim_not_panic in Ea.
Qed.
Lemma addPin_run v s t : is_hashTree s = Some t → ∃ s' t', addPin v s = (Ok (), s') ∧ is_hashTree s' = Some t' ∧
  ∀ p c, claim_of p c → b64_EncodeToString p = v → has_index (cb_IndexSlot c) t'.
Proof.
  intros Ht. unfold addPin. destruct (b64_DecodeString v) as [pin|e|w] eqn:Ed.
  2,3: exists s, t; split_and!; [done..|]; intros p c _ <-; by rewrite b64_roundtrip in Ed.
  case_decide as Hsz.
  - exists s, t. split_and!; [done..|]. intros p c Hc%claim_of_size <-. rewrite b64_roundtrip in Ed. simplify_eq.
    unfold tree.MaxClaimSize in Hsz. lia.
  - destruct (addClaim_run pin s t Ht) as (s' & t' & Ha & Ht' & Hi). exists s', t'. split_and!; [done..|].
    intros p c Hc <-. rewrite b64_roundtrip in Ed. simplify_eq. auto.
Qed.
Lemma addPin_all l s t : is_hashTree s = Some t → ∃ s' t', for_each l addPin s = (Ok (), s') ∧ is_hashTree s' = Some t' ∧
  ∀ p c, claim_of p c → b64_EncodeToString p ∈ l → has_index (cb_IndexSlot c) t'.
Proof.
  revert s t. induction l as [|v l IH]; intros s t Ht.
  { exists s, t. split_and!; [done..|]. by intros p c _ []%elem_of_nil. }
  destruct (addPin_run v s t Ht) as (s1 & t1 & Hr & Ht1 & Hv). destruct (IH s1 t1 Ht1) as (s2 & t2 & Hl & Ht2 & Hall).
  exists s2, t2. cbn [for_each]. rewrite GM_run, Hr. split_and!; [done..|]. intros p c Hc [E|Hin]%elem_of_cons; [|by eapply Hall].
  assert (grows s1 s2) as Hg by (eapply stays_run; [|exact Hl]; stays_tac).
  destruct (g_tree _ _ Hg _ Ht1) as (t2' & ? & Htg). simplify_eq. eapply has_index_grows; [done|]. by eapply Hv.
Qed.
Lemma addPins_index l s t : is_hashTree s = Some t → ∃ t', is_hashTree (addPins l s).2 = Some t' ∧
  ∀ p c, claim_of p c → b64_EncodeToString p ∈ l → has_index (cb_IndexSlot c) t'.
Proof.
  intros Ht. destruct (addPin_all l s t Ht) as (s' & t' & Hl & Ht' & Hall). exists t'. split; [|done].
  unfold addPins. rewrite GM_run. unfold reads at 1, hashTree at 1. rewrite Ht. rewrite GM_run, Hl, GM_run. unfold reads, hashTree.
  rewrite Ht'. by case_decide.
Qed.

Lemma answers_sent {A} (m : GM IPFSsync A) s l : is_sent (m s).2 = is_sent s ++ l → answers m s = l.
Proof. intros E. unfold answers. rewrite E. apply drop_app_length. Qed.
Lemma receive_Handle d msg now s : json_SyncMessage d = Ok msg →
  is_panic (Handle msg now s).1 = false → (receive d now s).2 = (Handle msg now s).2.
Proof.
  intros Hj Hp. unfold receive. rewrite Hj. destruct (Handle msg now s) as [r s'] eqn:E. by rewrite (logged_run _ _ _ _ E Hp).
Qed.
Lemma unicastMsg_run a m s : ∃ d, json_SyncMessage d = Ok m ∧
  unicastMsg a m s = (Ok (), set_sent (is_sent s ++ [(Some a, d)]) s).
Proof. destruct (law_json_SyncMessage m) as (d & Hm & Hd). exists d. split; [done|]. unfold unicastMsg. rewrite GM_run. unfold lift. by rewrite Hm. Qed.

(** A message from another node, within the time window. *)
Definition accepted (msg : Message) (now : Z) s : Prop :=
  msg_Address msg ≠ is_Address s ∧ too_old now msg s = false ∧ 31 < slen (msg_Address msg).
Lemma long_enough_Root msg now s t : accepted msg now s → msg_Hash msg = tree.Root t → long_enough msg = true.
Proof.
  intros (_ & _ & Hl) Hh. unfold long_enough. rewrite Hh. pose proof (tree.slen_Root t). by rewrite !bool_decide_eq_true_2.
Qed.

Lemma handle_update msg now s t ta : accepted msg now s → msg_Type msg = "update" → msg_Hash msg = tree.Root ta →
  is_hashTree s = Some t → last_known s →
  (tree.HashExist (tree.Root ta) t = Ok true ∧ Handle msg now s = (Ok (), s)) ∨
  Handle msg now s = askPins (msg_Address msg) (tree.Root t) now s.
Proof.
  intros Hacc Hty Hh Ht Hlast. pose proof (long_enough_Root _ _ _ _ Hacc Hh) as Hlong. destruct Hacc as (Haddr & Hold & _).
  unfold Handle. rewrite GM_run. unfold get_st. rewrite decide_False by done. rewrite Hold, Hty, Hlong. rewrite decide_False by done.
  rewrite decide_True by done. rewrite GM_run. unfold lift, hashTree. rewrite Ht, Hh.
  assert (tree.HashExist (tree.Root ta) t = Ok (mt_GetNode (tree.Tree_ t) (mt_RootKey (tree.Tree_ ta)))) as He.
  { unfold tree.HashExist, tree.stringToHash, tree.Root. rewrite law_HexEncode. cbn [mbind res_bind].
    by rewrite tree.slot_exact by apply law_RootKey. }
  rewrite He. destruct (mt_GetNode _ _) eqn:Eg; [by left|]. case_decide as Hl; [by right|]. exfalso.
  destruct Hlast as [Hl0|(t0 & Ht0 & Hk)].
  - pose proof (tree.slen_Root ta). rewrite <-Hl, Hl0 in *. unfold slen in *. simpl in *. lia.
  - simplify_eq. rewrite Hl, He in Hk. done.
Qed.
Lemma handle_fetch msg now s t tb : accepted msg now s → msg_Type msg = "fetch" → msg_Hash msg = tree.Root tb →
  is_hashTree s = Some t →
  Handle msg now s = if decide (tree.Root tb ≠ tree.Root t) then sendPins (msg_Address msg) (tree.Root tb) now s else (Ok (), s).
Proof.
  intros Hacc Hty Hh Ht. pose proof (long_enough_Root _ _ _ _ Hacc Hh) as Hlong. destruct Hacc as (Haddr & Hold & _).
  unfold Handle. rewrite GM_run. unfold get_st. rewrite decide_False by done. rewrite Hold, Hty, Hlong.
  do 3 (rewrite decide_False by done). rewrite decide_True by done. rewrite GM_run. unfold lift, hashTree. rewrite Ht, Hh. by case_decide.
Qed.
Lemma handle_reply msg now s t ta : accepted msg now s → msg_Type msg = "fetchReply" → msg_Hash msg = tree.Root ta →
  is_hashTree s = Some t →
  Handle msg now s = if decide (tree.Root ta ≠ tree.Root t) then addPins (msg_PinList msg) s else (Ok (), s).
Proof.
  intros Hacc Hty Hh Ht. pose proof (long_enough_Root _ _ _ _ Hacc Hh) as Hlong. destruct Hacc as (Haddr & Hold & _).
  unfold Handle. rewrite GM_run. unfold get_st. rewrite decide_False by done. rewrite Hold, Hty, Hlong.
  do 2 (rewrite decide_False by done). rewrite decide_True by done. rewrite GM_run. unfold lift, hashTree. rewrite Ht, Hh. by case_decide.
Qed.

(** ** Convergence

    A node that runs, with its tree. *)
Record running t s : Prop := mkRunning {
  r_tree : is_hashTree s = Some t;
  r_pins : pins_ok t;
  r_last : last_known s;
  r_window : is_TimestampWindow s = 30;
  r_addr : 31 < slen (is_Address s) }.
Lemma running_grows t s s' : running t s → grows s s' → ∃ t', running t' s' ∧ tree_grows t t'.
Proof.
  intros [] []. destruct (g_tree0 t r_tree0) as (t' & Ht' & Hg). exists t'. split; [|done].
  split; [done|by apply Hg|auto|by rewrite g_Window0|by rewrite g_Address0].
Qed.
(** The hashes two trees both know stand for the same claims: no collision. *)
Definition agree t t' : Prop :=
  ∀ h, tree.HashExist h t = Ok true → tree.HashExist h t' = Ok true → ∀ c, below h t c ↔ below h t' c.
Lemma below_claims h t c : below h t c → c ∈ tree_claims t.
Proof. intros (hb & cs & _ & Hg & Hw & Hc). destruct (law_Walk_node _ _ Hg) as (cs' & Hw' & Hs). rewrite Hw in Hw'. injection Hw' as <-. by apply Hs. Qed.
Lemma agree_root t t' : agree t t' → tree.HashExist (tree.Root t) t' = Ok true → ∀ c, c ∈ tree_claims t → c ∈ tree_claims t'.
Proof. intros Ha Hk c Hc. apply (below_claims (tree.Root t)), (Ha _ (tree.Root_known t) Hk). by apply below_Root. Qed.
Lemma agree_same_root t t' : agree t t' → tree.Root t = tree.Root t' → ∀ c, c ∈ tree_claims t → c ∈ tree_claims t'.
Proof. intros Ha E. apply agree_root; [done|]. rewrite E. apply tree.Root_known. Qed.

(** Clocks that differ by no more than the window. *)
Definition soon (n0 n1 : Z) : Prop := 0 ≤ n0 ≤ n1 ∧ n1 ≤ n0 + 30 ∧ n1 < 2^31.
Lemma too_old_soon n0 n1 msg s : soon n0 n1 → msg_Timestamp msg = i32 n0 → is_TimestampWindow s = 30 → too_old n1 msg s = false.
Proof.
  intros (? & ? & ?) Hm Hw. unfold too_old. rewrite Hm, Hw. apply bool_decide_eq_false_2.
  assert (∀ z, 0 ≤ z < 2^31 → i32 z = z) as Hi by (intros; unfold i32; rewrite Z.mod_small; lia).
  rewrite (Hi n0), (Hi n1) by lia. rewrite Hi by lia. lia.
Qed.
Lemma deliver_one x now s : (deliver [x] now s).2 = (receive x.2 now s).2.
Proof. unfold deliver. cbn [for_each]. rewrite GM_run. by destruct (receive x.2 now s) as [[]]. Qed.

(** The question that answers an update, unless everything is there. *)
Lemma update_answer ta tb a b d n0 n1 : running ta a → running tb b → is_Address a ≠ is_Address b → soon n0 n1 →
  json_SyncMessage d = Ok (update_message a ta n0) → agree ta tb →
  (∀ c, c ∈ tree_claims ta → c ∈ tree_claims tb) ∨
  ∃ q, answers (receive d n1) b = [(Some (is_Address a), q)] ∧
    json_SyncMessage q = Ok (mkMessage "fetch" (is_Address b) "" "" (tree.Root tb) [] (i32 n1)).
Proof.
  intros Ra Rb Hne Ht Hj Hag. destruct Rb as [Htb _ Hlast Hw _].
  assert (accepted (update_message a ta n0) n1 b) as Hacc by (split_and!; [done|by eapply too_old_soon|apply Ra]).
  destruct (handle_update _ n1 b tb ta Hacc) as [[Hk _]|Hh]; [done..| |].
  - left. by apply agree_root.
  - right. unfold askPins in Hh. rewrite GM_run in Hh. unfold get_st in Hh.
    destruct (unicastMsg_run (is_Address a) (mkMessage "fetch" (is_Address b) "" "" (tree.Root tb) [] (i32 n1)) b) as (q & Hq & Hu).
    exists q. split; [|done]. cbn [msg_Address update_message] in Hh. rewrite Hu in Hh. apply answers_sent.
    by rewrite (receive_Handle _ _ _ _ Hj), Hh by by rewrite Hh.
Qed.
(** The pins that answer the question, unless the trees are the same. *)
Lemma fetch_answer ta tb a b q n1 n2 : running ta a → 31 < slen (is_Address b) → is_Address a ≠ is_Address b → soon n1 n2 →
  json_SyncMessage q = Ok (mkMessage "fetch" (is_Address b) "" "" (tree.Root tb) [] (i32 n1)) → agree ta tb →
  (∀ c, c ∈ tree_claims ta → c ∈ tree_claims tb) ∨
  ∃ r l, answers (receive q n2) a = [(Some (is_Address b), r)] ∧
    json_SyncMessage r = Ok (mkMessage "fetchReply" (is_Address a) "" "" (tree.Root ta) l (i32 n2)) ∧
    ∀ c, c ∈ tree_claims ta → (∃ p, claim_of p c ∧ b64_EncodeToString p ∈ l) ∨ c ∈ tree_claims tb.
Proof.
  intros [Hta Hok _ Hw _] Hb Hne Ht Hj Hag.
  assert (accepted (mkMessage "fetch" (is_Address b) "" "" (tree.Root tb) [] (i32 n1)) n2 a) as Hacc
    by (split_and!; [done|by eapply too_old_soon|done]).
  pose proof (handle_fetch _ n2 a ta tb Hacc eq_refl eq_refl Hta) as Hh. case_decide as Hr.
  2:{ left. by apply agree_same_root. }
  right. destruct (listPins_covers (tree.Root tb) ta Hok) as (l & Hl & Hcov).
  destruct (unicastMsg_run (is_Address b) (mkMessage "fetchReply" (is_Address a) "" "" (tree.Root ta) l (i32 n2)) a) as (r & Hrj & Hu).
  exists r, l. split_and!; [|done|].
  - unfold sendPins in Hh. rewrite GM_run in Hh. unfold get_st in Hh. rewrite GM_run in Hh. unfold lift, hashTree in Hh.
    rewrite Hta, GM_run, Hl in Hh. cbn [msg_Address] in Hh. rewrite Hu in Hh. apply answers_sent.
    by rewrite (receive_Handle _ _ _ _ Hj), Hh by by rewrite Hh.
  - intros c Hc. destruct (Hcov c Hc) as [?|Hbel]; [by left|right]. apply (below_claims (tree.Root tb)).
    apply (Hag (tree.Root tb)); [|apply tree.Root_known|done].
    destruct Hbel as (hb & cs & Hs & Hg & _). unfold tree.HashExist. rewrite Hs. cbn [mbind res_bind]. by rewrite Hg.
Qed.
(** The reply brings the pins in, unless the trees are the same. *)
Lemma reply_effect ta tb a b r l n2 n3 : running tb b → 31 < slen (is_Address a) → is_Address a ≠ is_Address b → soon n2 n3 →
  json_SyncMessage r = Ok (mkMessage "fetchReply" (is_Address a) "" "" (tree.Root ta) l (i32 n2)) → agree ta tb →
  ∃ tb', is_hashTree (receive r n3 b).2 = Some tb' ∧ tree_grows tb tb' ∧
    ((∀ c, c ∈ tree_claims ta → c ∈ tree_claims tb) ∨
     ∀ p c, claim_of p c → b64_EncodeToString p ∈ l → has_index (cb_IndexSlot c) tb').
Proof.
  intros [Htb Hok _ Hw _] Ha Hne Ht Hj Hag.
  assert (accepted (mkMessage "fetchReply" (is_Address a) "" "" (tree.Root ta) l (i32 n2)) n3 b) as Hacc
    by (split_and!; [done|by eapply too_old_soon|done]).
  destruct (g_tree _ _ (stays_receive r n3 b) _ Htb) as (tb' & Htb' & Hg). exists tb'. split_and!; [done..|].
  pose proof (handle_reply _ n3 b tb ta Hacc eq_refl eq_refl Htb) as Hh. case_decide as Hr.
  2:{ left. by apply agree_same_root. }
  right. intros p c Hc Hin. cbn [msg_PinList] in Hh. destruct (addPins_index l b tb Htb) as (t' & Ht' & Hall).
  assert (is_panic (addPins l b).1 = false) as Hnp.
  { unfold addPins. rewrite GM_run. unfold reads at 1, hashTree at 1. rewrite Htb.
    destruct (addPin_all l b tb Htb) as (s2 & tx' & Hs2 & Ht2 & _). rewrite GM_run, Hs2, GM_run. unfold reads, hashTree.
    rewrite Ht2. by case_decide. }
  rewrite <-Hh in Ht', Hnp. rewrite (receive_Handle _ _ _ _ Hj Hnp), Ht' in Htb'. injection Htb' as <-. by eapply Hall.
Qed.

(** A node that has just started runs. *)
Lemma Start_running dataDir key priv transport i st addr maddr s :
  Start (Ok st) (Ok (addr, maddr)) (NewIPFSsync dataDir key priv transport i) = (Ok (), s) → 31 < slen addr → ∃ t, running t s.
Proof.
  intros Hs Ha. unfold Start in Hs. go_inv Hs.
  match goal with E : match tree.NewTree ?st with _ => _ end = Ok ?x |- _ => rename E into Ht0; rename st into st0; rename x into t0 end.
  assert (tree_claims t0 = []) as He.
  { unfold tree.NewTree in Ht0. destruct (mt_NewMerkleTree st0) as [m| |] eqn:Em; [|done|done].
    injection Ht0 as <-. by apply (law_NewMerkleTree st0). }
  match type of Hrun with _ ?x = (_, ?y) => assert (grows x y) as Hg by (eapply stays_run; [|exact Hrun]; stays_tac) end.
  destruct (g_tree _ _ Hg t0 eq_refl) as (t & Ht & Htg). exists t.
  split; [done| | |exact (g_Window _ _ Hg)|done].
  - apply Htg. intros c Hc. rewrite He in Hc. by apply elem_of_nil in Hc.
  - destruct (g_last _ _ Hg) as [?|(t' & ? & ?)]; [by left|by left|]. right. by exists t'.
Qed.


End facts.

(** ** Two nodes that really run

    A tree is the list of its claims, the newest first; its past roots are
    those of the ends of the list. *)
Definition ctree_root (t : list ClaimBasic) : bytes := poly_hash 13 (concat (cb_IndexSlot <$> t)).
Fixpoint ctree_node (h : bytes) (t : list ClaimBasic) : option (list ClaimBasic) :=
  if decide (ctree_root t = h) then Some t else match t with [] => None | _ :: t' => ctree_node h t' end.
#[export] Instance concrete_iden3 : Iden3 := {|
  IndexSlotLen := 64; ValueSlotLen := 62;
  mtree := list ClaimBasic; mt_storage := ();
  mt_NewMerkleTree _ := Ok [];
  mt_AddClaim c t := if decide (cb_IndexSlot c ∈ cb_IndexSlot <$> t) then Err "the index already exists" else Ok (c :: t);
  mt_RootKey := ctree_root;
  mt_GetNode t h := bool_decide (is_Some (ctree_node h t));
  mt_Walk t root := match root with None => Ok t | Some h => of_option "node not found" (ctree_node h t) end;
  mt_DumpClaims _ _ := Ok []; mt_ImportDumpedClaims _ t := (Ok (), t); mt_Snapshot t _ := Ok t;
  cb_HIndex c := Ok (cb_IndexSlot c); cb_HValue c := Ok (cb_ValueSlot c);
  mt_proof := bytes; mt_GenerateProof _ h := Ok h; mp_Existence _ := true; mp_Bytes p := p;
  mt_NewProofFromBytes := Ok; mt_VerifyProof _ p i _ := bool_decide (p = i);
  common3_HexEncode b := "0x" +:+ sprintf_x b; common3_HexDecode s := hex_DecodeString (TrimHex s);
  norm_NFC b := b |}.
Lemma ctree_node_eq h t : ctree_node h t =
  if decide (ctree_root t = h) then Some t else match t with [] => None | _ :: t' => ctree_node h t' end.
Proof. by destruct t. Qed.
Lemma ctree_node_own t : ctree_node (ctree_root t) t = Some t.
Proof. rewrite ctree_node_eq. by rewrite decide_True. Qed.
Lemma ctree_node_suffix h t u : ctree_node h t = Some u → ctree_root u = h ∧ u `suffix_of` t.
Proof.
  induction t as [|c t IH]; rewrite ctree_node_eq; case_decide; intros E; simplify_eq; [done|done|].
  destruct (IH E) as [? Hs]. split; [done|]. by apply suffix_cons_r.
Qed.
#[export] Instance concrete_iden3_laws : Iden3Laws.
Proof.
  refine {| mt_claims := λ t : mtree, t |}; simpl; try lia.
  - by intros _ t [= <-].
  - intros c t w. by case_decide.
  - intros c t t' Ha c'. case_decide; simplify_eq. by rewrite elem_of_cons.
  - intros c t Hn. rewrite decide_False; [eauto|]. intros (c' & E & Hc')%list_elem_of_fmap. by apply (Hn c').
  - intros c t t' h. case_decide; [done|]. intros [= <-]. rewrite !bool_decide_eq_true, (ctree_node_eq h (c :: t)). by case_decide.
  - intros t. split; [done|]. rewrite ctree_node_own. done.
  - intros t. by rewrite ctree_node_own.
  - intros t h [u Hu]%bool_decide_eq_true. exists u. rewrite Hu. split; [done|].
    apply ctree_node_suffix in Hu as [_ [k ->]]. set_solver.
  - intros b. rewrite TrimHex_sprintf_x || idtac. apply hex_DecodeString_sprintf_x.
  - intros h w. apply hex_DecodeString_no_panic.
  - intros b. pose proof (slen_sprintf_x b) as E. unfold slen in *.
    change (String.length ("0x" +:+ sprintf_x b)) with (S (S (String.length (sprintf_x b)))). lia.
Defined.
(** The node lists what it has pinned. *)
#[export] Instance concrete_ipfs : IpfsCore := {|
  ipfs := list string;
  core_AddAllAndPin b n := (Ok (sprintf_x b), sprintf_x b :: n);
  core_ResolvePath _ p := Ok p;
  core_PinAdd p n := (Ok (), p :: n); core_PinRm p n := (Ok (), filter (λ x, x ≠ p) n);
  core_PinLs n _ := Ok (mkPinChan ((λ p, (p, "recursive")) <$> n) 0);
  core_UnixfsGet _ p := b ← hex_DecodeString p; Ok (mkUnixfsNode (Ok (glen b)) (Some (Ok b)));
  core_Peers _ := Ok []; core_KnownAddrs _ := Ok 0; core_Protect _ n := n; core_Connect _ n := (Ok (), n);
  ma_NewMultiaddr := Ok; peer_AddrInfoFromP2pAddr := Ok; os_Writable _ := true |}.
#[export] Instance Message_eq_dec : EqDecision Message.
Proof. solve_decision. Defined.
#[export] Instance Message_countable : Countable Message.
Proof.
  refine (inj_countable
    (λ x, [encode (msg_Type x); encode (msg_Address x); encode (msg_Maddress x); encode (msg_NodeID x);
      encode (msg_Hash x); encode (msg_PinList x); encode (msg_Timestamp x)])
    (λ l, match l with
      | [a; b; c; d; e; f; g] =>
        a ← decode a; b ← decode b; c ← decode c; d ← decode d; e ← decode e; f ← decode f; g ← decode g;
        Some (mkMessage a b c d e f g)
      | _ => None
      end) _).
  intros []. cbn -[encode decode]. by repeat (rewrite decode_encode; cbn -[encode decode]).
Defined.
#[export] Instance concrete_sync_json : SyncJSON := {| marshal_SyncMessage m := Ok (enc m); json_SyncMessage := dec |}.
#[export] Instance concrete_sync_json_laws : SyncJSONLaws.
Proof. constructor. intros m. exists (enc m). split; [done|]. apply dec_enc. Qed.

(** Two trees whose roots, past and present, do not collide. *)
Fixpoint ends {A} (l : list A) : list (list A) := l :: match l with [] => [] | _ :: l' => ends l' end.
Lemma elem_of_ends {A} (u l : list A) : u `suffix_of` l → u ∈ ends l.
Proof.
  induction l as [|x l IH]; simpl; intros Hs.
  - apply suffix_nil_inv in Hs as ->. set_solver.
  - apply elem_of_cons. destruct u as [|y u]; [right; apply IH, suffix_nil|].
    apply suffix_cons_inv in Hs as [->|Hs]; [by left|right; auto].
Qed.
Definition no_collision (t t' : list ClaimBasic) : bool :=
  forallb (λ u, forallb (λ u', bool_decide (ctree_root u = ctree_root u' → u = u')) (ends t')) (ends t).
Lemma no_collision_ends (u u' t t' : list ClaimBasic) : no_collision t t' = true → u ∈ ends t → u' ∈ ends t' →
  ctree_root u = ctree_root u' → u = u'.
Proof.
  unfold no_collision. rewrite forallb_forall. intros Hn Hu Hu'.
  specialize (Hn u (proj1 (list_elem_of_In _ _) Hu)). rewrite forallb_forall in Hn.
  specialize (Hn u' (proj1 (list_elem_of_In _ _) Hu')). by apply bool_decide_eq_true in Hn.
Qed.
Lemma no_collision_agree (t t' : tree.Tree) : no_collision (tree.Tree_ t) (tree.Tree_ t') = true → agree t t'.
Proof.
  assert (∀ h hb (t : tree.Tree), tree.HashExist h t = Ok true → tree.stringToHash h = Ok hb →
    ∃ u, ctree_node hb (tree.Tree_ t) = Some u ∧ ctree_root u = hb ∧ u ∈ ends (tree.Tree_ t)) as Hk.
  { intros h hb t0 He Hb. unfold tree.HashExist in He. rewrite Hb in He. cbn [mbind res_bind] in He. injection He as He.
    apply bool_decide_eq_true in He as [u Hu]. destruct (ctree_node_suffix _ _ _ Hu) as [? Hs]. exists u. split_and!; [done..|].
    by apply elem_of_ends. }
  assert (∀ h hb (t : tree.Tree) u c, tree.stringToHash h = Ok hb → ctree_node hb (tree.Tree_ t) = Some u →
    below h t c ↔ c ∈ u) as Hw.
  { intros h hb t0 u c Hb Hu. split.
    - intros (hb' & cs & Hb' & _ & Hcs & Hc). rewrite Hb in Hb'. injection Hb' as <-. simpl in Hcs. rewrite Hu in Hcs. by injection Hcs as <-.
    - intros Hc. exists hb, u. split_and!; [done| |by simpl; rewrite Hu|done]. apply bool_decide_eq_true. by rewrite Hu. }
  intros Hn h H1 H2 c. destruct (tree.stringToHash h) as [hb| |] eqn:Hb.
  2,3: by unfold tree.HashExist in H1; rewrite Hb in H1.
  destruct (Hk _ _ _ H1 Hb) as (u & Hu & Hr & Hin). destruct (Hk _ _ _ H2 Hb) as (u' & Hu' & Hr' & Hin').
  rewrite (Hw _ _ _ _ _ Hb Hu), (Hw _ _ _ _ _ Hb Hu').
  by rewrite (no_collision_ends u u' _ _ Hn) by (done || congruence).
Qed.

Definition cipfs (pins : list string) : IPFSHandle := mkIPFSHandle (pins : @ipfs concrete_ipfs) "/tmp" ∅.
Definition cstorage : @mt_storage concrete_iden3 := ().
Definition cnode (addr : string) (pins : list string) : res () * IPFSsync :=
  Start (Ok cstorage) (Ok (addr, "/ip4/10.0.0.1/tcp/4001")) (NewIPFSsync "/tmp" "group" "" "libp2p" (cipfs pins)).
Definition node_a : IPFSsync := (cnode "QmNodeAAAAAAAAAAAAAAAAAAAAAAAAAAAAAAAA" ["/ipld/QmOne"; "/ipld/QmTwo"]).2.
Definition node_b : IPFSsync := (cnode "QmNodeBBBBBBBBBBBBBBBBBBBBBBBBBBBBBBBB" ["/ipld/QmTwo"; "/ipld/QmThree"]).2.
Definition tree_of (s : IPFSsync) : tree.Tree := default (tree.mkTree [] false) (is_hashTree s).
Lemma cnode_run addr pins : bool_decide ((cnode addr pins).1 = Ok ()) = true → cnode addr pins = (Ok (), (cnode addr pins).2).
Proof. intros E%bool_decide_eq_true. rewrite <-E. by destruct (cnode addr pins). Qed.
Lemma cnode_running addr pins : bool_decide ((cnode addr pins).1 = Ok ()) = true → 31 < slen addr →
  running (tree_of (cnode addr pins).2) (cnode addr pins).2.
Proof.
  intros E Ha. destruct (Start_running "/tmp" "group" "" "libp2p" (cipfs pins) cstorage addr "/ip4/10.0.0.1/tcp/4001" _ (cnode_run _ _ E) Ha) as [t Ht]. unfold tree_of. by rewrite (r_tree _ _ Ht).
Qed.
Lemma step_one (e : sync_event) now s : sync_steps s (sync_step e now s).2.
Proof. eapply sync_steps_step. constructor. Qed.

(** The update of [node_a] reaches [node_b], which meanwhile sends an update of its own. *)
Definition the_update : bytes := enc (update_message node_a (tree_of node_a) 100).
Definition later_a : IPFSsync := (sync_step EvHello 101 node_a).2.
Definition later_b : IPFSsync := (sync_step EvUpdate 102 (receive the_update 101 node_b).2).2.
Lemma running_later (s s' : IPFSsync) : sync_steps s s' → running (tree_of s) s → is_hashTree s' = Some (tree_of s').
Proof.
  intros Hs%steps_grow Hr. destruct (running_grows _ _ _ Hr Hs) as (t & Ht & _). unfold tree_of. by rewrite (r_tree _ _ Ht).
Qed.
