(* ===== verification/Keys.v ===== *)
(** * Keys of Ethereum accounts: the rest of [crypto/ethereum/ethereum.go]

    Import and export of key pairs, over the operations of [go-ethereum] that
    [Crypto.v] does not need. *)

From stdpp Require Import base strings list.
From Stdlib Require Import ZArith Lia.
From S2P Require Import Prelude GoLib Crypto.
Open Scope Z_scope.

(** [HexToECDSA], [GenerateKey] on the bytes of the random source,
    [key.PublicKey] and [FromECDSA]. *)
Class EcdsaKeys `{CryptoLib} := {
  ecdsa_Public : ecdsa_PrivateKey → ecdsa_PublicKey;
  HexToECDSA : string → option ecdsa_PrivateKey;
  ecdsa_GenerateKey : bytes → option ecdsa_PrivateKey;
  FromECDSA : ecdsa_PrivateKey → bytes }.
Class EcdsaKeysLaws `{EcdsaKeys} := {
  law_FromECDSA k : length (FromECDSA k) = 32%nat ∧ HexToECDSA (sprintf_x (FromECDSA k)) = Some k }.

Module ethkeys.
Section keys.
Context `{EcdsaKeys}.
Import ethereum.
Definition with_Private (key : ecdsa_PrivateKey) (k : SignKeys) : SignKeys := mkSignKeys (Some key) (sk_Authorized k).

Definition Generate (random : bytes) (k : SignKeys) : res SignKeys :=
  key ← of_option "cannot generate key" (ecdsa_GenerateKey random); Ok (with_Private key k).
Definition AddHexKey (privHex : string) (k : SignKeys) : res SignKeys :=
  key ← of_option "invalid hex data for private key" (HexToECDSA (TrimHex privHex)); Ok (with_Private key k).

(** Without a key the public key is the zero point, on which [CompressPubkey]
    dereferences a nil coordinate. *)
Definition the_key (k : SignKeys) : res ecdsa_PrivateKey :=
  match sk_Private k with Some key => Ok key | None => Panic "nil pointer dereference" end.
Definition HexString (k : SignKeys) : res (string * string) :=
  key ← the_key k;
  Ok (sprintf_x (CompressPubkey (ecdsa_Public key)), sprintf_x (FromECDSA key)).
Definition Address (k : SignKeys) : res bytes := key ← the_key k; Ok (PubkeyToAddress (ecdsa_Public key)).

(** An exported key can be imported. *)
Lemma HexString_AddHexKey `{!EcdsaKeysLaws} k pub priv k' : HexString k = Ok (pub, priv) →
  AddHexKey priv k' = Ok (mkSignKeys (sk_Private k) (sk_Authorized k')).
Proof.
  intros Hk. unfold HexString, the_key in Hk. destruct (sk_Private k) as [key|]; [|done]. injection Hk as _ <-.
  unfold AddHexKey. rewrite TrimHex_sprintf_x, (proj2 (law_FromECDSA key)). done.
Qed.
End keys.
End ethkeys.
