(* ===== verification/SubPub.v ===== *)
(** * The peer-to-peer network of the nodes: [subpub/], [net/subpub.go]

    A node keeps a list of peers, each with a channel of at most eight messages
    and a goroutine that writes them to the stream of the peer, encrypted with
    the key of the group and ended by a zero byte.  The goroutines are a step
    relation ([sp_step]); [blocked] are the calls of [PeerStreamWrite] that wait
    for room in a channel, with the lock on the peers held for reading.
    libp2p and the secretbox of NaCl are parameters. *)

From stdpp Require Import base gmap strings list.
From Stdlib Require Import ZArith Lia.
From S2P Require Import Prelude GoLib Crypto Keys Database Transaction.
Open Scope Z_scope.

(** [golang.org/x/crypto/nacl/secretbox]. *)
Class Secretbox := {
  sb_Seal : bytes → bytes → bytes → bytes;
  sb_Open : bytes → bytes → bytes → option bytes }.
Class SecretboxLaws `{Secretbox} := {
  law_Open_Seal msg nonce key : sb_Open (sb_Seal msg nonce key) nonce key = Some msg;
  law_Seal_len msg nonce key : length (sb_Seal msg nonce key) = (16 + length msg)%nat }.

Module subpub.
Section subpub.
Context `{CryptoLib} `{!EcdsaKeys} `{Secretbox}.

Definition delimiter : byte := Byte.x00.

(** The buffered channel of a peer, and whether its [broadcastHandler] still
    reads from it. *)
Record channel := mkChannel { ch_queue : list bytes; ch_handler : bool }.
Definition capacity : nat := 8.
Definition full (c : channel) : bool := bool_decide (capacity ≤ length (ch_queue c))%nat.
Definition push (msg : bytes) (c : channel) : channel := mkChannel (ch_queue c ++ [msg]) (ch_handler c).

(** [write] points to the channel. *)
Record peerSub := mkPeerSub { peer_id : string; write : nat }.
Record SubPub := mkSubPub {
  GroupKey : bytes;
  Topic : string;
  PubKey : string;
  privKey : string;
  Private : bool;
  Port : Z;
  NodeID : string;
  Peers : list peerSub;
  channels : list channel }.
Definition set_Peers x (ps : SubPub) : SubPub :=
  mkSubPub (GroupKey ps) (Topic ps) (PubKey ps) (privKey ps) (Private ps) (Port ps) (NodeID ps) x (channels ps).
Definition set_channels x (ps : SubPub) : SubPub :=
  mkSubPub (GroupKey ps) (Topic ps) (PubKey ps) (privKey ps) (Private ps) (Port ps) (NodeID ps) (Peers ps) x.
Definition set_NodeID x (ps : SubPub) : SubPub :=
  mkSubPub (GroupKey ps) (Topic ps) (PubKey ps) (privKey ps) (Private ps) (Port ps) x (Peers ps) (channels ps).

Definition NewSubPub (key : ecdsa_PrivateKey) (groupKey : bytes) (port : Z) (private : bool) : res SubPub :=
  if decide (glen groupKey < 4) then Panic "subpub group key is too small; 4 bytes at minimum"
  else Ok (mkSubPub (take 32 (ethereum.HashRaw groupKey)) (sprintf_x (ethereum.HashRaw (s2b "topic" ++ groupKey)))
         (sprintf_x (CompressPubkey (ecdsa_Public key))) (sprintf_x (PrivateBytes key)) private port "" [] []).

(** ** Encryption and framing

    [nonce] is what the random source yields, if it does. *)
Definition encrypt (ps : SubPub) (nonce : option bytes) (msg : bytes) : string :=
  match nonce with
  | Some nonce => b64_EncodeToString (nonce ++ sb_Seal msg nonce (GroupKey ps))
  | None => ""
  end.
Definition decrypt (ps : SubPub) (b64msg : string) : option bytes :=
  match b64_DecodeString b64msg with
  | Ok msg => if decide (glen msg < 25) then None else sb_Open (drop 24 msg) (take 24 msg) (GroupKey ps)
  | _ => None
  end.

(** What [SendMessage] writes to the stream. *)
Definition SendMessage (ps : SubPub) (nonce : option bytes) (msg : bytes) : bytes :=
  (if Private ps then msg else s2b (encrypt ps nonce msg)) ++ [delimiter].

(** [bufio.Reader.ReadBytes(delimiter)] until the end of the stream: what comes
    after the last delimiter is an error. *)
Fixpoint read_frames (acc stream : bytes) : list bytes :=
  match stream with
  | [] => []
  | x :: stream' => if decide (x = delimiter) then acc :: read_frames [] stream' else read_frames (acc ++ [x]) stream'
  end.
(** Each message is handed to [Reader] by a goroutine of its own; here in the
    order they are started. *)
Definition readHandler (ps : SubPub) (stream : bytes) : list bytes :=
  omap (λ message, if Private ps then Some message else decrypt ps (b2s message)) (read_frames [] stream).

(** ** Peers *)
Definition handleStream (pid : string) (ps : SubPub) : SubPub :=
  set_Peers (Peers ps ++ [mkPeerSub pid (length (channels ps))]) (set_channels (channels ps ++ [mkChannel [] true]) ps).

Definition connectedPeer (pid : string) (ps : SubPub) : bool := existsb (λ p, bool_decide (peer_id p = pid)) (Peers ps).

(** The three ways a unicast ends: the message is in the channel, there is no
    such peer, or the call waits. *)
Inductive unicast := Sent (ps : SubPub) | NoPeer (e : error) | Waits (c : nat).
Definition PeerStreamWrite (peerID : string) (msg : bytes) (ps : SubPub) : unicast :=
  match list_find (λ p, peer_id p = peerID) (Peers ps) with
  | None => NoPeer "no connection with peer, cannot open stream"
  | Some (_, p) =>
    match channels ps !! write p with
    | Some c => if full c then Waits (write p) else Sent (set_channels (<[write p := push msg c]> (channels ps)) ps)
    | None => NoPeer "no connection with peer, cannot open stream"
    end
  end.

(** A broadcast is dropped for a peer whose channel is full. *)
Definition broadcast_to (msg : bytes) (cs : list channel) (p : peerSub) : list channel :=
  match cs !! write p with Some c => if full c then cs else <[write p := push msg c]> cs | None => cs end.
Definition broadcast (msg : bytes) (ps : SubPub) : SubPub :=
  set_channels (foldl (broadcast_to msg) (channels ps) (Peers ps)) ps.

(** One turn of [broadcastHandler] on its channel: [None] when it waits for a
    message; [ok] tells whether the stream takes it. *)
Definition broadcastHandler (ps : SubPub) (nonce : option bytes) (ok : bool) (c : channel) : option (channel * bytes) :=
  match ch_handler c, ch_queue c with
  | true, msg :: rest => Some (mkChannel rest ok, if ok then SendMessage ps nonce msg else [])
  | _, _ => None
  end.

(** [ps.Peers[i] = ps.Peers[len-1]; ps.Peers = ps.Peers[:len-1]]. *)
Definition swap_remove {A} (i : nat) (l : list A) : list A :=
  match last l with Some x => take (length l - 1) (<[i := x]> l) | None => l end.
(** The loop of [peersManager]; [connected]: [len(ConnsToPeer(id)) > 0]. *)
Fixpoint collect_loop (connected : string → bool) (fuel i : nat) (peers : list peerSub) : list peerSub :=
  match fuel with
  | O => peers
  | S fuel' =>
    match peers !! i with
    | None => peers
    | Some peer =>
      if connected (peer_id peer) then collect_loop connected fuel' (S i) peers
      else collect_loop connected fuel' (S i) (swap_remove i peers)
    end
  end.
Definition peersManager (connected : string → bool) (ps : SubPub) : SubPub :=
  set_Peers (collect_loop connected (length (Peers ps)) 0 (Peers ps)) ps.

(** One turn of [discover]: [found] are the peers of the topic, [valid] those
    whose identity validates, [stream] those that accept a stream. *)
Definition discover_peer (valid stream : string → bool) (ps : SubPub) (pid : string) : SubPub :=
  if decide (pid = NodeID ps) then ps
  else if connectedPeer pid ps then ps
  else if valid pid && stream pid then handleStream pid ps
  else ps.
Definition discover (found : res (list string)) (valid stream : string → bool) (ps : SubPub) : res SubPub :=
  match found with
  | Ok found => Ok (foldl (discover_peer valid stream) ps found)
  | _ => Panic "log.Fatal"
  end.

(** ** The goroutines *)
Record network := mkNetwork { net_ps : SubPub; blocked : list (nat * bytes) }.
Inductive label :=
  | LUnicast (peerID : string) (msg : bytes) | LResume | LHandler (c : nat) (ok : bool)
  | LBroadcast (msg : bytes) | LCollect (connected : string → bool) | LStream (pid : string).
(** The steps that take the lock on the peers for writing. *)
Definition writes_peers (l : label) : bool :=
  match l with LBroadcast _ | LCollect _ | LStream _ => true | _ => false end.
Inductive sp_step : network → label → network → Prop :=
  | step_unicast ps b peerID msg ps' : PeerStreamWrite peerID msg ps = Sent ps' →
      sp_step (mkNetwork ps b) (LUnicast peerID msg) (mkNetwork ps' b)
  | step_no_peer ps b peerID msg e : PeerStreamWrite peerID msg ps = NoPeer e →
      sp_step (mkNetwork ps b) (LUnicast peerID msg) (mkNetwork ps b)
  | step_wait ps b peerID msg c : PeerStreamWrite peerID msg ps = Waits c →
      sp_step (mkNetwork ps b) (LUnicast peerID msg) (mkNetwork ps ((c, msg) :: b))
  | step_resume ps b1 b2 c msg ch : channels ps !! c = Some ch → full ch = false →
      sp_step (mkNetwork ps (b1 ++ (c, msg) :: b2)) LResume
        (mkNetwork (set_channels (<[c := push msg ch]> (channels ps)) ps) (b1 ++ b2))
  | step_handler ps b c ok nonce ch ch' out : channels ps !! c = Some ch →
      broadcastHandler ps nonce ok ch = Some (ch', out) →
      sp_step (mkNetwork ps b) (LHandler c ok) (mkNetwork (set_channels (<[c := ch']> (channels ps)) ps) b)
  | step_broadcast ps msg : sp_step (mkNetwork ps []) (LBroadcast msg) (mkNetwork (broadcast msg ps) [])
  | step_collect ps connected : sp_step (mkNetwork ps []) (LCollect connected) (mkNetwork (peersManager connected ps) [])
  | step_stream ps pid : sp_step (mkNetwork ps []) (LStream pid) (mkNetwork (handleStream pid ps) []).
Inductive sp_steps : network → list label → network → Prop :=
  | sp_refl n : sp_steps n [] n
  | sp_trans n1 l n2 ls n3 : sp_step n1 l n2 → sp_steps n2 ls n3 → sp_steps n1 (l :: ls) n3.
End subpub.

(** ** The transport over it: [net/subpub.go] *)
Section handle.
Context `{CryptoLib} `{!EcdsaKeys} `{Secretbox}.
Record Connection := mkConnection {
  conn_Topic : string; conn_Encryption : string; conn_TransportKey : string; conn_Key : string; conn_Address : string;
  conn_Port : Z }.
Record SubPubHandle := mkSubPubHandle { sh_Conn : Connection; sh_SubPub : SubPub }.
Definition SubPubHandle_Init (c : Connection) : res SubPubHandle :=
  s ← or_err "cannot import privkey" (ethkeys.AddHexKey (conn_Key c) ethereum.NewSignKeys);
  _ ← guard_err (bool_decide (slen (conn_TransportKey c) = 0)) "groupkey topic not specified";
  let port := if decide (conn_Port c = 0) then 45678 else conn_Port c in
  key ← ethkeys.the_key s;
  sp ← NewSubPub key (s2b (conn_TransportKey c)) port (bool_decide (conn_Encryption c = "private"));
  Ok (mkSubPubHandle (mkConnection (conn_Topic c) (conn_Encryption c) (conn_TransportKey c) (conn_Key c) (PubKey sp) port) sp).
End handle.
End subpub.
