(* ===== verification/Client.v ===== *)
(** * The client of the API: [client/]

    A client talks to a gateway over one connection: [exchange] writes a
    message and reads the answer, and [cl_conn] is whatever is at the other
    end.  [now] is the clock; the draws of random numbers are numbered.  The
    functions that only wait ([WaitUntilBlock], [TestResults]) are left out, and
    [TestSendVotes] is modelled by the turns of its loops. *)

From stdpp Require Import base gmap strings pretty list.
From Stdlib Require Import ZArith Lia.
From S2P Require Import Prelude GoLib Types Crypto Keys Transaction Database Api IpfsSync.
Import ipfssync (strings_Contains).
Open Scope Z_scope.

(** [encoding/json], [crypto.SortedMarshalJSON], the sealed boxes of NaCl and
    the random sources. *)
Record signKey := mkSignKey { sgk_PrivKey : string; sgk_PubKey : string; sgk_Proof : string }.
Record keysBatch := mkKeysBatch { kb_Keys : list signKey; kb_CensusID : string; kb_CensusURI : string }.
Class ClientLib := {
  sorted_MetaRequest : MetaRequest → res bytes;
  marshal_RequestMessage : RequestMessage → res bytes;
  json_ResponseMessage : bytes → res ResponseMessage;
  json_MetaResponse : bytes → res MetaResponse;
  marshal_VotePackage : VotePackage → res bytes;
  marshal_keysBatch : keysBatch → res bytes;
  json_keysBatch : bytes → res keysBatch;
  box_SealAnonymous : bytes → bytes → bytes → option bytes;
  rand_Read : nat → Z → bytes;
  rand_Intn : nat → Z → Z }.

Definition set_rq_ClaimsData v (r : MetaRequest) : MetaRequest :=
  mkMetaRequest (rq_CensusID r) (rq_CensusURI r) (rq_ClaimData r) v (rq_Content r) (rq_Digested
    r) (rq_EntityId r) (rq_From r) (rq_FromID r) (rq_ListSize r) (rq_Method r) (rq_Name r) (rq_Nullifier r) (rq_Payload r)
    (rq_ProcessID r) (rq_ProofData r) (rq_PubKeys r) (rq_RawTx r) (rq_RootHash r) (rq_Signature r) (rq_Timestamp
    r) (rq_Type r) (rq_URI r).
Definition set_rq_RawTx v (r : MetaRequest) : MetaRequest :=
  mkMetaRequest (rq_CensusID r) (rq_CensusURI r) (rq_ClaimData r) (rq_ClaimsData r) (rq_Content r) (rq_Digested
    r) (rq_EntityId r) (rq_From r) (rq_FromID r) (rq_ListSize r) (rq_Method r) (rq_Name r) (rq_Nullifier r) (rq_Payload r)
    (rq_ProcessID r) (rq_ProofData r) (rq_PubKeys r) v (rq_RootHash r) (rq_Signature r) (rq_Timestamp
    r) (rq_Type r) (rq_URI r).
Definition set_rq_URI v (r : MetaRequest) : MetaRequest :=
  mkMetaRequest (rq_CensusID r) (rq_CensusURI r) (rq_ClaimData r) (rq_ClaimsData r) (rq_Content r) (rq_Digested
    r) (rq_EntityId r) (rq_From r) (rq_FromID r) (rq_ListSize r) (rq_Method r) (rq_Name r) (rq_Nullifier r) (rq_Payload r)
    (rq_ProcessID r) (rq_ProofData r) (rq_PubKeys r) (rq_RawTx r) (rq_RootHash r) (rq_Signature r) (rq_Timestamp
    r) (rq_Type r) v.

Module client.
(** ** Keys and ballots: [client/util.go] *)
Section util.
Context `{CryptoLib} `{!EcdsaKeys} `{ClientLib}.

(** The file is the JSON; [proofs] is nil or as long as [keys]. *)
Definition save_key (ik : ethereum.SignKeys * string) : res signKey :=
  '(pub, priv) ← ethkeys.HexString ik.1; Ok (mkSignKey priv pub ik.2).
Definition SaveKeysBatch (censusID censusURI : string) (keys : list ethereum.SignKeys) (proofs : option (list string)) :
    res bytes :=
  _ ← guard_err (match proofs with Some ps => bool_decide (length ps ≠ length keys) | None => false end)
        "lenght of Proof is different from lenght of Signers";
  ks ← mapM save_key (zip keys (default (replicate (length keys) "") proofs));
  marshal_keysBatch (mkKeysBatch ks censusID censusURI).
Definition load_key (k : signKey) : res ethereum.SignKeys := ethkeys.AddHexKey (sgk_PrivKey k) ethereum.NewSignKeys.
Definition LoadKeysBatch (jb : bytes) : res (list ethereum.SignKeys * list string * string * string) :=
  kb ← json_keysBatch jb;
  _ ← guard_err (bool_decide (length (kb_Keys kb) = 0%nat) || bool_decide (kb_CensusID kb = "") ||
                 bool_decide (kb_CensusURI kb = "")) "keybatch file is empty or missing data";
  keys ← mapM load_key (kb_Keys kb);
  Ok (keys, sgk_Proof <$> kb_Keys kb, kb_CensusID kb, kb_CensusURI kb).

(** [nacl.Anonymous.Encrypt]; [random] is what the box draws. *)
Definition Anonymous_Encrypt (random msg pub : bytes) : res bytes :=
  of_option "cannot seal" (box_SealAnonymous random msg pub).
Definition RandomHex (draw : nat) (n : Z) : string := sprintf_x (rand_Read draw n).

(** A ballot is sealed with each key that is not empty, in order; the nonce is
    drawn, and the package printed, at the first of them. *)
Definition the_votes : list Z := [1; 2; 3; 4; 5; 6].
Definition first_package (draw : nat) : VotePackage :=
  mkVotePackage (RandomHex (S draw) (rand_Intn draw 16 + 16)) the_votes.
Fixpoint seal_votes (keys : list string) (first : bool) (vpBytes : bytes) (draw : nat) : res bytes :=
  match keys with
  | [] => Ok vpBytes
  | k :: keys' =>
    if decide (0 < slen k) then
      pub ← or_err "cannot decode encryption key" (nacl.DecodePublic k);
      vpBytes ← (if first : bool then marshal_VotePackage (first_package draw) else Ok vpBytes);
      vpBytes ← or_err "cannot encrypt" (Anonymous_Encrypt (rand_Read (draw + 2) 32) vpBytes pub);
      seal_votes keys' false vpBytes (draw + 3)
    else seal_votes keys' first vpBytes draw
  end.
Definition genVote (encrypted : bool) (keys : list string) (draw : nat) : res string :=
  vpBytes ← (if encrypted then seal_votes keys true [] draw else marshal_VotePackage (mkVotePackage "" the_votes));
  Ok (b64_EncodeToString vpBytes).
End util.

(** ** Requests: [client/connection.go] *)
Section requests.
Context `{CryptoLib} `{!EcdsaKeys} `{ClientLib} {S : Type} (exchange : bytes → Z → S → res bytes * S).

Record Client := mkClient { cl_conn : S; cl_draws : nat }.
Abbreviation MC := (GM Client).
Definition draw : MC nat := λ c, (Ok (cl_draws c), mkClient (cl_conn c) (1 + cl_draws c)).
(** [fmt.Errorf("%s: %v", method, err)]. *)
Definition for_method {A} (method : string) (r : res A) : res A :=
  match r with Err e => Err (method +:+ ": " +:+ e) | _ => r end.
Definition converse (method : string) (data : bytes) (now : Z) : MC bytes := λ c,
  let '(r, s) := exchange data now (cl_conn c) in (for_method method r, mkClient s (cl_draws c)).

Definition Request (req : MetaRequest) (signer : option ethereum.SignKeys) (now : Z) : MC MetaResponse :=
  let method := rq_Method req in
  reqInner ← lift (for_method method (sorted_MetaRequest (set_rq_Timestamp (i32 now) req)));
  signature ← lift (match signer with Some k => for_method method (ethereum.Sign k reqInner) | None => Ok "" end);
  n ← draw;
  let id := sprintf_d (rand_Intn n 1000) in
  reqBody ← lift (for_method method (marshal_RequestMessage (mkRequestMessage reqInner id signature)));
  message ← converse method reqBody now;
  respOuter ← lift (for_method method (json_ResponseMessage message));
  _ ← lift (guard_err (bool_decide (sm_ID respOuter ≠ id)) (method +:+ ": request ID doesn'tb match"));
  _ ← lift (guard_err (bool_decide (sm_Signature respOuter = "")) (method +:+ ": empty signature in response"));
  lift (for_method method (json_MetaResponse (sm_MetaResponse respOuter))).

(** ** The calls: [client/api.go] *)
Definition request_of (method : string) : MetaRequest := set_rq_Method method zero_request.
Definition ok_or (msg : error → error) (resp : MetaResponse) : res () := guard_err (negb (rp_Ok resp)) (msg (rp_Message resp)).
(** A dereference of a pointer that may be nil. *)
Definition deref {A} (o : option A) : res A := match o with Some a => Ok a | None => Panic "nil pointer dereference" end.

Definition GetEnvelopeStatus (nullifier pid : string) (now : Z) : MC bool :=
  resp ← Request (set_rq_Nullifier nullifier (set_rq_ProcessID pid (request_of "getEnvelopeStatus"))) None now;
  match rp_Ok resp, rp_Registered resp with
  | true, Some b => mret b
  | _, _ => lift (Err ("cannot check envelope (" +:+ rp_Message resp +:+ ")"))
  end.

Definition GetProof (hexpubkey root : string) (now : Z) : MC string :=
  pubkey ← lift (hex_DecodeString hexpubkey);
  resp ← Request (set_rq_ClaimData (b64_EncodeToString (PoseidonHash pubkey))
                   (set_rq_Digested true (set_rq_CensusID root (request_of "genProof")))) None now;
  _ ← lift (guard_err (bool_decide (slen (rp_Siblings resp) = 0) || negb (rp_Ok resp))
              ("cannot get merkle proof: (" +:+ rp_Message resp +:+ ")"));
  mret (rp_Siblings resp).

(** A nil matrix is []. *)
Definition GetResults (pid : string) (now : Z) : MC (list (list Z) * string) :=
  resp ← Request (set_rq_ProcessID pid (request_of "getResults")) None now;
  _ ← lift (ok_or (λ m, "cannot get results: (" +:+ m +:+ ")") resp);
  mret (if decide (rp_Message resp = "no results yet") then [] else rp_Results resp, rp_State resp).

Definition GetEnvelopeHeight (pid : string) (now : Z) : MC Z :=
  resp ← Request (set_rq_ProcessID pid (request_of "getEnvelopeHeight")) None now;
  _ ← lift (ok_or (λ m, m) resp);
  lift (deref (rp_Height resp)).

Definition CensusSize (cid : string) (now : Z) : MC Z :=
  resp ← Request (set_rq_CensusID cid (request_of "getSize")) None now;
  _ ← lift (ok_or (λ m, m) resp);
  lift (deref (rp_Size resp)).

(** The answer to [addCensus] is used without a look at its verdict. *)
Definition ImportCensus (signer : ethereum.SignKeys) (uri : string) (now : Z) : MC string :=
  n ← draw;
  resp ← Request (set_rq_CensusID (RandomHex n 16) (request_of "addCensus")) (Some signer) now;
  let req := set_rq_CensusID (rp_CensusID resp) (request_of "importRemote") in
  resp ← Request (set_rq_URI uri req) (Some signer) now;
  _ ← lift (ok_or (λ m, m) resp);
  resp ← Request (set_rq_Method "publish" req) (Some signer) now;
  _ ← lift (ok_or (λ m, m) resp);
  mret (rp_Root resp).

Record pkeys := mkPkeys { pk_pub : list Key; pk_priv : list Key; pk_comm : list Key; pk_rev : list Key }.
Definition GetKeys (pid eid : string) (now : Z) : MC pkeys :=
  resp ← Request (set_rq_EntityId eid (set_rq_ProcessID pid (request_of "getProcessKeys"))) None now;
  _ ← lift (ok_or (λ m, "cannot get keys for process " +:+ pid +:+ ": (" +:+ m +:+ ")") resp);
  mret (mkPkeys (rp_EncryptionPublicKeys resp) (rp_EncryptionPrivKeys resp) (rp_CommitmentKeys resp) (rp_RevealKeys resp)).

Definition GetCurrentBlock (now : Z) : MC Z :=
  resp ← Request (request_of "getBlockHeight") None now;
  _ ← lift (ok_or (λ m, "getBlockHeight failed: " +:+ m) resp);
  lift (of_option "height is nil" (rp_Height resp)).

(** An error that is tolerated leaves no entry in the list. *)
Definition proof_of (root : string) (now : Z) (s : ethereum.SignKeys) : MC string :=
  '(pub, _) ← lift (ethkeys.HexString s);
  pub ← lift (ethereum.DecompressPubKey pub);
  GetProof pub root now.
Fixpoint GetProofBatch (signers : list ethereum.SignKeys) (root : string) (tolerateError : bool) (now : Z) : MC (list string) :=
  match signers with
  | [] => mret []
  | s :: signers' =>
    proof ← try_ (proof_of root now s);
    match proof with
    | Ok p => ps ← GetProofBatch signers' root tolerateError now; mret (p :: ps)
    | Err e => if tolerateError then GetProofBatch signers' root tolerateError now else lift (Err e)
    | Panic w => lift (Panic w)
    end
  end.

(** ** Transactions

    [json.Marshal], sign, [json.Marshal] again with the signature. *)
Context `{TxJSON}.
Definition submit (txBytes : bytes) (now : Z) : MC MetaResponse :=
  Request (set_rq_RawTx (b64_EncodeToString txBytes) (request_of "submitRawTx")) None now.

Definition CreateProcess (oracle : ethereum.SignKeys) (entityID mkroot mkuri pid ptype : string) (duration now : Z) : MC Z :=
  block ← GetCurrentBlock now;
  let p sig := mkNewProcessTx entityID mkroot mkuri (i64 duration) pid ptype sig (i64 (block + 4)) "newProcess" [] in
  txBytes ← lift (marshal_NewProcessTx (p ""));
  sig ← lift (ethereum.Sign oracle txBytes);
  txBytes ← lift (marshal_NewProcessTx (p sig));
  resp ← submit txBytes now;
  _ ← lift (ok_or (λ m, "submitRawTx failed: " +:+ m) resp);
  mret (i64 (block + 4)).

Definition CancelProcess (oracle : ethereum.SignKeys) (pid : string) (now : Z) : MC () :=
  let p sig := mkCancelProcessTx pid sig "cancelProcess" [] in
  txBytes ← lift (marshal_CancelProcessTx (p ""));
  sig ← lift (ethereum.Sign oracle txBytes);
  txBytes ← lift (marshal_CancelProcessTx (p sig));
  resp ← submit txBytes now;
  lift (ok_or (λ m, "submitRawTx failed: " +:+ m) resp).

(** The vote is signed without its type and its signature. *)
Definition build_vote (s : ethereum.SignKeys) (nonce pid proof vpb : string) (keyIndexes : list Z) : res bytes :=
  let v sig type := mkVoteTx keyIndexes nonce "" pid proof sig type vpb [] in
  txBytes ← marshal_VoteTx (v "" "");
  sig ← ethereum.Sign s txBytes;
  marshal_VoteTx (v sig "vote").

(** The keys of the process that are set, with their indexes. *)
Definition encryption_keys (pk : pkeys) : res (list Z * list string) :=
  let ks := filter (λ k, 0 < slen (key_Key k)) (pk_pub pk) in
  _ ← guard_err (bool_decide (length ks = 0%nat)) "process keys is empty";
  Ok (key_Idx <$> ks, key_Key <$> ks).

(** One turn of the loop of [TestSendVotes] that sends, on voter [i] with its
    proof: the next [i] and the nullifiers collected so far. *)
Definition send_turn (pid : string) (signers : list ethereum.SignKeys) (proofs : list string) (keyIndexes : list Z)
    (keys : list string) (encrypted doubleVoting : bool) (i : Z) (nullifiers : list string) (now : Z) : MC (Z * list string) :=
  s ← lift (go_index signers i);
  n ← draw;
  vpb ← lift (genVote encrypted keys n);
  n ← draw;
  proof ← lift (go_index proofs i);
  txBytes ← lift (build_vote s (RandomHex n 16) pid proof vpb keyIndexes);
  resp ← submit txBytes now;
  i' ← (if rp_Ok resp then mret i
        else if strings_Contains (rp_Message resp) "mempool is full" then mret (i - 1)
        else lift (Err ("submitRawTx failed: " +:+ rp_Message resp)));
  _ ← (if doubleVoting then
         resp ← submit txBytes now;
         lift (guard_err (rp_Ok resp) "double voting detected")
       else mret ());
  mret (i' + 1, nullifiers ++ [rp_Payload resp]).

(** One turn of the loop that waits for the votes: a nullifier found is marked,
    and counted in the next turn; [true] ends the loop. *)
Fixpoint check_turn (pid : string) (nullifiers : list string) (now : Z) : MC (Z * list string) :=
  match nullifiers with
  | [] => mret (0, [])
  | n :: ns =>
    if decide (n = "registered") then '(k, ns') ← check_turn pid ns now; mret (k + 1, n :: ns')
    else
      es ← try_ (GetEnvelopeStatus n pid now);
      es ← (match es with Panic w => lift (Panic w) | _ => mret es end);
      '(k, ns') ← check_turn pid ns now;
      mret (k, (match es with Ok true => "registered" | _ => n end) :: ns')
  end.
Definition all_registered (k : Z) (nullifiers : list string) : bool := bool_decide (k = glen nullifiers).

(** ** A census: [CreateCensus]

    The keys are taken from the last to the first, a hundred at a time. *)
Fixpoint chunks {A} (fuel size : nat) (l : list A) : list (list A) :=
  match fuel, l with
  | Datatypes.S fuel', _ :: _ => take size l :: chunks fuel' size (drop size l)
  | _, _ => []
  end.
Definition key_claim (hexpub : string) : res string :=
  let hexpub := match ethereum.DecompressPubKey hexpub with Ok h => h | _ => "" end in
  pub ← hex_DecodeString hexpub;
  Ok (b64_EncodeToString (PoseidonHash pub)).
Definition census_keys (censusSigners : option (list ethereum.SignKeys)) (censusPubKeys : list string) : list (res string) :=
  match censusSigners with
  | Some signers => (λ s, '(pub, _) ← ethkeys.HexString s; Ok pub) <$> signers
  | None => Ok <$> censusPubKeys
  end.
Definition add_claims (req : MetaRequest) (signer : ethereum.SignKeys) (now : Z) (ks : list (res string)) : MC () :=
  claims ← lift (mapM (λ k, hexpub ← k; key_claim hexpub) ks);
  resp ← Request (set_rq_ClaimsData claims req) (Some signer) now;
  lift (ok_or (λ m, "addClaimBulk failed: " +:+ m) resp).
Definition CreateCensus (signer : ethereum.SignKeys) (censusSigners : option (list ethereum.SignKeys))
    (censusPubKeys : list string) (now : Z) : MC (string * string) :=
  n ← draw;
  resp ← Request (set_rq_CensusID ("test" +:+ sprintf_d (rand_Intn n (2^63))) (request_of "addCensus")) (Some signer) now;
  _ ← lift (ok_or (λ m, "addCensus failed: " +:+ m) resp);
  let req := set_rq_Digested true (set_rq_CensusID (rp_CensusID resp) zero_request) in
  let keys := census_keys censusSigners censusPubKeys in
  _ ← for_each (chunks (length keys) 100 (reverse keys)) (add_claims (set_rq_Method "addClaimBulk" req) signer now);
  let claims := default [] (last (chunks (length keys) 100 (reverse keys))) in
  last_claims ← lift (mapM (λ k, hexpub ← k; key_claim hexpub) claims);
  resp ← Request (set_rq_ClaimsData last_claims (set_rq_Method "getSize" req)) None now;
  got ← lift (deref (rp_Size resp));
  _ ← lift (guard_err (bool_decide (glen keys ≠ got)) "unexpected size");
  resp ← Request (set_rq_Method "publish" req) (Some signer) now;
  _ ← lift (ok_or (λ m, "publish failed: " +:+ m) resp);
  let uri := rp_URI resp in
  _ ← lift (guard_err (bool_decide (slen uri < 40)) "got invalid URI");
  resp ← Request (set_rq_Method "getRoot" req) None now;
  _ ← lift (guard_err (bool_decide (slen (rp_Root resp) < 1)) "got invalid root");
  mret (rp_Root resp, uri).
End requests.
End client.
