(* ===== verification/ClientFacts.v ===== *)
(** * From the client to the chain

    [eligible_voter_votes]: a voter whose key was added to the census of an open
    process can vote: the proof the census gives and the transaction the client
    builds are accepted by the vochain.  [encrypted_ballot_opened]: the
    scrutinizer opens the ballot the client seals.  [client_status]: what a
    client learns of a vote from a gateway is what the chain has committed. *)

From stdpp Require Import base gmap strings list fin_maps.
From Stdlib Require Import ZArith Lia.
From S2P Require Import Prelude GoLib Types StateDB Crypto Codec State Transaction App StateFacts ProcessKeys Invariant Safety.
From S2P Require Import Operations Database Scrutinizer Graviton Trie TrieFacts Api Census VochainInfo Node Router RouterFacts.
From S2P Require Import EthFacts Keys Client IavlState Concrete CensusConcrete.
From stdpp Require Import countable.
Import client.
Open Scope Z_scope.

(** ** The requests of a new census *)

(** Every key is in one of the requests, in order, and no request is empty or
    larger than the given size. *)
Lemma chunks_all {A} size fuel (l : list A) : (0 < size)%nat → (length l ≤ fuel)%nat →
  concat (chunks fuel size l) = l ∧ Forall (λ c, (0 < length c ≤ size)%nat) (chunks fuel size l).
Proof.
  intros Hs. revert l. induction fuel as [|fuel IH]; intros l Hl; [by destruct l; [|cbn in Hl; lia]|].
  destruct l as [|x l]; [done|]. cbn [chunks concat]. destruct (IH (drop size (x :: l))) as [-> HF].
  { rewrite length_drop. cbn [length] in *. lia. }
  split; [apply take_drop|]. constructor; [|done]. rewrite length_take. cbn [length]. lia.
Qed.

(** ** Voting *)

(** What is printed of a vote is read back. *)
Class VoteJSONLaws `{TxJSON} := {
  law_json_VoteTx tx : vt_SignedBytes tx = [] →
    ∃ b, marshal_VoteTx tx = Ok b ∧ json_VoteTx b = Ok tx ∧ json_type b = Ok (vt_Type tx) }.

Section voting.
Context {DB L : Type} `{StateDBSpec DB} `{AminoLaws} `{CryptoLaws} `{!SignLaws} `{!EventListener DB L}.
Context `{!Graviton} `{!GravitonLaws} `{VoteJSONLaws}.
Implicit Types (s : State DB L) (d : DB).

(** What the vochain decodes from the vote of a client. *)
Lemma build_vote_Ok k priv nonce pid proof vpb idxs : ethereum.sk_Private k = Some priv →
  ∃ b tx, build_vote k nonce (sprintf_x pid) proof vpb idxs = Ok b ∧ UnmarshalTx b = Ok (GVoteTx tx) ∧
    vt_ProcessID tx = sprintf_x pid ∧ vt_Proof tx = proof ∧ vt_VotePackage tx = vpb ∧ vt_EncryptionKeyIndexes tx = idxs ∧
    ethereum.PubKeyFromSignature (vt_SignedBytes tx) (vt_Signature tx) = Ok (sprintf_x (FromECDSAPub (sl_Public priv))).
Proof.
  intros Hk. unfold build_vote. set (v sig type := mkVoteTx idxs nonce "" (sprintf_x pid) proof sig type vpb []).
  destruct (law_json_VoteTx (v "" "") eq_refl) as (raw & Hraw & _ & _).
  destruct (Sign_recovers k priv raw Hk) as (sig & Hs & _ & Hp).
  destruct (law_json_VoteTx (v (sprintf_x sig) "vote") eq_refl) as (b & Hb & Hj & Ht).
  exists b, (mkVoteTx idxs nonce "" (sprintf_x pid) proof (sprintf_x sig) "vote" vpb raw). split_and!; try done.
  - unfold v in Hraw, Hb. cbv zeta beta. rewrite Hraw. cbn [mbind res_bind]. rewrite Hs. exact Hb.
  - unfold UnmarshalTx. rewrite Ht. cbn [or_err mbind res_bind vt_Type v]. rewrite decide_False by (by vm_compute).
    cbn -[finish_VoteTx]. rewrite Hj. cbn -[finish_VoteTx]. unfold finish_VoteTx. cbn [vt_EncryptionKeyIndexes vt_Nonce vt_Nullifier
      vt_ProcessID vt_Proof vt_Signature vt_Type vt_VotePackage vt_SignedBytes v].
    unfold v in Hraw. rewrite Hraw. cbn [or_err mbind res_bind]. by rewrite TrimHex_sprintf_x.
  - cbn [vt_SignedBytes vt_Signature]. apply (Hp ""). by left.
Qed.

(** The process is open for a voter who has not voted. *)
Definition open_for (pid nul : bytes) (root : string) (idxs : list Z) (p : Process) h s : Prop :=
  store_ok (Store s) ∧ Process_ (Store s) pid false = Ok p ∧ Header_ (Store s) false = Ok (Some h) ∧
  vote_window p (h_Height h) = true ∧ (RequireKeys p = true → 1 ≤ p_KeyIndex p) ∧
  p_Type p ∈ [PollVote; PetitionSign; EncryptedPoll] ∧
  (ProcessIsEncrypted (p_Type p) = true → idxs ≠ []) ∧ p_MkRoot p = root ∧
  EnvelopeExists (Store s) pid nul = Ok false ∧ ∀ u, VoteCacheGet u s = None.

Lemma open_process_open pid nul root idxs p h s tx : open_for pid nul root idxs p h s → vt_ProcessID tx = sprintf_x pid →
  open_process tx (Store s) = Ok (pid, p).
Proof.
  intros (Hok & Hp & Hh & Hw & Hk & Hty & _) Ht. unfold open_process. rewrite Ht, hex_DecodeString_sprintf_x. cbn [mbind res_bind].
  rewrite Hp. cbn [mbind res_bind]. rewrite Hh. cbn [of_option mbind res_bind]. rewrite Hw. cbn [negb guard_err mbind res_bind].
  assert (RequireKeys p && bool_decide (p_KeyIndex p < 1) = false) as ->.
  { destruct (RequireKeys p); [|done]. apply bool_decide_eq_false_2. specialize (Hk eq_refl). lia. }
  cbn [guard_err mbind res_bind]. rewrite !elem_of_cons, elem_of_nil in Hty.
  destruct Hty as [->|[->|[->|[]]]]; done.
Qed.
Lemma verify_vote_open pub pid nul root idxs p h s tx now : open_for pid nul root idxs p h s → length pid = 32%nat →
  nul = GenerateNullifier (PubkeyToAddress pub) pid →
  ethereum.PubKeyFromSignature (vt_SignedBytes tx) (vt_Signature tx) = Ok (sprintf_x (FromECDSAPub pub)) →
  checkMerkleProof root (vt_Proof tx) (PoseidonHash (FromECDSAPub pub)) = Ok true →
  ∃ vp, verify_vote tx p pid now (Store s) = Ok vp ∧ vp_Nullifier vp = nul.
Proof.
  intros (_ & _ & _ & _ & _ & _ & _ & Hr & He & _) Hl -> Hpk Hm. eexists. unfold verify_vote. rewrite Hpk. cbn [or_err mbind res_bind].
  rewrite (ethereum.AddrFromPublicKey_of_signature _ _ _ Hpk). unfold ethereum.AddrFromSignature. rewrite Hpk. cbn [mbind res_bind].
  rewrite ethereum.hexToPubKey_uncompressed. cbn [or_err mbind res_bind]. rewrite He. cbn [guard_err mbind res_bind].
  rewrite hex_DecodeString_sprintf_x. cbn [mbind res_bind].
  rewrite (bool_decide_eq_false_2 (glen _ ≠ 32)) by (unfold glen; rewrite law_Poseidon_len; lia). cbn [guard_err mbind res_bind].
  rewrite Hr, Hm. split; [done|]. done.
Qed.

Definition accepted_vote (p : Process) (pid nul : bytes) (h : Header) (vpb : string) (idxs : list Z) : Vote :=
  mkVote (if ProcessIsEncrypted (p_Type p) then idxs else []) (h_Height h) nul pid vpb.

End voting.

(** ** Ballots *)

(** The JSON of a ballot is read back; a sealed box is opened by the key of the
    public key it was sealed for. *)
Class BallotLaws `{CryptoLib} `{ClientLib} `{ScrutinizerCodec} := {
  law_VotePackage vp : ∃ b, marshal_VotePackage vp = Ok b ∧ json_VotePackage b = Ok vp;
  law_SealAnonymous random msg priv pub : X25519 priv = Some pub →
    ∃ c, box_SealAnonymous random msg pub = Some c ∧ OpenAnonymous c pub priv = Some msg }.

Section ballots.
Context `{CryptoLaws} `{ClientLib} `{ScrutinizerCodec} `{!BallotLaws}.

(** The private key [priv], as it is revealed, of the public key [pub], as it is published. *)
Definition key_pair (pub priv : string) : Prop :=
  ∃ k, nacl.DecodePrivate priv = Ok k ∧ pub = sprintf_x (nacl.pub_bytes k).
Lemma key_pair_seal pub priv random msg : key_pair pub priv →
  0 < slen pub ∧ ∃ pb c, nacl.DecodePublic pub = Ok pb ∧ Anonymous_Encrypt random msg pb = Ok c ∧ decrypt_step priv c = Ok msg.
Proof.
  intros (k & Hk & ->). unfold nacl.DecodePrivate in Hk. go_inv Hk.
  match goal with E : X25519 ?a = Some ?b |- _ => rename E into Hx; rename a into sec; rename b into pb end.
  pose proof (law_X25519_len _ _ Hx) as Hl. cbn [nacl.pub_bytes].
  split; [rewrite slen_sprintf_x; unfold glen; lia|].
  destruct (law_SealAnonymous random msg _ _ Hx) as (c & Hc & Ho). exists pb, c. split_and!.
  - unfold nacl.DecodePublic, nacl.key_decode. rewrite hex_DecodeString_sprintf_x. cbn [mbind res_bind].
    rewrite bool_decide_eq_false_2; [done|]. unfold nacl.KeyLength, glen. lia.
  - unfold Anonymous_Encrypt. by rewrite Hc.
  - unfold decrypt_step, nacl.DecodePrivate. rewrite Hrun. cbn [mbind res_bind]. rewrite Hx. cbn [of_option mbind res_bind].
    unfold nacl.Decrypt. cbn [nacl.pub_bytes nacl.priv_bytes]. by rewrite Ho.
Qed.

(** Sealing with keys in order, opening from the last to the first. *)
Lemma seal_votes_open pubs privs b n : Forall2 key_pair pubs privs →
  ∃ c, seal_votes pubs false b n = Ok c ∧ decrypt_all privs c = Ok b.
Proof.
  intros Hf. revert b n. induction Hf as [|pub priv pubs privs Hp Hf IH]; intros b n; [by exists b|].
  destruct (key_pair_seal pub priv (rand_Read (n + 2) 32) b Hp) as (Hlen & pb & c & Hd & He & Ho).
  destruct (IH c (n + 3)%nat) as (c' & Hs & Hd'). exists c'. cbn [seal_votes]. rewrite decide_True by done. rewrite Hd.
  cbn [or_err mbind res_bind]. rewrite He. cbn [or_err mbind res_bind]. split; [done|]. cbn [decrypt_all]. by rewrite Hd'.
Qed.
Lemma genVote_open pubs privs n : Forall2 key_pair pubs privs → pubs ≠ [] →
  ∃ vpb, genVote true pubs n = Ok vpb ∧ unmarshalVote vpb privs = Ok (first_package n).
Proof.
  intros Hf Hne. destruct Hf as [|pub priv pubs privs Hp Hf]; [done|].
  destruct (law_VotePackage (first_package n)) as (b & Hb & Hj).
  destruct (key_pair_seal pub priv (rand_Read (n + 2) 32) b Hp) as (Hlen & pb & c & Hd & He & Ho).
  destruct (seal_votes_open pubs privs c (n + 3) Hf) as (c' & Hs & Hd').
  exists (b64_EncodeToString c'). unfold genVote, unmarshalVote. cbn [seal_votes]. rewrite decide_True by done. rewrite Hd.
  cbn [or_err mbind res_bind]. rewrite Hb. cbn [mbind res_bind]. rewrite He. cbn [or_err mbind res_bind]. rewrite Hs.
  split; [done|]. rewrite b64_roundtrip. cbn [mbind res_bind decrypt_all]. rewrite Hd'. cbn [mbind res_bind]. rewrite Ho. exact Hj.
Qed.

(** Every key the process has published is answered by its private key. *)
Definition all_revealed (p : Process) : Prop := ∀ i pub, p_EncryptionPublicKeys p !! i = Some pub → pub ≠ "" →
  ∃ priv, p_EncryptionPrivateKeys p !! i = Some priv ∧ key_pair pub priv.
Lemma slen_nonempty (s : string) : 0 < slen s ↔ s ≠ "".
Proof. destruct s; unfold slen; simpl; split; intros; try done; lia. Qed.
Lemma keys_from_spec j l k : k ∈ keys_from j l → ∃ i, key_Idx k = j + Z.of_nat i ∧ l !! i = Some (key_Key k) ∧ key_Key k ≠ "".
Proof.
  revert j. induction l as [|x l IH]; intros j; simpl; [by intros []%elem_of_nil|].
  destruct (decide (0 < slen x)) as [Hx|Hx]; [rewrite elem_of_cons; intros [->|Hk]|intros Hk].
  - exists 0%nat. cbn [key_Idx key_Key]. split_and!; [lia|done|by apply slen_nonempty].
  - destruct (IH _ Hk) as (i & ? & ? & ?). exists (S i). split_and!; [lia|done..].
  - destruct (IH _ Hk) as (i & ? & ? & ?). exists (S i). split_and!; [lia|done..].
Qed.
Lemma length_keys_from j l : (length (keys_from j l) ≤ length l)%nat.
Proof. revert j. induction l as [|x l IH]; intros j; simpl; [done|]. specialize (IH (j + 1)). case_decide; simpl; lia. Qed.

Lemma encrypted_requires p : IsEncrypted p = true → RequireKeys p = true.
Proof. unfold IsEncrypted, RequireKeys, ProcessIsEncrypted, ProcessRequireKeys. by repeat case_decide. Qed.
Lemma keys_grow_length l l' : keys_grow l l' → length l = length l'.
Proof. induction 1; simpl; congruence. Qed.
Lemma keys_grow_keeps l l' i k : keys_grow l l' → l !! i = Some k → k ≠ "" → l' !! i = Some k.
Proof.
  intros Hg Hl Hne. destruct (Forall2_lookup_l _ _ _ _ _ Hg Hl) as (k' & Hk' & Hs). unfold slot_grows in Hs. naive_solver.
Qed.
Lemma vote_keys_revealed p ks : all_revealed p → length (p_EncryptionPrivateKeys p) = Z.to_nat MaxKeyIndex →
  Forall (λ k, ∃ i, key_Idx k = Z.of_nat i ∧ p_EncryptionPublicKeys p !! i = Some (key_Key k) ∧ key_Key k ≠ "") ks →
  ∃ privs, vote_keys p (key_Idx <$> ks) = Ok privs ∧ Forall2 key_pair (key_Key <$> ks) privs.
Proof.
  intros Hall Hl. induction 1 as [|k ks (i & Hi & Hp & Hne) _ IH]; [by exists []|]. destruct IH as (privs & Hv & Hf).
  destruct (Hall _ _ Hp Hne) as (priv & Hpriv & Hkp). exists (priv :: privs). split; [|by constructor].
  pose proof (lookup_lt_Some _ _ _ Hpriv) as Hlt. unfold MaxKeyIndex in *. cbn [fmap list_fmap vote_keys]. rewrite Hi.
  rewrite decide_False by (unfold MaxKeyIndex; lia). rewrite (go_index_eq _ _ priv) by (rewrite ?Nat2Z.id; done || lia).
  cbn [mbind res_bind]. change (list_fmap Key Z key_Idx ks) with (key_Idx <$> ks). by rewrite Hv.
Qed.

(** C26: A ballot the client seals with the keys a gateway lists for an encrypted process is opened by the scrutinizer once the
    process has revealed its keys, also when further keys were published in between: the votes are those of the client. *)
Theorem encrypted_ballot_opened p0 p pk idxs keys n :
  proc_wf p → IsEncrypted p = true → evolves p0 p → all_revealed p →
  pk_pub pk = keys_from 0 (p_EncryptionPublicKeys p0) → encryption_keys pk = Ok (idxs, keys) →
  ∃ vpb, genVote true keys n = Ok vpb ∧
    ∀ v, v_EncryptionKeyIndexes v = idxs → v_VotePackage v = vpb → open_vote p v = Ok (first_package n).
Proof.
  intros Hwf Henc Hev Hall Hpk Hek. unfold encryption_keys in Hek. rewrite Hpk in Hek. go_inv Hek. go_bool.
  set (ks := filter _ _) in *.
  assert (length (p_EncryptionPrivateKeys p) = Z.to_nat MaxKeyIndex) as Hlen.
  { rewrite (wf_priv _ Hwf). unfold key_slots. by rewrite (encrypted_requires p Henc). }
  assert (length (p_EncryptionPublicKeys p0) = Z.to_nat MaxKeyIndex) as Hlen0.
  { rewrite (keys_grow_length _ _ (ev_pub _ _ Hev)), (wf_pub _ Hwf). unfold key_slots. by rewrite (encrypted_requires p Henc). }
  destruct (vote_keys_revealed p ks Hall Hlen) as (privs & Hvk & Hkp).
  { apply list.Forall_forall. intros k [_ Hk]%list_elem_of_filter. destruct (keys_from_spec _ _ _ Hk) as (i & Hi & Hl & Hne).
    exists i. split_and!; [lia| |done]. eapply keys_grow_keeps; [apply Hev|done..]. }
  destruct (genVote_open (key_Key <$> ks) privs n Hkp) as (vpb & Hg & Hu); [by destruct ks|].
  exists vpb. split; [done|]. intros v Hi Hv. unfold open_vote. rewrite Henc, Hi, Hv. rewrite decide_False.
  - rewrite Hvk. destruct privs; [|done]. apply Forall2_nil_inv_r in Hkp. by destruct ks.
  - unfold glen. rewrite Hlen, length_fmap. pose proof (length_filter (λ k, 0 < slen (key_Key k)) (keys_from 0 (p_EncryptionPublicKeys p0))) as Hf.
    pose proof (length_keys_from 0 (p_EncryptionPublicKeys p0)). subst ks. unfold MaxKeyIndex in *. lia.
Qed.
End ballots.

(** ** Questions to a gateway *)
Class ClientJSONLaws `{ClientLib} `{RouterEnv} := {
  law_MetaRequest q : ∃ b, sorted_MetaRequest q = Ok b ∧ json_MetaRequest b = Ok q;
  law_RequestMessage m : ∃ b, marshal_RequestMessage m = Ok b ∧ json_RequestMessage b = Ok m;
  law_MetaResponse r : ∃ b, marshal_MetaResponse r = Ok b ∧ json_MetaResponse b = Ok r;
  law_ResponseMessage m : ∃ b, marshal_ResponseMessage m = Ok b ∧ json_ResponseMessage b = Ok m }.

Section gateway.
Context {DB L : Type} `{StateDBSpec DB} `{AminoLib} `{CryptoLaws} `{!SignLaws} `{TxJSON} `{!EventListener DB L}.
Context `{ScrutinizerCodec} `{!Graviton} `{CensusEnv} `{RouterEnv} `{AddressText} `{Mempool}.
Context `{ClientLib} `{!ClientJSONLaws} (scrutinizer_of : L → option Scrutinizer).
Implicit Types (r : Router (DB := DB) (L := L)).

(** The other end of the connection: the answer is the first message the router sends. *)
Definition gateway_exchange (data : bytes) (now : Z) r : res bytes * Router :=
  let '(_, r') := Route scrutinizer_of data (Some 1) now r in
  match drop (length (r_sent r)) (r_sent r') with
  | m :: _ => (Ok (msg_Data m), r')
  | [] => (Err "context deadline exceeded", r')
  end.

(** The answer as the client reads it. *)
Definition answered (resp : MetaResponse) (id : string) (now : Z) : MetaResponse :=
  set_rp_Timestamp (i32 now) (set_rp_Request id (set_rp_Ok true resp)).
Lemma buildReply_read request resp now r priv : ethereum.sk_Private (r_signer r) = Some priv →
  ∃ m o, buildReply request resp now r = Ok m ∧ json_ResponseMessage (msg_Data m) = Ok o ∧ sm_ID o = rr_id request ∧
    sm_Signature o ≠ "" ∧ json_MetaResponse (sm_MetaResponse o) = Ok (answered resp (rr_id request) now).
Proof.
  intros Hk. destruct (law_MetaResponse (answered resp (rr_id request) now)) as (inner & Hm & Hj).
  destruct (Sign_recovers (r_signer r) priv inner Hk) as (sig & Hs & Hl & _).
  destruct (law_ResponseMessage (mkResponseMessage inner (rr_id request) (sprintf_x sig))) as (b & Hb & Hjb).
  exists (reply_of request b now), (mkResponseMessage inner (rr_id request) (sprintf_x sig)). split_and!; try done.
  - unfold buildReply. fold (answered resp (rr_id request) now). rewrite Hm. unfold sign_reply. rewrite Hs. cbn [mbind res_bind]. by rewrite Hb.
  - cbn [sm_Signature]. intros E. pose proof (slen_sprintf_x sig) as El. rewrite E in El. unfold glen in El. rewrite Hl in El. done.
Qed.

(** A public method, with a callback that replies. *)
Lemma Request_answered q now n r cb priv resp : rq_Method q ≠ "" →
  r_methods r !! rq_Method q = Some (mkRegisteredMethod true cb) → ethereum.sk_Private (r_signer r) = Some priv →
  (∀ request, rr_MetaRequest request = set_rq_Timestamp (i32 now) q → rr_Context request = Some 1 →
    run_callback scrutinizer_of cb request now (count_call false r) = reply request resp now (count_call false r)) →
  ∃ id r', Request gateway_exchange q None now (mkClient r n) = (Ok (answered resp id now), mkClient r' (S n)).
Proof.
  intros Hm Hreg Hk Hcb. set (id := sprintf_d (rand_Intn n 1000)). exists id.
  destruct (law_MetaRequest (set_rq_Timestamp (i32 now) q)) as (inner & Hin & Hji).
  destruct (law_RequestMessage (mkRequestMessage inner id "")) as (body & Hbd & Hjb).
  set (request := mkRouterRequest (set_rq_Timestamp (i32 now) q) (Some 1) (rq_Method q) id true zero_address false).
  destruct (buildReply_read request resp now (count_call false r) priv) as (m & o & Hbr & Hjo & Hido & Hsig & Hjr); [done|].
  set (r' := set_r_sent (r_sent r ++ [m]) (count_call false r)). exists r'.
  assert (Route scrutinizer_of body (Some 1) now r = (Ok (), r')) as Hroute.
  { unfold Route. rewrite GM_run. unfold reads at 1. unfold getRequest at 1. rewrite Hjb. cbn [rm_MetaRequest rm_ID]. rewrite Hji.
    change (rq_Method (set_rq_Timestamp (i32 now) q)) with (rq_Method q). rewrite decide_False by done. rewrite Hreg. cbn [rg_public].
    rewrite GM_run. unfold get_st. cbn [rr_authenticated rr_method]. rewrite Hreg. cbn [rg_public negb andb]. rewrite GM_run.
    cbn [modify rr_private rg_handler]. fold request. rewrite (Hcb request) by done. unfold reply. rewrite GM_run. unfold reads. rewrite Hbr. done. }
  unfold Request. rewrite GM_run. unfold lift at 1. rewrite Hin. cbn [for_method]. rewrite GM_run. unfold lift at 1. rewrite GM_run.
  unfold draw at 1. cbn [cl_draws cl_conn]. fold id. rewrite GM_run. unfold lift at 1. rewrite Hbd. cbn [for_method]. rewrite GM_run.
  unfold converse, gateway_exchange at 1. cbn [cl_conn cl_draws]. rewrite Hroute. cbn [r' r_sent set_r_sent].
  rewrite drop_app_length. cbn [for_method]. rewrite GM_run. unfold lift at 1. rewrite Hjo. cbn [for_method].
  rewrite GM_run. unfold lift at 1. rewrite (bool_decide_eq_false_2 (sm_ID o ≠ id)) by (by intros E; apply E). cbn [guard_err].
  rewrite GM_run. unfold lift at 1. rewrite (bool_decide_eq_false_2 (sm_Signature o = "")) by done. cbn [guard_err].
  unfold lift. by rewrite Hjr.
Qed.

(** A client that asks a gateway about a vote is told that it is registered exactly when the state the chain of that gateway
    has committed holds a vote of that process with that nullifier: through the encoding of the request, the dispatch of
    the router, the look-up, the signed reply and its decoding. *)
Theorem client_status r n now pid nul priv resp :
  store_ok (node_store (r_vocapp r)) → length pid = 32%nat → length nul = 32%nat →
  r_methods r !! "getEnvelopeStatus" = Some (mkRegisteredMethod true cb_getEnvelopeStatus) →
  ethereum.sk_Private (r_signer r) = Some priv →
  status_response (cvote (node_store (r_vocapp r)) (pid ++ nul)) = Some resp →
  (GetEnvelopeStatus gateway_exchange (sprintf_x nul) (sprintf_x pid) now (mkClient r n)).1 =
    Ok (bool_decide (is_Some (cvote (node_store (r_vocapp r)) (pid ++ nul)))).
Proof.
  intros Hok Hp Hn Hreg Hk Hresp.
  set (q := set_rq_Nullifier (sprintf_x nul) (set_rq_ProcessID (sprintf_x pid) (request_of "getEnvelopeStatus"))).
  destruct (Request_answered q now n r cb_getEnvelopeStatus priv resp) as (id & r' & Hq); [done..| |].
  { intros request Hrq _. cbn [run_callback]. apply envelope_status_answer with pid nul; try done; by rewrite Hrq. }
  unfold GetEnvelopeStatus. fold q. rewrite GM_run, Hq. cbn [answered rp_Ok rp_Registered set_rp_Timestamp set_rp_Request set_rp_Ok].
  unfold status_response in Hresp. destruct (cvote _ _) as [v|].
  - destruct (BlockStore_Time (v_Height v)) as [t|]; [|done]. injection Hresp as <-. done.
  - injection Hresp as <-. done.
Qed.
End gateway.

(** ** A client that really runs

    Messages are the encodings of their fields; a sealed box is the message. *)
#[local] Instance Key_eq_dec : EqDecision Key.
Proof. solve_decision. Defined.
#[local] Instance Key_countable : Countable Key.
Proof.
  refine (inj_countable
    (λ x, [encode (key_Idx x); encode (key_Key x)])
    (λ l, match l with
      | [x0; x1] =>
        x0 ← decode x0; x1 ← decode x1;
        Some (mkKey x0 x1)
      | _ => None
      end) _).
  intros []. cbn -[encode decode]. by repeat (rewrite decode_encode; cbn -[encode decode]).
Defined.
#[local] Instance RequestMessage_eq_dec : EqDecision RequestMessage.
Proof. solve_decision. Defined.
#[local] Instance RequestMessage_countable : Countable RequestMessage.
Proof.
  refine (inj_countable
    (λ x, [encode (rm_MetaRequest x); encode (rm_ID x); encode (rm_Signature x)])
    (λ l, match l with
      | [x0; x1; x2] =>
        x0 ← decode x0; x1 ← decode x1; x2 ← decode x2;
        Some (mkRequestMessage x0 x1 x2)
      | _ => None
      end) _).
  intros []. cbn -[encode decode]. by repeat (rewrite decode_encode; cbn -[encode decode]).
Defined.
#[local] Instance ResponseMessage_eq_dec : EqDecision ResponseMessage.
Proof. solve_decision. Defined.
#[local] Instance ResponseMessage_countable : Countable ResponseMessage.
Proof.
  refine (inj_countable
    (λ x, [encode (sm_MetaResponse x); encode (sm_ID x); encode (sm_Signature x)])
    (λ l, match l with
      | [x0; x1; x2] =>
        x0 ← decode x0; x1 ← decode x1; x2 ← decode x2;
        Some (mkResponseMessage x0 x1 x2)
      | _ => None
      end) _).
  intros []. cbn -[encode decode]. by repeat (rewrite decode_encode; cbn -[encode decode]).
Defined.
#[local] Instance MetaRequest_eq_dec : EqDecision MetaRequest.
Proof. solve_decision. Defined.
#[local] Instance MetaRequest_countable : Countable MetaRequest.
Proof.
  refine (inj_countable
    (λ x, [encode (rq_CensusID x); encode (rq_CensusURI x); encode (rq_ClaimData x); encode (rq_ClaimsData x);
      encode (rq_Content x); encode (rq_Digested x); encode (rq_EntityId x); encode (rq_From x); encode (rq_FromID
      x); encode (rq_ListSize x); encode (rq_Method x); encode (rq_Name x); encode (rq_Nullifier x); encode
      (rq_Payload x); encode (rq_ProcessID x); encode (rq_ProofData x); encode (rq_PubKeys x); encode (rq_RawTx x);
      encode (rq_RootHash x); encode (rq_Signature x); encode (rq_Timestamp x); encode (rq_Type x); encode (rq_URI
      x)])
    (λ l, match l with
      | [x0; x1; x2; x3; x4; x5; x6; x7; x8; x9; x10; x11; x12; x13; x14; x15; x16; x17; x18; x19; x20; x21; x22] =>
        x0 ← decode x0; x1 ← decode x1; x2 ← decode x2; x3 ← decode x3; x4 ← decode x4; x5 ← decode x5; x6 ← decode
          x6; x7 ← decode x7; x8 ← decode x8; x9 ← decode x9; x10 ← decode x10; x11 ← decode x11; x12 ← decode x12;
          x13 ← decode x13; x14 ← decode x14; x15 ← decode x15; x16 ← decode x16; x17 ← decode x17; x18 ← decode
          x18; x19 ← decode x19; x20 ← decode x20; x21 ← decode x21; x22 ← decode x22;
        Some (mkMetaRequest x0 x1 x2 x3 x4 x5 x6 x7 x8 x9 x10 x11 x12 x13 x14 x15 x16 x17 x18 x19 x20 x21 x22)
      | _ => None
      end) _).
  intros []. cbn -[encode decode]. by repeat (rewrite decode_encode; cbn -[encode decode]).
Defined.
#[local] Instance MetaResponse_eq_dec : EqDecision MetaResponse.
Proof. solve_decision. Defined.
#[local] Instance MetaResponse_countable : Countable MetaResponse.
Proof.
  refine (inj_countable
    (λ x, [encode (rp_APIList x); encode (rp_BlockTime x); encode (rp_BlockTimestamp x); encode (rp_CensusID x);
      encode (rp_CensusList x); encode (rp_ClaimsData x); encode (rp_CommitmentKeys x); encode (rp_Content x);
      encode (rp_EncryptionPrivKeys x); encode (rp_EncryptionPublicKeys x); encode (rp_EntityID x); encode
      (rp_EntityIDs x); encode (rp_Files x); encode (rp_Finished x); encode (rp_Health x); encode (rp_Height x);
      encode (rp_InvalidClaims x); encode (rp_Message x); encode (rp_Nullifier x); encode (rp_Nullifiers x); encode
      (rp_Ok x); encode (rp_Paused x); encode (rp_Payload x); encode (rp_ProcessIDs x); encode (rp_ProcessList x);
      encode (rp_Registered x); encode (rp_Request x); encode (rp_Results x); encode (rp_RevealKeys x); encode
      (rp_Root x); encode (rp_Siblings x); encode (rp_Size x); encode (rp_State x); encode (rp_Timestamp x); encode
      (rp_Type x); encode (rp_URI x); encode (rp_ValidProof x)])
    (λ l, match l with
      | [x0; x1; x2; x3; x4; x5; x6; x7; x8; x9; x10; x11; x12; x13; x14; x15; x16; x17; x18; x19; x20; x21; x22;
        x23; x24; x25; x26; x27; x28; x29; x30; x31; x32; x33; x34; x35; x36] =>
        x0 ← decode x0; x1 ← decode x1; x2 ← decode x2; x3 ← decode x3; x4 ← decode x4; x5 ← decode x5; x6 ← decode
          x6; x7 ← decode x7; x8 ← decode x8; x9 ← decode x9; x10 ← decode x10; x11 ← decode x11; x12 ← decode x12;
          x13 ← decode x13; x14 ← decode x14; x15 ← decode x15; x16 ← decode x16; x17 ← decode x17; x18 ← decode
          x18; x19 ← decode x19; x20 ← decode x20; x21 ← decode x21; x22 ← decode x22; x23 ← decode x23; x24 ←
          decode x24; x25 ← decode x25; x26 ← decode x26; x27 ← decode x27; x28 ← decode x28; x29 ← decode x29; x30
          ← decode x30; x31 ← decode x31; x32 ← decode x32; x33 ← decode x33; x34 ← decode x34; x35 ← decode x35;
          x36 ← decode x36;
        Some (mkMetaResponse x0 x1 x2 x3 x4 x5 x6 x7 x8 x9 x10 x11 x12 x13 x14 x15 x16 x17 x18 x19 x20 x21 x22 x23
          x24 x25 x26 x27 x28 x29 x30 x31 x32 x33 x34 x35 x36)
      | _ => None
      end) _).
  intros []. cbn -[encode decode]. by repeat (rewrite decode_encode; cbn -[encode decode]).
Defined.
Definition vp_bytes (vp : VotePackage) : bytes := enc (vpk_Nonce vp, vpk_Votes vp).
#[local] Instance concrete_client : ClientLib := {|
  sorted_MetaRequest q := Ok (enc q); marshal_RequestMessage m := Ok (enc m);
  json_ResponseMessage := dec; json_MetaResponse := dec;
  marshal_VotePackage vp := Ok (vp_bytes vp);
  marshal_keysBatch kb := Ok (enc (map (λ k, (sgk_PrivKey k, sgk_PubKey k, sgk_Proof k)) (kb_Keys kb), kb_CensusID kb, kb_CensusURI kb));
  json_keysBatch b := '(ks, cid, uri) ← dec (A := list (string * string * string) * string * string) b;
    Ok (mkKeysBatch (map (λ '(a, b, c), mkSignKey a b c) ks) cid uri);
  box_SealAnonymous _ msg _ := Some msg;
  rand_Read n k := replicate (Z.to_nat k) (z2b (Z.of_nat n));
  rand_Intn n k := Z.of_nat n mod k |}.
#[local] Instance client_router : RouterEnv := {|
  json_RequestMessage := dec; json_MetaRequest := dec;
  marshal_MetaResponse r := Ok (enc r); marshal_ResponseMessage m := Ok (enc m);
  marshal_pins _ := Ok []; Storage_ListPins := Ok ∅; Storage_Pin _ := Ok (); Storage_Unpin _ := Ok ();
  getHealth := Ok 99; BlockStore_Time h := Some (1600000000 + h) |}.
#[local] Instance concrete_client_laws : ClientJSONLaws.
Proof. constructor; intros x; exists (enc x); (split; [done|apply dec_enc]). Qed.
#[local] Instance client_codec : ScrutinizerCodec := {|
  codec_votes := codec_of (list (list Z)); codec_pids := codec_of (list bytes);
  json_VotePackage b := '(nonce, votes) ← dec (A := string * list Z) b; Ok (mkVotePackage nonce votes) |}.
#[local] Instance client_addresses : AddressText := {| Address_String := sprintf_x |}.
#[local] Instance client_mempool : Mempool := {| mempool_admits _ _ := Ok () |}.
#[local] Instance client_ballots : BallotLaws.
Proof.
  constructor.
  - intros [nonce votes]. exists (vp_bytes (mkVotePackage nonce votes)). split; [done|]. cbn [json_VotePackage client_codec].
    unfold vp_bytes. by rewrite dec_enc.
  - intros random msg priv pub _. by exists msg.
Qed.
#[local] Instance client_votes : VoteJSONLaws.
Proof.
  constructor. intros tx _. exists (tx_bytes (vt_Type tx) tx). split; [done|]. split; [|apply json_type_tx_bytes].
  change (json_of (tx_bytes (vt_Type tx) tx) = Ok tx). unfold json_of, tx_bytes. by rewrite dec_enc.
Qed.

(** A gateway with a key of its own, over the chain with one committed vote. *)
Definition signing_gateway : Router :=
  match NewRouter (ethereum.mkSignKeys (Some (Byte.x06 : ecdsa_PrivateKey)) ∅) true chain with
  | Ok r => (EnableVoteAPI chain NewVochainInfo false r).2
  | _ => new_gateway
  end.
Definition no_results : () → option Scrutinizer := λ _, None.
Lemma client_status_witness :
  (GetEnvelopeStatus (gateway_exchange no_results) (sprintf_x (nullifier_of voter)) (sprintf_x pid1) 100
     (mkClient signing_gateway 0)).1 = Ok true.
Proof.
  assert (length pid1 = 32%nat) as Hp by (by vm_compute).
  assert (length (nullifier_of voter) = 32%nat) as Hn by (by vm_compute).
  assert (node_store (r_vocapp signing_gateway) = node_store chain) as Es by reflexivity.
  pose proof (proj1 (Envelope_cvote (node_store chain) pid1 (nullifier_of voter) vote1 chain_ok Hp Hn) vote1_committed) as Hv.
  destruct (status_response (Some vote1)) as [resp|] eqn:Hr; [|discriminate Hr].
  pose proof (client_status no_results signing_gateway 0 100 pid1 (nullifier_of voter) (Byte.x06 : ecdsa_PrivateKey) resp) as Hc.
  rewrite Es, Hv in Hc. apply Hc; [exact chain_ok|exact Hp|exact Hn|reflexivity|reflexivity|exact Hr].
Defined.

(** The census of one voter, and a poll over it. *)
Definition voter_key : ecdsa_PrivateKey := voter.
Definition voter_keys : ethereum.SignKeys := ethereum.mkSignKeys (Some voter_key) ∅.
Definition voter_claim : bytes := PoseidonHash (FromECDSAPub (sl_Public voter_key)).
Definition voter_tree : Trie.Tree := (AddClaim voter_claim [] 100 (empty_tree "census")).2.
Definition voter_root : string := match (Root 100 (GenProof voter_claim [] 100 voter_tree).2).1 with Ok r => r | _ => "" end.
Definition census_poll : NewProcessTx :=
  mkNewProcessTx (sprintf_x (replicate 20 Byte.x22)) voter_root "ipfs://census" 10 (sprintf_x pid1) PollVote "" 1 TxNewProcess [].
Definition poll_block : list abci_call :=
  [CBeginBlock (header_at 1) 0; CDeliverTx (signed_NewProcess oracle_key census_poll) 0; CCommit; CBeginBlock (header_at 2) 0].
Definition poll_process : Process :=
  match Process_ (Store (node_at poll_block)) pid1 false with Ok p => p | _ => mkProcess false [] [] [] [] 0 "" 0 false [] 0 "" end.
Lemma poll_open : open_for pid1 (nullifier_of voter) voter_root [] poll_process (header_at 2) (node_at poll_block).
Proof.
  split_and!.
  - apply si_ok, node_at_inv. by vm_compute.
  - by vm_compute.
  - by vm_compute.
  - by vm_compute.
  - by vm_compute.
  - by left.
  - by vm_compute.
  - by vm_compute.
  - by vm_compute.
  - assert (voteCache (node_at poll_block) = ∅) as Hc by (apply (bool_decide_eq_true_1 _); by vm_compute).
    intros u. unfold VoteCacheGet. rewrite Hc. by case_decide.
Qed.
Lemma voter_added : AddClaim voter_claim [] 100 (empty_tree "census") = (Ok (), voter_tree).
Proof.
  assert ((AddClaim voter_claim [] 100 (empty_tree "census")).1 = Ok ()) as Ha by (by vm_compute).
  unfold voter_tree. rewrite <-Ha. by destruct (AddClaim voter_claim [] 100 (empty_tree "census")).
Qed.

(** An encrypted poll with the key of one keeper, before and after it is revealed. *)
Definition keeper_secret : string := sprintf_x (replicate 32 Byte.x09).
Definition slot1 (k : string) : list string := "" :: k :: replicate 14 "".
Definition sealed_poll : Process :=
  mkProcess false (slot1 "c") empty_keys (slot1 keeper_secret) [] 1 "" 10 false empty_keys 1 EncryptedPoll.
Definition revealed_poll : Process :=
  mkProcess false (slot1 "c") (slot1 keeper_secret) (slot1 keeper_secret) [] 0 "" 10 false (slot1 "r") 1 EncryptedPoll.
Definition listed : pkeys := mkPkeys (keys_from 0 (p_EncryptionPublicKeys sealed_poll)) [] [] [].
#[local] Instance slot_grows_dec a b : Decision (slot_grows a b).
Proof. unfold slot_grows. apply _. Defined.
Lemma revealed_poll_wf : proc_wf revealed_poll.
Proof. constructor; vm_compute; try done; repeat constructor; done. Qed.
Lemma sealed_poll_evolves : evolves sealed_poll revealed_poll.
Proof. constructor; try done; unfold keys_grow; apply (bool_decide_eq_true_1 _); by vm_compute. Qed.
Lemma revealed_poll_all : all_revealed revealed_poll.
Proof.
  intros i pub Hi Hne. exists pub. split; [exact Hi|].
  destruct i as [|[|i]]; [by injection Hi as <-| |].
  - injection Hi as <-. eexists. by split; vm_compute.
  - change (replicate 14 "" !! i = Some pub) in Hi. apply lookup_replicate in Hi as [-> _]. done.
Qed.
Lemma encrypted_ballot_opened_witness : ∃ vpb, genVote true [keeper_secret] 7 = Ok vpb ∧
  open_vote revealed_poll (mkVote [1] 5 [] pid1 vpb) = Ok (first_package 7) ∧ vpk_Votes (first_package 7) = [1; 2; 3; 4; 5; 6].
Proof.
  destruct (encrypted_ballot_opened sealed_poll revealed_poll listed [1] [keeper_secret] 7 revealed_poll_wf eq_refl
    sealed_poll_evolves revealed_poll_all eq_refl) as (vpb & Hg & Ho); [by vm_compute|].
  exists vpb. split; [exact Hg|]. split; [|reflexivity]. by apply Ho.
Defined.
