(* ===== verification/KeysCli.v ===== *)
(** * The recovery tool: [cmd/keykeepercli]

    The keykeepercli command computes the results of an encrypted process from
    the keys of the oracles, without waiting for the keys to be revealed: it
    derives the keys of the keepers again and opens the envelopes itself.  The
    start of the node it reads from is [service.Vochain]; here the state is an
    argument.  [cli_results_match]: the results are those of the scrutinizer
    once the keys are revealed. *)

From stdpp Require Import base gmap strings list fin_maps.
From Stdlib Require Import ZArith Lia.
From S2P Require Import Prelude GoLib Types StateDB Crypto Codec State Transaction Database Scrutinizer KeyKeeper Keys Router.
From S2P Require Import App IavlState Concrete Results SubPubFacts.
Open Scope Z_scope.

Section cli.
Context {DB : Type} `{StateDB DB} `{AminoLib} `{CryptoLib} `{!EcdsaKeys} `{ScrutinizerCodec}.
Implicit Types (d : DB).

Definition cli_generateKeys (pid : string) (index : Z) (signer : ethereum.SignKeys) : res processKeys :=
  pb ← hex_DecodeString pid;
  let pb := pb ++ [z2b index] in
  key ← ethkeys.the_key signer;
  priv ← or_err "cannot generate encryption key"
           (nacl.DecodePrivate (sprintf_x (ethereum.HashRaw (PrivateBytes key ++ pb))));
  let ckb := PoseidonHash (nacl.priv_bytes priv) in
  ck ← go_slice_to ckb commitmentKeySize;
  ckhash ← go_slice_to (PoseidonHash ckb) commitmentKeySize;
  Ok (mkProcessKeys (nacl.pub_bytes priv) (nacl.priv_bytes priv) ck ckhash index).

(** The flag [oracles]: [key:index,key:index].  Anything malformed ends the
    process ([log.Fatal]); [int8(index)] wraps. *)
Definition or_fatal {A} (r : res A) : res A := match r with Err e => Panic e | _ => r end.
Definition oracle_key_of (pid : string) (o : bytes) : res processKeys :=
  match split_on Byte.x3a o with
  | [key; index] =>
    index ← or_fatal (ParseInt (b2s index));
    signer ← or_fatal (ethkeys.AddHexKey (b2s key) ethereum.NewSignKeys);
    or_fatal (cli_generateKeys pid (i8 index) signer)
  | _ => Panic "oracle key malformed"
  end.
Definition oracle_keys_of (pid oracles : string) : res (list processKeys) :=
  mapM (oracle_key_of pid) (split_on Byte.x2c (s2b oracles)).

(** [for i := len(keys) - 1; i >= 0; i--]: from the key at [i - 1] down. *)
Fixpoint cli_decrypt (keys : list string) (i : nat) (rawVote : bytes) : res bytes :=
  match i with
  | O => Ok rawVote
  | S i' =>
    key ← go_index keys (Z.of_nat i');
    match nacl.DecodePrivate key with
    | Panic w => Panic w
    | Err _ => cli_decrypt keys i' rawVote
    | Ok priv =>
      match nacl.Decrypt priv rawVote with
      | Panic w => Panic w
      | Ok rawVote => cli_decrypt keys i' rawVote
      | Err _ => cli_decrypt keys i' []
      end
    end
  end.
Definition cli_unmarshalVote (votePackage : string) (keys : list string) : res VotePackage :=
  rawVote ← b64_DecodeString votePackage;
  rawVote ← (if decide (0 < glen keys) then cli_decrypt keys (length keys) rawVote else Ok rawVote);
  json_VotePackage rawVote.

(** The loop over the key indexes: the keys so far, and whether it broke off. *)
Fixpoint cli_keys (p : Process) (indexes : list Z) (keys : list string) : res (list string * bool) :=
  match indexes with
  | [] => Ok (keys, false)
  | k :: ks =>
    if decide (MaxKeyIndex ≤ k) then Ok (keys, true)
    else key ← go_index (p_EncryptionPrivateKeys p) k; cli_keys p ks (keys ++ [key])
  end.
Definition cli_open (p : Process) (v : Vote) : res VotePackage :=
  if IsEncrypted p then
    if decide (glen (p_EncryptionPrivateKeys p) < glen (v_EncryptionKeyIndexes v))
    then Err "encryptionKeyIndexes has too many fields"
    else
      '(keys, failed) ← cli_keys p (v_EncryptionKeyIndexes v) [];
      if bool_decide (glen keys = 0) || failed then Err "no keys provided or wrong index"
      else cli_unmarshalVote (v_VotePackage v) keys
  else cli_unmarshalVote (v_VotePackage v) [].
Fixpoint cli_count d (pid : bytes) (p : Process) (es : list bytes) (pv : ProcessVotes) : res ProcessVotes :=
  match es with
  | [] => Ok pv
  | e :: es' =>
    match Envelope d pid e false with
    | Panic w => Panic w
    | Err _ => cli_count d pid p es' pv
    | Ok v =>
      match cli_open p v with
      | Panic w => Panic w
      | Err _ => cli_count d pid p es' pv
      | Ok vp => pv ← tally_loop (vpk_Votes vp) 0 pv; cli_count d pid p es' pv
      end
    end
  end.
(** [emptyProcess] and [pruneVoteResult] are copies of those of the scrutinizer. *)
Definition cli_computeNonLiveResults (processID : string) (p : Process) d : res ProcessVotes :=
  pid ← or_err "cannot decode processID" (hex_DecodeString processID);
  pv ← cli_count d pid p (EnvelopeList d pid 0 (Z.shiftl 32 18) false) emptyProcess;
  pruneVoteResult pv.

Fixpoint set_keys (keys : list processKeys) (privs : list string) : res (list string) :=
  match keys with
  | [] => Ok privs
  | k :: keys' => privs ← go_set_index privs (index k) (sprintf_x (privKey k)); set_keys keys' privs
  end.
Definition with_privs (privs : list string) (p : Process) : Process :=
  mkProcess (p_Canceled p) (p_CommitmentKeys p) privs (p_EncryptionPublicKeys p) (p_EntityID p) (p_KeyIndex p) (p_MkRoot p)
    (p_NumberOfBlocks p) (p_Paused p) (p_RevealKeys p) (p_StartBlock p) (p_Type p).
Definition cli_main (pid oracles : string) d : res ProcessVotes :=
  keys ← oracle_keys_of pid oracles;
  pidb ← or_fatal (hex_DecodeString pid);
  process ← or_fatal (Process_ d pidb true);
  privs ← set_keys keys (p_EncryptionPrivateKeys process);
  or_fatal (cli_computeNonLiveResults pid (with_privs privs process) d).

(** ** Equivalence *)
Lemma cli_generateKeys_eq k pid : cli_generateKeys (sprintf_x pid) (kk_myIndex k) (kk_signer k) = generateKeys k pid.
Proof.
  unfold cli_generateKeys, generateKeys, ethkeys.the_key. rewrite hex_DecodeString_sprintf_x. cbn [mbind res_bind].
  destruct (ethereum.sk_Private (kk_signer k)); [|done]. cbn [mbind res_bind]. by destruct (nacl.DecodePrivate _).
Qed.

Lemma decrypt_all_snoc keys key raw : decrypt_all (keys ++ [key]) raw = (raw ← decrypt_step key raw; decrypt_all keys raw).
Proof.
  revert raw. induction keys as [|k keys IH]; intros raw; cbn [decrypt_all app mbind res_bind]; [by destruct (decrypt_step key raw)|].
  rewrite IH. by destruct (decrypt_step key raw).
Qed.
Lemma cli_decrypt_eq keys i raw : (i ≤ length keys)%nat → cli_decrypt keys i raw = decrypt_all (take i keys) raw.
Proof.
  revert raw. induction i as [|i IH]; intros raw Hi; [done|]. cbn [cli_decrypt].
  destruct (lookup_lt_is_Some_2 keys i) as [key Hk]; [lia|]. rewrite (go_index_eq _ _ key) by (rewrite ?Nat2Z.id; done || lia).
  rewrite (take_S_r _ _ _ Hk), decrypt_all_snoc. unfold decrypt_step. cbn [mbind res_bind].
  destruct (nacl.DecodePrivate key) as [priv|e|w]; cbn [mbind res_bind]; [|apply IH; lia|done].
  destruct (nacl.Decrypt priv raw); cbn [mbind res_bind]; [apply IH; lia|apply IH; lia|done].
Qed.
Lemma cli_unmarshalVote_eq vp keys : cli_unmarshalVote vp keys = unmarshalVote vp keys.
Proof.
  unfold cli_unmarshalVote, unmarshalVote. destruct (b64_DecodeString vp) as [raw|e|w]; cbn [mbind res_bind]; [|done..].
  case_decide as Hl; [by rewrite cli_decrypt_eq, take_ge by done|]. by destruct keys; [|unfold glen in Hl; simpl in Hl; lia].
Qed.
Lemma cli_keys_eq p ks acc : match vote_keys p ks with
  | Ok keys => cli_keys p ks acc = Ok (acc ++ keys, false)
  | Err _ => ∃ keys, cli_keys p ks acc = Ok (keys, true)
  | Panic w => cli_keys p ks acc = Panic w
  end.
Proof.
  revert acc. induction ks as [|k ks IH]; intros acc; cbn [vote_keys cli_keys]; [by rewrite app_nil_r|].
  case_decide; [by eexists|]. destruct (go_index _ k) as [key|e|w] eqn:Eg; cbn [mbind res_bind]; [|by apply go_index_not_Err in Eg|done].
  specialize (IH (acc ++ [key])). destruct (vote_keys p ks) as [keys|e|w]; cbn [mbind res_bind]; [|exact IH|exact IH].
  by rewrite IH, <-app_assoc.
Qed.
(** The same ballot, or no ballot. *)
Definition same_ballot (r r' : res VotePackage) : Prop :=
  match r, r' with
  | Ok vp, Ok vp' => vp = vp'
  | Err _, Err _ => True
  | Panic w, Panic w' => w = w'
  | _, _ => False
  end.
Lemma same_ballot_refl r : same_ballot r r.
Proof. by destruct r. Qed.
Lemma cli_open_eq p v : same_ballot (cli_open p v) (open_vote p v).
Proof.
  unfold cli_open, open_vote. destruct (IsEncrypted p); [|by rewrite cli_unmarshalVote_eq; apply same_ballot_refl].
  case_decide; [done|]. pose proof (cli_keys_eq p (v_EncryptionKeyIndexes v) []) as Hk.
  destruct (vote_keys p _) as [[|key keys]|e|w]; cbn [app] in Hk; [by rewrite Hk| | |by rewrite Hk].
  - rewrite Hk. cbn [mbind res_bind]. rewrite (bool_decide_eq_false_2 (glen (key :: keys) = 0)) by (unfold glen; simpl; lia).
    cbn [orb]. rewrite cli_unmarshalVote_eq. apply same_ballot_refl.
  - destruct Hk as [keys Hk]. rewrite Hk. cbn [mbind res_bind]. by rewrite orb_true_r.
Qed.
Lemma cli_count_eq d pid p es pv : cli_count d pid p es pv = count_envelopes d pid p es pv.
Proof.
  revert pv. induction es as [|e es IH]; intros pv; [done|]. cbn [cli_count count_envelopes]. unfold count_envelope.
  destruct (Envelope d pid e false) as [v|x|w]; cbn [mbind res_bind]; [|apply IH|done].
  pose proof (cli_open_eq p v) as Ho. destruct (cli_open p v), (open_vote p v); simpl in Ho; subst; try done; cbn [mbind res_bind]; try apply IH.
  destruct (tally_loop _ 0 pv); cbn [mbind res_bind]; [apply IH|done|done].
Qed.
(** Only the type and the private keys of the process matter. *)
Lemma count_envelopes_ext d pid p p' es pv : p_Type p' = p_Type p → p_EncryptionPrivateKeys p' = p_EncryptionPrivateKeys p →
  count_envelopes d pid p' es pv = count_envelopes d pid p es pv.
Proof.
  intros Ht Hk. assert (∀ ks, vote_keys p' ks = vote_keys p ks) as Hv.
  { induction ks as [|k ks IH]; [done|]. cbn [vote_keys]. by rewrite Hk, IH. }
  revert pv. induction es as [|e es IH]; intros pv; [done|]. cbn [count_envelopes].
  assert (count_envelope d pid p' e pv = count_envelope d pid p e pv) as ->.
  { unfold count_envelope, open_vote, IsEncrypted. destruct (Envelope _ _ _ _); [|done..]. by rewrite Ht, Hk, Hv. }
  destruct (count_envelope _ _ _ _ _); cbn [mbind res_bind]; [apply IH|done..].
Qed.

(** An entry of the flag stands for a keeper: its key and its index. *)
Definition entry_of (o : bytes) (k : KeyKeeper) : Prop :=
  ∃ key index z, split_on Byte.x3a o = [key; index] ∧ ParseInt (b2s index) = Ok z ∧ i8 z = kk_myIndex k ∧
    ethkeys.AddHexKey (b2s key) ethereum.NewSignKeys = Ok (kk_signer k).
Lemma oracle_keys_of_eq pid oracles keepers pks :
  Forall2 entry_of (split_on Byte.x2c (s2b oracles)) keepers →
  Forall2 (λ k pk, generateKeys k pid = Ok pk) keepers pks → oracle_keys_of (sprintf_x pid) oracles = Ok pks.
Proof.
  unfold oracle_keys_of. intros He. revert pks. induction He as [|o k os ks (key & ix & z & Hs & Hz & Hi & Hk) _ IH]; intros pks Hg.
  - by apply Forall2_nil_inv_l in Hg as ->.
  - apply Forall2_cons_inv_l in Hg as (pk & pks' & Hpk & Hg & ->). cbn [mapM].
    assert (oracle_key_of (sprintf_x pid) o = Ok pk) as ->; [|cbn [mbind res_bind]; by rewrite (IH _ Hg)].
    unfold oracle_key_of. rewrite Hs, Hz. cbn [or_fatal mbind res_bind]. rewrite Hk. cbn [or_fatal mbind res_bind].
    by rewrite Hi, cli_generateKeys_eq, Hpk.
Qed.

End cli.

(** ** An encrypted poll and its one keeper *)
Definition keeper1 : KeyKeeper := mkKeyKeeper ∅ None None (ethereum.mkSignKeys (Some (oracle_key : ecdsa_PrivateKey)) ∅) 1 [] [] 0.
Definition oracles_flag : string := sprintf_x (zeros 31 ++ [oracle_key]) +:+ ":1".
Definition secret_block : list abci_call :=
  [CBeginBlock (header_at 1) 0; CDeliverTx (signed_NewProcess oracle_key (new_process EncryptedPoll)) 0; CCommit].
Definition secret_process : Process :=
  match Process_ (Store (node_at secret_block)) pid1 true with Ok p => p | _ => mkProcess false [] [] [] [] 0 "" 0 false [] 0 "" end.
Definition keeper1_keys : processKeys := match generateKeys keeper1 pid1 with Ok pk => pk | _ => mkProcessKeys [] [] [] [] 0 end.
Definition recovered : list string :=
  match set_keys [keeper1_keys] (p_EncryptionPrivateKeys secret_process) with Ok l => l | _ => [] end.
