(* ===== verification/Ens.v ===== *)
(** * Names of the Ethereum Name Service: [chain/contractWrappers.go]

    The hash of an ENS name, the resolution of a name by the registry and its
    resolver, and the retries around them.  The contracts, the Ethereum node
    behind them and the Unicode normalisation of [x/net/idna] are parameters
    ([EnsLib]); every call may change the state [W] of the network. *)

From stdpp Require Import base strings list sets.
From Stdlib Require Import ZArith Lia Ascii.
From S2P Require Import Prelude GoLib Crypto Api Concrete Router IpfsSync.
Open Scope Z_scope.

(** [idna.ToUnicode], [ethclient.Dial] (whether a client is returned), the
    constructors of the generated contract callers and their methods. *)
Class EnsLib (W : Type) := {
  idna_ToUnicode : string → res string;
  ethclient_Dial : string → W → bool * W;
  NewEnsRegistryWithFallbackCaller : bytes → res ();
  NewEntityResolverCaller : bytes → res ();
  Registry_Resolver : bytes → bytes → W → res bytes * W;
  Resolver_Addr : bytes → bytes → W → res bytes * W;
  Resolver_Text : bytes → bytes → string → W → res string * W }.

Module ens.
Section ens.
Context {W : Type} `{CryptoLib} `{AddressText} `{!EnsLib W}.
Abbreviation ME := (GM W).
Definition EthereumDialMaxRetry : nat := 10.
Definition maxRetries : nat := 30.
Definition EntityResolverDomain : string := "entity-resolver.vocdoni.eth".
Definition EntityMetaKey : string := "vnd.vocdoni.meta".

(** ** The hash of a name *)

Definition starts_with_period (s : string) : bool :=
  match s with String c _ => bool_decide (c = "."%char) | EmptyString => false end.
Definition Normalize (input : string) : res string :=
  output ← idna_ToUnicode input;
  Ok (if starts_with_period input && negb (starts_with_period output) then "." +:+ output else output).

Definition NameHashPart (currentHash : bytes) (name : bytes) : bytes :=
  Keccak256 (currentHash ++ Keccak256 name).
Definition zero_hash : bytes := replicate 32 Byte.x00.

(** The loop from the last part down to the first. *)
Fixpoint hash_parts (i : nat) (parts : list bytes) (hash : bytes) : res bytes :=
  match i with
  | O => Ok hash
  | S i =>
      match parts !! i with
      | Some p => hash_parts i parts (NameHashPart hash p)
      | None => Panic "index out of range"
      end
  end.
Definition NameHash (name : string) : res bytes :=
  if bool_decide (name = "") then Ok zero_hash
  else
    normalizedName ← Normalize name;
    let parts := split_on Byte.x2e (s2b normalizedName) in
    hash_parts (length parts) parts zero_hash.

(** ** Resolution *)

Record ENSCallerHandler := mkENSCallerHandler { PublicRegistryAddr : string; ResolverAddr : string }.
Definition NewENSRegistryWithFallbackHandle (e : ENSCallerHandler) : res () :=
  NewEnsRegistryWithFallbackCaller (HexToAddress (PublicRegistryAddr e)).
Definition NewEntityResolverHandle (e : ENSCallerHandler) : res () :=
  NewEntityResolverCaller (HexToAddress (ResolverAddr e)).
Definition Resolve (e : ENSCallerHandler) (nameHash : bytes) (resolvePublicRegistry : bool) : ME string :=
  resolvedAddr ←
    (if resolvePublicRegistry then Registry_Resolver (HexToAddress (PublicRegistryAddr e)) nameHash
     else Resolver_Addr (HexToAddress (ResolverAddr e)) nameHash : ME bytes);
  mret (Address_String resolvedAddr).

(** [log.Fatalf] after the last attempt. *)
Fixpoint dial_loop (n : nat) (endpoint : string) : ME () :=
  match n with
  | O => lift (Panic "cannot create a client connection")
  | S n => λ w,
      let '(ok, w') := ethclient_Dial endpoint w in
      if ok then (Ok (), w') else dial_loop n endpoint w'
  end.

(** The part [VotingProcessAddress] and [ResolveEntityMetadataURL] share: the
    hash of the name, the client, the registry and the resolver it names. *)
Definition resolver_of (registry domain endpoint : string) : ME (bytes * ENSCallerHandler) :=
  nh ← lift (NameHash domain);
  _ ← dial_loop EthereumDialMaxRetry endpoint;
  let e := mkENSCallerHandler registry "" in
  _ ← lift (NewENSRegistryWithFallbackHandle e);
  resolver ← Resolve e nh true;
  let e := mkENSCallerHandler registry resolver in
  _ ← lift (NewEntityResolverHandle e);
  mret (nh, e).
Definition VotingProcessAddress (publicRegistryAddr domain ethEndpoint : string) : ME string :=
  x ← resolver_of publicRegistryAddr domain ethEndpoint;
  Resolve x.2 x.1 false.

(** [copy] into an array of 32 bytes. *)
Definition to_array32 (b : bytes) : bytes := take 32 b ++ replicate (32 - length b) Byte.x00.
Definition ResolveEntityMetadataURL (ensRegistryAddr entityID ethEndpoint : string) : ME string :=
  x ← resolver_of ensRegistryAddr EntityResolverDomain ethEndpoint;
  eIDBytes ← lift (hex_DecodeString entityID);
  Resolver_Text (HexToAddress (ResolverAddr x.2)) (to_array32 eIDBytes) EntityMetaKey.

(** After the last attempt the error of the last answer is returned. *)
Definition no_peers : string := "no suitable peers available".
Fixpoint ens_retry (n : nat) (ask : ME string) (last : res string) : ME string :=
  match n with
  | O => lift last
  | S n => λ w,
      match ask w with
      | (Err err, w') =>
          if ipfssync.strings_Contains err no_peers then ens_retry n ask (Err err) w'
          else (Err ("cannot get voting process contract: " +:+ err), w')
      | r => r
      end
  end.
Definition EnsResolve (ensRegistryAddr ethDomain w3uri : string) : ME string :=
  ens_retry maxRetries (VotingProcessAddress ensRegistryAddr ethDomain w3uri) (Ok "").
End ens.
End ens.

(** ** The hash and the standard *)
Section facts.
Context {W : Type} `{CryptoLib} `{AddressText} `{!EnsLib W}.
Import ens.

(** EIP-137: the hash of the empty name is zero, the hash of
    [label.rest] is the hash of the hash of [rest] and the hash of [label]. *)
Fixpoint namehash (labels : list bytes) : bytes :=
  match labels with
  | [] => zero_hash
  | label :: rest => Keccak256 (namehash rest ++ Keccak256 label)
  end.

Lemma hash_parts_suffix pre post :
  hash_parts (length pre) (pre ++ post) (namehash post) = Ok (namehash (pre ++ post)).
Proof.
  revert post. induction pre as [|p pre IH] using rev_ind; intros post; [done|].
  rewrite length_app, Nat.add_1_r. cbn [hash_parts].
  rewrite <- app_assoc, lookup_app_r, Nat.sub_diag by lia. apply (IH (p :: post)).
Qed.

(** The labels of a name, and its hash. *)
Definition labels (name : string) : res (list bytes) :=
  if bool_decide (name = "") then Ok []
  else n ← Normalize name; Ok (split_on Byte.x2e (s2b n)).
Lemma NameHash_labels name : NameHash name = (ls ← labels name; Ok (namehash ls)).
Proof.
  unfold NameHash, labels. case_bool_decide; [done|]. destruct (Normalize name) as [n|e|w]; [|done..]. simpl.
  pose proof (hash_parts_suffix (split_on Byte.x2e (s2b n)) []) as Hp. by rewrite app_nil_r in Hp.
Qed.

(** The inputs that are hashed for a list of labels. *)
Fixpoint hashed (labels : list bytes) : list bytes :=
  match labels with
  | [] => []
  | label :: rest => label :: (namehash rest ++ Keccak256 label) :: hashed rest
  end.
(** Among the inputs hashed for the two lists there are two that collide, or
    one that is mapped to zero. *)
Definition collides (ls ls' : list bytes) : Prop :=
  (∃ x y, x ∈ hashed ls ∧ y ∈ hashed ls' ∧ x ≠ y ∧ Keccak256 x = Keccak256 y) ∨
  (∃ x, x ∈ hashed ls ++ hashed ls' ∧ Keccak256 x = zero_hash).
Lemma collides_mono ls ls' l l' : collides ls ls' → collides (l :: ls) (l' :: ls').
Proof.
  intros [(x & y & Hx & Hy & Hxy)|(x & Hx & Hz)]; [left; exists x, y|right; exists x];
    cbn [hashed]; split_and?; set_solver.
Qed.
Lemma keccak_same x y ls ls' : x ∈ hashed ls → y ∈ hashed ls' → Keccak256 x = Keccak256 y →
  x = y ∨ collides ls ls'.
Proof. intros Hx Hy E. destruct (decide (x = y)); [by left|right; left; by exists x, y]. Qed.

Lemma namehash_length `{!CryptoLaws} ls : length (namehash ls) = 32%nat.
Proof. destruct ls as [|l ls]; [done|apply law_Keccak_len]. Qed.
Lemma namehash_inj `{!CryptoLaws} ls ls' : namehash ls = namehash ls' → ls = ls' ∨ collides ls ls'.
Proof.
  revert ls'. induction ls as [|l ls IH]; intros [|l' ls']; cbn [namehash]; intros E; [by left|..].
  1,2: right; right; eexists; split; [|by first [symmetry; exact E|exact E]]; cbn [hashed]; set_solver.
  apply (keccak_same _ _ (l :: ls) (l' :: ls')) in E as [E|]; [|by right|cbn [hashed]; set_solver..].
  apply app_inj_1 in E as [E1 E2]; [|by rewrite !namehash_length].
  apply (keccak_same _ _ (l :: ls) (l' :: ls')) in E2 as [->|]; [|by right|cbn [hashed]; set_solver..].
  apply IH in E1 as [->|]; [by left|right; by apply collides_mono].
Qed.

(** C38: the hash of a name identifies its labels.  [NameHash], which works
    on the labels from the last to the first, gives the recursive hash of
    EIP-137, so two names with the same hash have the same labels, unless two
    of the inputs that were hashed for them collide under Keccak-256 (or one
    of those inputs is mapped to zero). *)
Theorem name_hash_identifies `{!CryptoLaws} name name' h ls ls' :
  labels name = Ok ls → labels name' = Ok ls' → NameHash name = Ok h → NameHash name' = Ok h →
  h = namehash ls ∧ (ls = ls' ∨ collides ls ls').
Proof.
  intros E E'. rewrite !NameHash_labels, E, E'. intros [= <-] [= Eh]. split; [done|]. by apply namehash_inj.
Qed.

(** ** The retries *)

(** As many answers without peers as there are retries left over are waited
    for; the first other answer counts. *)
Fixpoint no_peers_for (k : nat) (ask : GM W string) (w w' : W) : Prop :=
  match k with
  | O => w' = w
  | S k => ∃ e w1, ask w = (Err e, w1) ∧ ipfssync.strings_Contains e no_peers = true ∧ no_peers_for k ask w1 w'
  end.
Lemma ens_retry_skips k n ask last w w' : no_peers_for k ask w w' →
  ∃ last', ens_retry (k + n) ask last w = ens_retry n ask last' w'.
Proof.
  revert last w. induction k as [|k IH]; intros last w; cbn [no_peers_for].
  - intros ->. by exists last.
  - intros (e & w1 & Ha & Hc & Hk). destruct (IH (Err e) w1 Hk) as [last' Hl]. exists last'.
    cbn [Nat.add ens_retry]. by rewrite Ha, Hc.
Qed.
Lemma EnsResolve_answer k reg dom uri w w1 a w2 : (k < maxRetries)%nat →
  no_peers_for k (VotingProcessAddress reg dom uri) w w1 → VotingProcessAddress reg dom uri w1 = (Ok a, w2) →
  EnsResolve reg dom uri w = (Ok a, w2).
Proof.
  intros Hk Hn Ha. unfold EnsResolve. replace maxRetries with (k + S (maxRetries - k - 1))%nat by lia.
  destruct (ens_retry_skips k (S (maxRetries - k - 1)) _ (Ok "") _ _ Hn) as [last' ->].
  cbn [ens_retry]. by rewrite Ha.
Qed.
End facts.

(** ** A network with one resolver *)
Section witness.
#[local] Instance plain_ens : EnsLib () := {|
  idna_ToUnicode s := Ok s;
  ethclient_Dial _ w := (true, w);
  NewEnsRegistryWithFallbackCaller _ := Ok ();
  NewEntityResolverCaller _ := Ok ();
  Registry_Resolver _ _ w := (Ok [], w);
  Resolver_Addr _ h w := (Ok (take 20 h), w);
  Resolver_Text _ _ _ w := (Ok "", w) |}.

Lemma name_hash_identifies_witness : ∃ h, ens.NameHash "vocdoni.eth" = Ok h ∧
  h = namehash [s2b "vocdoni"; s2b "eth"].
Proof.
  eexists. split; [vm_compute; reflexivity|].
  refine (proj1 (name_hash_identifies "vocdoni.eth" "vocdoni.eth" _ _ _ _ _ _ _)); vm_compute; reflexivity.
Defined.
End witness.
