(* ===== verification/Startup.v ===== *)
(** * Starting a node: [vochain/start.go], [vochain/apputils.go],
    [service/vochain.go]

    The choice of the genesis document, the configuration and the keys that
    are handed to Tendermint, and the document a new network is created with.
    The files of the machine are a state ([FS]); Tendermint and its codec are
    parameters ([TendermintLib], [GenesisCodec]). *)

From stdpp Require Import base gmap strings pretty list fin_maps.
From Stdlib Require Import ZArith Lia.
From S2P Require Import Prelude GoLib Types Crypto Transaction.
Open Scope Z_scope.

(** ** Files: [os], [io/ioutil] *)

(** The files by absolute path, the paths on which every access fails, and
    the working directory. *)
Record FS := mkFS { fs_Files : gmap string bytes; fs_Denied : gset string; fs_Cwd : string }.
Definition set_fs_Files m (s : FS) : FS := mkFS m (fs_Denied s) (fs_Cwd s).
Abbreviation MF := (GM FS).

Definition HasPrefix (s p : string) : bool := String.prefix p s.
Definition abs (cwd path : string) : string := if HasPrefix path "/" then path else cwd +:+ "/" +:+ path.
Definition ErrNotExist : string := "file does not exist".
Definition os_IsNotExist (err : string) : bool := bool_decide (err = ErrNotExist).
Definition denied (s : FS) (path : string) : bool := bool_decide (abs (fs_Cwd s) path ∈ fs_Denied s).
Definition ReadFile_fs (s : FS) (path : string) : res bytes :=
  if denied s path then Err "permission denied"
  else of_option ErrNotExist (fs_Files s !! abs (fs_Cwd s) path).
Definition ReadFile (path : string) : MF bytes := reads (λ s, ReadFile_fs s path).
Definition WriteFile (path : string) (data : bytes) : MF () := updates (λ s,
  if denied s path then Err "permission denied"
  else Ok (set_fs_Files (<[abs (fs_Cwd s) path := data]> (fs_Files s)) s)).
(** Whether a path is a directory or lies in it. *)
Definition under (dir path : string) : bool := bool_decide (path = dir) || HasPrefix path (dir +:+ "/").
Definition RemoveAll (path : string) : MF () := updates (λ s,
  if denied s path then Err "permission denied"
  else Ok (set_fs_Files (filter (λ f, under (abs (fs_Cwd s) path) f.1 = false) (fs_Files s)) s)).
(** [tmos.FileExists]: whether [os.Stat] does not say that there is no file. *)
Definition FileExists (path : string) (s : FS) : bool :=
  match ReadFile_fs s path with Err e => negb (os_IsNotExist e) | _ => true end.

(** [strings.Join] and [strings.Trim]. *)
Fixpoint strings_Join (l : list string) (sep : string) : string :=
  match l with
  | [] => ""
  | [x] => x
  | x :: l => x +:+ sep +:+ strings_Join l sep
  end.
Fixpoint drop_cutset (cutset s : bytes) : bytes :=
  match s with
  | [] => []
  | c :: s' => if bool_decide (c ∈ cutset) then drop_cutset cutset s' else s
  end.
Definition strings_Trim (s : string) (cutset : bytes) : string :=
  b2s (reverse (drop_cutset cutset (reverse (drop_cutset cutset (s2b s))))).

(** ** The configuration *)

Record VochainCfg := mkVochainCfg {
  vc_Chain : string; vc_Dev : bool; vc_LogLevel : string; vc_LogOutput : string; vc_RPCListen : string;
  vc_P2PListen : string; vc_PublicAddr : string; vc_DataDir : string; vc_Genesis : string; vc_CreateGenesis : bool;
  vc_Peers : list string; vc_Seeds : list string; vc_SeedMode : bool; vc_MinerKey : string; vc_NodeKey : string;
  vc_NoWaitSync : bool; vc_SaveConfig : bool; vc_MempoolSize : Z; vc_KeyKeeperIndex : Z;
  vc_ImportPreviousCensus : bool; vc_TendermintMetrics : bool }.
(** An entry of the table of known networks ([vochain/genesis.go]); the table
    is an argument of the functions that look a network up in it. *)
Record VochainGenesis := mkVochainGenesis { vg_SeedNodes : list string; vg_Genesis : string; vg_AutoUpdateGenesis : bool }.
Definition zero_VochainGenesis : VochainGenesis := mkVochainGenesis [] "" false.

(** The fields of Tendermint's configuration that the start sets; times in
    milliseconds. *)
Record TmConfig := mkTmConfig {
  tc_FastSyncMode : bool; tc_RootDir : string; tc_LogLevel : string; tc_RPCListen : string; tc_P2PListen : string;
  tc_AllowDuplicateIP : bool; tc_AddrBookStrict : bool; tc_ExternalAddress : string;
  tc_Seeds : string; tc_PersistentPeers : string; tc_SeedMode : bool; tc_CORSAllowedOrigins : list string;
  tc_TimeoutProposeDelta : Z; tc_TimeoutPropose : Z; tc_TimeoutPrevoteDelta : Z; tc_TimeoutPrevote : Z;
  tc_TimeoutPrecommitDelta : Z; tc_TimeoutPrecommit : Z; tc_TimeoutCommit : Z;
  tc_IndexAllKeys : bool; tc_MempoolSize : Z; tc_Recheck : bool; tc_DBBackend : string; tc_Genesis : string;
  tc_Prometheus : bool }.
Definition set_tc_Genesis g (c : TmConfig) : TmConfig :=
  mkTmConfig (tc_FastSyncMode c) (tc_RootDir c) (tc_LogLevel c) (tc_RPCListen c) (tc_P2PListen c)
    (tc_AllowDuplicateIP c) (tc_AddrBookStrict c) (tc_ExternalAddress c) (tc_Seeds c) (tc_PersistentPeers c)
    (tc_SeedMode c) (tc_CORSAllowedOrigins c) (tc_TimeoutProposeDelta c) (tc_TimeoutPropose c)
    (tc_TimeoutPrevoteDelta c) (tc_TimeoutPrevote c) (tc_TimeoutPrecommitDelta c) (tc_TimeoutPrecommit c)
    (tc_TimeoutCommit c) (tc_IndexAllKeys c) (tc_MempoolSize c) (tc_Recheck c) (tc_DBBackend c) g (tc_Prometheus c).
Definition set_tc_Prometheus (c : TmConfig) : TmConfig :=
  mkTmConfig (tc_FastSyncMode c) (tc_RootDir c) (tc_LogLevel c) (tc_RPCListen c) (tc_P2PListen c)
    (tc_AllowDuplicateIP c) (tc_AddrBookStrict c) (tc_ExternalAddress c) (tc_Seeds c) (tc_PersistentPeers c)
    (tc_SeedMode c) (tc_CORSAllowedOrigins c) (tc_TimeoutProposeDelta c) (tc_TimeoutPropose c)
    (tc_TimeoutPrevoteDelta c) (tc_TimeoutPrevote c) (tc_TimeoutPrecommitDelta c) (tc_TimeoutPrecommit c)
    (tc_TimeoutCommit c) (tc_IndexAllKeys c) (tc_MempoolSize c) (tc_Recheck c) (tc_DBBackend c) (tc_Genesis c) true.

(** The key of a validator ([privval.FilePVKey]). *)
Record FilePV := mkFilePV { pv_Address : bytes; pv_PubKey : bytes; pv_PrivKey : bytes }.

(** Tendermint: the default configuration, the paths of its files, the keys it
    loads or generates (their JSON files), and the construction of a node. *)
Class TendermintLib := {
  tm_DefaultConfig : TmConfig;
  tm_rootify : string → string → string;
  tm_ValidateBasic : TmConfig → res ();
  tm_ParseLogLevel : string → res ();
  tm_CLevelDB : bool;
  LoadOrGenFilePV : string → string → FS → FilePV * FS;
  FilePV_Save : FilePV → string → string → FS → FS;
  LoadOrGenNodeKey : string → FS → res bytes * FS;
  ed25519_PubKey : bytes → bytes;
  amino_NodeKey : bytes → res bytes;
  amino_FilePVKey : FilePV → res bytes;
  json_aminoKeyFile : bytes → res (string * string);
  (** [NewBaseApplication]: the databases of the state, below a directory. *)
  open_state : string → FS → res () * FS;
  tm_Node : Type;
  node_Start : tm_Node → res ();
  nm_NewNode : TmConfig → FilePV → bytes → FS → res tm_Node }.

Section startup.
Context `{CryptoLib} `{TendermintLib}.

(** [cfg.GenesisFile()] and the like: the path below the root directory unless
    it is absolute. *)
Definition GenesisFile (c : TmConfig) : string := tm_rootify (tc_Genesis c) (tc_RootDir c).
Definition PrivValidatorKeyFile (c : TmConfig) : string := tm_rootify "config/priv_validator_key.json" (tc_RootDir c).
Definition PrivValidatorStateFile (c : TmConfig) : string := tm_rootify "data/priv_validator_state.json" (tc_RootDir c).
Definition NodeKeyFile (c : TmConfig) : string := tm_rootify "config/node_key.json" (tc_RootDir c).

(** ** Keys *)

(** [copy] into an array of 64 bytes: the array, and how many were copied. *)
Definition to_array64 (b : bytes) : bytes := take 64 b ++ replicate (64 - length b) Byte.x00.
Definition copied64 (b : bytes) : Z := Z.min 64 (glen b).

Definition NewPrivateValidator (tmPrivKey : string) (tconfig : TmConfig) : MF FilePV :=
  pv ← (λ s, let '(pv, s') := LoadOrGenFilePV (PrivValidatorKeyFile tconfig) (PrivValidatorStateFile tconfig) s
             in (Ok pv, s')) : MF FilePV;
  if decide (0 < slen tmPrivKey) then
    keyBytes ← lift (or_err "cannot decode private key" (hex_DecodeString (TrimHex tmPrivKey)));
    _ ← lift (guard_err (bool_decide (copied64 keyBytes ≠ 64)) "incorrect private key lenght");
    let privKey := to_array64 keyBytes in
    mret (mkFilePV (tm_Address (ed25519_PubKey privKey)) (ed25519_PubKey privKey) privKey)
  else mret pv.

(** The length of the key is not checked. *)
Definition NewNodeKey (tmPrivKey : string) (tconfig : TmConfig) : MF bytes :=
  keyBytes ← lift (or_err "cannot decode private key" (hex_DecodeString (TrimHex tmPrivKey)));
  let privKey := to_array64 keyBytes in
  jsonBytes ← lift (amino_NodeKey privKey);
  _ ← WriteFile (NodeKeyFile tconfig) jsonBytes;
  mret privKey.

Definition HexKeyToAmino (hexKey : string) : res (string * string) :=
  key ← hex_DecodeString (TrimHex hexKey);
  _ ← guard_err (bool_decide (copied64 key ≠ 64)) "incorrect private key lenght";
  let privKey := to_array64 key in
  jsonBytes ← or_err "cannot encode key to amino"
    (amino_FilePVKey (mkFilePV (tm_Address (ed25519_PubKey privKey)) (ed25519_PubKey privKey) privKey));
  json_aminoKeyFile jsonBytes.

(** ** The node *)

(** The cutset of the quotes and brackets around a list of addresses. *)
Definition list_marks : bytes := [Byte.x5b; Byte.x5d; Byte.x22].
Definition joined (l : list string) : string := strings_Trim (strings_Join l ",") list_marks.
Definition seeds_of (Genesis : gmap string VochainGenesis) (cfg : VochainCfg) (default_seeds : string) : string :=
  if vc_CreateGenesis cfg then default_seeds
  else
    let seeds := joined (vc_Seeds cfg) in
    match Genesis !! vc_Chain cfg with
    | Some g => if bool_decide (slen seeds < 8) && negb (vc_SeedMode cfg)
                then strings_Join (vg_SeedNodes g) "," else seeds
    | None => seeds
    end.

(** The configuration, up to the path of the genesis. *)
Definition node_config (Genesis : gmap string VochainGenesis) (cfg : VochainCfg) : TmConfig :=
  let d := tm_DefaultConfig in
  mkTmConfig true (vc_DataDir cfg) (vc_LogLevel cfg)
    ("tcp://" +:+ vc_RPCListen cfg) ("tcp://" +:+ vc_P2PListen cfg)
    (vc_Dev cfg) (negb (vc_Dev cfg)) (vc_PublicAddr cfg)
    (seeds_of Genesis cfg (tc_Seeds d))
    (match vc_Peers cfg with [] => tc_PersistentPeers d | peers => joined peers end)
    (vc_SeedMode cfg) ["*"]
    500 6000 500 1000 500 1000 10000
    true (vc_MempoolSize cfg) false
    (if tm_CLevelDB then "cleveldb" else tc_DBBackend d) (tc_Genesis d) (tc_Prometheus d).
Definition genesis_path (cfg : VochainCfg) (tconfig : TmConfig) (cwd : string) : string :=
  if negb (bool_decide (vc_Genesis cfg = "")) && negb (vc_CreateGenesis cfg)
  then abs cwd (vc_Genesis cfg) else GenesisFile tconfig.

(** The key of the validator, which is written back, and the key of the node. *)
Definition node_keys (cfg : VochainCfg) (tconfig : TmConfig) : MF (FilePV * bytes) :=
  pv ← (λ s, let '(r, s') := NewPrivateValidator (vc_MinerKey cfg) tconfig s in
             (or_err "cannot create validator key and state" r, s')) : MF FilePV;
  _ ← modify (FilePV_Save pv (PrivValidatorKeyFile tconfig) (PrivValidatorStateFile tconfig));
  _ ← lift (HexKeyToAmino (sprintf_x (pv_PrivKey pv)));
  nodeKey ←
    (if decide (0 < slen (vc_NodeKey cfg)) then NewNodeKey (vc_NodeKey cfg) tconfig
     else LoadOrGenNodeKey (NodeKeyFile tconfig) : MF bytes);
  mret (pv, nodeKey).

(** The call of [NewNode] sees the files as they are then. *)
Definition newTendermint (Genesis : gmap string VochainGenesis) (cfg : VochainCfg) (genesis : bytes) : MF tm_Node :=
  s ← get_st;
  let tconfig := node_config Genesis cfg in
  let tconfig := set_tc_Genesis (genesis_path cfg tconfig (fs_Cwd s)) tconfig in
  _ ← lift (or_err "config is invalid" (tm_ValidateBasic tconfig));
  _ ← lift (or_err "failed to parse log level" (tm_ParseLogLevel (tc_LogLevel tconfig)));
  keys ← node_keys cfg tconfig;
  s ← get_st;
  _ ← (if FileExists (tc_Genesis tconfig) s then mret () else WriteFile (tc_Genesis tconfig) genesis);
  let tconfig := if vc_TendermintMetrics cfg then set_tc_Prometheus tconfig else tconfig in
  reads (λ s, or_err "failed to create new Tendermint node" (nm_NewNode tconfig keys.1 keys.2 s)).

(** Every error is fatal. *)
Definition fatal_fs {A} (m : MF A) : MF A := λ s,
  match m s with (Err e, s') => (Panic e, s') | r => r end.
Definition NewVochain (Genesis : gmap string VochainGenesis) (cfg : VochainCfg) (genesis : bytes) : MF tm_Node :=
  _ ← fatal_fs (open_state (vc_DataDir cfg +:+ "/data"));
  node ← fatal_fs (newTendermint Genesis cfg genesis);
  _ ← fatal_fs (lift (node_Start node));
  mret node.

(** ** The genesis of the service *)

(** The hardcoded document of a network; the zero value if it is unknown. *)
Definition hardcoded (Genesis : gmap string VochainGenesis) (chain : string) : VochainGenesis :=
  default zero_VochainGenesis (Genesis !! chain).
Definition known_genesis (Genesis : gmap string VochainGenesis) (chain : string) : res bytes :=
  match Genesis !! chain with
  | Some g => Ok (s2b (vg_Genesis g))
  | None => Err "cannot find a valid genesis for the network"
  end.
Definition local_genesis (cfg : VochainCfg) : string := vc_DataDir cfg +:+ "/config/genesis.json".
Definition choose_genesis (Genesis : gmap string VochainGenesis) (cfg : VochainCfg) : MF bytes :=
  if decide (0 < slen (vc_Genesis cfg)) then ReadFile (vc_Genesis cfg)
  else
    r ← try_ (ReadFile (local_genesis cfg));
    match r with
    | Ok genesisBytes =>
        let g := hardcoded Genesis (vc_Chain cfg) in
        if bool_decide (genesisBytes = s2b (vg_Genesis g)) then mret genesisBytes
        else if vg_AutoUpdateGenesis g || vc_Dev cfg then
          _ ← RemoveAll (vc_DataDir cfg);
          lift (known_genesis Genesis (vc_Chain cfg))
        else mret genesisBytes
    | Err err =>
        if os_IsNotExist err then lift (known_genesis Genesis (vc_Chain cfg)) else lift (Err err)
    | Panic w => lift (Panic w)
    end.
(** The service: the genesis, the metrics flag and the node. *)
Definition set_vc_TendermintMetrics (c : VochainCfg) : VochainCfg :=
  mkVochainCfg (vc_Chain c) (vc_Dev c) (vc_LogLevel c) (vc_LogOutput c) (vc_RPCListen c) (vc_P2PListen c)
    (vc_PublicAddr c) (vc_DataDir c) (vc_Genesis c) (vc_CreateGenesis c) (vc_Peers c) (vc_Seeds c) (vc_SeedMode c)
    (vc_MinerKey c) (vc_NodeKey c) (vc_NoWaitSync c) (vc_SaveConfig c) (vc_MempoolSize c) (vc_KeyKeeperIndex c)
    (vc_ImportPreviousCensus c) true.
Definition start_node (Genesis : gmap string VochainGenesis) (metrics : bool) (cfg : VochainCfg) : MF tm_Node :=
  genesisBytes ← choose_genesis Genesis cfg;
  NewVochain Genesis (if metrics then set_vc_TendermintMetrics cfg else cfg) genesisBytes.
End startup.

(** ** The genesis of a new network *)

(** The document; the consensus parameters are passed through. *)
Record GenesisDoc := mkGenesisDoc {
  gd_ChainID : string; gd_GenesisTime : Z; gd_ConsensusParams : bytes;
  gd_Validators : list GenesisValidator; gd_AppState : bytes }.
(** The amino codec on the two values, and [FilePV.GetPubKey]. *)
Class GenesisCodec := {
  amino_AppState : GenesisAppState → res bytes;
  amino_GenesisDoc : GenesisDoc → res bytes;
  GenesisDocFromJSON : bytes → res GenesisDoc;
  pv_GetPubKey : FilePV → res bytes }.

Section new_genesis.
Context `{GenesisCodec}.
(** [rand] is the source of the names, [now] the time. *)
Definition genesis_validator (rand : nat → Z) (idx : nat) (val : FilePV) : res GenesisValidator :=
  pubk ← pv_GetPubKey val;
  Ok (mkGenesisValidator (pv_Address val) pubk 10 (pretty (rand idx))).
Definition NewGenesis (chainID : string) (consensusParams : bytes) (validators : list FilePV)
    (oracles : list string) (rand : nat → Z) (now : Z) : res bytes :=
  vals ← mapM (λ v, genesis_validator rand v.1 v.2) (imap pair validators);
  appStateBytes ← amino_AppState (mkGenesisAppState vals oracles);
  amino_GenesisDoc (mkGenesisDoc chainID now consensusParams vals appStateBytes).
End new_genesis.
