(* ===== verification/StartupFacts.v ===== *)
(** * Facts about the start of a node

    The genesis that the service chooses is the one Tendermint is given, and
    the genesis of a new network makes the given accounts its oracles. *)

From stdpp Require Import base gmap strings pretty list fin_maps.
From Stdlib Require Import ZArith Lia.
From S2P Require Import Prelude GoLib Types StateDB Crypto IavlState Codec State Transaction App Genesis Concrete Safety Startup.
Open Scope Z_scope.

(** What the start relies on: the path of a file is the given one if it is
    absolute, the default genesis is [config/genesis.json], and the keys are
    written to their own files only. *)
Definition only_files (ps : list string) (s s' : FS) : Prop :=
  fs_Cwd s' = fs_Cwd s ∧ fs_Denied s' = fs_Denied s ∧
  ∀ p, p ∉ map (abs (fs_Cwd s)) ps → fs_Files s' !! p = fs_Files s !! p.
Class TendermintLaws `{TendermintLib} := {
  law_rootify_abs p root : HasPrefix p "/" = true → tm_rootify p root = p;
  law_default_genesis : tc_Genesis tm_DefaultConfig = "config/genesis.json";
  law_LoadOrGenFilePV k st s : only_files [k; st] s (LoadOrGenFilePV k st s).2;
  law_FilePV_Save pv k st s : only_files [k; st] s (FilePV_Save pv k st s);
  law_LoadOrGenNodeKey f s : only_files [f] s (LoadOrGenNodeKey f s).2;
  law_open_state dir s : let s' := (open_state dir s).2 in
    fs_Cwd s' = fs_Cwd s ∧ fs_Denied s' = fs_Denied s ∧
    ∀ p, under (abs (fs_Cwd s) dir) p = false → fs_Files s' !! p = fs_Files s !! p }.

Section start.
Context `{CryptoLib} `{TendermintLaws}.

(** The file [p] and the ways to reach it are the same. *)
Definition same_at (cwd p : string) (s s' : FS) : Prop := fs_Cwd s = cwd →
  fs_Cwd s' = cwd ∧ fs_Denied s' = fs_Denied s ∧ fs_Files s' !! p = fs_Files s !! p.
#[local] Instance same_at_refl cwd p : Reflexive (same_at cwd p).
Proof. by intros s. Qed.
#[local] Instance same_at_trans cwd p : Transitive (same_at cwd p).
Proof. intros s1 s2 s3 H12 H23 Hc. destruct (H12 Hc) as (C & <- & <-). by apply H23. Qed.
Lemma only_files_same_at cwd p ps s s' : only_files ps s s' → p ∉ map (abs cwd) ps → same_at cwd p s s'.
Proof. intros (C & D & F) Hp <-. by rewrite C, D, F. Qed.

Lemma stays_WriteFile cwd p path data : p ≠ abs cwd path → stays (same_at cwd p) (WriteFile path data).
Proof.
  intros Hp. apply stays_updates; [typeclasses eauto|]. intros s s'. case_match; [done|]. intros [= <-] Hc. simpl.
  rewrite Hc. by rewrite lookup_insert_ne.
Qed.

(** The files of the keys. *)
Definition key_files (c : TmConfig) : list string :=
  [PrivValidatorKeyFile c; PrivValidatorStateFile c; NodeKeyFile c].

Lemma stays_node_keys cwd p cfg c : p ∉ map (abs cwd) (key_files c) → stays (same_at cwd p) (node_keys cfg c).
Proof.
  intros Hp. unfold key_files in Hp. cbn [map] in Hp. unfold node_keys. stays_tac.
  - intros s. assert (stays (same_at cwd p) (NewPrivateValidator (vc_MinerKey cfg) c)) as Hv.
    { unfold NewPrivateValidator. stays_tac. intros s0.
      pose proof (law_LoadOrGenFilePV (PrivValidatorKeyFile c) (PrivValidatorStateFile c) s0) as Hl.
      destruct (LoadOrGenFilePV _ _ s0). eapply only_files_same_at; [exact Hl|set_solver]. }
    specialize (Hv s). by destruct (NewPrivateValidator _ _ s).
  - eapply only_files_same_at; [apply law_FilePV_Save|set_solver].
  - unfold NewNodeKey. stays_tac. apply stays_WriteFile. set_solver.
  - intros s. eapply only_files_same_at; [apply law_LoadOrGenNodeKey|set_solver].
Qed.

Lemma HasPrefix_spec s p : HasPrefix s p = true ↔ ∃ r, s = p +:+ r.
Proof.
  unfold HasPrefix. revert s. induction p as [|c p IH]; intros s.
  - split; [by exists s|by destruct s].
  - split.
    + destruct s as [|c' s]; [done|]. change (String.prefix (String c p) (String c' s))
        with (if Ascii.ascii_dec c c' then String.prefix p s else false).
      destruct (Ascii.ascii_dec c c') as [->|]; [|done]. intros (r & ->)%IH. by exists r.
    + intros [r ->]. change (String.prefix (String c p) (String c p +:+ r))
        with (if Ascii.ascii_dec c c then String.prefix p (p +:+ r) else false).
      destruct (Ascii.ascii_dec c c); [|done]. apply IH. by exists r.
Qed.
Lemma string_app_assoc (a b c : string) : (a +:+ b) +:+ c = a +:+ b +:+ c.
Proof. induction a as [|x a IH]; [done|]. apply (f_equal (String x) IH). Qed.
Lemma prefix_app a b p : HasPrefix a p = true → HasPrefix (a +:+ b) p = true.
Proof. rewrite !HasPrefix_spec. intros [r ->]. exists (r +:+ b). apply string_app_assoc. Qed.
Lemma abs_abs cwd path : HasPrefix path "/" = true → abs cwd path = path.
Proof. unfold abs. by intros ->. Qed.
Lemma abs_prefix cwd path : HasPrefix cwd "/" = true → HasPrefix (abs cwd path) "/" = true.
Proof. intros Hc. unfold abs. destruct (HasPrefix path "/") eqn:E; [done|by apply prefix_app]. Qed.

(** What is read back once the document has been written if there was none. *)
Lemma write_if_missing path g s r s' : HasPrefix path "/" = true →
  (if FileExists path s then mret () else WriteFile path g) s = (r, s') →
  (ReadFile_fs s path = Ok g ∨ ReadFile_fs s path = Err ErrNotExist) → ReadFile_fs s' path = Ok g.
Proof.
  intros Hp. unfold FileExists. intros Hw [Hr|Hr]; rewrite Hr in Hw; simpl in Hw; [by injection Hw as _ <-|].
  unfold ReadFile_fs, WriteFile, updates in *. case_match eqn:Hd; [done|]. injection Hw as _ <-. 
  unfold denied in *. simpl. rewrite Hd. by rewrite lookup_insert_eq.
Qed.
Lemma same_at_read cwd path s s' : HasPrefix path "/" = true → fs_Cwd s = cwd → same_at cwd path s s' →
  ReadFile_fs s' path = ReadFile_fs s path.
Proof.
  intros Hp Hc Hs. destruct (Hs Hc) as (C & D & F). unfold ReadFile_fs, denied. rewrite C, D, Hc, abs_abs, F by done. done.
Qed.

(** The document under the path that Tendermint is given. *)
Lemma newTendermint_reads G cfg g s node s' : HasPrefix (fs_Cwd s) "/" = true →
  let tc := node_config G cfg in
  let path := genesis_path cfg tc (fs_Cwd s) in
  HasPrefix path "/" = true → path ∉ map (abs (fs_Cwd s)) (key_files tc) →
  (ReadFile_fs s path = Ok g ∨ ReadFile_fs s path = Err ErrNotExist) →
  newTendermint G cfg g s = (Ok node, s') →
  ∃ c pv nk, nm_NewNode c pv nk s' = Ok node ∧ GenesisFile c = path ∧ ReadFile_fs s' path = Ok g.
Proof.
  intros Hc tc path Hp Hk Hr Hn. unfold newTendermint in Hn. go_inv Hn. fold tc in Hrun, Hrun0, H4.
  fold path in Hrun, Hrun0, H4. cbn [tc_Genesis set_tc_Genesis] in Hrun0.
  assert (same_at (fs_Cwd s0) path s0 a0) as Hs by (eapply stays_run, Hrun; by apply stays_node_keys).
  rewrite <- (same_at_read _ _ _ _ Hp eq_refl Hs) in Hr.
  match type of H4 with or_err _ ?x = _ => destruct x eqn:En; simplify_eq/= end.
  eexists _, a.1, a.2. split_and!; [exact En| |by eapply write_if_missing].
  unfold GenesisFile. destruct (vc_TendermintMetrics cfg); by apply law_rootify_abs.
Qed.

(** The root directory is given in a form that [filepath.Join] leaves as it
    is. *)
Definition clean_dir (dir : string) : Prop :=
  HasPrefix dir "/" = true ∧
  ∀ rel, HasPrefix rel "/" = false → tm_rootify rel dir = dir +:+ "/" +:+ rel.

Lemma string_app_inj (a b c : string) : a +:+ b = a +:+ c → b = c.
Proof. induction a; [done|]. intros [= E]. auto. Qed.

Lemma local_genesis_path G cfg cwd : clean_dir (vc_DataDir cfg) → vc_Genesis cfg = "" →
  let tc := node_config G cfg in
  genesis_path cfg tc cwd = local_genesis cfg ∧ HasPrefix (local_genesis cfg) "/" = true ∧
  local_genesis cfg ∉ map (abs cwd) (key_files tc).
Proof.
  intros [Ha Hd] Hg tc. assert (HasPrefix (local_genesis cfg) "/" = true) as Hl by (by apply prefix_app).
  split_and!; [|done|].
  - unfold genesis_path. rewrite Hg. cbn. unfold GenesisFile. cbn. rewrite law_default_genesis. by apply Hd.
  - unfold key_files, PrivValidatorKeyFile, PrivValidatorStateFile, NodeKeyFile. cbn [map tc node_config tc_RootDir].
    rewrite !Hd by done. unfold local_genesis.
    rewrite !abs_abs by (by apply prefix_app).
    rewrite !not_elem_of_cons. split_and!; [..|apply not_elem_of_nil]; intros E%string_app_inj; discriminate E.
Qed.

Lemma local_genesis_not_data cfg cwd : HasPrefix (vc_DataDir cfg) "/" = true →
  under (abs cwd (vc_DataDir cfg +:+ "/data")) (local_genesis cfg) = false.
Proof.
  intros Hd. rewrite abs_abs by (by apply prefix_app). unfold under, local_genesis. apply orb_false_intro.
  - apply bool_decide_eq_false_2. intros E%string_app_inj. discriminate E.
  - apply not_true_iff_false. rewrite HasPrefix_spec. intros [r E]. revert E.
    rewrite !string_app_assoc. intros E%string_app_inj. discriminate E.
Qed.

(** ** The genesis that is chosen *)

(** The document under the path of the genesis, when there is one, is the one
    that was chosen. *)
Definition settled (path : string) (g : bytes) (s : FS) : Prop :=
  ReadFile_fs s path = Ok g ∨ ReadFile_fs s path = Err ErrNotExist.
Lemma RemoveAll_gone dir path s s' b : HasPrefix dir "/" = true → HasPrefix path "/" = true →
  RemoveAll dir s = (Ok (), s') → under dir path = true → ReadFile_fs s path = Ok b →
  fs_Cwd s' = fs_Cwd s ∧ ReadFile_fs s' path = Err ErrNotExist.
Proof.
  intros Hd Hp. unfold RemoveAll, updates, ReadFile_fs. destruct (denied s dir); [done|].
  intros [= <-] Hu. destruct (denied s path) eqn:Ed; [done|]. intros _. split; [done|].
  unfold denied in *. cbn in *. rewrite Ed. rewrite !abs_abs in * by done.
  rewrite map_lookup_filter_None_2; [done|]. right. intros x _. cbn. by rewrite Hu.
Qed.
Lemma choose_genesis_settled G cfg s g s1 : HasPrefix (vc_DataDir cfg) "/" = true → vc_Genesis cfg = "" →
  choose_genesis G cfg s = (Ok g, s1) → fs_Cwd s1 = fs_Cwd s ∧ settled (local_genesis cfg) g s1.
Proof.
  intros Hd Hg. unfold choose_genesis. rewrite Hg, decide_False by done. intros Hc. go_inv Hc.
  unfold try_, ReadFile, reads in Hrun.
  destruct (ReadFile_fs s (local_genesis cfg)) as [b|e|w] eqn:Er; [|..|done]; injection Hrun as <- <-.
  - case_bool_decide; [|destruct (_ || _)].
    + injection Hc as <- <-. split; [done|by left].
    + go_inv Hc. destruct (RemoveAll_gone (vc_DataDir cfg) (local_genesis cfg) s s1 b) as [C E]; try done.
      * by apply prefix_app.
      * unfold under. apply orb_true_intro. right. rewrite HasPrefix_spec. exists "config/genesis.json".
        by rewrite string_app_assoc.
      * split; [done|by right].
    + injection Hc as <- <-. split; [done|by left].
  - destruct (os_IsNotExist e) eqn:Ee; [|done]. injection Hc as _ <-. split; [done|]. right.
    unfold os_IsNotExist in Ee. go_bool. by subst.
Qed.
Lemma choose_genesis_custom G cfg s g s1 : vc_Genesis cfg ≠ "" → HasPrefix (fs_Cwd s) "/" = true →
  choose_genesis G cfg s = (Ok g, s1) → s1 = s ∧ settled (abs (fs_Cwd s) (vc_Genesis cfg)) g s1.
Proof.
  intros Hg Hc. unfold choose_genesis. rewrite decide_True.
  2:{ unfold slen. destruct (vc_Genesis cfg); [done|]. cbn [String.length]. lia. }
  intros [= Hr <-]. split; [done|]. left. revert Hr. unfold ReadFile_fs, denied.
  by rewrite (abs_abs _ (abs _ _)) by (by apply abs_prefix).
Qed.

(** On a known network that updates its genesis (or in development mode) the
    hardcoded document is the one that is chosen. *)
Lemma choose_genesis_hardcoded G cfg s g s1 v : vc_Genesis cfg = "" → G !! vc_Chain cfg = Some v →
  vg_AutoUpdateGenesis v || vc_Dev cfg = true → choose_genesis G cfg s = (Ok g, s1) → g = s2b (vg_Genesis v).
Proof.
  intros Hg HG Ha. unfold choose_genesis. rewrite Hg, decide_False by done. intros Hc. go_inv Hc.
  unfold hardcoded, known_genesis in Hc. rewrite HG in Hc. cbn [default from_option id] in Hc. rewrite Ha in Hc.
  destruct a as [b|e|w]; [case_bool_decide|case_match|]; try (go_inv Hc; congruence).
  all: unfold mret, GM_ret, lift in Hc; congruence.
Qed.

(** A custom genesis is neither a file of the keys nor of the databases. *)
Definition separate (cfg : VochainCfg) (cwd : string) (tc : TmConfig) : Prop :=
  let path := abs cwd (vc_Genesis cfg) in
  path ∉ map (abs cwd) (key_files tc) ∧ under (abs cwd (vc_DataDir cfg +:+ "/data")) path = false.

Lemma chosen_settled G cfg s g s1 : HasPrefix (fs_Cwd s) "/" = true → clean_dir (vc_DataDir cfg) →
  (vc_Genesis cfg = "" ∨ vc_CreateGenesis cfg = false ∧ separate cfg (fs_Cwd s) (node_config G cfg)) →
  choose_genesis G cfg s = (Ok g, s1) →
  let path := genesis_path cfg (node_config G cfg) (fs_Cwd s) in
  fs_Cwd s1 = fs_Cwd s ∧ HasPrefix path "/" = true ∧ path ∉ map (abs (fs_Cwd s)) (key_files (node_config G cfg)) ∧
  under (abs (fs_Cwd s) (vc_DataDir cfg +:+ "/data")) path = false ∧ settled path g s1.
Proof.
  intros Hc Hd Hg Hch. destruct (decide (vc_Genesis cfg = "")) as [He|He].
  - destruct (local_genesis_path G cfg (fs_Cwd s) Hd He) as (-> & Hp & Hk).
    destruct (choose_genesis_settled G cfg s g s1 (proj1 Hd) He Hch) as [C S].
    split_and!; try done. apply local_genesis_not_data, Hd.
  - destruct Hg as [?|(Hcg & Hk & Hu)]; [done|].
    destruct (choose_genesis_custom G cfg s g s1 He Hc Hch) as [-> S].
    unfold genesis_path. rewrite bool_decide_eq_false_2, Hcg by done. cbn.
    split_and!; try done. by apply abs_prefix.
Qed.

Lemma NewVochain_reads G cfg g s node s' : HasPrefix (fs_Cwd s) "/" = true →
  let tc := node_config G cfg in
  let path := genesis_path cfg tc (fs_Cwd s) in
  HasPrefix path "/" = true → path ∉ map (abs (fs_Cwd s)) (key_files tc) →
  under (abs (fs_Cwd s) (vc_DataDir cfg +:+ "/data")) path = false → settled path g s →
  NewVochain G cfg g s = (Ok node, s') →
  ∃ c pv nk, nm_NewNode c pv nk s' = Ok node ∧ GenesisFile c = path ∧ ReadFile_fs s' path = Ok g.
Proof.
  intros Hc tc path Hp Hk Hu Hs Hn. unfold NewVochain in Hn. go_inv Hn. unfold fatal_fs in *.
  destruct (law_open_state (vc_DataDir cfg +:+ "/data") s) as (C & D & F).
  destruct (open_state _ s) as [[[]|e|w] sx]; simplify_eq/=.
  assert (same_at (fs_Cwd s) path s s0) as Hsame by (intros _; split_and!; auto).
  unfold settled in Hs. rewrite <- (same_at_read _ _ _ _ Hp eq_refl Hsame) in Hs.
  destruct (newTendermint G cfg g s0) as [[n|e|w] s2] eqn:En; simplify_eq/=.
  destruct (node_Start node); simplify_eq/=.
  unfold path, tc in *. rewrite <- C in *. by apply (newTendermint_reads G cfg g s0 node s').
Qed.


(** In development mode the data directory is removed before the network is
    looked up: with a name that is not in the table nothing is left of an
    earlier run, and the node does not start. *)
Lemma unknown_network_wiped G cfg s g : vc_Genesis cfg = "" → G !! vc_Chain cfg = None → vc_Dev cfg = true →
  ReadFile_fs s (local_genesis cfg) = Ok g → g ≠ [] → denied s (vc_DataDir cfg) = false →
  choose_genesis G cfg s = (Err "cannot find a valid genesis for the network",
    set_fs_Files (filter (λ f, under (abs (fs_Cwd s) (vc_DataDir cfg)) f.1 = false) (fs_Files s)) s).
Proof.
  intros Hg HG Hdev Hr Hne Hd. unfold choose_genesis. rewrite Hg, decide_False by done.
  rewrite GM_run. unfold try_, ReadFile, reads. rewrite Hr. unfold hardcoded, known_genesis. rewrite HG. cbn.
  rewrite bool_decide_eq_false_2 by done. rewrite Hdev. rewrite GM_run. unfold RemoveAll, updates. by rewrite Hd.
Qed.
End start.

(** ** A new network *)

(** What is encoded is decoded: the document by Tendermint, the application
    state by the application. *)
Class GenesisCodecLaws `{GenesisCodec} `{GenesisJSON} := {
  law_AppState g b : amino_AppState g = Ok b → json_GenesisAppState b = Ok g;
  law_GenesisDoc d b : amino_GenesisDoc d = Ok b → GenesisDocFromJSON b = Ok d }.

(** What a list of members becomes. *)
Section members.
Context `{CryptoLib}.
Lemma foldl_add_oracle os l a : a ∈ foldl add_oracle l os ↔ a ∈ l ∨ a ∈ map TrimHex os.
Proof.
  revert l. induction os as [|o os IH]; intros l; cbn [foldl map]; [set_solver|].
  rewrite IH. unfold add_oracle. case_decide; set_solver.
Qed.
(** A validator of the list with the address of the key and the given power. *)
Definition seated (power : Z) (pk : bytes) (l : list GenesisValidator) : Prop :=
  ∃ w, w ∈ l ∧ tm_HexString (tm_Address (gv_PubKey w)) = tm_HexString (tm_Address pk) ∧ gv_Power w = power.
Definition add_all (l vs : list GenesisValidator) : list GenesisValidator :=
  foldl (λ l v, add_validator l (gv_PubKey v) (gv_Power v)) l vs.
Lemma add_all_seated power vs l : Forall (λ w, gv_Power w = power) l → Forall (λ v, gv_Power v = power) vs →
  (∀ pk, seated power pk l → seated power pk (add_all l vs)) ∧
  Forall (λ v, seated power (gv_PubKey v) (add_all l vs)) vs.
Proof.
  unfold add_all. revert l. induction vs as [|v vs IH]; intros l Hl Hv; [by split|].
  apply Forall_cons_1 in Hv as [Hv Hvs]. cbn [foldl]. set (l' := add_validator l (gv_PubKey v) (gv_Power v)).
  assert (Forall (λ w, gv_Power w = power) l' ∧ seated power (gv_PubKey v) l' ∧ ∀ w, w ∈ l → w ∈ l') as (Hl' & Hs & Hsub).
  { unfold l', add_validator, has_validator. destruct (existsb _ l) eqn:Ee.
    - split_and!; [done| |done]. apply existsb_exists in Ee as (w & Hw & E). go_bool.
      apply list_elem_of_In in Hw. exists w. split_and!; [done|done|by eapply Forall_forall in Hl].
    - rewrite Hv. split_and!; [apply Forall_app; split; [done|by repeat constructor]| |set_solver].
      eexists. split; [by apply elem_of_app; right; apply list_elem_of_singleton|done]. }
  destruct (IH l' Hl' Hvs) as [Hk Hn]. split; [|constructor; [by apply Hk|done]].
  intros pk (w & Hw & E). apply Hk. exists w. split; [by apply Hsub|done].
Qed.
End members.

Section new_network.
Context {mtree itree L : Type} `{IavlLaws mtree itree} `{AminoLaws} `{CryptoLib} `{TxJSON}
        `{GenesisCodecLaws} `{!EventListener (@IavlState mtree itree) L}.

Lemma genesis_validators rand n vs vals :
  mapM (λ v, genesis_validator rand v.1 v.2) (imap (λ i v, (n + i, v))%nat vs) = Ok vals →
  Forall2 (λ v w, pv_GetPubKey v = Ok (gv_PubKey w) ∧ gv_Power w = 10) vs vals.
Proof.
  revert n vals. induction vs as [|v vs IH]; intros n vals Hm; [by injection Hm as <-|].
  cbn [imap mapM] in Hm. go_inv Hm. unfold genesis_validator in Hrun. go_inv Hrun. constructor; [done|].
  apply (IH (S n)). rewrite <- Hrun0. f_equal. apply imap_ext. intros. cbn. f_equal. lia.
Qed.

(** A network starts with the oracles and the validators it was created
    with.  Whatever the codec does between the two, when the document that
    [NewGenesis] made is given to a node started on an empty directory, the
    committed state after [InitChain] has exactly the given accounts as
    oracles (without their prefix), and a validator of power 10 for each of
    the given keys. *)
Theorem new_network_members dir chain params validators oracles rand now b doc s0 (s1 : State _ L) r s2 :
  NewGenesis chain params validators oracles rand now = Ok b → GenesisDocFromJSON b = Ok doc →
  empty_dir (mtree := mtree) dir → NewState dir = Ok s0 → Store s1 = Store s0 →
  InitChain (gd_AppState doc) s1 = (r, s2) →
  ∃ os vs, or_nil (Oracles (Store s2) true) = Ok os ∧ (∀ a, a ∈ os ↔ a ∈ map TrimHex oracles) ∧
    or_nil (Validators (Store s2) true) = Ok vs ∧
    Forall (λ v, ∃ pk, pv_GetPubKey v = Ok pk ∧ seated 10 pk vs) validators.
Proof.
  intros Hg Hdoc Hd Hn Hs Hi. unfold NewGenesis in Hg. go_inv Hg. rename a into vals, a0 into app.
  apply law_GenesisDoc in Hg. rewrite Hdoc in Hg. injection Hg as ->. cbn in Hi. apply law_AppState in Hrun0.
  apply (genesis_validators rand 0) in Hrun.
  destruct (NewState_blank dir Hd) as (s0' & Hn' & Hb & _). assert (s0' = s0) as -> by congruence.
  rewrite <- Hs in Hb. destruct (InitChain_store s1 app (mkGenesisAppState vals oracles) Hb) as (_ & Ho & Hv & _).
  { unfold genesis_state. by rewrite Hrun0. }
  rewrite Hi in Ho, Hv. cbn in Ho, Hv. eexists _, _. split_and!; [exact Ho| |exact Hv|].
  - intros a. rewrite foldl_add_oracle. set_solver.
  - destruct (add_all_seated 10 vals []) as [_ Hseat]; [done|..].
    { clear -Hrun. induction Hrun as [|v w ? ? []]; by constructor. }
    fold (add_all [] vals). clear -Hrun Hseat. revert Hseat. generalize (add_all [] vals). intros l Hl.
    induction Hrun as [|v w ? ? [Hp _]]; [done|]. apply Forall_cons_1 in Hl as [Hl ?].
    constructor; [by exists (gv_PubKey w)|auto].
Qed.
End new_network.

(** ** A node that is restarted, and a network with one oracle *)
Section witness.
(** The keys are constants, and a node is the genesis it has read. *)
Definition put_files (ps : list string) (s : FS) : FS :=
  set_fs_Files (foldr (λ p m, <[abs (fs_Cwd s) p := [Byte.x6b]]> m) (fs_Files s) ps) s.
Definition zero_key : FilePV := mkFilePV [] [] (zeros 64).
#[local] Instance concrete_tendermint : TendermintLib := {|
  tm_DefaultConfig := mkTmConfig false "" "" "" "" false false "" "" "" false [] 0 0 0 0 0 0 0 false 0 false
    "goleveldb" "config/genesis.json" false;
  tm_rootify p root := if HasPrefix p "/" then p else root +:+ "/" +:+ p;
  tm_ValidateBasic _ := Ok ();
  tm_ParseLogLevel _ := Ok ();
  tm_CLevelDB := false;
  LoadOrGenFilePV k st s := (zero_key, put_files [k; st] s);
  FilePV_Save _ k st s := put_files [k; st] s;
  LoadOrGenNodeKey f s := (Ok (zeros 64), put_files [f] s);
  ed25519_PubKey k := drop 32 k;
  amino_NodeKey k := Ok k;
  amino_FilePVKey k := Ok (pv_PrivKey k ++ pv_PubKey k);
  json_aminoKeyFile b := Ok (sprintf_x (take 64 b), sprintf_x (drop 64 b));
  open_state dir s := (Ok (), set_fs_Files (<[abs (fs_Cwd s) dir +:+ "/state" := [Byte.x6b]]> (fs_Files s)) s);
  tm_Node := bytes;
  node_Start _ := Ok ();
  nm_NewNode c _ _ s := ReadFile_fs s (tc_Genesis c) |}.
Lemma put_files_only ps s : only_files ps s (put_files ps s).
Proof.
  split_and!; [done|done|]. intros p. unfold put_files. cbn. induction ps as [|q ps IH]; [done|].
  cbn. rewrite not_elem_of_cons. intros [Hq Hp]. rewrite lookup_insert_ne by done. by apply IH.
Qed.
#[local] Instance concrete_tendermint_laws : TendermintLaws.
Proof.
  split; [by intros p root Hp; cbn; rewrite Hp|done|intros; apply put_files_only..|].
  intros dir s. split_and!; [done|done|]. intros p Hp. cbn. apply lookup_insert_ne. intros <-. revert Hp. unfold under.
  apply not_false_iff_true, orb_true_intro. right. rewrite HasPrefix_spec. exists "state". by rewrite string_app_assoc.
Qed.

(** The directory of a development network whose genesis has changed. *)
Definition dev_networks : gmap string VochainGenesis := {["dev" := mkVochainGenesis [] "new" true]}.
Definition dev_cfg : VochainCfg :=
  mkVochainCfg "dev" false "" "" "" "" "" "/dvote" "" false [] [] false "" "" false false 100 0 false false.
Definition old_files : FS := mkFS {["/dvote/config/genesis.json" := s2b "old"]} ∅ "/".
Definition dev_node : res bytes := (start_node dev_networks true dev_cfg old_files).1.
Lemma dev_node_new : dev_node = Ok (s2b "new").
Proof. vm_compute. reflexivity. Qed.
Lemma clean_dvote : clean_dir "/dvote".
Proof. split; [done|]. intros rel Hr. cbn. by rewrite Hr. Qed.


#[local] Instance concrete_genesis_codec : GenesisCodec := {|
  amino_AppState g := Ok (enc g);
  amino_GenesisDoc d := Ok (enc (gd_ChainID d, gd_GenesisTime d, gd_ConsensusParams d, gd_Validators d, gd_AppState d));
  GenesisDocFromJSON b := '(c, t, p, v, a) ← dec b; Ok (mkGenesisDoc c t p v a);
  pv_GetPubKey v := Ok (pv_PubKey v) |}.
#[local] Instance concrete_genesis_codec_laws : GenesisCodecLaws.
Proof.
  split; [intros g b [= <-]; apply dec_enc|]. intros d b [= <-]. cbn. rewrite dec_enc. by destruct d.
Qed.

Definition new_validators : list GenesisValidator := [mkGenesisValidator [] [] 10 (pretty (Z.of_nat 0))].
Definition new_doc : GenesisDoc :=
  mkGenesisDoc "vocdoni" 0 [] new_validators (enc (mkGenesisAppState new_validators [oracle_addr])).
Definition doc_bytes : bytes :=
  enc (gd_ChainID new_doc, gd_GenesisTime new_doc, gd_ConsensusParams new_doc, gd_Validators new_doc, gd_AppState new_doc).
Lemma new_doc_made : NewGenesis "vocdoni" [] [zero_key] [oracle_addr] Z.of_nat 0 = Ok doc_bytes.
Proof. unfold NewGenesis, doc_bytes. cbn -[enc pretty oracle_addr]. by f_equal. Qed.
Lemma new_network_members_witness : ∃ s0 os vs,
  NewState (mtree := ctree) (itree := citree) "data" = Ok s0 ∧
  let s2 := (InitChain (gd_AppState new_doc) s0).2 in
  or_nil (Oracles (Store s2) true) = Ok os ∧ (∀ a, a ∈ os ↔ a ∈ [oracle_addr]) ∧
  or_nil (Validators (Store s2) true) = Ok vs ∧ seated 10 [] vs.
Proof.
  destruct (NewState_blank (mtree := ctree) (itree := citree) "data" (concrete_empty_dir _)) as (s0 & Hs & _).
  exists s0.
  destruct (InitChain (gd_AppState new_doc) s0) as [r s2] eqn:Ei.
  destruct (new_network_members "data" "vocdoni" [] [zero_key] [oracle_addr] Z.of_nat 0
    doc_bytes new_doc s0 s0 r s2 new_doc_made) as (os & vs & Ho & Hos & Hv & Hvs);
    [unfold doc_bytes; cbn; by rewrite dec_enc|apply concrete_empty_dir|done|done|exact Ei|].
  exists os, vs. split; [done|]. cbn zeta. cbn [snd]. split_and!; [exact Ho|exact Hos|exact Hv|].
  apply Forall_cons_1 in Hvs as [(pk & [= <-] & Hpk) _]. exact Hpk.
Defined.
End witness.
