(* ===== verification/Json.v ===== *)
(** * JSON documents

    A reader for the documents that stand in the source as constants: RFC 8259
    without escape sequences. *)

From stdpp Require Import base strings list.
From Stdlib Require Import ZArith Lia.
From S2P Require Import Prelude GoLib.
Open Scope Z_scope.

Inductive json :=
  | JNull
  | JBool (b : bool)
  | JNumber (text : string)
  | JString (s : string)
  | JArray (l : list json)
  | JObject (l : list (string * json)).
Definition is_space (c : byte) : bool :=
  match c with Byte.x20 | Byte.x09 | Byte.x0a | Byte.x0d => true | _ => false end.
Fixpoint skip_space (l : bytes) : bytes :=
  match l with c :: l' => if is_space c then skip_space l' else l | [] => [] end.
(** Up to the closing quote; an escape sequence or a control character is
    refused. *)
Fixpoint read_string (l : bytes) : option (bytes * bytes) :=
  match l with
  | [] => None
  | Byte.x22 :: l' => Some ([], l')
  | c :: l' =>
      if bool_decide (c = Byte.x5c) || (b2z c <? 32) then None
      else match read_string l' with Some (s, rest) => Some (c :: s, rest) | None => None end
  end.
Definition number_char (c : byte) : bool :=
  let n := b2z c in
  ((48 <=? n) && (n <=? 57)) || match c with Byte.x2b | Byte.x2d | Byte.x2e | Byte.x45 | Byte.x65 => true | _ => false end.
Fixpoint read_number (l : bytes) : bytes * bytes :=
  match l with
  | c :: l' => if number_char c then let '(n, rest) := read_number l' in (c :: n, rest) else ([], l)
  | [] => ([], [])
  end.
Fixpoint read_value (fuel : nat) (l : bytes) {struct fuel} : option (json * bytes) :=
  match fuel with
  | O => None
  | S n =>
      match skip_space l with
      | Byte.x22 :: l' => match read_string l' with Some (s, rest) => Some (JString (b2s s), rest) | None => None end
      | Byte.x5b :: l' =>
          match skip_space l' with
          | Byte.x5d :: rest => Some (JArray [], rest)
          | _ => match read_elements n l' with Some (js, rest) => Some (JArray js, rest) | None => None end
          end
      | Byte.x7b :: l' =>
          match skip_space l' with
          | Byte.x7d :: rest => Some (JObject [], rest)
          | _ => match read_members n l' with Some (ms, rest) => Some (JObject ms, rest) | None => None end
          end
      | Byte.x6e :: Byte.x75 :: Byte.x6c :: Byte.x6c :: rest => Some (JNull, rest)
      | Byte.x74 :: Byte.x72 :: Byte.x75 :: Byte.x65 :: rest => Some (JBool true, rest)
      | Byte.x66 :: Byte.x61 :: Byte.x6c :: Byte.x73 :: Byte.x65 :: rest => Some (JBool false, rest)
      | l' => match read_number l' with ([], _) => None | (num, rest) => Some (JNumber (b2s num), rest) end
      end
  end
with read_elements (fuel : nat) (l : bytes) {struct fuel} : option (list json * bytes) :=
  match fuel with
  | O => None
  | S n =>
      match read_value n l with
      | None => None
      | Some (j, rest) =>
          match skip_space rest with
          | Byte.x2c :: rest' => match read_elements n rest' with Some (js, r) => Some (j :: js, r) | None => None end
          | Byte.x5d :: rest' => Some ([j], rest')
          | _ => None
          end
      end
  end
with read_members (fuel : nat) (l : bytes) {struct fuel} : option (list (string * json) * bytes) :=
  match fuel with
  | O => None
  | S n =>
      match skip_space l with
      | Byte.x22 :: l' =>
          match read_string l' with
          | None => None
          | Some (k, rest) =>
              match skip_space rest with
              | Byte.x3a :: rest' =>
                  match read_value n rest' with
                  | None => None
                  | Some (j, rest'') =>
                      match skip_space rest'' with
                      | Byte.x2c :: r => match read_members n r with Some (ms, r') => Some ((b2s k, j) :: ms, r') | None => None end
                      | Byte.x7d :: r => Some ([(b2s k, j)], r)
                      | _ => None
                      end
                  end
              | _ => None
              end
          end
      | _ => None
      end
  end.
(** A whole document; every call consumes a character or is followed by one
    that does, so twice the length is enough. *)
Definition read_json (text : string) : option json :=
  let l := s2b text in
  match read_value (S (2 * length l)) l with
  | Some (j, rest) => match skip_space rest with [] => Some j | _ => None end
  | None => None
  end.
Definition field (k : string) (j : json) : option json :=
  match j with
  | JObject l => match list_find (λ kv, kv.1 = k) l with Some (_, (_, v)) => Some v | None => None end
  | _ => None
  end.
Definition as_string (j : json) : option string := match j with JString s => Some s | _ => None end.
Definition as_array (j : json) : option (list json) := match j with JArray l => Some l | _ => None end.
(** Amino writes 64-bit integers as strings. *)
Definition as_int64 (j : json) : option Z :=
  s ← as_string j;
  foldl (λ acc c, n ← acc; if (48 <=? b2z c) && (b2z c <=? 57) then Some (10 * n + (b2z c - 48)) else None)
    (if decide (s = "") then None else Some 0) (s2b s).
Definition of_res {A} (r : res A) : option A := match r with Ok a => Some a | _ => None end.

Definition string_at (k : string) (j : json) : option string := v ← field k j; as_string v.
Definition array_at (k : string) (j : json) : option (list json) := v ← field k j; as_array v.
