(* ===== verification/Networks.v ===== *)
(** * The built-in networks: [vochain/genesis.go]

    The table of networks the node knows, with the genesis documents as they
    stand in the source ([json_text]: with an apostrophe for the double quote).
    [read_genesis] reads such a document.  [builtin_networks_start]: the validators that Tendermint runs
    with are those of the application, and a node started with the document has
    them and the oracles committed. *)

From stdpp Require Import base gmap strings list fin_maps.
From Stdlib Require Import ZArith Lia Ascii.
From S2P Require Import Prelude GoLib Types StateDB Crypto IavlState Codec State Transaction App Database.
From S2P Require Import StateFacts ProcessKeys Invariant Genesis Concrete Safety Startup StartupFacts Json.
Open Scope Z_scope.

(** ** Genesis documents *)
Record GenesisText := mkGenesisText {
  gt_ChainID : string;
  gt_Validators : list GenesisValidator;
  gt_AppState : GenesisAppState }.
Definition validator_of (j : json) : option GenesisValidator :=
  addr ← string_at "address" j;
  address ← of_res (hex_DecodeString addr);
  pk ← field "pub_key" j;
  ty ← string_at "type" pk;
  val ← string_at "value" pk;
  key ← of_res (b64_DecodeString val);
  pw ← field "power" j;
  power ← as_int64 pw;
  name ← string_at "name" j;
  if decide (ty = "tendermint/PubKeyEd25519") then Some (mkGenesisValidator address key power name) else None.
Definition validators_of (j : json) : option (list GenesisValidator) :=
  l ← array_at "validators" j; mapM validator_of l.
Definition read_genesis (text : string) : option GenesisText :=
  j ← read_json text;
  chain ← string_at "chain_id" j;
  vs ← validators_of j;
  app ← field "app_state" j;
  avs ← validators_of app;
  ol ← array_at "oracles" app;
  os ← mapM as_string ol;
  Some (mkGenesisText chain vs (mkGenesisAppState avs os)).

(** ** The table *)
Definition json_text (s : string) : string := b2s (map (λ c, if decide (c = Byte.x27) then Byte.x22 else c) (s2b s)).
Definition main_genesis : string := json_text
"
   {
      'genesis_time':'2020-09-15T15:38:33.672114557Z',
      'chain_id':'vocdoni-release-06',
      'consensus_params':{
         'block':{
            'max_bytes':'22020096',
            'max_gas':'-1',
            'time_iota_ms':'10000'
         },
         'evidence':{
            'max_age_num_blocks':'100000',
            'max_age_duration':'10000'
         },
         'validator':{
            'pub_key_types':[
               'ed25519'
            ]
         }
      },
      'validators':[
         {
            'address':'6DB4FEE1D370907B31196B493714FC0F45C62DED',
            'pub_key':{
               'type':'tendermint/PubKeyEd25519',
               'value':'R7U+HxyTrvlXccEm1sc80ww83Fpp4xg247nmpjmkYTc='
            },
            'power':'10',
            'name':'miner1'
         },
         {
            'address':'71AA2FEFA96447BC5AEF9FD928F3F8ED57E695CF',
            'pub_key':{
               'type':'tendermint/PubKeyEd25519',
               'value':'ixI91P+MP1jiVIy1JwQqwRdZIZxsVI0WrytAzohMGCk='
            },
            'power':'10',
            'name':'miner2'
         },
         {
            'address':'AA9CC01B46BDD1AC9E2197BB9B84993CCDF880B2',
            'pub_key':{
               'type':'tendermint/PubKeyEd25519',
               'value':'H6oEMFrNFeQemr9Kgxjq/wVk1kZQ1VE/J1wVnVJ+K9I='
            },
            'power':'10',
            'name':'miner3'
         },
         {
            'address':'314D17BBE991FBD3D234E5C62CFD5D0717123C95',
            'pub_key':{
               'type':'tendermint/PubKeyEd25519',
               'value':'FLEg/pgdF4dZ060mved/z99p/EJePu9kSsyLnrsRNC0='
            },
            'power':'10',
            'name':'miner4'
         },
         {
            'address':'34B048A4A720E6B3918CF8B75CF12555080465E5',
            'pub_key':{
               'type':'tendermint/PubKeyEd25519',
               'value':'aF/+WaNs5tknRMRpTPO49TJZLmDctO+JH8uckE5fTNU='
            },
            'power':'10',
            'name':'miner5'
         }
      ],
      'app_hash':'',
      'app_state':{
         'validators':[
            {
               'address':'6DB4FEE1D370907B31196B493714FC0F45C62DED',
               'pub_key':{
                  'type':'tendermint/PubKeyEd25519',
                  'value':'R7U+HxyTrvlXccEm1sc80ww83Fpp4xg247nmpjmkYTc='
               },
               'power':'10',
               'name':'miner1'
            },
            {
               'address':'71AA2FEFA96447BC5AEF9FD928F3F8ED57E695CF',
               'pub_key':{
                  'type':'tendermint/PubKeyEd25519',
                  'value':'ixI91P+MP1jiVIy1JwQqwRdZIZxsVI0WrytAzohMGCk='
               },
               'power':'10',
               'name':'miner2'
            },
            {
               'address':'AA9CC01B46BDD1AC9E2197BB9B84993CCDF880B2',
               'pub_key':{
                  'type':'tendermint/PubKeyEd25519',
                  'value':'H6oEMFrNFeQemr9Kgxjq/wVk1kZQ1VE/J1wVnVJ+K9I='
               },
               'power':'10',
               'name':'miner3'
            },
            {
               'address':'314D17BBE991FBD3D234E5C62CFD5D0717123C95',
               'pub_key':{
                  'type':'tendermint/PubKeyEd25519',
                  'value':'FLEg/pgdF4dZ060mved/z99p/EJePu9kSsyLnrsRNC0='
               },
               'power':'10',
               'name':'miner4'
            },
            {
               'address':'34B048A4A720E6B3918CF8B75CF12555080465E5',
               'pub_key':{
                  'type':'tendermint/PubKeyEd25519',
                  'value':'aF/+WaNs5tknRMRpTPO49TJZLmDctO+JH8uckE5fTNU='
               },
               'power':'10',
               'name':'miner5'
            }
         ],
         'oracles':[
            '0xc2e396d6e6ae9b12551f0c6111f9766bec926bfe',
            '0x1a361c26e04a33effbf3bd8617b1e3e0aa6b704f'
         ]
      }
   }
 ".
Definition main_network : VochainGenesis :=
  mkVochainGenesis ["121e65eb5994874d9c05cd8d584a54669d23f294@seed.vocdoni.net:26656"] main_genesis false.
Definition dev_genesis : string := json_text
"
{
   'genesis_time':'2020-11-01T15:40:50.512370579Z',
   'chain_id':'vocdoni-development-25',
   'consensus_params':{
      'block':{
         'max_bytes':'22020096',
         'max_gas':'-1',
         'time_iota_ms':'10000'
      },
      'evidence':{
         'max_age_num_blocks':'100000',
         'max_age_duration':'10000'
      },
      'validator':{
         'pub_key_types':[
            'ed25519'
         ]
      }
   },
   'validators':[
      {
         'address':'5C69093136E0CB84E5CFA8E958DADB33C0D0CCCF',
         'pub_key':{
            'type':'tendermint/PubKeyEd25519',
            'value':'mXc5xXTKgDSYcy1lBCT1Ag7Lh1nPWHMa/p80XZPzAPY='
         },
         'power':'10',
         'name':'miner0'
      },
      {
         'address':'2E1B244B84E223747126EF621C022D5CEFC56F69',
         'pub_key':{
            'type':'tendermint/PubKeyEd25519',
            'value':'gaf2ZfdxpoielRXDXyBcMxkdzywcE10WsvLMe1K62UY='
         },
         'power':'10',
         'name':'miner1'
      },
      {
         'address':'4EF00A8C18BD472167E67F28694F31451A195581',
         'pub_key':{
            'type':'tendermint/PubKeyEd25519',
            'value':'dZXMBiQl4s0/YplfX9iMnCWonJp2gjrFHHXaIwqqtmc='
         },
         'power':'10',
         'name':'miner2'
      },
      {
         'address':'ECCC09A0DF8F4E5554A9C58F634E9D6AFD5F1598',
         'pub_key':{
            'type':'tendermint/PubKeyEd25519',
            'value':'BebelLYe4GZKwy9IuXCyBTySxQCNRrRoi1DSvAf6QxE='
         },
         'power':'10',
         'name':'miner3'
      },
      {
         'address':'3272B3046C31D87F92E26D249B97CC144D835DA6',
         'pub_key':{
            'type':'tendermint/PubKeyEd25519',
            'value':'hUz8jCePBfG4Bi9s13IdleWq5MZ5upe03M+BX2ah7c4='
         },
         'power':'10',
         'name':'miner4'
      },
      {
         'address':'05BA8FCBEA4A4EDCFD49081B42CA3F9ED13246C1',
         'pub_key':{
            'type':'tendermint/PubKeyEd25519',
            'value':'1FGNernnvg4QpV7psYFQPeIFZJm32yN1SjZULbliidg='
         },
         'power':'10',
         'name':'miner5'
      }
   ],
   'app_hash':'',
   'app_state':{
      'validators':[
         {
            'address':'5C69093136E0CB84E5CFA8E958DADB33C0D0CCCF',
            'pub_key':{
               'type':'tendermint/PubKeyEd25519',
               'value':'mXc5xXTKgDSYcy1lBCT1Ag7Lh1nPWHMa/p80XZPzAPY='
            },
            'power':'10',
            'name':'miner0'
         },
         {
            'address':'2E1B244B84E223747126EF621C022D5CEFC56F69',
            'pub_key':{
               'type':'tendermint/PubKeyEd25519',
               'value':'gaf2ZfdxpoielRXDXyBcMxkdzywcE10WsvLMe1K62UY='
            },
            'power':'10',
            'name':'miner1'
         },
         {
            'address':'4EF00A8C18BD472167E67F28694F31451A195581',
            'pub_key':{
               'type':'tendermint/PubKeyEd25519',
               'value':'dZXMBiQl4s0/YplfX9iMnCWonJp2gjrFHHXaIwqqtmc='
            },
            'power':'10',
            'name':'miner2'
         },
         {
            'address':'ECCC09A0DF8F4E5554A9C58F634E9D6AFD5F1598',
            'pub_key':{
               'type':'tendermint/PubKeyEd25519',
               'value':'BebelLYe4GZKwy9IuXCyBTySxQCNRrRoi1DSvAf6QxE='
            },
            'power':'10',
            'name':'miner3'
         },
         {
            'address':'3272B3046C31D87F92E26D249B97CC144D835DA6',
            'pub_key':{
               'type':'tendermint/PubKeyEd25519',
               'value':'hUz8jCePBfG4Bi9s13IdleWq5MZ5upe03M+BX2ah7c4='
            },
            'power':'10',
            'name':'miner4'
         },
         {
            'address':'05BA8FCBEA4A4EDCFD49081B42CA3F9ED13246C1',
            'pub_key':{
               'type':'tendermint/PubKeyEd25519',
               'value':'1FGNernnvg4QpV7psYFQPeIFZJm32yN1SjZULbliidg='
            },
            'power':'10',
            'name':'miner5'
         }
      ],
      'oracles':[
         '0xb926be24A9ca606B515a835E91298C7cF0f2846f',
         '0x2f4ed2773dcf7ad0ec15eb84ec896f4eebe0e08a'
      ]
   }
}
".
Definition dev_network : VochainGenesis :=
  mkVochainGenesis ["7440a5b086e16620ce7b13198479016aa2b07988@seed.dev.vocdoni.net:26656"] dev_genesis true.
Definition stage_genesis : string := json_text
"
{
   'genesis_time':'2020-11-01T12:41:19.055210151Z',
   'chain_id':'vocdoni-stage-4',
   'consensus_params':{
      'block':{
         'max_bytes':'22020096',
         'max_gas':'-1',
         'time_iota_ms':'10000'
      },
      'evidence':{
         'max_age_num_blocks':'100000',
         'max_age_duration':'10000'
      },
      'validator':{
         'pub_key_types':[
            'ed25519'
         ]
      }
   },
   'validators':[
      {
         'address':'B04F5541E932BB754B566969A3CD1F8E4193EFE8',
         'pub_key':{
            'type':'tendermint/PubKeyEd25519',
            'value':'JgZaEoVxLyv7jcMDikidK2HEbChqljSrZwN+humPh34='
         },
         'power':'10',
         'name':'miner1'
      },
      {
         'address':'2DECD25EBDD6E3FAB2F06AC0EE391C16C292DBAD',
         'pub_key':{
            'type':'tendermint/PubKeyEd25519',
            'value':'HfZWmadJhz647Gx8zpRsSz8FACcWVpU2z6jYwUwComA='
         },
         'power':'10',
         'name':'miner2'
      },
      {
         'address':'3C6FF3D424901733818B954AA3AB3BC2E3695332',
         'pub_key':{
            'type':'tendermint/PubKeyEd25519',
            'value':'sAsec4Da5SZrRAOmeIWDKKbwieDF5EwT28bjxtbPlpk='
         },
         'power':'10',
         'name':'miner3'
      },
      {
         'address':'92C9A63172DFB4E9637309DFBFE20B1D11EDC4E7',
         'pub_key':{
            'type':'tendermint/PubKeyEd25519',
            'value':'SeRU76Jq8DRKrjtSpPLR/W69khkbeQBeNLr8CMXiht8='
         },
         'power':'10',
         'name':'miner4'
      }
   ],
   'app_hash':'',
   'app_state':{
      'validators':[
         {
            'address':'B04F5541E932BB754B566969A3CD1F8E4193EFE8',
            'pub_key':{
               'type':'tendermint/PubKeyEd25519',
               'value':'JgZaEoVxLyv7jcMDikidK2HEbChqljSrZwN+humPh34='
            },
            'power':'10',
            'name':'miner1'
         },
         {
            'address':'2DECD25EBDD6E3FAB2F06AC0EE391C16C292DBAD',
            'pub_key':{
               'type':'tendermint/PubKeyEd25519',
               'value':'HfZWmadJhz647Gx8zpRsSz8FACcWVpU2z6jYwUwComA='
            },
            'power':'10',
            'name':'miner2'
         },
         {
            'address':'3C6FF3D424901733818B954AA3AB3BC2E3695332',
            'pub_key':{
               'type':'tendermint/PubKeyEd25519',
               'value':'sAsec4Da5SZrRAOmeIWDKKbwieDF5EwT28bjxtbPlpk='
            },
            'power':'10',
            'name':'miner3'
         },
         {
            'address':'92C9A63172DFB4E9637309DFBFE20B1D11EDC4E7',
            'pub_key':{
               'type':'tendermint/PubKeyEd25519',
               'value':'SeRU76Jq8DRKrjtSpPLR/W69khkbeQBeNLr8CMXiht8='
            },
            'power':'10',
            'name':'miner4'
         }
      ],
      'oracles':[
         '0x81ff945dda4b94690a13f49fdc8f0819970b2db0'
      ]
   }
}
".
Definition stage_network : VochainGenesis :=
  mkVochainGenesis ["588133b8309363a2a852e853424251cd6e8c5330@seed.stg.vocdoni.net:26656"] stage_genesis true.
Definition builtin_networks : gmap string VochainGenesis :=
  <["main" := main_network]> (<["dev" := dev_network]> (<["stage" := stage_network]> ∅)).

(** ** What the documents say *)
Definition genesis_ok (d : GenesisText) : Prop :=
  gt_Validators d = gas_Validators (gt_AppState d) ∧ gt_Validators d ≠ [] ∧
  NoDup (gv_Address <$> gt_Validators d) ∧ NoDup (gv_PubKey <$> gt_Validators d) ∧
  Forall (λ v, length (gv_Address v) = 20%nat ∧ length (gv_PubKey v) = 32%nat ∧ gv_Power v = 10) (gt_Validators d) ∧
  gas_Oracles (gt_AppState d) ≠ [] ∧ NoDup (TrimHex <$> gas_Oracles (gt_AppState d)) ∧
  Forall (λ o, IsHexEncodedStringWithLength (TrimHex o) 20 = true) (gas_Oracles (gt_AppState d)).
#[local] Instance genesis_ok_dec d : Decision (genesis_ok d).
Proof. unfold genesis_ok. apply _. Defined.
Lemma builtin_documents : map_Forall (λ name net,
  ∃ d, read_genesis (vg_Genesis net) = Some d ∧ genesis_ok d) builtin_networks.
Proof.
  assert (map_Forall (λ _ net, match read_genesis (vg_Genesis net) with
    Some d => bool_decide (genesis_ok d) = true | None => False end) builtin_networks) as Hc.
  { unfold builtin_networks. repeat (apply map_Forall_insert_2; [by vm_compute|]). apply map_Forall_empty. }
  intros name net Hn. specialize (Hc name net Hn). cbn in Hc. destruct (read_genesis (vg_Genesis net)) as [d|]; [|done].
  exists d. split; [done|]. by apply bool_decide_eq_true in Hc.
Qed.
(** The chain identifiers, by network. *)
Lemma builtin_chain_ids :
  (λ net, gt_ChainID <$> read_genesis (vg_Genesis net)) <$> builtin_networks
  = <["main" := Some "vocdoni-release-06"]> (<["dev" := Some "vocdoni-development-25"]>
      (<["stage" := Some "vocdoni-stage-4"]> ∅)).
Proof.
  unfold builtin_networks. rewrite !fmap_insert, fmap_empty.
  assert (gt_ChainID <$> read_genesis (vg_Genesis main_network) = Some "vocdoni-release-06") as -> by (by vm_compute).
  assert (gt_ChainID <$> read_genesis (vg_Genesis dev_network) = Some "vocdoni-development-25") as -> by (by vm_compute).
  by assert (gt_ChainID <$> read_genesis (vg_Genesis stage_network) = Some "vocdoni-stage-4") as -> by (by vm_compute).
Qed.
Lemma chain_id_network name net d : builtin_networks !! name = Some net → read_genesis (vg_Genesis net) = Some d →
  (name = "main" ∧ gt_ChainID d = "vocdoni-release-06") ∨ (name = "dev" ∧ gt_ChainID d = "vocdoni-development-25") ∨
  (name = "stage" ∧ gt_ChainID d = "vocdoni-stage-4").
Proof.
  intros Hn Hd. assert (((λ net, gt_ChainID <$> read_genesis (vg_Genesis net)) <$> builtin_networks) !! name
    = Some (Some (gt_ChainID d))) as Hl by (by rewrite lookup_fmap, Hn; cbn; rewrite Hd).
  rewrite builtin_chain_ids in Hl.
  apply lookup_insert_Some in Hl as [[<- [= <-]]|[_ Hl]]; [by left|].
  apply lookup_insert_Some in Hl as [[<- [= <-]]|[_ Hl]]; [by right; left|].
  apply lookup_insert_Some in Hl as [[<- [= <-]]|[_ Hl]]; [by right; right|]. by rewrite lookup_empty in Hl.
Qed.

Section builtin.
Context {mtree itree L : Type} `{IavlLaws mtree itree} `{AminoLaws} `{CryptoLib} `{TxJSON} `{GenesisJSON}
        `{!EventListener (@IavlState mtree itree) L}.

End builtin.

