(* ===== verification/Election.v ===== *)
(** * From the ballots to the result

    A run of a node with a scrutinizer attached, from its genesis on, in the
    order in which Tendermint calls the application.  [live_result_is_recount]:
    the result the scrutinizer reports for a poll is at every moment the count
    of the votes the chain has committed for it. *)

From stdpp Require Import base gmap strings list fin_maps.
From Stdlib Require Import ZArith Lia.
From S2P Require Import Prelude GoLib Types StateDB Crypto IavlState Codec State Transaction App.
From S2P Require Import StateFacts ProcessKeys Invariant Genesis Concrete Safety.
From S2P Require Import Operations Database Scrutinizer ScrutinizerFacts Results.
From S2P Require Import Graviton Trie Api Census CensusDownloader.
Open Scope Z_scope.

Lemma filter_none {A} (P : A → Prop) `{∀ x, Decision (P x)} l : Forall (λ x, ¬ P x) l → filter P l = [].
Proof. induction 1; [done|]. by rewrite filter_cons, decide_False. Qed.

(** ** The votes of a tree *)
Section votes.
Context {DB : Type} `{StateDBSpec DB} `{AminoLaws} `{CryptoLib}.
Implicit Types (d : DB) (t : kvmap).

Definition votes_of (t : kvmap) (pid : bytes) : list Vote :=
  filter (λ v, v_ProcessID v = pid) (omap (λ b, dec_vote (Some b)) (map_to_list t).*2).
Definition wvotes d (pid : bytes) : list Vote := votes_of (default ∅ (db_work d !! VoteTree)) pid.
Definition cvotes d (pid : bytes) : list Vote := votes_of (default ∅ (db_comm d !! VoteTree)) pid.

Lemma votes_of_insert t k b v pid : t !! k = None → dec_vote (Some b) = Some v →
  votes_of (<[k := b]> t) pid ≡ₚ (if decide (v_ProcessID v = pid) then [v] else []) ++ votes_of t pid.
Proof.
  intros Hk Hb. unfold votes_of. rewrite map_to_list_insert by done. cbn [fmap list_fmap snd].
  cbn [omap list_omap]. rewrite Hb, filter_cons. by case_decide.
Qed.
(** A vote of the list is the decoding of an entry. *)
Lemma elem_votes_of t pid v : v ∈ votes_of t pid → v_ProcessID v = pid ∧ ∃ k b, t !! k = Some b ∧ dec_vote (Some b) = Some v.
Proof.
  unfold votes_of. rewrite list_elem_of_filter. intros [Hp Hv]. split; [done|].
  apply list_elem_of_omap in Hv as (b & Hb & Hd). apply list_elem_of_fmap in Hb as ([k b'] & -> & Hl).
  apply elem_of_map_to_list in Hl. by exists k, b'.
Qed.
Lemma votes_of_none t pid : (∀ k b v, t !! k = Some b → dec_vote (Some b) = Some v → v_ProcessID v ≠ pid) →
  votes_of t pid = [].
Proof.
  intros Hn. destruct (votes_of t pid) as [|v l] eqn:E; [done|].
  destruct (elem_votes_of t pid v) as (Hp & k & b & Hk & Hb); [rewrite E; by left|]. by destruct (Hn k b v Hk Hb).
Qed.
(** No vote is stored for a process that does not exist. *)
Lemma no_cprocess_no_votes d pid : store_inv d → cproc d pid = None → cvotes d pid = [].
Proof.
  intros Hi Hn. apply votes_of_none. intros k b v Hk Hv <-.
  destruct (si_cvote _ Hi k b) as (v' & Hv' & _ & _ & _ & _ & [p Hp]); [|simplify_eq; congruence].
  unfold ck. by destruct (db_comm d !! VoteTree).
Qed.
Lemma no_process_no_votes d pid : store_inv d → wproc d pid = None → wvotes d pid = [] ∧ cvotes d pid = [].
Proof.
  intros Hi Hn. split.
  - apply votes_of_none. intros k b v Hk Hv <-.
    destruct (si_wvote _ Hi k b) as (v' & Hv' & _ & _ & _ & _ & [p Hp]); [|simplify_eq; congruence].
    unfold wk. by destruct (db_work d !! VoteTree).
  - apply no_cprocess_no_votes; [done|]. destruct (cproc d pid) as [p|] eqn:Hp; [|done].
    destruct (si_procs _ Hi _ _ Hp) as (p' & Hp' & _). congruence.
Qed.
End votes.

(** ** Counting does not depend on the order *)
Lemma count_matrix_perm bs bs' : bs ≡ₚ bs' → count_matrix bs = count_matrix bs'.
Proof. intros Hp. apply matrix_ext. intros q o _ _. unfold cell. by rewrite Hp. Qed.

(** ** What a commit of the scrutinizer does to its live counts *)
Section commit.
Context {DB : Type} `{StateDB DB} `{AminoLib} `{CryptoLib} `{ScrutinizerCodec} `{!ScrutinizerLaws}.
Implicit Types (d : DB) (s : Scrutinizer).

(** Only the processes of [P] may have got a live count. *)
Definition live_only (P : list bytes) s s' : Prop := ∀ pid,
  pid ∉ P → sc_Storage s !! live_key pid = None → sc_Storage s' !! live_key pid = None.
#[local] Instance live_only_refl P : Reflexive (live_only P).
Proof. by intros s pid. Qed.
#[local] Instance live_only_trans P : Transitive (live_only P).
Proof. intros s1 s2 s3 H12 H23 pid Hp Hn. by apply H23, H12. Qed.

Lemma stays_put_key P key v : (∀ pid, key = live_key pid → pid ∈ P) →
  stays (live_only P) (updates (λ s, st ← db_Put key v (sc_Storage s); Ok (set_Storage st s))).
Proof.
  intros Hk. apply stays_updates; [typeclasses eauto|]. intros s s' Hs. unfold db_Put in Hs.
  case_decide; [done|]. injection Hs as <-. intros pid Hp Hn. cbn [sc_Storage set_Storage].
  rewrite lookup_insert_ne; [done|]. intros ->. by destruct Hp; apply Hk.
Qed.
Lemma stays_st_Put P t data v key : encode t data = Ok key → (∀ pid, key = live_key pid → pid ∈ P) →
  stays (live_only P) (st_Put t data v).
Proof. intros Hk HP s. unfold st_Put. rewrite GM_run, Hk. by apply stays_put_key. Qed.
Lemma stays_st_Get P t data : stays (live_only P) (st_Get t data).
Proof. unfold st_Get. stays_tac. Qed.
Lemma stays_or_missing P {A} r (k : bytes → GM Scrutinizer A) stop :
  (∀ b, stays (live_only P) (k b)) → stays (live_only P) stop → stays (live_only P) (or_missing r k stop).
Proof. intros Hk Hs. unfold or_missing. stays_tac. Qed.
#[local] Hint Resolve stays_st_Get : stays.

Ltac live_tac :=
  repeat first [apply stays_or_missing; [intros ?|] | stays_step];
  try (by intros ?); try (by eapply stays_st_Put).

Lemma stays_addEntity P eid pid : stays (live_only P) (addEntity eid pid).
Proof. unfold addEntity. live_tac. Qed.
Lemma stays_commit_process P d p : od_ProcessID p ∈ P → stays (live_only P) (commit_process d p).
Proof.
  intros Hp. pose proof (stays_addEntity P). unfold commit_process. live_tac.
  unfold addLiveResultsProcess. live_tac. unfold newEmptyLiveProcess. live_tac.
  eapply stays_st_Put; [done|]. by intros pid [= <-].
Qed.
Lemma stays_register_loop P pool h i : stays (live_only P) (register_loop pool h i).
Proof.
  revert i. induction pool as [|p pool IH]; intros i; cbn [register_loop]; live_tac.
  unfold registerPendingProcess. live_tac.
Qed.
(** A vote is only added to a count that is there. *)
Lemma stays_addLiveResultsVote P v : stays (live_only P) (addLiveResultsVote v).
Proof.
  intros s. destruct (sc_Storage s !! live_key (v_ProcessID v)) as [b|] eqn:E.
  - intros pid Hp Hn. assert (stays (live_only (v_ProcessID v :: P)) (addLiveResultsVote v)) as Hs.
    { unfold addLiveResultsVote. stays_tac. eapply stays_st_Put; [done|]. intros q [= <-]. by left. }
    apply (Hs s); [|done]. rewrite not_elem_of_cons. split; [congruence|done].
  - assert ((addLiveResultsVote v s).2 = s) as ->; [|reflexivity]. unfold addLiveResultsVote.
    rewrite GM_run. cbn [lift]. destruct (guard_err _ _); [|done..].
    rewrite GM_run. cbn [lift]. destruct (unmarshalVote _ _); [|done..].
    rewrite GM_run. cbn [lift]. destruct (guard_err _ _); [|done..].
    by rewrite GM_run, (st_Get_cases _ _ _ (live_key (v_ProcessID v))), E by done.
Qed.
Lemma stays_Commit d h s : live_only (od_ProcessID <$> sc_processPool s) s (Scrutinizer.Commit d h s).2.
Proof.
  set (P := od_ProcessID <$> sc_processPool s). unfold Scrutinizer.Commit. rewrite GM_run. cbn [modify].
  rewrite GM_run. cbn [get_st]. set (s1 := set_tasks _ s).
  transitivity s1; [by intros pid|]. revert s1. generalize (sc_tasks s ++ [h]). intros ts s1.
  assert (stays (live_only P) (_ ← for_each (sc_processPool s) (commit_process d);
    _ ← register_loop (sc_resultsPool s) h 0;
    for_each (sc_votePool s) (λ v, logged (addLiveResultsVote v)))) as Hs; [|exact (Hs s1)].
  apply stays_bind; [typeclasses eauto| |intros _].
  - assert (∀ ps, (∀ p, p ∈ ps → od_ProcessID p ∈ P) → stays (live_only P) (for_each ps (commit_process d))) as Hps.
    { induction ps as [|p ps IH]; intros Hp; cbn [for_each]; [apply stays_mret, _|].
      apply stays_bind; [typeclasses eauto| |intros _].
      - apply stays_commit_process, Hp. by left.
      - apply IH. intros q Hq. apply Hp. by right. }
    apply Hps. intros p Hp. unfold P. by apply list_elem_of_fmap_2.
  - pose proof (stays_register_loop P). pose proof (stays_addLiveResultsVote P). stays_tac; auto.
Qed.

(** A process without a count, or with no vote counted yet. *)
Definition uncounted s (pid : bytes) : Prop := sc_Storage s !! live_key pid = None ∨ live_count s pid [].
Lemma uncounted_keeps P s s' pid : live_only P s s' → live_frame s s' → pid ∉ P → uncounted s pid → uncounted s' pid.
Proof. intros Ho Hf Hp [Hn|Hc]; [left; by apply Ho|right; by apply Hf]. Qed.

Lemma commit_process_new d x q s : live_inv s → Process_ d (od_ProcessID x) false = Ok q → IsEncrypted q = false →
  uncounted s (od_ProcessID x) →
  ∃ s', commit_process d x s = (Ok (), s') ∧ live_frame s s' ∧ live_count s' (od_ProcessID x) [].
Proof.
  intros Hi Hq He Hu. unfold commit_process.
  destruct (addEntity_frame (od_EntityID x) (od_ProcessID x) s Hi) as (s1 & Hr1 & Hf1).
  pose proof (stays_addEntity [] (od_EntityID x) (od_ProcessID x) s) as Ho. rewrite Hr1 in Ho.
  eapply uncounted_keeps in Hu; [|exact Ho|exact Hf1|apply not_elem_of_nil].
  rewrite GM_run, Hr1. unfold isLiveResultsProcess, ProcessInfo. rewrite Hq. cbn [mbind res_bind]. rewrite He. cbn [negb].
  destruct (addLiveResultsProcess_frame (od_ProcessID x) s1 (proj1 Hf1)) as (s2 & Hr2 & Hf2 & Hn).
  exists s2. split; [done|]. split; [by eapply live_frame_trans|]. destruct Hu as [Hu|Hu]; [by apply Hn|by apply Hf2].
Qed.
Lemma commit_processes_new d ps q s pid : live_inv s →
  Forall (λ p, is_panic (Process_ d (od_ProcessID p) false) = false) ps →
  pid ∈ od_ProcessID <$> ps → Process_ d pid false = Ok q → IsEncrypted q = false → uncounted s pid →
  live_count (for_each ps (commit_process d) s).2 pid [].
Proof.
  intros Hi HF. revert s Hi. induction HF as [|x ps Hx HF IH]; intros s Hi Hin Hq He Hu; [by apply elem_of_nil in Hin|].
  cbn [for_each]. rewrite GM_run. destruct (decide (od_ProcessID x = pid)) as [<-|Hne].
  - destruct (commit_process_new d x q s Hi Hq He Hu) as (s1 & Hr1 & Hf1 & Hc1). rewrite Hr1.
    destruct (commit_processes_frame d ps s1 (proj1 Hf1) HF) as (s2 & Hr2 & Hf2). rewrite Hr2. by apply Hf2.
  - destruct (commit_process_frame d x s Hi Hx) as (s1 & Hr1 & Hf1). rewrite Hr1.
    apply IH; [apply Hf1|cbn in Hin; apply elem_of_cons in Hin as [?|?]; [by subst|done]|done|done|].
    pose proof (stays_commit_process [od_ProcessID x] d x ltac:(by left) s) as Ho. rewrite Hr1 in Ho.
    eapply uncounted_keeps; [exact Ho|exact Hf1|set_solver|done].
Qed.

(** The whole commit: the counts grow by the votes of the pool, a new process
    starts with those votes, and nothing else gets a count. *)
Lemma Commit_live d h s : live_inv s → pool_ok (sc_votePool s) →
  Forall (λ p, is_panic (Process_ d (od_ProcessID p) false) = false) (sc_processPool s) →
  ∃ s', Scrutinizer.Commit d h s = (Ok (), s') ∧ live_inv s' ∧ same_results s s' ∧
    (∀ pid bs, live_count s pid bs → live_count s' pid (bs ++ pool_ballots pid (sc_votePool s))) ∧
    (∀ pid q, pid ∈ od_ProcessID <$> sc_processPool s → Process_ d pid false = Ok q → IsEncrypted q = false →
       uncounted s pid → live_count s' pid (pool_ballots pid (sc_votePool s))) ∧
    live_only (od_ProcessID <$> sc_processPool s) s s'.
Proof.
  intros Hi Hv Hp. destruct (Commit_counts d h s Hi Hv Hp) as (s' & Hr & Hi' & Hs & Hc).
  exists s'. split_and!; [done..| |].
  - intros pid q Hin Hq He Hu. revert Hr. unfold Scrutinizer.Commit. rewrite GM_run. cbn [modify].
    rewrite GM_run. cbn [get_st]. set (s0 := set_tasks _ s).
    pose proof (commit_processes_new d (sc_processPool s) q s0 pid Hi Hp Hin Hq He Hu) as Hn.
    destruct (commit_processes_frame d (sc_processPool s0) s0 Hi Hp) as (s1 & Hr1 & Hf1).
    change (sc_processPool s) with (sc_processPool s0) in Hn. rewrite Hr1 in Hn.
    rewrite GM_run, Hr1. destruct (register_loop_frame (sc_resultsPool s0) h 0 s1 (proj1 Hf1)) as (s2 & Hr2 & Hf2).
    rewrite GM_run, Hr2. destruct (live_pool_counts (sc_votePool s) s2 (proj1 Hf2) Hv) as (s3 & Hr3 & _ & _ & Hc3).
    change (sc_votePool s0) with (sc_votePool s). rewrite Hr3. intros [= <-]. apply (Hc3 pid []). by apply Hf2.
  - pose proof (stays_Commit d h s) as Ho. by rewrite Hr in Ho.
Qed.
End commit.

(** ** The node with its scrutinizer *)

(** Listener methods return nothing: there is no error to report. *)
Class SilentListener (DB L : Type) `{EventListener DB L} := {
  silent_vote (d : DB) v (l : L) e : OnVote d v l ≠ Err e;
  silent_process (d : DB) p n r u (l : L) e : OnProcess d p n r u l ≠ Err e;
  silent_cancel (d : DB) p (l : L) e : OnCancel d p l ≠ Err e;
  silent_keys (d : DB) p k c (l : L) e : OnProcessKeys d p k c l ≠ Err e;
  silent_reveal (d : DB) p k c (l : L) e : OnRevealKeys d p k c l ≠ Err e;
  silent_commit (d : DB) h (l : L) e : ListenerCommit d h l ≠ Err e;
  silent_rollback (d : DB) (l : L) e : ListenerRollback d l ≠ Err e }.
#[export] Instance no_listener_silent {DB} : SilentListener DB ().
Proof. by constructor. Qed.
#[export] Instance downloader_silent {DB} `{Graviton} `{CensusEnv} `{!NodeSync DB} : SilentListener DB CensusDownloader.
Proof. by constructor. Qed.
Lemma both_silent {L1 L2} (f : L1 → res L1) (g : L2 → res L2) l e :
  (∀ l e, f l ≠ Err e) → (∀ l e, g l ≠ Err e) → both f g l ≠ Err e.
Proof.
  intros Hf Hg. unfold both. destruct (f l.1) eqn:E1; [|by apply Hf in E1|done].
  cbn. by destruct (g l.2) eqn:E2; [|apply Hg in E2|].
Qed.
#[export] Instance pair_silent {DB L1 L2} `{SilentListener DB L1} `{SilentListener DB L2} : SilentListener DB (L1 * L2).
Proof. constructor; intros; apply both_silent; intros; apply silent_vote || apply silent_process || apply silent_cancel
  || apply silent_keys || apply silent_reveal || apply silent_commit || apply silent_rollback. Qed.

Section node.
Context {DB L : Type} `{StateDBSpec DB} `{AminoLaws} `{CryptoLib} `{TxJSON} `{GenesisJSON}
        `{ScrutinizerLaws} `{!EventListener DB L} `{!SilentListener DB L}.
Abbreviation NState := (State DB (L * Scrutinizer)).
Implicit Types (d : DB) (s : NState).
#[local] Hint Resolve vt_app vt_process vt_vote : core.

Definition scrutinizer_of s : Scrutinizer := (eventListeners s).2.

(** What holds of the committed part at every moment. *)
Record counted s : Prop := {
  cn_store : store_inv (Store s);
  cn_live : live_inv (scrutinizer_of s);
  cn_count pid p : cproc (Store s) pid = Some p → IsEncrypted p = false →
    ∃ bs, live_count (scrutinizer_of s) pid bs ∧ bs ≡ₚ omap live_ballot (cvotes (Store s) pid);
  cn_none pid : cproc (Store s) pid = None → sc_Storage (scrutinizer_of s) !! live_key pid = None;
  cn_results pid : sc_Storage (scrutinizer_of s) !! (ScrutinizerResultsPrefix :: pid) = None }.

(** A vote of the pool: of a poll that exists, with answers that can be
    counted. *)
Definition pooled d (v : Vote) : Prop :=
  (∃ p, wproc d (v_ProcessID v) = Some p ∧ IsEncrypted p = false) ∧ ∀ b, live_ballot v = Some b → ballot_ok b.

(** What holds within a block: the votes and processes that are not committed
    yet are those of the pools. *)
Record in_block s : Prop := {
  ib_counted : counted s;
  ib_votes pid p : wproc (Store s) pid = Some p → IsEncrypted p = false →
    wvotes (Store s) pid ≡ₚ cvotes (Store s) pid ++ filter (λ v, v_ProcessID v = pid) (sc_votePool (scrutinizer_of s));
  ib_pool : Forall (pooled (Store s)) (sc_votePool (scrutinizer_of s));
  ib_new pid p : wproc (Store s) pid = Some p → cproc (Store s) pid = None →
    pid ∈ od_ProcessID <$> sc_processPool (scrutinizer_of s);
  ib_procs : Forall (λ x, is_Some (wproc (Store s) (od_ProcessID x))) (sc_processPool (scrutinizer_of s));
  ib_header : ∃ h, Header_ (Store s) false = Ok (Some h) }.

(** *** Steps that leave the votes alone *)

(** Processes keep their kind; a new one is in the pool. *)
Record proc_step s s' : Prop := {
  ps_comm : db_comm (Store s') = db_comm (Store s);
  ps_votes : db_work (Store s') !! VoteTree = db_work (Store s) !! VoteTree;
  ps_header : wk (Store s') AppTree headerKey = wk (Store s) AppTree headerKey;
  ps_storage : sc_Storage (scrutinizer_of s') = sc_Storage (scrutinizer_of s);
  ps_pool : sc_votePool (scrutinizer_of s') = sc_votePool (scrutinizer_of s);
  ps_old pid p : wproc (Store s) pid = Some p → ∃ p', wproc (Store s') pid = Some p' ∧ p_Type p' = p_Type p;
  ps_new pid p' : wproc (Store s') pid = Some p' → is_Some (wproc (Store s) pid) ∨
    pid ∈ od_ProcessID <$> sc_processPool (scrutinizer_of s');
  ps_sub : sc_processPool (scrutinizer_of s) ⊆ sc_processPool (scrutinizer_of s');
  ps_procs x : x ∈ sc_processPool (scrutinizer_of s') → x ∈ sc_processPool (scrutinizer_of s) ∨
    is_Some (wproc (Store s') (od_ProcessID x)) }.
#[local] Instance proc_step_refl : Reflexive proc_step.
Proof. intros s. constructor; eauto. Qed.
#[local] Instance proc_step_trans : Transitive proc_step.
Proof.
  intros s1 s2 s3 H12 H23. constructor.
  - by rewrite (ps_comm _ _ H23), (ps_comm _ _ H12).
  - by rewrite (ps_votes _ _ H23), (ps_votes _ _ H12).
  - by rewrite (ps_header _ _ H23), (ps_header _ _ H12).
  - by rewrite (ps_storage _ _ H23), (ps_storage _ _ H12).
  - by rewrite (ps_pool _ _ H23), (ps_pool _ _ H12).
  - intros pid p Hp. destruct (ps_old _ _ H12 _ _ Hp) as (p2 & Hp2 & <-). by apply (ps_old _ _ H23).
  - intros pid p3 Hp3. destruct (ps_new _ _ H23 _ _ Hp3) as [[p2 Hp2]|]; [|by right].
    destruct (ps_new _ _ H12 _ _ Hp2) as [|Hin]; [by left|right].
    apply list_elem_of_fmap in Hin as (x & -> & Hx). apply list_elem_of_fmap_2, (ps_sub _ _ H23), Hx.
  - etransitivity; [apply H12|apply H23].
  - intros x Hx. destruct (ps_procs _ _ H23 x Hx) as [Hx2|]; [|by right].
    destruct (ps_procs _ _ H12 x Hx2) as [|[p2 Hp2]]; [by left|right].
    destruct (ps_old _ _ H23 _ _ Hp2) as (p3 & ? & _). by exists p3.
Qed.

Lemma IsEncrypted_type p p' : p_Type p' = p_Type p → IsEncrypted p' = IsEncrypted p.
Proof. intros E. unfold IsEncrypted. by rewrite E. Qed.
Lemma Header_wk d d' : store_ok d → store_ok d' → wk d' AppTree headerKey = wk d AppTree headerKey →
  Header_ d' false = Header_ d false.
Proof. intros Ho Ho' E. unfold Header_, tree_get. by rewrite !TreeGet_wk, E by auto. Qed.

Lemma counted_same s s' : counted s → store_inv (Store s') → db_comm (Store s') = db_comm (Store s) →
  sc_Storage (scrutinizer_of s') = sc_Storage (scrutinizer_of s) → counted s'.
Proof.
  intros Hc Hi Hcm Hst.
  assert (∀ pid, cproc (Store s') pid = cproc (Store s) pid) as Hp by (intros; unfold cproc, ck; by rewrite Hcm).
  assert (∀ pid, cvotes (Store s') pid = cvotes (Store s) pid) as Hv by (intros; unfold cvotes; by rewrite Hcm).
  assert (∀ pid bs, live_count (scrutinizer_of s) pid bs → live_count (scrutinizer_of s') pid bs) as Hl.
  { intros pid bs (b & Hb & ?). exists b. by rewrite Hst. }
  constructor; [done|..].
  - intros pid. rewrite Hst. intros Hs. destruct (cn_live _ Hc pid Hs) as [bs Hbs]. eauto.
  - intros pid p. rewrite Hp, Hv. intros Hpp He. destruct (cn_count _ Hc pid p Hpp He) as (bs & ? & ?). eauto.
  - intros pid. rewrite Hp, Hst. apply Hc.
  - intros pid. rewrite Hst. apply Hc.
Qed.

Lemma proc_step_in_block s s' : in_block s → store_inv (Store s') → proc_step s s' → in_block s'.
Proof.
  intros Hb Hi Hs. pose proof (cn_store _ (ib_counted _ Hb)) as Hi0.
  assert (∀ pid, cproc (Store s') pid = cproc (Store s) pid) as Hcp
    by (intros; unfold cproc, ck; by rewrite (ps_comm _ _ Hs)).
  constructor.
  - eapply counted_same; [apply Hb|done|apply Hs|apply Hs].
  - intros pid p' Hp' He. unfold wvotes, cvotes. rewrite (ps_comm _ _ Hs), (ps_votes _ _ Hs), (ps_pool _ _ Hs).
    destruct (wproc (Store s) pid) as [p|] eqn:Hp.
    + destruct (ps_old _ _ Hs _ _ Hp) as (p2 & Hp2 & Ht). simplify_eq. apply (ib_votes _ Hb pid p Hp).
      by rewrite <- (IsEncrypted_type _ _ Ht).
    + destruct (no_process_no_votes _ _ Hi0 Hp) as [Hw Hc]. unfold wvotes, cvotes in Hw, Hc. rewrite Hw, Hc.
      rewrite (filter_none (λ v, v_ProcessID v = pid)); [done|]. eapply Forall_impl; [apply (ib_pool _ Hb)|].
      intros v [(p & Hpv & _) _] <-. congruence.
  - rewrite (ps_pool _ _ Hs). eapply Forall_impl; [apply (ib_pool _ Hb)|]. intros v [(p & Hp & He) Hok].
    split; [|done]. destruct (ps_old _ _ Hs _ _ Hp) as (p' & Hp' & Ht). exists p'. split; [done|].
    by rewrite (IsEncrypted_type _ _ Ht).
  - intros pid p'. rewrite Hcp. intros Hp' Hc. destruct (ps_new _ _ Hs _ _ Hp') as [[p Hp]|]; [|done].
    destruct (proj1 (list_elem_of_fmap _ _ _) (ib_new _ Hb _ _ Hp Hc)) as (x & -> & Hx).
    apply list_elem_of_fmap_2, (ps_sub _ _ Hs), Hx.
  - apply list.Forall_forall. intros x Hx. destruct (ps_procs _ _ Hs x Hx) as [Hx0|]; [|done].
    eapply list.Forall_forall in Hx0; [|apply (ib_procs _ Hb)]. destruct Hx0 as [p Hp].
    destruct (ps_old _ _ Hs _ _ Hp) as (p' & Hp' & _). by exists p'.
  - destruct (ib_header _ Hb) as [h Hh]. exists h. rewrite <- Hh. apply Header_wk; [apply Hi0|apply Hi|apply Hs].
Qed.

(** *** The operations *)
Definition pstep s s' : Prop := store_inv (Store s) → store_inv (Store s') ∧ proc_step s s'.
#[local] Instance pstep_refl : Reflexive pstep.
Proof. intros s Hi. split; [done|reflexivity]. Qed.
#[local] Instance pstep_trans : Transitive pstep.
Proof.
  intros s1 s2 s3 H12 H23 Hi1. destruct (H12 Hi1) as [Hi2 ?]. destruct (H23 Hi2) as [Hi3 ?].
  split; [done|by etransitivity].
Qed.
Lemma proc_step_same s s' : Store s' = Store s → eventListeners s' = eventListeners s → proc_step s s'.
Proof. intros E1 E2. constructor; unfold scrutinizer_of; rewrite ?E1, ?E2; eauto. Qed.

Lemma pstep_add_app k v : k ≠ headerKey → stays pstep (store_add AppTree k v).
Proof.
  intros Hk s Hi. split; [by apply keeps_add_app|].
  assert (eventListeners (store_add AppTree k v s).2 = eventListeners s) as He.
  { unfold store_add, updates. by destruct (TreeAdd _ _ _ _). }
  destruct (store_add_effect s AppTree k v) as [Hs|(b & _ & Ha)]; [apply Hi|done|by apply proc_step_same|].
  assert (∀ pid, wproc (Store (store_add AppTree k v s).2) pid = wproc (Store s) pid) as Hp.
  { intros pid. unfold wproc. by rewrite (adds_wk_tree _ _ _ _ _ _ _ Ha). }
  constructor; unfold scrutinizer_of; rewrite ?He; eauto.
  - apply Ha.
  - destruct Ha as (_ & _ & t & _ & ->). by rewrite lookup_insert_ne.
  - rewrite (adds_wk _ _ _ _ _ _ _ Ha), decide_False; [done|]. by intros [_ ?].
  - intros pid p. rewrite Hp. eauto.
  - intros pid p. rewrite Hp. eauto.
Qed.
Lemma pstep_on_store {A} (f : DB → res A) : stays pstep (on_store (L := L * Scrutinizer) f).
Proof. apply stays_reads, _. Qed.
#[local] Hint Resolve pstep_add_app pstep_on_store : stays.
Lemma pstep_exec_app tx : at_Type tx ≠ TxAddProcessKeys → at_Type tx ≠ TxRevealProcessKeys →
  stays pstep (exec_admin tx).
Proof.
  intros H1' H2'. unfold exec_admin. rewrite (decide_False (P := at_Type tx = TxAddProcessKeys)) by done.
  rewrite (decide_False (P := at_Type tx = TxRevealProcessKeys)) by done.
  unfold AddOracle, RemoveOracle, AddValidator, RemoveValidator. stays_tac; by apply pstep_add_app.
Qed.

(** The scrutinizer schedules at most a result. *)
Definition quiet s s' : Prop :=
  sc_Storage (scrutinizer_of s') = sc_Storage (scrutinizer_of s) ∧
  sc_votePool (scrutinizer_of s') = sc_votePool (scrutinizer_of s) ∧
  sc_processPool (scrutinizer_of s') = sc_processPool (scrutinizer_of s).
#[local] Instance quiet_refl : Reflexive quiet.
Proof. by intros s. Qed.
#[local] Instance quiet_trans : Transitive quiet.
Proof. intros s1 s2 s3 (? & ? & ?) (? & ? & ?). split_and!; congruence. Qed.
Lemma quiet_store_add t k v : stays quiet (store_add t k v).
Proof. intros s. unfold store_add, updates. by destruct (TreeAdd _ _ _ _). Qed.
Lemma quiet_on_store {A} (f : DB → res A) : stays quiet (on_store (L := L * Scrutinizer) f).
Proof. apply stays_reads, _. Qed.
Lemma quiet_notify (f : DB → L → res L) (g : DB → Scrutinizer → res Scrutinizer) :
  (∀ d sc sc', g d sc = Ok sc' → sc_Storage sc' = sc_Storage sc ∧ sc_votePool sc' = sc_votePool sc ∧
     sc_processPool sc' = sc_processPool sc) →
  stays quiet (notify (λ d, both (f d) (g d))).
Proof.
  intros Hg. apply stays_updates; [typeclasses eauto|]. intros s s' Hs. go_inv Hs. unfold both in *.
  match goal with H : (_ ≫= _) = Ok _ |- _ => go_inv H end. unfold quiet, scrutinizer_of. cbn. by eapply Hg.
Qed.
Lemma quiet_OnReveal d pid sc sc' : scrutinizer_OnRevealKeys d pid sc = Ok sc' →
  sc_Storage sc' = sc_Storage sc ∧ sc_votePool sc' = sc_votePool sc ∧ sc_processPool sc' = sc_processPool sc.
Proof. unfold scrutinizer_OnRevealKeys. case_match; [case_decide|..]; intros; simplify_eq; done. Qed.
Lemma quiet_Ok d sc sc' : Ok sc = Ok sc' →
  sc_Storage sc' = sc_Storage sc ∧ sc_votePool sc' = sc_votePool sc ∧ sc_processPool sc' = sc_processPool sc.
Proof. by intros [= <-]. Qed.
#[local] Hint Resolve quiet_store_add quiet_on_store : stays.
Lemma quiet_CancelProcess pid : stays quiet (CancelProcess pid).
Proof. unfold CancelProcess. stays_tac. apply quiet_notify. exact quiet_Ok. Qed.
Lemma quiet_AddProcessKeys tx : stays quiet (AddProcessKeys tx).
Proof. unfold AddProcessKeys, setProcess. stays_tac. apply quiet_notify. exact quiet_Ok. Qed.
Lemma quiet_RevealProcessKeys tx : stays quiet (RevealProcessKeys tx).
Proof. unfold RevealProcessKeys, setProcess. stays_tac. apply quiet_notify. intros d. apply quiet_OnReveal. Qed.

(** A process that is written over with one of its kind. *)
Lemma written_wproc d pid p' d' q : process_written d pid p' d' →
  wproc d' q = if decide (q = pid) then Some p' else wproc d q.
Proof.
  intros (b & Ha & Hb). unfold wproc. rewrite (adds_wk _ _ _ _ _ _ _ Ha).
  destruct (decide (q = pid)) as [->|Hq]; [by rewrite decide_True|by rewrite decide_False by naive_solver].
Qed.
Lemma proc_step_written s s' pid p' : process_written (Store s) pid p' (Store s') →
  (∀ p, wproc (Store s) pid = Some p → p_Type p' = p_Type p) →
  sc_Storage (scrutinizer_of s') = sc_Storage (scrutinizer_of s) →
  sc_votePool (scrutinizer_of s') = sc_votePool (scrutinizer_of s) →
  (∃ new, sc_processPool (scrutinizer_of s') = sc_processPool (scrutinizer_of s) ++ new ∧
     (∀ x, x ∈ new → od_ProcessID x = pid) ∧ (wproc (Store s) pid = None → new ≠ [])) → proc_step s s'.
Proof.
  intros Hw Ht Hst Hvp (new & Hpp & Hnew & Hne). assert (Hp := λ q, written_wproc _ _ _ _ q Hw).
  destruct Hw as (b & Ha & _). constructor; rewrite ?Hpp; try done.
  - apply Ha.
  - destruct Ha as (_ & _ & t & _ & ->). by rewrite lookup_insert_ne.
  - by rewrite (adds_wk_tree _ _ _ _ _ _ _ Ha).
  - intros q p Hq. rewrite Hp. case_decide; [subst; eauto|eauto].
  - intros q p. rewrite Hp. case_decide as Hq; [|eauto]. intros _. subst q.
    destruct (wproc (Store s) pid) as [p0|]; [by left; exists p0|right]. destruct new as [|x new]; [by destruct Hne|].
    rewrite fmap_app. apply elem_of_app. right. rewrite <- (Hnew x) by (by left). by left.
  - intros x Hx. apply elem_of_app. by left.
  - intros x [Hx|Hx]%elem_of_app; [by left|right]. rewrite Hp, decide_True by (by apply Hnew). by eexists.
Qed.
Lemma proc_step_quiet s s' pid p p' : wproc (Store s) pid = Some p → process_written (Store s) pid p' (Store s') →
  p_Type p' = p_Type p → quiet s s' → proc_step s s'.
Proof.
  intros Hp Hw Ht (Hst & Hvp & Hpp). eapply proc_step_written; [exact Hw|congruence|done|done|].
  exists []. rewrite app_nil_r. split_and!; [done|by intros x Hx%elem_of_nil|congruence].
Qed.

Lemma pstep_CancelProcess pid : stays pstep (CancelProcess pid).
Proof.
  intros s Hi. split; [by apply CancelProcess_good|]. destruct (quiet_CancelProcess pid s) as (Hst & Hvp & Hpp).
  destruct (CancelProcess_effect s pid) as [Hs|(p & Hp & _ & Hw)].
  - apply Hi.
  - intros p Hp. destruct (wproc_wf _ _ _ Hi Hp) as [_ Hwf]. by apply proc_wf_type.
  - constructor; rewrite ?Hs, ?Hpp; eauto.
  - by eapply proc_step_quiet.
Qed.
Lemma pstep_exec_admin tx s : store_inv (Store s) → AdminTxCheck tx (Store s) = Ok () →
  store_inv (Store (exec_admin tx s).2) ∧ proc_step s (exec_admin tx s).2.
Proof.
  intros Hi Hc. destruct (exec_admin_good tx s Hi Hc) as [Hi' _]. split; [done|].
  assert (∀ pid p, wproc (Store s) pid = Some p → proc_wf p) as Hwf by
    (intros pid p Hp; by apply (wproc_wf _ _ _ Hi) in Hp as [_ ?]).
  assert (at_Type tx = TxAddProcessKeys ∨ at_Type tx = TxRevealProcessKeys →
          check_process_keys tx (Store s) = Ok ()) as Hk by (by apply AdminTxCheck_keys).
  destruct (decide (at_Type tx = TxAddProcessKeys)) as [Ht|Ht];
    [|destruct (decide (at_Type tx = TxRevealProcessKeys)) as [Ht'|Ht']; [|by apply pstep_exec_app]].
  - destruct (AddProcessKeys_effect tx s) as (pid & p & p' & _ & Hp & _ & _ & Hev & Hw); auto; [apply Hi|].
    unfold exec_admin. rewrite Ht. cbn. eapply proc_step_quiet; [exact Hp|exact Hw|apply Hev|apply quiet_AddProcessKeys].
  - destruct (RevealProcessKeys_effect tx s) as (pid & p & p' & _ & Hp & _ & _ & Hev & Hw); auto; [apply Hi|].
    unfold exec_admin. rewrite Ht'. cbn. eapply proc_step_quiet; [exact Hp|exact Hw|apply Hev|apply quiet_RevealProcessKeys].
Qed.

(** What the scrutinizer has done after a notification that did not bring the
    node down. *)
Lemma notify_run (f : DB → L → res L) g s r s' sc' : (∀ l e, f (Store s) l ≠ Err e) →
  notify (λ d, both (f d) (g d)) s = (r, s') → is_panic r = false → g (Store s) (scrutinizer_of s) = Ok sc' →
  Store s' = Store s ∧ scrutinizer_of s' = sc'.
Proof.
  intros Hf. unfold notify, updates, both, scrutinizer_of. destruct (f (Store s) (eventListeners s).1) as [l|e|w] eqn:E.
  - cbn. intros Hn Hp Hg. rewrite Hg in Hn. cbn in Hn. by injection Hn as _ <-.
  - by destruct (Hf _ _ E).
  - by intros [= <- <-].
Qed.

Lemma AddProcess_step tx p pid s r s' : store_inv (Store s) → NewProcessTxCheck tx (Store s) = Ok p →
  hex_DecodeString (np_ProcessID tx) = Ok pid → AddProcess p pid (np_MkURI tx) s = (r, s') → is_panic r = false →
  store_inv (Store s') ∧ proc_step s s'.
Proof.
  intros Hi Hc Hpid Hr Hnp. destruct (AddProcess_good tx p pid s Hi Hc Hpid) as [Hi' _]. rewrite Hr in Hi'. split; [done|].
  destruct (NewProcessTxCheck_Ok _ _ _ Hi Hc) as (pid' & _ & _ & _ & Hpid' & _ & Hn & Hwf & _).
  assert (pid' = pid) as -> by congruence.
  pose proof (AddProcess_effect s p pid (np_MkURI tx) (si_ok _ Hi) (proc_wf_type _ Hwf)) as Hw. rewrite Hr in Hw.
  revert Hr. unfold AddProcess. destruct (roundtrips_marshal_or "cannot marshal process bytes" p) as (b & Hm & _ & _).
  { by apply law_amino_process, proc_wf_type. }
  destruct (store_add_Some s ProcessTree pid b (si_ok _ Hi)) as (d' & Hs & _); [auto|].
  rewrite bind_run, lift_run, Hm, bind_run, Hs. intros Hr.
  destruct (notify_run (λ d, OnProcess d pid (p_EntityID p) (p_MkRoot p) (np_MkURI tx)) (λ d, OnProcess d pid
    (p_EntityID p) (p_MkRoot p) (np_MkURI tx)) _ _ _ _ (λ l, silent_process _ _ _ _ _ l) Hr Hnp eq_refl) as [_ Hsc].
  cbn in Hsc.
  eapply proc_step_written; [exact Hw| |by rewrite Hsc|by rewrite Hsc|].
  - unfold wproc. rewrite Hn. done.
  - rewrite Hsc. eexists. split; [done|]. split; [by intros x ->%list_elem_of_singleton|done].
Qed.

(** *** A vote *)
Definition pool_vote (p : Process) (v : Vote) (sc : Scrutinizer) : Scrutinizer :=
  if IsEncrypted p then sc else set_pools (sc_votePool sc ++ [v]) (sc_processPool sc) (sc_resultsPool sc) sc.
Lemma in_block_vote s s' vid b v p : in_block s → store_inv (Store s') → adds (Store s) VoteTree vid b (Store s') →
  wk (Store s) VoteTree vid = None → dec_vote (Some b) = Some v → wproc (Store s) (v_ProcessID v) = Some p →
  (IsEncrypted p = false → ∀ bal, live_ballot v = Some bal → ballot_ok bal) →
  scrutinizer_of s' = pool_vote p v (scrutinizer_of s) → in_block s'.
Proof.
  intros Hb Hi' Ha Hn Hv Hp Hbal Hsc.
  assert (∀ pid, wproc (Store s') pid = wproc (Store s) pid) as Hwp.
  { intros pid. unfold wproc. by rewrite (adds_wk_tree _ _ _ _ _ _ _ Ha). }
  assert (∀ pid, cproc (Store s') pid = cproc (Store s) pid) as Hcp.
  { intros pid. unfold cproc. by rewrite (adds_ck _ _ _ _ _ _ _ Ha). }
  assert (sc_Storage (scrutinizer_of s') = sc_Storage (scrutinizer_of s) ∧
          sc_processPool (scrutinizer_of s') = sc_processPool (scrutinizer_of s)) as [Hst Hpp].
  { rewrite Hsc. unfold pool_vote. by destruct (IsEncrypted p). }
  constructor.
  - eapply counted_same; [apply Hb|done|apply Ha|done].
  - intros pid q. rewrite Hwp. intros Hq He. destruct Ha as (_ & Hcm & t & Ht & Hw). unfold wvotes, cvotes.
    rewrite Hcm, Hw, lookup_insert_eq. cbn [default from_option id].
    unfold wk in Hn. rewrite Ht in Hn. cbn in Hn. rewrite (votes_of_insert t vid b v pid Hn Hv).
    pose proof (ib_votes _ Hb pid q Hq He) as Hperm. unfold wvotes, cvotes in Hperm. rewrite Ht in Hperm.
    cbn [default from_option id] in Hperm. rewrite Hperm, Hsc. unfold pool_vote.
    case_decide as Hpid; [|destruct (IsEncrypted p); [done|]].
    + subst pid. assert (q = p) as -> by congruence. rewrite He. cbn [sc_votePool set_pools].
      rewrite filter_app, filter_cons_True, filter_nil by done.
      rewrite (app_assoc _ _ [v]). apply Permutation_app_comm.
    + cbn [sc_votePool set_pools]. rewrite filter_app, filter_cons_False, filter_nil, app_nil_r by done. done.
  - assert (Forall (pooled (Store s')) (sc_votePool (scrutinizer_of s))) as HF.
    { eapply Forall_impl; [apply (ib_pool _ Hb)|]. intros w [Hw Hok]. split; [by rewrite Hwp|done]. }
    rewrite Hsc. unfold pool_vote. destruct (IsEncrypted p) eqn:He; [done|]. cbn [sc_votePool set_pools].
    apply Forall_app. split; [done|]. constructor; [|constructor]. split; [|by apply Hbal].
    exists p. by rewrite Hwp.
  - intros pid q. rewrite Hwp, Hcp, Hpp. apply Hb.
  - rewrite Hpp. eapply Forall_impl; [apply (ib_procs _ Hb)|]. intros x. by rewrite Hwp.
  - destruct (ib_header _ Hb) as [h Hh]. exists h. rewrite <- Hh.
    apply Header_wk; [apply (cn_store _ (ib_counted _ Hb))|apply Hi'|by rewrite (adds_wk_tree _ _ _ _ _ _ _ Ha)].
Qed.

#[local] Instance ballot_ok_dec b : Decision (ballot_ok b).
Proof. unfold ballot_ok. apply _. Defined.
(** A vote the working tree does not have yet and, in a poll, with answers that
    can be counted. *)
Definition fresh_vote (v : Vote) s : bool :=
  match TreeGet (Store s) VoteTree (v_ProcessID v ++ v_Nullifier v) with Ok None => true | _ => false end &&
  match isLiveResultsProcess (Store s) (v_ProcessID v), live_ballot v with
  | Ok true, Some b => bool_decide (ballot_ok b)
  | _, _ => true
  end.
Lemma fresh_vote_spec v s p : store_ok (Store s) → wproc (Store s) (v_ProcessID v) = Some p → fresh_vote v s = true →
  wk (Store s) VoteTree (v_ProcessID v ++ v_Nullifier v) = None ∧
  (IsEncrypted p = false → ∀ b, live_ballot v = Some b → ballot_ok b).
Proof.
  intros Hok Hp%Process_wproc Hf; [|done]. unfold fresh_vote in Hf. rewrite TreeGet_wk in Hf by auto.
  apply andb_true_iff in Hf as [Hn Hb]. split; [by destruct (wk _ _ _)|]. intros He b Eb. revert Hb.
  unfold isLiveResultsProcess, ProcessInfo. rewrite Hp, Eb. cbn. rewrite He. cbn. by intros ?%bool_decide_eq_true.
Qed.

Lemma AddVote_step v p s r s' : in_block s → wproc (Store s) (v_ProcessID v) = Some p →
  EnvelopeExists (Store s) (v_ProcessID v) (v_Nullifier v) = Ok false → fresh_vote v s = true →
  AddVote v s = (r, s') → is_panic r = false → in_block s'.
Proof.
  intros Hb Hp He Hf Hr Hnp. pose proof (cn_store _ (ib_counted _ Hb)) as Hi.
  destruct (fresh_vote_spec v s p (si_ok _ Hi) Hp Hf) as [Hn Hbal].
  destruct (AddVote_good v s Hi (ex_intro _ _ Hp) He) as [Hi' _]. rewrite Hr in Hi'.
  revert Hr. unfold AddVote. rewrite bind_run, lift_run.
  destruct (voteID (v_ProcessID v) (v_Nullifier v)) as [vid|e|w] eqn:Ev; [|by intros [= <- <-]..].
  apply voteID_Ok in Ev as (Hl & _ & ->). destruct (ib_header _ Hb) as [h Hh].
  rewrite bind_run, on_store_run, Hh, bind_run, lift_run, bind_run, lift_run.
  set (v' := set_Height (h_Height h) v).
  destruct (roundtrips_marshal_or "cannot marshal vote" v') as (b & Hm & _ & Hu).
  { apply law_amino_vote. cbn. by destruct (v_ProcessID v). }
  destruct (store_add_Some s VoteTree (v_ProcessID v ++ v_Nullifier v) b (si_ok _ Hi)) as (d' & Hs & Ha); [auto|].
  rewrite Hm, bind_run, Hs. intros Hr.
  assert (Process_ d' (v_ProcessID v) false = Ok p) as Hp'.
  { apply Process_wproc; [apply Ha|]. rewrite <- Hp. unfold wproc. by rewrite (adds_wk_tree _ _ _ _ _ _ _ Ha). }
  destruct (notify_run (λ d, OnVote d v') (λ d, OnVote d v') _ _ _ (pool_vote p v' (scrutinizer_of s))
    (λ l, silent_vote _ _ l) Hr Hnp) as [Hst Hsc].
  { cbn. unfold scrutinizer_OnVote, isLiveResultsProcess, ProcessInfo, pool_vote. cbn [v' set_Height v_ProcessID].
    rewrite Hp'. cbn. by destruct (IsEncrypted p). }
  cbn in Hst. rewrite <- Hst in Ha. apply (in_block_vote s s' _ b v' p Hb Hi' Ha Hn); [|done|done|done].
  unfold dec_vote. by rewrite Hu.
Qed.

(** *** The calls of a block *)
Lemma in_block_cache vc s : in_block s → in_block (set_voteCache vc s).
Proof. intros Hb. eapply proc_step_in_block; [exact Hb|apply Hb|by apply proc_step_same]. Qed.

(** The vote that a transaction would add, if it is accepted, is fresh. *)
Definition fresh_tx (gtx : GenericTX) (now : Z) s : bool :=
  match gtx with
  | GVoteTx tx => match VoteTxCheck tx now true s with (Ok v, _) => fresh_vote v s | _ => true end
  | _ => true
  end.
(** The result of a call that is followed by a plain return. *)
Lemma returns_run {A B} (r1 : res A) (b : B) s1 r s' :
  match r1 with Ok _ => (Ok b, s1) | Err e => (Err e, s1) | Panic w => (Panic w, s1) end = (r, s') →
  is_panic r = false → is_panic r1 = false ∧ s' = s1.
Proof. destruct r1; by intros [= <- <-]. Qed.
Lemma vote_tx_step tx now s r s' : in_block s → fresh_tx (GVoteTx tx) now s = true →
  AddTx (GVoteTx tx) now true s = (r, s') → is_panic r = false → in_block s'.
Proof.
  intros Hb. cbn [fresh_tx AddTx]. rewrite bind_run. destruct (VoteTxCheck_cache tx now true s) as [vc Hs].
  pose proof (in_block_cache vc s Hb) as Hb1.
  destruct (VoteTxCheck tx now true s) as [[v|e|w] s1] eqn:Ev; cbn in Hs; subst s1; [|by intros _ [= <- <-]..].
  intros Hf. destruct (VoteTxCheck_Ok _ _ _ _ _ _ Ev) as (pid & p & Ho & Hv & _ & _ & He).
  destruct (open_process_Ok _ _ _ _ (si_ok _ (cn_store _ (ib_counted _ Hb))) Ho) as (h & _ & Hp & _).
  assert (v_ProcessID v = pid) as Hpid by (by rewrite Hv). subst pid.
  rewrite bind_run. destruct (AddVote v (set_voteCache vc s)) as [r1 s1] eqn:Ea. intros Hr Hnp.
  destruct (returns_run _ _ _ _ _ Hr Hnp) as [Hnp1 ->].
  by eapply (AddVote_step v p).
Qed.
Lemma AddTx_step gtx now s r s' : in_block s → fresh_tx gtx now s = true →
  AddTx gtx now true s = (r, s') → is_panic r = false → in_block s'.
Proof.
  intros Hb. destruct gtx as [tx|tx|tx|tx]; [by apply vote_tx_step|..]; intros _; cbn [AddTx];
    pose proof (cn_store _ (ib_counted _ Hb)) as Hi; rewrite bind_run, on_store_run.
  - destruct (AdminTxCheck tx (Store s)) as [[]|e|w] eqn:Ec; [|by intros [= <- <-]..].
    rewrite bind_run. destruct (pstep_exec_admin tx s Hi Ec) as [Hi' Hps].
    destruct (exec_admin tx s) as [r1 s1]. intros Hr Hnp. destruct (returns_run _ _ _ _ _ Hr Hnp) as [_ ->].
    by eapply proc_step_in_block.
  - destruct (CancelProcessTxCheck tx (Store s)) as [[]|e|w] eqn:Ec; [|by intros [= <- <-]..].
    assert (stays pstep (_ ← (pid ← lift (hex_DecodeString (TrimHex (cp_ProcessID tx))); CancelProcess pid);
      mret (M := GM NState) (@nil Byte.byte))) as Hst by (pose proof pstep_CancelProcess; stays_tac).
    destruct (Hst s Hi) as [Hi' Hps]. intros Hr _. rewrite Hr in Hi', Hps. by eapply proc_step_in_block.
  - destruct (NewProcessTxCheck tx (Store s)) as [p|e|w] eqn:Ec; [|by intros [= <- <-]..].
    rewrite bind_run, bind_run, lift_run.
    destruct (hex_DecodeString (np_ProcessID tx)) as [pid|e|w] eqn:Ed; [|by intros [= <- <-]..].
    destruct (AddProcess p pid (np_MkURI tx) s) as [r1 s1] eqn:Ea. intros Hr Hnp.
    destruct (returns_run _ _ _ _ _ Hr Hnp) as [Hnp1 ->].
    destruct (AddProcess_step tx p pid s r1 s1 Hi Ec Ed Ea Hnp1). by eapply proc_step_in_block.
Qed.

(** A delivery that may break the agreement of count and votes: a second vote
    with the same nullifier in the block, or a ballot that cannot be counted. *)
Definition fresh_call (c : abci_call) s : bool :=
  match c with
  | CDeliverTx tx now => match UnmarshalTx tx with Ok gtx => fresh_tx gtx now s | _ => true end
  | _ => true
  end.
Lemma DeliverTx_step tx now s s' : in_block s → fresh_call (CDeliverTx tx now) s = true →
  abci_step (CDeliverTx tx now) s s' → in_block s'.
Proof.
  intros Hb. unfold abci_step. cbn [fresh_call run_call]. unfold DeliverTx. rewrite bind_run. unfold try_.
  rewrite bind_run, lift_run. destruct (UnmarshalTx tx) as [gtx|e|w]; [|by intros _ [= <-]|done].
  intros Hf. destruct (AddTx gtx now true s) as [r1 s1] eqn:Ea.
  destruct r1 as [b|e|w]; [|..|done]; intros [= <-]; by eapply AddTx_step.
Qed.
Lemma CheckTx_step tx now rc s s' : abci_step (CCheckTx tx now rc) s s' →
  Store s' = Store s ∧ eventListeners s' = eventListeners s.
Proof.
  unfold abci_step. cbn [run_call]. intros Hr.
  assert (∃ vc, (CheckTx tx now rc s).2 = set_voteCache vc s) as [vc Hvc].
  { assert (∃ vc, s = set_voteCache vc s) as Hs by (exists (voteCache s); by destruct s).
    unfold CheckTx. destruct rc; [done|]. rewrite bind_run. unfold try_. rewrite bind_run, lift_run.
    destruct (UnmarshalTx tx) as [gtx|e|w]; [|done|done].
    assert (∃ vc, (AddTx gtx now false s).2 = set_voteCache vc s) as Ha.
    { destruct gtx as [x|x|x|x]; simpl; rewrite bind_run; [|rewrite on_store_run; by repeat case_match..].
      pose proof (VoteTxCheck_cache x now false s). by destruct (VoteTxCheck x now false s) as [[] ?]. }
    by destruct (AddTx gtx now false s) as [[] ?]. }
  destruct (CheckTx tx now rc s) as [[] s1]; cbn in Hvc; simplify_eq/=; done.
Qed.

Lemma call_inv c s s' : store_inv (Store s) → abci_step c s s' → store_inv (Store s').
Proof. intros Hi Hc. by destruct (run_call_good _ _ _ Hc Hi). Qed.

(** *** The start and the end of a block *)
Lemma Rollback_run s r s' : store_inv (Store s) → Rollback_ s = (r, s') → is_panic r = false →
  r = Ok () ∧ store_ok (Store s') ∧ db_work (Store s') = db_comm (Store s) ∧ db_comm (Store s') = db_comm (Store s) ∧
  scrutinizer_of s' = Rollback (scrutinizer_of s).
Proof.
  intros Hi Hr Hnp. revert Hr. unfold Rollback_. rewrite bind_run. destruct (notify ListenerRollback s) as [r1 s1] eqn:En. intros Hr.
  assert (is_panic r1 = false) as Hnp1 by (destruct r1; [done|done|by injection Hr as <- <-]).
  destruct (notify_run ListenerRollback (λ d, ListenerRollback d) _ _ _ _ (λ l, silent_rollback _ l) En Hnp1 eq_refl)
    as [Hst Hsc].
  assert (store_inv (Store (store_rollback s1).2)) as Hi' by (apply keeps_rollback; by rewrite Hst).
  assert (r1 = Ok ()) as ->.
  { revert En. unfold notify, updates. cbn. unfold both.
    destruct (ListenerRollback (Store s) (eventListeners s).1) as [l|e|w] eqn:El; [by intros [= <- _]|..].
    - by apply silent_rollback in El.
    - intros [= <- _]. done. }
  destruct (db_rollback (Store s1)) as (d' & Hd & Hok & Hw & Hc); [rewrite Hst; apply Hi|].
  unfold store_rollback in Hr, Hi'. rewrite Hd in Hr, Hi'. injection Hr as <- <-. rewrite Hst in *.
  split_and!; try done. apply Hi'.
Qed.

Lemma in_block_start s : counted s → (∀ t, t ≠ AppTree → db_work (Store s) !! t = db_comm (Store s) !! t) →
  sc_votePool (scrutinizer_of s) = [] → sc_processPool (scrutinizer_of s) = [] →
  (∃ h, Header_ (Store s) false = Ok (Some h)) → in_block s.
Proof.
  intros Hc Hw Hv Hp Hh.
  assert (∀ pid, wproc (Store s) pid = cproc (Store s) pid) as Hwp.
  { intros pid. unfold wproc, cproc, wk, ck. by rewrite Hw. }
  constructor; rewrite ?Hv, ?Hp; try done.
  - intros pid p _ _. unfold wvotes, cvotes. by rewrite Hw, app_nil_r.
  - intros pid p. rewrite Hwp. congruence.
Qed.
Lemma BeginBlock_step h now s s' : counted s → h_Height h ≠ 0 ∨ h_Time h ≠ 0 →
  abci_step (CBeginBlock h now) s s' → in_block s'.
Proof.
  intros Hc Hh Hs. pose proof (call_inv _ _ _ (cn_store _ Hc) Hs) as Hi'.
  destruct (law_amino_header h Hh) as (b & Hm & _ & Hu).
  unfold abci_step in Hs. cbn [run_call] in Hs. unfold BeginBlock in Hs. rewrite bind_run, lift_run, Hm, bind_run in Hs.
  destruct (Rollback_ s) as [r1 s1] eqn:Er.
  assert (is_panic r1 = false) as Hnp by (by destruct r1).
  destruct (Rollback_run _ _ _ (cn_store _ Hc) Er Hnp) as (-> & Hok & Hw & Hcm & Hsc).
  rewrite bind_run in Hs. unfold fatal in Hs.
  destruct (store_add_Some s1 AppTree headerKey b Hok) as (d' & Ha & Had); [auto|]. rewrite Ha, bind_run, on_store_run in Hs.
  assert (∃ vc, s' = set_voteCache vc (set_Store d' s1)) as [vc ->].
  { destruct (Header_ _ true) as [[hd|]|e|w]; [|done|injection Hs as <-; by exists (voteCache s1)|done].
    injection Hs as <-. unfold VoteCachePurge. case_decide; [by exists (voteCache s1)|by eexists]. }
  assert (counted (set_voteCache vc (set_Store d' s1))) as Hc'.
  { eapply counted_same; [exact Hc|done| |by unfold scrutinizer_of; cbn; unfold scrutinizer_of in Hsc; rewrite Hsc].
    cbn. by rewrite (proj1 (proj2 Had)), Hcm. }
  apply in_block_start; [done| |by unfold scrutinizer_of in *; cbn; rewrite Hsc..|].
  - intros t Ht. cbn. destruct Had as (_ & -> & t0 & _ & ->). by rewrite lookup_insert_ne, Hw, Hcm.
  - exists h. cbn [Store set_voteCache set_Store]. unfold Header_, tree_get. rewrite TreeGet_wk by (auto; apply Hi').
    rewrite (adds_wk_same _ _ _ _ _ Had). cbn [mbind res_bind]. by rewrite Hu.
Qed.
Lemma Info_step s s' : counted s → abci_step CInfo s s' → counted s'.
Proof.
  intros Hc Hs. pose proof (call_inv _ _ _ (cn_store _ Hc) Hs) as Hi'.
  unfold abci_step in Hs. cbn [run_call] in Hs. unfold Info in Hs. rewrite bind_run, on_store_run in Hs.
  destruct (Header_ (Store s) false) as [hd|e|w]; [|by injection Hs as <-|done].
  rewrite bind_run in Hs. destruct (Rollback_ s) as [r1 s1] eqn:Er.
  assert (is_panic r1 = false) as Hnp by (by destruct r1).
  destruct (Rollback_run _ _ _ (cn_store _ Hc) Er Hnp) as (-> & Hok & Hw & Hcm & Hsc).
  rewrite bind_run, on_store_run in Hs.
  assert (s' = s1) as -> by (destruct (AppHash _ _); by simplify_eq/=).
  eapply counted_same; [exact Hc|done|done|by rewrite Hsc].
Qed.

(** The commit counts the votes of the pool. *)
Lemma in_block_pool s : in_block s → pool_ok (sc_votePool (scrutinizer_of s)).
Proof.
  intros Hb. eapply Forall_impl; [apply (ib_pool _ Hb)|]. intros v [(p & Hp & _) Hok]. split; [|done].
  destruct (wproc_wf _ _ _ (cn_store _ (ib_counted _ Hb)) Hp) as [Hl _]. by destruct (v_ProcessID v).
Qed.
Lemma Process_work d d' pid p : store_ok d' → db_work d' = db_work d → wproc d pid = Some p →
  Process_ d' pid false = Ok p.
Proof. intros Hok Hw Hp. apply Process_wproc; [done|]. rewrite <- Hp. unfold wproc, wk. by rewrite Hw. Qed.
Lemma in_block_procs s d' : in_block s → store_ok d' → db_work d' = db_work (Store s) →
  Forall (λ p, is_panic (Process_ d' (od_ProcessID p) false) = false) (sc_processPool (scrutinizer_of s)).
Proof.
  intros Hb Hok Hw. eapply Forall_impl; [apply (ib_procs _ Hb)|]. intros x [p Hp].
  by rewrite (Process_work _ _ _ _ Hok Hw Hp).
Qed.
Lemma counted_commit s d' h sc' s' : in_block s → store_inv (Store s') → Store s' = d' →
  db_work d' = db_work (Store s) → db_comm d' = db_work (Store s) →
  Scrutinizer.Commit d' h (scrutinizer_of s) = (Ok (), sc') → scrutinizer_of s' = sc' → counted s'.
Proof.
  intros Hb Hi' <- Hw Hcm Hr <-. pose proof (cn_store _ (ib_counted _ Hb)) as Hi. set (sc := scrutinizer_of s) in *.
  assert (∀ pid, cproc (Store s') pid = wproc (Store s) pid) as Hcp by (intros; unfold cproc, wproc, ck, wk; by rewrite Hcm).
  assert (∀ pid, cvotes (Store s') pid = wvotes (Store s) pid) as Hcv by (intros; unfold cvotes, wvotes; by rewrite Hcm).
  destruct (Commit_live (Store s') h sc) as (sc2 & Hr2 & Hl & Hsr & Hold & Hnew & Honly);
    [apply Hb|by apply in_block_pool|apply in_block_procs; [done|apply Hi'|done]|].
  rewrite Hr in Hr2. injection Hr2 as <-. constructor; [done|done|..].
  - intros pid p. rewrite Hcp, Hcv. intros Hp He.
    assert (omap live_ballot (wvotes (Store s) pid) ≡ₚ
      omap live_ballot (cvotes (Store s) pid) ++ pool_ballots pid (sc_votePool sc)) as Hperm.
    { rewrite (ib_votes _ Hb pid p Hp He). unfold pool_ballots. by rewrite omap_app. }
    destruct (cproc (Store s) pid) as [p0|] eqn:Hp0.
    + destruct (si_procs _ Hi _ _ Hp0) as (p1 & Hp1 & Hev). simplify_eq.
      destruct (cn_count _ (ib_counted _ Hb) pid p0 Hp0) as (bs & Hbs & Hbp).
      { by rewrite <- (IsEncrypted_type _ _ (ev_type _ _ Hev)). }
      exists (bs ++ pool_ballots pid (sc_votePool sc)). split; [by apply Hold|]. by rewrite Hperm, Hbp.
    + exists (pool_ballots pid (sc_votePool sc)). split.
      * apply (Hnew pid p); [by eapply (ib_new _ Hb)|by eapply Process_work; [apply Hi'|..]|done|]. left. by apply (cn_none _ (ib_counted _ Hb)).
      * by rewrite Hperm, (no_cprocess_no_votes _ _ Hi Hp0).
  - intros pid. rewrite Hcp. intros Hn. apply Honly.
    + intros (x & -> & Hx)%list_elem_of_fmap. eapply list.Forall_forall in Hx; [|apply (ib_procs _ Hb)].
      destruct Hx as [p Hp]. congruence.
    + apply (cn_none _ (ib_counted _ Hb)). destruct (cproc (Store s) pid) as [p|] eqn:Hp; [|done].
      destruct (si_procs _ Hi _ _ Hp) as (p' & Hp' & _). congruence.
  - intros pid. rewrite Hsr. apply (cn_results _ (ib_counted _ Hb)).
Qed.
Lemma Commit_step s s' : in_block s → abci_step CCommit s s' → counted s'.
Proof.
  intros Hb Hs. pose proof (cn_store _ (ib_counted _ Hb)) as Hi. pose proof (call_inv _ _ _ Hi Hs) as Hi'.
  destruct (db_commit (Store s)) as (hash & d' & Hd & Hok & Hw & Hcm); [right; apply Hi|].
  destruct (ib_header _ Hb) as [h Hh].
  revert Hs. unfold abci_step. cbn [run_call]. unfold App.Commit, Save, store_commit.
  rewrite bind_run, Hd, bind_run, on_store_run. cbn [Store set_Store].
  destruct (good_commit (Store s) d' Hok Hw Hcm Hi) as [Hid _].
  rewrite (Header_wk (Store s) d'), Hh by (try apply Hi; try apply Hid; unfold wk; by rewrite Hw).
  rewrite bind_run. destruct (notify _ (set_Store d' s)) as [r1 s1] eqn:En. intros Hr.
  assert (s' = s1 ∧ is_panic r1 = false) as [-> Hnp].
  { destruct r1; [injection Hr as <-|injection Hr as <-|]; done. }
  assert (∃ sc', Scrutinizer.Commit d' (h_Height h) (scrutinizer_of s) = (Ok (), sc')) as [sc' Hc].
  { destruct (Commit_live d' (h_Height h) (scrutinizer_of s)) as (sc2 & Hr2 & _);
      [apply Hb|by apply in_block_pool|apply in_block_procs; [done|apply Hid|done]|by eexists]. }
  destruct (notify_run (λ d, ListenerCommit d (h_Height h)) (λ d, ListenerCommit d (h_Height h)) _ _ _ sc'
    (λ l, silent_commit _ _ l) En Hnp) as [Hst Hsc].
  { cbn. unfold run_listener. change (scrutinizer_of (set_Store d' s)) with (scrutinizer_of s). by rewrite Hc. }
  by eapply (counted_commit s d').
Qed.

(** *** Runs *)

(** The order of Tendermint: transactions and the commit within a block, whose
    height is positive, [Info] at a handshake, and [CheckTx] at any time.  The
    answer is whether a block is then open. *)
Definition block_order (open : bool) (c : abci_call) : option bool :=
  match c with
  | CBeginBlock h _ => if decide (0 < h_Height h) then Some true else None
  | CDeliverTx _ _ => if open then Some true else None
  | CCommit => if open then Some false else None
  | CCheckTx _ _ _ => Some open
  | CInfo => Some false
  end.
Fixpoint orderly (open : bool) (cs : list abci_call) s : option NState :=
  match cs with
  | [] => Some s
  | c :: cs' =>
      match block_order open c with
      | Some open' => if fresh_call c s then s' ← run_call c s; orderly open' cs' s' else None
      | None => None
      end
  end.
Lemma orderly_run open cs s s' : orderly open cs s = Some s' → run_calls cs s = Some s'.
Proof.
  revert open s. induction cs as [|c cs IH]; intros open s; [done|]. cbn [orderly run_calls].
  destruct (block_order open c) as [o|]; [|done]. destruct (fresh_call c s); [|done].
  destruct (run_call c s) as [s1|]; [|done]. apply IH.
Qed.

Definition phase (open : bool) s : Prop := if open then in_block s else counted s.
Lemma phase_counted open s : phase open s → counted s.
Proof. destruct open; [apply ib_counted|done]. Qed.
Lemma phase_step open open' c s s' : phase open s → block_order open c = Some open' → fresh_call c s = true →
  abci_step c s s' → phase open' s'.
Proof.
  intros Hp Ho Hf Hs. destruct c as [h now|tx now rc|tx now| |]; cbn [block_order] in Ho.
  - case_decide; [|done]. injection Ho as <-. apply (BeginBlock_step h now s); [by eapply phase_counted|left; lia|exact Hs].
  - injection Ho as <-. destruct (CheckTx_step _ _ _ _ _ Hs) as [Hst He].
    pose proof (call_inv _ _ _ (cn_store _ (phase_counted _ _ Hp)) Hs) as Hi. destruct open.
    + eapply proc_step_in_block; [exact Hp|done|by apply proc_step_same].
    + eapply counted_same; [exact Hp|done|by rewrite Hst|unfold scrutinizer_of; by rewrite He].
  - destruct open; [|done]. injection Ho as <-. by eapply DeliverTx_step.
  - destruct open; [|done]. injection Ho as <-. by eapply Commit_step.
  - injection Ho as <-. eapply Info_step; [by eapply phase_counted|exact Hs].
Qed.
Lemma orderly_counted open cs s s' : phase open s → orderly open cs s = Some s' → counted s'.
Proof.
  revert open s. induction cs as [|c cs IH]; intros open s Hp; cbn [orderly].
  - intros [= <-]. by eapply phase_counted.
  - destruct (block_order open c) as [o|] eqn:Eo; [|done]. destruct (fresh_call c s) eqn:Ef; [|done].
    destruct (run_call c s) as [s1|] eqn:Es; [|done]. apply IH. by eapply phase_step.
Qed.
Lemma counted_start s : store_inv (Store s) → (∀ pid, cproc (Store s) pid = None) →
  scrutinizer_of s = NewScrutinizer ∅ → counted s.
Proof.
  intros Hi Hp Hs. assert (sc_Storage (scrutinizer_of s) = ∅) as He by (by rewrite Hs).
  constructor; [done|..]; intros pid; rewrite ?He, ?Hp; try done. by intros [? ?].
Qed.
Lemma counted_result s pid p : counted s → cproc (Store s) pid = Some p → IsEncrypted p = false →
  (VoteResult (Store s) pid (scrutinizer_of s)).1
    = Ok (prune_ref (count_matrix (omap live_ballot (cvotes (Store s) pid)))).
Proof.
  intros Hc Hp He. destruct (cn_count _ Hc pid p Hp He) as (bs & Hbs & Hperm).
  destruct (si_procs _ (cn_store _ Hc) _ _ Hp) as (p' & Hp' & Hev).
  rewrite <- (count_matrix_perm _ _ Hperm). eapply VoteResult_live; [|by rewrite (IsEncrypted_type _ _ (ev_type _ _ Hev))|apply Hc|done].
  apply Process_wproc; [apply Hc|done].
Qed.
End node.

(** ** The node from its genesis on *)
Section run.
Context {mtree itree L : Type} `{IavlLaws mtree itree} `{AminoLaws} `{CryptoLib} `{TxJSON} `{GenesisJSON}
        `{ScrutinizerLaws} `{!EventListener (@IavlState mtree itree) L} `{!SilentListener (@IavlState mtree itree) L}.

(** C22: a node started on an empty directory, with a scrutinizer that has an
    empty database, next to other listeners, and run in Tendermint's order of
    calls.  As long as no block has two votes with one
    nullifier and no vote has answers out of range, the result reported for
    every committed poll that is not encrypted is at every moment the count of
    the ballots in the committed votes of that poll: none is lost, counted
    twice or counted before it is committed.  The goroutines that compute the
    final results of encrypted processes are no part of the run. *)
Theorem live_result_is_recount dir g gas s0 r s2 (s3 : State (@IavlState mtree itree) (L * Scrutinizer)) cs s4 pid p :
  empty_dir (mtree := mtree) dir → NewState dir = Ok s0 → genesis_state g = Ok gas → InitChain g s0 = (r, s2) →
  Store s3 = Store s2 → scrutinizer_of s3 = NewScrutinizer ∅ → orderly false cs s3 = Some s4 →
  cproc (Store s4) pid = Some p → IsEncrypted p = false →
  (VoteResult (Store s4) pid (scrutinizer_of s4)).1
    = Ok (prune_ref (count_matrix (omap live_ballot (cvotes (Store s4) pid)))).
Proof.
  intros Hd Hn Hg Hi Hst Hsc Hcs Hp He. destruct (NewState_blank dir Hd) as (s0' & Hn' & Hb & _).
  assert (s0' = s0) as -> by congruence.
  destruct (InitChain_store s0 g gas Hb Hg) as (Hinv & _ & _ & _ & _ & Hnp & _). rewrite Hi in Hinv, Hnp.
  eapply counted_result; [|done|done]. eapply (orderly_counted false); [|exact Hcs].
  apply counted_start; [by rewrite Hst|intros q; rewrite Hst; apply Hnp|done].
Qed.
End run.

Definition poll_calls : list abci_call :=
  block1 ++ [CBeginBlock (header_at 2) 0; CDeliverTx (signed_Vote voter (vote_tx voter (package [1]))) 0; CCommit; CInfo].
Definition polled : option (State (@IavlState ctree citree) (() * Scrutinizer)) :=
  match at_genesis with
  | Ok s => orderly false poll_calls (AddEventListener (NewScrutinizer ∅) s)
  | _ => None
  end.
Lemma live_result_is_recount_witness : ∃ s4, polled = Some s4 ∧
  (VoteResult (Store s4) pid1 (scrutinizer_of s4)).1 = Ok [[0; 1]] ∧
  prune_ref (count_matrix (omap live_ballot (cvotes (Store s4) pid1))) = [[0; 1]].
Proof.
  pose proof at_genesis_ok as Hok. unfold at_genesis in Hok.
  destruct (NewState (mtree := ctree) (itree := citree) "data") as [s0| |] eqn:En; [|done|done].
  destruct (InitChain genesis s0) as [[[]| |] s2] eqn:Ei; [|done|done].
  assert (at_genesis = Ok s2) as Hg by (unfold at_genesis; by rewrite En, Ei).
  assert (match polled with
          | Some s => (VoteResult (Store s) pid1 (scrutinizer_of s)).1
          | None => Err "" end = Ok [[0; 1]]) as Hv by (vm_compute; reflexivity).
  assert (match polled with
          | Some s => match cproc (Store s) pid1 with Some p => negb (IsEncrypted p) | None => false end
          | None => false end = true) as Hp by (vm_compute; reflexivity).
  destruct polled as [s4|] eqn:Es; [|done]. exists s4. split; [done|]. split; [done|].
  destruct (cproc (Store s4) pid1) as [p|] eqn:Ep; [|done].
  unfold polled in Es. rewrite Hg in Es.
  rewrite (live_result_is_recount "data" genesis _ s0 _ s2 (AddEventListener (NewScrutinizer ∅) s2) poll_calls s4 pid1 p
    (concrete_empty_dir _) En genesis_decodes Ei eq_refl eq_refl Es Ep (proj1 (negb_true_iff _) Hp)) in Hv.
  exact (Ok_inj _ _ Hv).
Defined.
