(* ===== verification/Replies.v ===== *)
(** * One message, one answer

    Whatever a callback of the router does, it sends at most one message, and to
    the connection its request came from ([Route_answers]). *)

From stdpp Require Import base gmap strings list fin_maps.
From Stdlib Require Import ZArith Lia.
From S2P Require Import Prelude GoLib Types StateDB Crypto Codec State Transaction App StateFacts Database.
From S2P Require Import Scrutinizer Graviton Trie Api Census VochainInfo Node Router.
Open Scope Z_scope.

(** ** One message, at most one answer *)
Section answers.
Context {DB L : Type} `{StateDB DB} `{AminoLib} `{CryptoLib} `{TxJSON} `{!EventListener DB L}.
Context `{ScrutinizerCodec} `{!Graviton} `{CensusEnv} `{RouterEnv} `{AddressText} `{Mempool}.
Context (scrutinizer_of : L → option Scrutinizer).
Implicit Types (r : Router (DB := DB) (L := L)).
Abbreviation M := (GM (Router (DB := DB) (L := L))).

Definition silent r r' : Prop := r_sent r' = r_sent r.
#[local] Instance silent_refl : Reflexive silent.
Proof. done. Qed.
#[local] Instance silent_trans : Transitive silent.
Proof. unfold silent. congruence. Qed.

(** At most one message, to [ctx]; exactly one if the call succeeds and [P]. *)
Definition answers (P : Prop) (ctx : option Z) (m : M ()) : Prop := ∀ r a r', m r = (a, r') →
  ∃ ms, r_sent r' = r_sent r ++ ms ∧ Forall (λ x, msg_Context x = ctx) ms ∧ (length ms ≤ 1)%nat ∧
        (a = Ok () → P → length ms = 1%nat).
(** Responses can be marshalled. *)
Definition marshals : Prop := ∀ resp e, marshal_MetaResponse resp ≠ Err e.

Lemma no_answer (Q : Prop) ctx r (a : res ()) : (a = Ok () → ¬ Q) →
  ∃ ms, r_sent r = r_sent r ++ ms ∧ Forall (λ x, msg_Context x = ctx) ms ∧ (length ms ≤ 1)%nat ∧
        (a = Ok () → Q → length ms = 1%nat).
Proof. intros Ha. exists []. rewrite app_nil_r. split_and!; [done|constructor|cbn; lia|]. intros Hok HQ. by destruct (Ha Hok). Qed.
Lemma answers_after {A} P ctx (m : M A) k : stays silent m → (∀ a, answers P ctx (k a)) → answers P ctx (m ≫= k).
Proof.
  intros Hm Hk r a r'. rewrite GM_run. pose proof (Hm r) as Hs. destruct (m r) as [x r1] eqn:Em. unfold silent in Hs. cbn in Hs.
  destruct x as [x|e|w].
  - intros Hr. apply Hk in Hr. by rewrite Hs in Hr.
  - intros [= <- <-]. rewrite <- Hs. by apply no_answer.
  - intros [= <- <-]. rewrite <- Hs. by apply no_answer.
Qed.
Lemma answers_panic P ctx w : answers P ctx (lift (Panic w)).
Proof. intros r a r' [= <- <-]. by apply no_answer. Qed.
Lemma answers_nothing (P : Prop) ctx : ¬ P → answers P ctx (mret ()).
Proof. intros HP r a r' [= <- <-]. by apply no_answer. Qed.
Lemma answers_Send P request data now :
  answers P (rr_Context request) (Send request (reply_of request data now)).
Proof.
  unfold Send. destruct (rr_Context request) as [c|] eqn:Ec; [|apply answers_panic].
  intros r a r' [= <- <-]. exists [reply_of request data now].
  split_and!; [done|constructor; [done|constructor]|cbn; lia|done].
Qed.
Lemma answers_reply P request resp now : answers P (rr_Context request) (reply request resp now).
Proof.
  intros r a r'. unfold reply. rewrite GM_run. unfold reads.
  destruct (buildReply request resp now r) as [msg|e|w] eqn:Eb.
  - assert (∃ data, msg = reply_of request data now) as [data ->].
    { revert Eb. unfold buildReply. destruct (marshal_MetaResponse _) as [inner|e|w]; [|intros [= <-]; by eexists|done].
      cbn. destruct (sign_reply inner r) as [sig|e|w]; [|done|done]. cbn.
      destruct (marshal_ResponseMessage _) as [d|e|w]; intros [= <-]; by eexists. }
    apply answers_Send.
  - intros [= <- <-]. by apply no_answer.
  - intros [= <- <-]. by apply no_answer.
Qed.
Lemma answers_sendError (P : Prop) request e now : (P → marshals ∧ is_Some (rr_Context request)) →
  answers P (rr_Context request) (sendError request e now).
Proof.
  intros HP. unfold sendError. destruct (marshal_MetaResponse _) as [inner|e'|w] eqn:Em; [| |apply answers_panic].
  - apply answers_after; [apply stays_reads, _|]. intros sig. destruct (rr_Context request) as [c|] eqn:Ec.
    + apply answers_after; [apply stays_lift, _|]. intros data. rewrite <- Ec. apply answers_Send.
    + apply answers_nothing. intros Hp. destruct (HP Hp) as [_ [? ?]]. done.
  - apply answers_nothing. intros Hp. destruct (HP Hp) as [Hm _]. by destruct (Hm _ _ Em).
Qed.
Lemma answers_or_send {A} (P : Prop) request now msg (x : res A) k : (P → marshals ∧ is_Some (rr_Context request)) →
  (∀ a, answers P (rr_Context request) (k a)) → answers P (rr_Context request) (or_send request now msg x k).
Proof. intros HP Hk. destruct x; [apply Hk|by apply answers_sendError|apply answers_panic]. Qed.

Lemma silent_on_vocapp {A} (op : GM (Node DB L) A) : stays silent (on_vocapp op).
Proof. intros r. unfold on_vocapp. by destruct (op _). Qed.
Lemma silent_on_manager {A} (op : GM Manager A) : stays silent (on_manager (DB := DB) (L := L) op).
Proof. intros r. unfold on_manager. by destruct (op _). Qed.
#[local] Hint Resolve silent_on_vocapp silent_on_manager : stays.

Section callbacks.
Context (P : Prop) (request : routerRequest) (now : Z).
Hypothesis HP : P → marshals ∧ is_Some (rr_Context request).
Abbreviation A := (answers P (rr_Context request)).

Lemma answers_hex_field s len e1 e2 k : (∀ a, A (k a)) → A (hex_field request now s len e1 e2 k).
Proof.
  intros Hk. unfold hex_field. destruct (negb _); [by apply answers_sendError|]. by apply answers_or_send.
Qed.
Lemma answers_envelope_fields e trim k : (∀ a b, A (k a b)) → A (envelope_fields request now e trim k).
Proof.
  intros Hk. unfold envelope_fields. do 2 (destruct (negb _); [by apply answers_sendError|]).
  do 2 (apply answers_or_send; [done|intros ?]). apply Hk.
Qed.

(** A callback is silent up to its last call, which answers. *)
Ltac answers_tac :=
  repeat first
    [ apply answers_reply | (apply answers_sendError; exact HP) | apply answers_panic
    | lazymatch goal with
      | |- answers _ _ (or_send _ _ _ _ _) => apply answers_or_send; [exact HP|intros ?]
      | |- answers _ _ (hex_field _ _ _ _ _ _ _) => apply answers_hex_field; intros ?
      | |- answers _ _ (envelope_fields _ _ _ _ _) => apply answers_envelope_fields; intros ? ?
      | |- answers _ _ (_ ≫= _) => apply answers_after; [stays_tac|intros ?]
      | |- answers _ _ _ => case_match
      end ].
(** Only [addFile] may leave a request unanswered. *)
Lemma run_callback_answers cb : (P → cb = cb_addFile → rq_Type (rr_MetaRequest request) = "ipfs") →
  A (run_callback scrutinizer_of cb request now).
Proof.
  intros Hadd. destruct cb; cbn [run_callback];
    unfold getInfo, fetchFile, pinList, pinFile, unpinFile, submitRawTx, submitEnvelope, getEnvelopeStatus,
      getEnvelope, getEnvelopeHeight, getProcessList, getEnvelopeList, getBlockHeight, getProcessKeys, getBlockStatus,
      getProcessCount, getResults, getProcListResults, getProcListLiveResults, getScrutinizerEntities,
      getScrutinizerEntityCount, censusLocal; try solve [answers_tac].
  unfold addFile. apply answers_or_send; [exact HP|]. intros content. case_decide as Ht; [answers_tac|].
  apply answers_nothing. intros Hp. by apply Ht, Hadd.
Qed.
End callbacks.

(** ** The router *)

(** A message the router can answer: an envelope that decodes, from a
    connection, and not a file to add of an unknown type. *)
Definition answerable (data : bytes) (ctx : option Z) r : Prop :=
  marshals ∧ is_Some ctx ∧ ∃ outer, json_RequestMessage data = Ok outer ∧
    ∀ inner m, json_MetaRequest (rm_MetaRequest outer) = Ok inner → r_methods r !! rq_Method inner = Some m →
      rg_handler m = cb_addFile → rq_Type inner = "ipfs".

Lemma getRequest_context data ctx r request err : getRequest data ctx r = Ok (request, err) →
  (∃ e, json_RequestMessage data = Err e ∧ request = zero_routerRequest ∧ is_Some err) ∨
  ∃ outer, json_RequestMessage data = Ok outer ∧ rr_Context request = ctx ∧
    ((rr_authenticated request = false ∧ is_Some err) ∨
     ∃ inner, json_MetaRequest (rm_MetaRequest outer) = Ok inner ∧ rr_method request = rq_Method inner ∧ rr_MetaRequest request = inner).
Proof.
  unfold getRequest. destruct (json_RequestMessage data) as [outer|e|w]; [|intros [= <- <-]; left; by eexists|done].
  intros Hr. right. exists outer. split; [done|].
  destruct (json_MetaRequest (rm_MetaRequest outer)) as [inner|e|w]; [|simplify_eq/=; by split; [|left]|done].
  destruct (decide (rq_Method inner = "")); [simplify_eq/=; split; [done|]; by right; exists inner|].
  destruct (r_methods r !! rq_Method inner) as [m|]; [|simplify_eq/=; split; [done|]; by right; exists inner].
  destruct (rg_public m); [simplify_eq/=; split; [done|]; by right; exists inner|]. cbn in Hr.
  destruct (ethereum.VerifySender _ _ _) as [[auth addr]|e|w]; simplify_eq/=; (split; [done|]); by right; exists inner.
Qed.

(** However it goes, a message has at most one answer, to its own connection;
    one that can be answered and is handled without an error has exactly one. *)
Lemma Route_answers data ctx now r a r' : Route scrutinizer_of data ctx now r = (a, r') →
  ∃ ms, r_sent r' = r_sent r ++ ms ∧ Forall (λ x, msg_Context x = ctx) ms ∧ (length ms ≤ 1)%nat ∧
        (a = Ok () → answerable data ctx r → length ms = 1%nat).
Proof.
  unfold Route. rewrite GM_run. unfold reads. destruct (getRequest data ctx r) as [[request err]|e|w] eqn:Eg;
    [|intros [= <- <-]; by apply no_answer..].
  rewrite GM_run. cbn [get_st].
  destruct (getRequest_context _ _ _ _ _ Eg) as [(e & Hj & -> & [e' ->])|(outer & Hj & Hc & Hm)].
  - cbn [rr_authenticated zero_routerRequest]. unfold sendError. cbn [rr_Context zero_routerRequest].
    assert (¬ answerable data ctx r) as Hna by (intros (_ & _ & o & Ho & _); congruence).
    destruct (marshal_MetaResponse _) as [inner|e1|w]; [|intros [= <- <-]; by apply no_answer..].
    rewrite GM_run. unfold reads. destruct (sign_reply inner r); intros [= <- <-]; by apply no_answer.
  - rewrite <- Hc. assert (answerable data (rr_Context request) r → marshals ∧ is_Some (rr_Context request)) as HP.
    { intros (Hms & Hs & _). done. }
    assert (∀ e, answers (answerable data (rr_Context request) r) (rr_Context request) (sendError (L := L) request e now))
      as Hse by (intros e; by apply answers_sendError).
    destruct Hm as [[-> [e ->]]|(inner & Hi & Hmi & Hq)]; [apply Hse|].
    assert (∀ method, r_methods r !! rr_method request = Some method →
      answers (answerable data (rr_Context request) r) (rr_Context request)
        (_ ← modify (count_call (rr_private request)); run_callback scrutinizer_of (rg_handler method) request now)) as Hcb.
    { intros method Hmeth. apply answers_after; [apply stays_modify; by destruct (rr_private request)|]. intros _.
      apply run_callback_answers; [done|]. intros (_ & _ & o & Ho & Hadd) Hh. assert (o = outer) as -> by congruence.
      rewrite Hmi in Hmeth. rewrite Hq. by eapply Hadd. }
    destruct (rr_authenticated request) eqn:Ea; [|destruct err; [apply Hse|]];
      (destruct (r_methods r !! rr_method request) as [method|]; [|apply Hse]);
      (destruct (negb _ && _); [apply Hse|by apply Hcb]).
Qed.

(** A message whose envelope does not decode is never answered: the request has
    no context yet when the error is sent. *)
Lemma undecodable_unanswered data ctx now r e : json_RequestMessage data = Err e →
  r_sent (Route scrutinizer_of data ctx now r).2 = r_sent r.
Proof.
  intros He. unfold Route. rewrite GM_run. unfold reads, getRequest. rewrite He. rewrite GM_run.
  cbn [get_st rr_authenticated zero_routerRequest]. unfold sendError.
  destruct (marshal_MetaResponse _) as [inner|e1|w]; [|done..]. rewrite GM_run. unfold reads.
  by destruct (sign_reply inner r).
Qed.
End answers.
