(* ===== verification/Net.v ===== *)
(** * The transports: [net/]

    A gateway serves its API over HTTP and websockets.  The proxy maps paths to
    handlers ([Proxy]); the handler of the API reads a request, sends it as a
    message down a channel with room for one, and, for HTTP, waits until an
    answer has been sent or the request times out.  A goroutine ([Listen])
    moves the messages to the router, which answers each in a goroutine of its
    own, through the context the message carries.

    The goroutines are the events of [gw_step], in any order.  The connection
    a message came from is a number, as in [Router]; the namespace of a message,
    which the router does not read, is left out.  [HttpEnv] is what lies behind
    the proxy: remote servers and sockets. *)

From stdpp Require Import base gmap strings list fin_maps.
From Stdlib Require Import ZArith Lia.
From S2P Require Import Prelude GoLib Types StateDB Crypto Codec State Transaction App Database.
From S2P Require Import Scrutinizer Graviton Trie Api Census VochainInfo Node Router.
Open Scope Z_scope.

Definition Web3WsReadLimit : Z := Z.shiftl 5 20.
Definition VochainWsReadLimit : Z := Z.shiftl 20 20.

(** ** [net/http]: requests and response writers *)
Record Request := mkRequest {
  hr_Method : string;
  hr_Header : gmap string string;
  (** What [ioutil.ReadAll] makes of the body. *)
  hr_Body : res bytes }.
Definition header_get (h : gmap string string) (k : string) : string := default "" (h !! k).
Record ResponseWriter := mkResponseWriter {
  w_Code : Z;
  w_Header : gmap string string;
  w_Body : bytes }.
Definition new_writer : ResponseWriter := mkResponseWriter 200 ∅ [].
Definition w_Set (k v : string) (w : ResponseWriter) : ResponseWriter :=
  mkResponseWriter (w_Code w) (<[k := v]> (w_Header w)) (w_Body w).
Definition w_Write (b : bytes) (w : ResponseWriter) : ResponseWriter :=
  mkResponseWriter (w_Code w) (w_Header w) (w_Body w ++ b).
Definition newline : bytes := [Byte.x0a].
Definition http_Error (msg : string) (code : Z) (w : ResponseWriter) : ResponseWriter :=
  w_Write (s2b msg ++ newline)
    (mkResponseWriter code
       (<["X-Content-Type-Options" := "nosniff"]> (<["Content-Type" := "text/plain; charset=utf-8"]> (w_Header w)))
       (w_Body w)).
Definition StatusInternalServerError : Z := 500.

(** ** The proxy: [net/proxy.go] *)

(** The function values the code registers. *)
Inductive HandlerFunc :=
  | fn_api (path : string)
  | fn_endpoint (url : string)
  | fn_ipc (path : string)
  | fn_ping
  | fn_metrics.
Inductive ProxyWsHandler :=
  | ws_api (path : string)
  | ws_http_bridge (url : string)
  | ws_ws_bridge (url : string) (readLimit : Z).
#[export] Instance HandlerFunc_eq_dec : EqDecision HandlerFunc.
Proof. solve_decision. Defined.
#[export] Instance ProxyWsHandler_eq_dec : EqDecision ProxyWsHandler.
Proof. solve_decision. Defined.
Inductive Endpoint :=
  | only_ws (h : ProxyWsHandler) (readLimit : Z)
  | mixed (h : HandlerFunc) (ws : ProxyWsHandler) (readLimit : Z)
  | only_http (h : HandlerFunc).
#[export] Instance Endpoint_eq_dec : EqDecision Endpoint.
Proof. solve_decision. Defined.

Record Proxy := mkProxy {
  px_Address : string;
  px_Port : Z;
  px_SSLDomain : string;
  px_Server : gmap string Endpoint }.
Definition set_px_Server m (p : Proxy) : Proxy := mkProxy (px_Address p) (px_Port p) (px_SSLDomain p) m.
(** A path registered again gets the new handler. *)
Definition HandleFunc (path : string) (e : Endpoint) (p : Proxy) : Proxy :=
  set_px_Server (<[path := e]> (px_Server p)) p.
Definition AddWsHandler (path : string) (h : ProxyWsHandler) (readLimit : Z) : Proxy → Proxy :=
  HandleFunc path (only_ws h readLimit).
Definition AddMixedHandler (path : string) (h : HandlerFunc) (ws : ProxyWsHandler) (readLimit : Z) : Proxy → Proxy :=
  HandleFunc path (mixed h ws readLimit).
Definition AddHandler (path : string) (h : HandlerFunc) : Proxy → Proxy := HandleFunc path (only_http h).

(** Which handler takes a request: [None] if it is only warned about. *)
Definition is_upgrade (r : Request) : bool := bool_decide (header_get (hr_Header r) "Upgrade" = "websocket").
Definition serve_endpoint (e : Endpoint) (r : Request) : option (HandlerFunc + ProxyWsHandler * Z) :=
  match e with
  | only_ws h limit => if is_upgrade r then Some (inr (h, limit)) else None
  | mixed h ws limit => Some (if is_upgrade r then inr (ws, limit) else inl h)
  | only_http h => Some (inl h)
  end.

(** ** Forwarding *)
Class HttpEnv := {
  (** [http.NewRequest] refuses some methods and addresses. *)
  http_NewRequest : string → string → res ();
  (** The body of the response, as far as it could be read. *)
  http_Do : string → string → gmap string string → bytes → res (bytes * option error);
  ipc_Dial : string → res ();
  ipc_Write : string → bytes → res ();
  ipc_Decode : string → bytes → res bytes }.

Definition copied_headers : list string := ["Content-Type"; "Accept"; "Content-Length"; "User-Agent"].
Definition allow_origin (w : ResponseWriter) : ResponseWriter :=
  w_Set "Access-Control-Allow-Headers" "Accept, Content-Type, Content-Length, Accept-Encoding, X-CSRF-Token"
    (w_Set "Access-Control-Allow-Methods" "POST, GET" (w_Set "Access-Control-Allow-Origin" "*" w)).

Section forward.
Context `{HttpEnv}.
(** An error of [NewRequest] or of [Do] is only logged, and the nil result used. *)
Definition AddEndpoint (url : string) (r : Request) (w : ResponseWriter) : res ResponseWriter :=
  match hr_Body r with
  | Panic x => Panic x
  | Err _ => Ok (http_Error "" StatusInternalServerError w)
  | Ok body =>
      match http_NewRequest (hr_Method r) url with
      | Ok _ =>
          let header := foldl (λ h k, <[k := header_get (hr_Header r) k]> h) ∅ copied_headers in
          match http_Do (hr_Method r) url header body with
          | Ok (respBody, _) => Ok (w_Write respBody (allow_origin w))
          | _ => Panic "nil pointer dereference"
          end
      | _ => Panic "nil pointer dereference"
      end
  end.

Definition ProxyIPC (path : string) (r : Request) (w : ResponseWriter) : res ResponseWriter :=
  let failed msg := Ok (http_Error msg StatusInternalServerError w) in
  match hr_Body r with
  | Panic x => Panic x
  | Err _ => failed ""
  | Ok body =>
      match ipc_Dial path with
      | Panic x => Panic x
      | Err _ => failed "could not dial IPC socket"
      | Ok _ =>
          match ipc_Write path body with
          | Panic x => Panic x
          | Err _ => failed "could not write to IPC socket"
          | Ok _ =>
              match ipc_Decode path body with
              | Panic x => Panic x
              | Err _ => failed "could not read response from IPC socket"
              | Ok respBody => Ok (w_Write newline (w_Write respBody (allow_origin w)))
              end
          end
      end
  end.

(** The frames written back for the frames that arrive before the connection
    is closed: one that cannot be forwarded is skipped. *)
Definition json_headers : gmap string string :=
  <["Accept" := "application/json"]> (<["Content-Type" := "application/json"]> ∅).
Definition bridge_answer (url : string) (msg : bytes) : option bytes :=
  match http_NewRequest "POST" url with
  | Ok _ => match http_Do "POST" url json_headers msg with
            | Ok (respBody, None) => Some respBody
            | _ => None
            end
  | _ => None
  end.
Fixpoint AddWsHTTPBridge (url : string) (frames : list (Z * bytes)) : list (Z * bytes) :=
  match frames with
  | [] => []
  | (msgType, msg) :: frames' =>
      match bridge_answer url msg with
      | Some respBody => (msgType, respBody) :: AddWsHTTPBridge url frames'
      | None => AddWsHTTPBridge url frames'
      end
  end.
End forward.

(** [AddWsWsBridge]: the dial is waited for [attempts] times, then two pumps
    run.  [connected i]: after [i] waits. *)
Fixpoint await_conn (attempts : nat) (connected : nat → bool) (i : nat) : bool :=
  match attempts with
  | O => connected i
  | S n => if connected i then true else await_conn n connected (S i)
  end.
Definition bridge_attempts : nat := 50.
(** From the remote end: until it is closed or a write fails. *)
Fixpoint pump_to_local (write : nat → bool) (i : nat) (frames : list (Z * bytes)) : list (Z * bytes) :=
  match frames with
  | [] => []
  | f :: frames' => if write i then f :: pump_to_local write (S i) frames' else []
  end.
(** From the local end: a frame that cannot be read to its end is skipped. *)
Fixpoint pump_to_remote (write : nat → bool) (i : nat) (frames : list (Z * res bytes)) : list (Z * bytes) :=
  match frames with
  | [] => []
  | (t, Ok b) :: frames' => if write i then (t, b) :: pump_to_remote write (S i) frames' else []
  | (_, _) :: frames' => pump_to_remote write i frames'
  end.

(** ** The transports: [net/http.go], [net/websocket.go], [net/httpws.go] *)
Inductive Transport :=
  | HttpHandler
  | WebsocketHandle (readLimit : Z)
  | HttpWsHandler (readLimit : Z).
Definition ConnectionType (t : Transport) : string :=
  match t with HttpHandler => "HTTP" | WebsocketHandle _ => "Websocket" | HttpWsHandler _ => "HTTPWS" end.
Definition default_limit (readLimit : Z) : Z := if decide (readLimit = 0) then 32768 else readLimit.
Definition transport_Init (t : Transport) : Transport :=
  match t with
  | HttpHandler => HttpHandler
  | WebsocketHandle l => WebsocketHandle (default_limit l)
  | HttpWsHandler l => HttpWsHandler (default_limit l)
  end.
(** [AddNamespace], by the [AddProxyHandler] of each. *)
Definition AddNamespace (t : Transport) (path : string) : Proxy → Proxy :=
  match t with
  | HttpHandler => AddHandler path (fn_api path)
  | WebsocketHandle l => AddWsHandler path (ws_api path) l
  | HttpWsHandler l => AddMixedHandler path (fn_api path) (ws_api path) l
  end.

(** An HTTP request, in the goroutine of its handler: before the message has
    gone into the channel, waiting for [sent], or returned. *)
Inductive HandlerPhase :=
  | Sending (msg : Message)
  | Waiting
  | Returned.
Record HttpContext := mkHttpContext {
  hc_Request : Request;
  hc_Writer : ResponseWriter;
  (** Whether the channel [sent] is closed. *)
  hc_sent : bool;
  hc_phase : HandlerPhase;
  (** Whether the writer was used after the handler had returned. *)
  hc_late : bool }.
Definition set_hc_phase p (h : HttpContext) : HttpContext :=
  mkHttpContext (hc_Request h) (hc_Writer h) (hc_sent h) p (hc_late h).
Definition is_returned (h : HttpContext) : bool := match hc_phase h with Returned => true | _ => false end.

(** The writes, then the deferred close.  What is written after the handler
    has returned does not reach the client. *)
Definition answer_writer (data : bytes) (w : ResponseWriter) : ResponseWriter :=
  w_Write newline (w_Write data (w_Set "Content-Type" "application/json"
    (w_Set "Content-Length" (sprintf_d (glen data + 1)) w))).
Definition HttpContext_Send (data : bytes) (h : HttpContext) : res HttpContext :=
  if hc_sent h then Panic "close of closed channel"
  else if is_returned h then Ok (mkHttpContext (hc_Request h) (hc_Writer h) true (hc_phase h) true)
  else Ok (mkHttpContext (hc_Request h) (answer_writer data (hc_Writer h)) true (hc_phase h) (hc_late h)).

(** A websocket: its goroutine reads a message and then waits until the channel
    takes it. *)
Record WebsocketContext := mkWebsocketContext {
  wc_limit : Z;
  wc_open : bool;
  wc_pending : option Message;
  wc_frames : list bytes }.
(** On a closed connection the error is logged. *)
Definition WebsocketContext_Send (data : bytes) (c : WebsocketContext) : WebsocketContext :=
  if wc_open c then mkWebsocketContext (wc_limit c) true (wc_pending c) (wc_frames c ++ [data]) else c.

(** ** A gateway *)
Section gateway.
Context {DB L : Type} `{StateDB DB} `{AminoLib} `{CryptoLib} `{TxJSON} `{!EventListener DB L}.
Context `{ScrutinizerCodec} `{!Graviton} `{CensusEnv} `{RouterEnv} `{AddressText} `{Mempool}.
Variable scrutinizer_of : L → option Scrutinizer.

Record Gateway := mkGateway {
  g_proxy : Proxy;
  g_http : gmap Z HttpContext;
  g_ws : gmap Z WebsocketContext;
  g_next : Z;
  (** The channel of the transport, of capacity one. *)
  g_chan : list Message;
  (** What [Listen] holds between its two channels. *)
  g_hand : option Message;
  (** The goroutines of the router that have not answered yet. *)
  g_inflight : list Message;
  g_router : Router (DB := DB) (L := L) }.
Definition set_g_http v (g : Gateway) : Gateway :=
  mkGateway (g_proxy g) v (g_ws g) (g_next g) (g_chan g) (g_hand g) (g_inflight g) (g_router g).
Definition set_g_ws v (g : Gateway) : Gateway :=
  mkGateway (g_proxy g) (g_http g) v (g_next g) (g_chan g) (g_hand g) (g_inflight g) (g_router g).
Definition set_g_next v (g : Gateway) : Gateway :=
  mkGateway (g_proxy g) (g_http g) (g_ws g) v (g_chan g) (g_hand g) (g_inflight g) (g_router g).
Definition set_g_chan v (g : Gateway) : Gateway :=
  mkGateway (g_proxy g) (g_http g) (g_ws g) (g_next g) v (g_hand g) (g_inflight g) (g_router g).
Definition set_g_hand v (g : Gateway) : Gateway :=
  mkGateway (g_proxy g) (g_http g) (g_ws g) (g_next g) (g_chan g) v (g_inflight g) (g_router g).
Definition set_g_inflight v (g : Gateway) : Gateway :=
  mkGateway (g_proxy g) (g_http g) (g_ws g) (g_next g) (g_chan g) (g_hand g) v (g_router g).
Definition set_g_router v (g : Gateway) : Gateway :=
  mkGateway (g_proxy g) (g_http g) (g_ws g) (g_next g) (g_chan g) (g_hand g) (g_inflight g) v.

Definition blocked : error := "blocked".
Definition api_message (data : bytes) (c now : Z) : Message := mkMessage data (i32 now) (Some c).

(** [getHTTPhandler], up to the send. *)
Definition open_http (r : Request) (now : Z) (g : Gateway) : Gateway :=
  let c := g_next g in
  let phase := match hr_Body r with Ok body => Sending (api_message body c now) | _ => Returned end in
  set_g_next (c + 1) (set_g_http (<[c := mkHttpContext r new_writer false phase false]> (g_http g)) g).
Definition open_ws (limit : Z) (g : Gateway) : Gateway :=
  let c := g_next g in
  set_g_next (c + 1) (set_g_ws (<[c := mkWebsocketContext limit true None []]> (g_ws g)) g).
(** A request that reaches the handlers of the API. *)
Definition accept (path : string) (r : Request) (now : Z) (g : Gateway) : res Gateway :=
  match px_Server (g_proxy g) !! path with
  | None => Err blocked
  | Some e =>
      match serve_endpoint e r with
      | Some (inl (fn_api _)) => Ok (open_http r now g)
      | Some (inr (ws_api _, limit)) => Ok (open_ws limit g)
      | _ => Err blocked
      end
  end.

(** [getWsHandler]: a frame that is too long ends the connection. *)
Definition ws_read (c : Z) (payload : bytes) (now : Z) (g : Gateway) : res Gateway :=
  match g_ws g !! c with
  | Some (mkWebsocketContext limit true None frames) =>
      if decide (limit < glen payload) then Ok (set_g_ws (<[c := mkWebsocketContext limit false None frames]> (g_ws g)) g)
      else Ok (set_g_ws (<[c := mkWebsocketContext limit true (Some (api_message payload c now)) frames]> (g_ws g)) g)
  | _ => Err blocked
  end.
Definition ws_close (c : Z) (g : Gateway) : res Gateway :=
  match g_ws g !! c with
  | Some (mkWebsocketContext limit true None frames) =>
      Ok (set_g_ws (<[c := mkWebsocketContext limit false None frames]> (g_ws g)) g)
  | _ => Err blocked
  end.
(** [receiver <- msg]. *)
Definition enqueue (c : Z) (g : Gateway) : res Gateway :=
  if decide (g_chan g = []) then
    match g_http g !! c, g_ws g !! c with
    | Some (mkHttpContext r w sent (Sending msg) late), _ =>
        Ok (set_g_chan [msg] (set_g_http (<[c := mkHttpContext r w sent Waiting late]> (g_http g)) g))
    | None, Some (mkWebsocketContext limit o (Some msg) frames) =>
        Ok (set_g_chan [msg] (set_g_ws (<[c := mkWebsocketContext limit o None frames]> (g_ws g)) g))
    | _, _ => Err blocked
    end
  else Err blocked.
(** The two halves of [Listen]. *)
Definition listen_take (g : Gateway) : res Gateway :=
  match g_hand g, g_chan g with
  | None, msg :: rest => Ok (set_g_chan rest (set_g_hand (Some msg) g))
  | _, _ => Err blocked
  end.
Definition listen_give (g : Gateway) : res Gateway :=
  match g_hand g with
  | Some msg => Ok (set_g_inflight (g_inflight g ++ [msg]) (set_g_hand None g))
  | None => Err blocked
  end.

(** [request.Send], by the context of the message. *)
Definition deliver (msg : Message) (g : Gateway) : res Gateway :=
  match msg_Context msg with
  | None => Panic "nil pointer dereference"
  | Some c =>
      match g_http g !! c, g_ws g !! c with
      | Some h, _ => h' ← HttpContext_Send (msg_Data msg) h; Ok (set_g_http (<[c := h']> (g_http g)) g)
      | None, Some w => Ok (set_g_ws (<[c := WebsocketContext_Send (msg_Data msg) w]> (g_ws g)) g)
      | None, None => Panic "nil pointer dereference"
      end
  end.
(** [Transport.Send] asserts the kind of context of its transport, also where
    the transport has both. *)
Definition transport_Send (t : Transport) (msg : Message) (g : Gateway) : res Gateway :=
  match msg_Context msg with
  | None => Panic "interface conversion"
  | Some c =>
      match t, g_http g !! c with
      | WebsocketHandle _, Some _ => Panic "interface conversion"
      | WebsocketHandle _, None => deliver msg g
      | _, Some _ => deliver msg g
      | _, None => Panic "interface conversion"
      end
  end.
Fixpoint deliver_all (msgs : list Message) (g : Gateway) : res Gateway :=
  match msgs with [] => Ok g | m :: msgs' => g ← deliver m g; deliver_all msgs' g end.
(** What the router answers to a message, and the router then. *)
Definition router_answer (msg : Message) (now : Z) (r : Router (DB := DB) (L := L)) : res (list Message * Router) :=
  match Route scrutinizer_of (msg_Data msg) (msg_Context msg) now (set_r_sent [] r) with
  | (Panic w, _) => Panic w
  | (_, r') => Ok (r_sent r', set_r_sent [] r')
  end.
(** The [i]-th of the goroutines of the router runs. *)
Definition serve (i : nat) (now : Z) (g : Gateway) : res Gateway :=
  match g_inflight g !! i with
  | None => Err blocked
  | Some msg =>
      '(sent, r) ← router_answer msg now (g_router g);
      deliver_all sent (set_g_router r (set_g_inflight (delete i (g_inflight g)) g))
  end.
(** The two ways out of the [select] of the handler. *)
Definition handler_done (c : Z) (g : Gateway) : res Gateway :=
  match g_http g !! c with
  | Some (mkHttpContext r w true Waiting late) =>
      Ok (set_g_http (<[c := mkHttpContext r w true Returned late]> (g_http g)) g)
  | _ => Err blocked
  end.
Definition handler_timeout (c : Z) (g : Gateway) : res Gateway :=
  match g_http g !! c with
  | Some (mkHttpContext r w sent Waiting late) =>
      Ok (set_g_http (<[c := mkHttpContext r w sent Returned late]> (g_http g)) g)
  | _ => Err blocked
  end.

Inductive gw_event :=
  | EvAccept (path : string) (r : Request) (now : Z)
  | EvFrame (c : Z) (payload : bytes) (now : Z)
  | EvClose (c : Z)
  | EvEnqueue (c : Z)
  | EvTake
  | EvGive
  | EvServe (i : nat) (now : Z)
  | EvDone (c : Z)
  | EvTimeout (c : Z).
Definition gw_step (e : gw_event) (g : Gateway) : res Gateway :=
  match e with
  | EvAccept path r now => accept path r now g
  | EvFrame c payload now => ws_read c payload now g
  | EvClose c => ws_close c g
  | EvEnqueue c => enqueue c g
  | EvTake => listen_take g
  | EvGive => listen_give g
  | EvServe i now => serve i now g
  | EvDone c => handler_done c g
  | EvTimeout c => handler_timeout c g
  end.
Fixpoint gw_run (es : list gw_event) (g : Gateway) : res Gateway :=
  match es with [] => Ok g | e :: es' => g ← gw_step e g; gw_run es' g end.
Definition new_Gateway (p : Proxy) (r : Router) : Gateway := mkGateway p ∅ ∅ 0 [] None [] r.
Definition gw_reach (p : Proxy) (r : Router) (g : Gateway) : Prop := ∃ es, gw_run es (new_Gateway p r) = Ok g.
End gateway.
