(* ===== verification/NetFacts.v ===== *)
(** * Answers over HTTP and websockets

    [http_answered_once]: however the goroutines of a gateway interleave, an
    HTTP request is answered at most once, with what the router computes from
    the body of that request.  [http_request_answered]: a request that is
    waiting can always be answered within a bounded number of steps.
    [late_answer]: an answer that comes after the timeout of its request is
    written to a writer whose handler has returned. *)

From stdpp Require Import base gmap strings list fin_maps.
From Stdlib Require Import ZArith Lia.
From S2P Require Import Prelude GoLib Types StateDB Crypto Codec State Transaction App StateFacts Database.
From S2P Require Import Scrutinizer Graviton Trie Api Census VochainInfo Node Router Replies Net.
From S2P Require Import IavlState Concrete Safety Results CensusConcrete TrieFacts RouterFacts.
Open Scope Z_scope.

(** ** The goroutines of a gateway *)
Section gateway_facts.
Context {DB L : Type} `{StateDB DB} `{AminoLib} `{CryptoLib} `{TxJSON} `{!EventListener DB L}.
Context `{ScrutinizerCodec} `{!Graviton} `{CensusEnv} `{RouterEnv} `{AddressText} `{Mempool}.
Context (scrutinizer_of : L → option Scrutinizer) (p : Proxy) (r0 : Router (DB := DB) (L := L)).
Implicit Types (g : Gateway (DB := DB) (L := L)).
Abbreviation answer := (router_answer scrutinizer_of).
Abbreviation reach := (gw_reach scrutinizer_of p r0).

(** The messages on their way to an answer. *)
Definition queue g : list Message := g_inflight g ++ option_list (g_hand g) ++ g_chan g.
Definition on_way g (c : Z) : list Message := filter (λ m, msg_Context m = Some c) (queue g).

(** What the router of this gateway answers to a body, at some moment. *)
Definition answer_to (body : bytes) (c : Z) (data : bytes) : Prop :=
  ∃ g m now t r', reach g ∧ msg_Data m = body ∧ msg_Context m = Some c ∧
    answer m now (g_router g) = Ok ([mkMessage data t (Some c)], r').

Record http_ok g (c : Z) (h : HttpContext) : Prop := {
  ho_sending m : hc_phase h = Sending m →
    hr_Body (hc_Request h) = Ok (msg_Data m) ∧ msg_Context m = Some c ∧ on_way g c = [] ∧ hc_sent h = false;
  ho_on_way m : m ∈ on_way g c → hr_Body (hc_Request h) = Ok (msg_Data m) ∧ hc_sent h = false;
  ho_once : (length (on_way g c) ≤ 1)%nat;
  ho_open : hc_sent h = false → hc_Writer h = new_writer ∧ hc_late h = false;
  ho_late : hc_late h = true → hc_phase h = Returned ∧ hc_Writer h = new_writer;
  ho_sent : hc_sent h = true → hc_late h = false → ∃ body data,
    hr_Body (hc_Request h) = Ok body ∧ answer_to body c data ∧ hc_Writer h = answer_writer data new_writer }.

Record gw_ok g : Prop := {
  go_http c h : g_http g !! c = Some h → http_ok g c h;
  go_next c : g_next g ≤ c → g_http g !! c = None ∧ g_ws g !! c = None;
  go_disjoint c h w : g_http g !! c = Some h → g_ws g !! c = Some w → False;
  go_queue m : m ∈ queue g → ∃ c, msg_Context m = Some c ∧ (is_Some (g_http g !! c) ∨ is_Some (g_ws g !! c));
  go_pending c w m : g_ws g !! c = Some w → wc_pending w = Some m → msg_Context m = Some c;
  go_frames c w data : g_ws g !! c = Some w → data ∈ wc_frames w → ∃ body, answer_to body c data;
  go_chan : (length (g_chan g) ≤ 1)%nat }.

Lemma http_ok_perm g g' c h : on_way g' c ≡ₚ on_way g c → http_ok g c h → http_ok g' c h.
Proof.
  intros Hp [H1' H2' H3' H4' H5' H6']. constructor; [|intros m; rewrite Hp; apply H2'|by rewrite Hp|done..].
  intros m Hm. destruct (H1' m Hm) as (? & ? & Hn & ?). split_and!; try done. rewrite Hn in Hp. by apply Permutation_nil_r in Hp.
Qed.
Lemma on_way_fresh g c : gw_ok g → g_http g !! c = None → g_ws g !! c = None → on_way g c = [].
Proof.
  intros Hg Hh Hw. unfold on_way. destruct (filter _ (queue g)) as [|m l] eqn:E; [done|].
  assert (m ∈ filter (λ m, msg_Context m = Some c) (queue g)) as Hin by (rewrite E; by left).
  apply list_elem_of_filter in Hin as [Hc Hin]. destruct (go_queue _ Hg m Hin) as (c' & Hc' & Hs).
  assert (c' = c) as -> by congruence. rewrite Hh, Hw in Hs. by destruct Hs as [[? ?]|[? ?]].
Qed.

(** A step that moves no message: connections change one at a time. *)
Lemma gw_ok_http g c h h' : gw_ok g → g_http g !! c = Some h →
  http_ok g c h' → gw_ok (set_g_http (<[c := h']> (g_http g)) g).
Proof.
  intros Hg Hh Hok. constructor; cbn.
  - intros c' h1. destruct (decide (c' = c)) as [->|Hne].
    + rewrite lookup_insert_eq. intros [= <-]. by apply (http_ok_perm g).
    + rewrite lookup_insert_ne by done. intros Hc'. apply (http_ok_perm g); [done|]. exact (go_http _ Hg c' h1 Hc').
  - intros c' Hc'. destruct (go_next _ Hg c' Hc') as [Hn Hw]. split; [|done]. rewrite lookup_insert_ne; [done|]. congruence.
  - intros c' h1 w. destruct (decide (c' = c)) as [->|Hne].
    + intros _. by apply (go_disjoint _ Hg c h w).
    + rewrite lookup_insert_ne by done. apply (go_disjoint _ Hg).
  - intros m Hm. destruct (go_queue _ Hg m Hm) as (c' & Hc' & Hs). exists c'. split; [done|].
    destruct (decide (c' = c)) as [->|Hne]; [left; rewrite lookup_insert_eq; by eexists|]. by rewrite lookup_insert_ne by done.
  - apply (go_pending _ Hg).
  - apply (go_frames _ Hg).
  - apply (go_chan _ Hg).
Qed.
Lemma gw_ok_ws g c w w' : gw_ok g → g_ws g !! c = Some w →
  (∀ m, wc_pending w' = Some m → msg_Context m = Some c) →
  (∀ data, data ∈ wc_frames w' → data ∈ wc_frames w ∨ ∃ body, answer_to body c data) →
  gw_ok (set_g_ws (<[c := w']> (g_ws g)) g).
Proof.
  intros Hg Hw Hp Hf. constructor; cbn.
  - intros c' h1 Hh. apply (http_ok_perm g); [done|]. by apply (go_http _ Hg).
  - intros c' Hc'. destruct (go_next _ Hg c' Hc') as [Hn Hw']. split; [done|]. rewrite lookup_insert_ne; [done|]. congruence.
  - intros c' h1 w1 Hh. destruct (decide (c' = c)) as [->|Hne].
    + intros _. by apply (go_disjoint _ Hg c h1 w).
    + rewrite lookup_insert_ne by done. by apply (go_disjoint _ Hg c' h1).
  - intros m Hm. destruct (go_queue _ Hg m Hm) as (c' & Hc' & Hs). exists c'. split; [done|].
    destruct (decide (c' = c)) as [->|Hne]; [right; rewrite lookup_insert_eq; by eexists|]. by rewrite lookup_insert_ne by done.
  - intros c' w1 m. destruct (decide (c' = c)) as [->|Hne].
    + rewrite lookup_insert_eq. intros [= <-]. apply Hp.
    + rewrite lookup_insert_ne by done. apply (go_pending _ Hg).
  - intros c' w1 data. destruct (decide (c' = c)) as [->|Hne].
    + rewrite lookup_insert_eq. intros [= <-] Hd. destruct (Hf data Hd) as [Hd'|?]; [|done]. by apply (go_frames _ Hg c w).
    + rewrite lookup_insert_ne by done. apply (go_frames _ Hg).
  - apply (go_chan _ Hg).
Qed.

(** New connections. *)
Lemma gw_ok_open_http g r now : gw_ok g → gw_ok (open_http r now g).
Proof.
  intros Hg. destruct (go_next _ Hg (g_next g)) as [Hn Hw]; [lia|]. unfold open_http.
  pose proof (on_way_fresh _ _ Hg Hn Hw) as Hf. constructor; cbn.
  - intros c h. destruct (decide (c = g_next g)) as [->|Hne].
    + rewrite lookup_insert_eq. intros [= <-]. apply (http_ok_perm g); [done|]. constructor; cbn; try done.
      * intros m. destruct (hr_Body r) as [body|e|w]; [|done..]. intros [= <-]. done.
      * intros m. rewrite Hf. by intros Hm%elem_of_nil.
      * rewrite Hf. cbn. lia.
    + rewrite lookup_insert_ne by done. intros Hc. apply (http_ok_perm g); [done|]. by apply (go_http _ Hg).
  - intros c Hc. destruct (go_next _ Hg c) as [? ?]; [lia|]. rewrite lookup_insert_ne by lia. done.
  - intros c h w. destruct (decide (c = g_next g)) as [->|Hne]; [by rewrite Hw|]. rewrite lookup_insert_ne by done.
    apply (go_disjoint _ Hg).
  - intros m Hm. destruct (go_queue _ Hg m Hm) as (c & Hc & Hs). exists c. split; [done|].
    destruct (decide (c = g_next g)) as [->|Hne]; [left; rewrite lookup_insert_eq; by eexists|]. by rewrite lookup_insert_ne.
  - apply (go_pending _ Hg).
  - apply (go_frames _ Hg).
  - apply (go_chan _ Hg).
Qed.
Lemma gw_ok_open_ws g limit : gw_ok g → gw_ok (open_ws limit g).
Proof.
  intros Hg. destruct (go_next _ Hg (g_next g)) as [Hn Hw]; [lia|]. unfold open_ws. constructor; cbn.
  - intros c h Hc. apply (http_ok_perm g); [done|]. by apply (go_http _ Hg).
  - intros c Hc. destruct (go_next _ Hg c) as [? ?]; [lia|]. rewrite lookup_insert_ne by lia. done.
  - intros c h w Hh. destruct (decide (c = g_next g)) as [->|Hne]; [by rewrite Hn in Hh|]. rewrite lookup_insert_ne by done.
    by apply (go_disjoint _ Hg c h).
  - intros m Hm. destruct (go_queue _ Hg m Hm) as (c & Hc & Hs). exists c. split; [done|].
    destruct (decide (c = g_next g)) as [->|Hne]; [right; rewrite lookup_insert_eq; by eexists|]. by rewrite lookup_insert_ne.
  - intros c w m. destruct (decide (c = g_next g)) as [->|Hne]; [rewrite lookup_insert_eq; by intros [= <-]|].
    rewrite lookup_insert_ne by done. apply (go_pending _ Hg).
  - intros c w data. destruct (decide (c = g_next g)) as [->|Hne].
    + rewrite lookup_insert_eq. intros [= <-] Hd. by apply elem_of_nil in Hd.
    + rewrite lookup_insert_ne by done. apply (go_frames _ Hg).
  - apply (go_chan _ Hg).
Qed.

(** Messages that move. *)
Lemma gw_ok_moved g g' : gw_ok g → g_http g' = g_http g → g_ws g' = g_ws g → g_next g' = g_next g →
  queue g' = queue g → (length (g_chan g') ≤ 1)%nat → gw_ok g'.
Proof.
  intros Hg Hh Hw Hn Hq Hc. assert (∀ c, on_way g' c = on_way g c) as Ho by (intros; unfold on_way; by rewrite Hq).
  constructor; rewrite ?Hh, ?Hw, ?Hn, ?Hq; try apply Hg; [|done].
  intros c h Hch. apply (http_ok_perm g); [by rewrite Ho|]. by apply (go_http _ Hg).
Qed.
Lemma gw_ok_push g m c : gw_ok g → g_chan g = [] → msg_Context m = Some c →
  is_Some (g_http g !! c) ∨ is_Some (g_ws g !! c) →
  (∀ h, g_http g !! c = Some h → hr_Body (hc_Request h) = Ok (msg_Data m) ∧ hc_sent h = false ∧ on_way g c = [] ∧
     hc_phase h = Waiting) →
  gw_ok (set_g_chan [m] g).
Proof.
  intros Hg Hch Hm Hs Hh.
  assert (∀ c', on_way (set_g_chan [m] g) c' = on_way g c' ++ (if decide (c' = c) then [m] else [])) as Ho.
  { intros c'. unfold on_way, queue. cbn. rewrite Hch, app_nil_r, (app_assoc _ _ [m]), filter_app, filter_cons, filter_nil, Hm.
    destruct (decide (c' = c)) as [->|Hne]; [by rewrite decide_True|by rewrite decide_False by congruence]. }
  constructor; cbn; try apply Hg; [| |lia].
  - intros c' h Hc'. destruct (decide (c' = c)) as [->|Hne].
    + destruct (Hh h Hc') as (Hb & Hsent & Hno & Hph). destruct (go_http _ Hg c h Hc') as [_ _ _ H4' H5' H6'].
      assert (on_way (set_g_chan [m] g) c = [m]) as Hon by (by rewrite Ho, Hno, decide_True).
      constructor; try done; [intros ?; by rewrite Hph| |by rewrite Hon].
      intros m'. rewrite Hon. by intros ->%list_elem_of_singleton.
    + apply (http_ok_perm g); [rewrite Ho, decide_False, app_nil_r by done; done|]. by apply (go_http _ Hg).
  - intros m' Hm'. unfold queue in Hm'. cbn in Hm'. rewrite !elem_of_app, list_elem_of_singleton in Hm'.
    destruct Hm' as [Hm'|[Hm'| ->]]; [| |by exists c]; apply (go_queue _ Hg); unfold queue; rewrite !elem_of_app; auto.
Qed.
Lemma gw_ok_drop g i m : gw_ok g → g_inflight g !! i = Some m → gw_ok (set_g_inflight (delete i (g_inflight g)) g) ∧
  ∀ c, msg_Context m = Some c → is_Some (g_http g !! c) → on_way (set_g_inflight (delete i (g_inflight g)) g) c = [].
Proof.
  intros Hg Hi. set (g' := set_g_inflight _ g). assert (queue g ≡ₚ m :: queue g') as Hq.
  { unfold queue, g'. cbn. rewrite (delete_Permutation _ _ _ Hi) at 1. done. }
  assert (∀ c, on_way g c ≡ₚ (if decide (msg_Context m = Some c) then [m] else []) ++ on_way g' c) as Ho.
  { intros c. unfold on_way. rewrite Hq, filter_cons. by case_decide. }
  assert (∀ c, msg_Context m = Some c → is_Some (g_http g !! c) → on_way g' c = []) as Hnone.
  { intros c Hc [h Hh]. pose proof (ho_once _ _ _ (go_http _ Hg c h Hh)) as Hl. rewrite Ho, decide_True in Hl by done.
    destruct (on_way g' c); [done|cbn in Hl; lia]. }
  split; [|done]. constructor; cbn; try apply Hg.
  - intros c h Hh. destruct (decide (msg_Context m = Some c)) as [Hc|Hc].
    + pose proof (Hnone c Hc (mk_is_Some _ _ Hh)) as Hn. destruct (go_http _ Hg c h Hh) as [H1' H2' H3' H4' H5' H6'].
      constructor; try done; [|intros m'; rewrite Hn; by intros ?%elem_of_nil|rewrite Hn; cbn; lia].
      intros m' Hm'. destruct (H1' m' Hm') as (? & ? & ? & ?). done.
    + apply (http_ok_perm g); [by rewrite Ho, decide_False|]. by apply (go_http _ Hg).
  - intros m' Hm'. apply (go_queue _ Hg). rewrite Hq. by right.
Qed.

(** ** Every step *)
Lemma answer_one m now r sent r' : answer m now r = Ok (sent, r') →
  sent = [] ∨ ∃ data t, sent = [mkMessage data t (msg_Context m)].
Proof.
  unfold router_answer. destruct (Route _ _ _ _ _) as [a r1] eqn:Er.
  destruct (Route_answers _ _ _ _ _ _ _ Er) as (ms & Hms & HF & Hl & _). cbn in Hms. intros Ha.
  assert (sent = ms) as -> by (destruct a; by simplify_eq/=).
  destruct HF as [|[data t ctx] ms Hc HF]; [by left|]. right. cbn in Hl, Hc. subst ctx. destruct ms; [by exists data, t|cbn in Hl; lia].
Qed.
(** An answer finds its connection open. *)
Lemma deliver_ok g m data t : reach g → (∃ now r', answer m now (g_router g) = Ok ([mkMessage data t (msg_Context m)], r')) →
  ∀ g', gw_ok g' → (∀ c, msg_Context m = Some c → is_Some (g_http g' !! c) ∨ is_Some (g_ws g' !! c)) →
  is_Some (msg_Context m) →
  (∀ c h, msg_Context m = Some c → g_http g' !! c = Some h → hr_Body (hc_Request h) = Ok (msg_Data m) ∧ hc_sent h = false ∧
     on_way g' c = [] ∧ ∀ m', hc_phase h ≠ Sending m') →
  ∃ g'', deliver (mkMessage data t (msg_Context m)) g' = Ok g'' ∧ gw_ok g''.
Proof.
  intros Hr (now & r' & Ha) g' Hg Hin [c Hc] Hh. unfold deliver. cbn [msg_Context msg_Data]. rewrite Hc.
  assert (∀ body, msg_Data m = body → answer_to body c data) as Hans.
  { intros body Hb. exists g, m, now, t, r'. split_and!; [done..|]. by rewrite <- Hc. }
  destruct (g_http g' !! c) as [h|] eqn:Eh.
  - destruct (Hh c h Hc Eh) as (Hb & Hs & Hno & Hph). unfold HttpContext_Send. rewrite Hs.
    destruct (go_http _ Hg c h Eh) as [H1' H2' H3' H4' H5' H6']. destruct (H4' Hs) as [Hw Hlate].
    assert (∀ m', m' ∈ on_way g' c → False) as Hnil by (intros m'; rewrite Hno; by intros ?%elem_of_nil).
    assert ((length (on_way g' c) ≤ 1)%nat) as Hlen by (rewrite Hno; cbn; lia).
    destruct (is_returned h) eqn:Ert; cbn; (eexists; split; [done|]); apply (gw_ok_http _ _ h); try done;
      constructor; cbn; try done; try (by intros m' ?%Hph); try (by intros m' ?%Hnil).
    + unfold is_returned in Ert. by destruct (hc_phase h).
    + by rewrite Hlate.
    + intros _ _. exists (msg_Data m), data. rewrite Hw. eauto.
  - destruct (g_ws g' !! c) as [w|] eqn:Ew; [|destruct (Hin c Hc) as [[? ?]|[? ?]]; congruence].
    eexists. split; [done|]. apply (gw_ok_ws _ _ w); [done|done|..].
    + intros m'. unfold WebsocketContext_Send. destruct (wc_open w); cbn; by apply (go_pending _ Hg).
    + intros d. unfold WebsocketContext_Send. destruct (wc_open w); cbn; [|by left].
      intros [Hd|Hd]%elem_of_app; [by left|]. apply list_elem_of_singleton in Hd as ->. right. eauto.
Qed.

Lemma serve_ok i now g : reach g → gw_ok g →
  match serve scrutinizer_of i now g with
  | Ok g' => gw_ok g'
  | Err _ => True
  | Panic w => ∃ m, g_inflight g !! i = Some m ∧ answer m now (g_router g) = Panic w
  end.
Proof.
  intros Hr Hg. unfold serve. destruct (g_inflight g !! i) as [m|] eqn:Ei; [|done].
  destruct (answer m now (g_router g)) as [[sent r']|e|w] eqn:Ea; [|done|by exists m]. cbn.
  destruct (gw_ok_drop g i m Hg Ei) as [Hg1 Hno].
  assert (gw_ok (set_g_router r' (set_g_inflight (delete i (g_inflight g)) g))) as Hg2 by
    (eapply gw_ok_moved; [exact Hg1|done..|apply Hg]).
  destruct (answer_one _ _ _ _ _ Ea) as [->|(data & t & ->)]; [done|]. cbn [deliver_all].
  assert (m ∈ queue g) as Hq by (unfold queue; apply elem_of_app; left; by eapply list_elem_of_lookup_2).
  destruct (go_queue _ Hg m Hq) as (c & Hc & Hs).
  destruct (deliver_ok g m data t Hr ltac:(eauto) _ Hg2) as (g'' & -> & Hg''); [..|done].
  - intros c' Hc'. by assert (c' = c) as -> by congruence.
  - by exists c.
  - intros c' h Hc' Hh. cbn in Hh. assert (m ∈ on_way g c') as Hon by (apply list_elem_of_filter; done).
    destruct (ho_on_way _ _ _ (go_http _ Hg c' h Hh) m Hon) as [Hb Hsent]. split_and!; [done|done|by apply Hno; eauto|].
    intros m' Hm'. destruct (ho_sending _ _ _ (go_http _ Hg c' h Hh) m' Hm') as (_ & _ & Hnil & _). rewrite Hnil in Hon.
    by apply elem_of_nil in Hon.
Qed.
Lemma enqueue_ok c g g' : gw_ok g → enqueue c g = Ok g' → gw_ok g'.
Proof.
  intros Hg. unfold enqueue. case_decide as Hch; [|done].
  destruct (g_http g !! c) as [[r w sent [m| |] late]|] eqn:Eh; try done.
  - intros [= <-]. destruct (go_http _ Hg c _ Eh) as [H1' H2' H3' H4' H5' H6']. destruct (H1' m eq_refl) as (Hb & Hm & Hno & Hs).
    assert (gw_ok (set_g_http (<[c := mkHttpContext r w sent Waiting late]> (g_http g)) g)) as Hg1.
    { eapply gw_ok_http; [done|exact Eh|]. constructor; cbn; try done. intros Hl. by destruct (H5' Hl). }
    eapply (gw_ok_push _ m c) in Hg1; [exact Hg1|done|done|..].
    + left. cbn. rewrite lookup_insert_eq. by eexists.
    + intros h. cbn. rewrite lookup_insert_eq. intros [= <-]. done.
  - destruct (g_ws g !! c) as [[limit o [m|] frames]|] eqn:Ew; try done. intros [= <-].
    pose proof (go_pending _ Hg c _ m Ew eq_refl) as Hm.
    assert (gw_ok (set_g_ws (<[c := mkWebsocketContext limit o None frames]> (g_ws g)) g)) as Hg1.
    { eapply gw_ok_ws; [done|exact Ew|done|]. intros data. by left. }
    eapply (gw_ok_push _ m c) in Hg1; [exact Hg1|done|done|..].
    + right. cbn. rewrite lookup_insert_eq. by eexists.
    + intros h. cbn. by rewrite Eh.
Qed.
Lemma gw_step_ok e g g' : reach g → gw_ok g → gw_step scrutinizer_of e g = Ok g' → gw_ok g'.
Proof.
  intros Hr Hg. destruct e as [path r now|c payload now|c|c| | |i now|c|c]; cbn [gw_step].
  - unfold accept. destruct (_ !! path) as [e|]; [|done].
    destruct (serve_endpoint e r) as [[[]|[[] ?]]|]; try done; intros [= <-]; [by apply gw_ok_open_http|by apply gw_ok_open_ws].
  - unfold ws_read. destruct (g_ws g !! c) as [[limit [] [m|] frames]|] eqn:Ew; try done.
    case_decide; intros [= <-]; (eapply gw_ok_ws; [done|exact Ew|cbn; by intros ? [= <-]|]); intros data; by left.
  - unfold ws_close. destruct (g_ws g !! c) as [[limit [] [m|] frames]|] eqn:Ew; try done. intros [= <-].
    eapply gw_ok_ws; [done|exact Ew|done|]. intros data. by left.
  - by apply enqueue_ok.
  - unfold listen_take. destruct (g_hand g) as [m0|] eqn:Eh, (g_chan g) as [|m rest] eqn:Ec; try done. intros [= <-].
    pose proof (go_chan _ Hg) as Hl. rewrite Ec in Hl. cbn in Hl.
    eapply gw_ok_moved; [exact Hg|done..| |cbn; lia]. unfold queue. cbn. by rewrite Eh, Ec.
  - unfold listen_give. destruct (g_hand g) as [m|] eqn:Eh; [|done]. intros [= <-].
    eapply gw_ok_moved; [exact Hg|done..| |apply Hg]. unfold queue. cbn. rewrite Eh. cbn. by rewrite <- app_assoc.
  - intros Hs. pose proof (serve_ok i now g Hr Hg) as Ho. by rewrite Hs in Ho.
  - unfold handler_done. destruct (g_http g !! c) as [[r w [] [m| |] late]|] eqn:Eh; try done. intros [= <-].
    destruct (go_http _ Hg c _ Eh) as [H1' H2' H3' H4' H5' H6'].
    eapply gw_ok_http; [done|exact Eh|]. constructor; cbn; try done. intros Hl. by destruct (H5' Hl).
  - unfold handler_timeout. destruct (g_http g !! c) as [[r w sent [m| |] late]|] eqn:Eh; try done. intros [= <-].
    destruct (go_http _ Hg c _ Eh) as [H1' H2' H3' H4' H5' H6'].
    eapply gw_ok_http; [done|exact Eh|]. constructor; cbn; try done. intros Hl. by destruct (H5' Hl).
Qed.

(** ** Every run *)
Lemma gw_run_app es es' g : gw_run scrutinizer_of (es ++ es') g = (g' ← gw_run scrutinizer_of es g; gw_run scrutinizer_of es' g').
Proof.
  revert g. induction es as [|e es IH]; intros g; [done|]. cbn. destruct (gw_step _ e g) as [g1| |]; [|done..]. apply IH.
Qed.
Lemma reach_run es g g' : reach g → gw_run scrutinizer_of es g = Ok g' → reach g'.
Proof. intros [es0 Hr] Hs. exists (es0 ++ es). rewrite gw_run_app, Hr. exact Hs. Qed.
Lemma new_gw_ok : gw_ok (new_Gateway p r0).
Proof. constructor; try done. - intros m Hm. by apply elem_of_nil in Hm. - cbn. lia. Qed.
Lemma reach_ok g : reach g → gw_ok g.
Proof.
  intros [es Hr]. revert g Hr. induction es as [|e es IH] using rev_ind; intros g.
  - intros [= <-]. apply new_gw_ok.
  - rewrite gw_run_app. destruct (gw_run _ es _) as [g1| |] eqn:E1; [|done..]. cbn.
    destruct (gw_step _ e g1) as [g2| |] eqn:E2; [|done..]. intros [= <-]. eapply gw_step_ok; [|by apply IH|exact E2].
    by exists es.
Qed.


(** ** A schedule that answers *)

(** Steps of the goroutines that are there, none of a client or a timeout. *)
Definition internal (e : gw_event) : bool :=
  match e with EvEnqueue _ | EvTake | EvGive | EvServe _ _ | EvDone _ => true | _ => false end.
Definition flushed g : Gateway := set_g_chan [] (set_g_hand None (set_g_inflight (queue g) g)).
Lemma flush g : (length (g_chan g) ≤ 1)%nat →
  ∃ es, (length es ≤ 3)%nat ∧ Forall (λ e, internal e = true) es ∧ gw_run scrutinizer_of es g = Ok (flushed g).
Proof.
  intros Hl. destruct g as [px http ws next chan hand inflight r]. unfold flushed, queue, set_g_chan, set_g_hand, set_g_inflight. cbn in Hl |- *.
  destruct hand as [m|], chan as [|m' [|? ?]]; cbn in Hl; try lia.
  - exists [EvGive]. split_and!; [cbn; lia|by repeat constructor|done].
  - exists [EvGive; EvTake; EvGive]. split_and!; [cbn; lia|by repeat constructor|]. cbn. by rewrite <- app_assoc.
  - exists []. split_and!; [cbn; lia|constructor|]. cbn. by rewrite app_nil_r.
  - exists [EvTake; EvGive]. split_and!; [cbn; lia|by repeat constructor|done].
Qed.
(** Once its message is with the router. *)
Lemma serve_answers g c h i m now data t r' : g_http g !! c = Some h → hc_phase h = Waiting → hc_sent h = false →
  g_inflight g !! i = Some m → answer m now (g_router g) = Ok ([mkMessage data t (Some c)], r') →
  ∃ g', gw_run scrutinizer_of [EvServe i now; EvDone c] g = Ok g' ∧
    g_http g' !! c = Some (mkHttpContext (hc_Request h) (answer_writer data (hc_Writer h)) true Returned (hc_late h)).
Proof.
  intros Hh Hp Hs Hi Ha. cbn [gw_run gw_step mbind res_bind]. unfold serve. rewrite Hi, Ha. cbn [mbind res_bind deliver_all].
  unfold deliver. cbn [msg_Context msg_Data g_http set_g_router set_g_inflight]. rewrite Hh.
  unfold HttpContext_Send, is_returned. rewrite Hs, Hp. cbn [mbind res_bind].
  eexists. split; [unfold handler_done; cbn [g_http set_g_http]; by rewrite lookup_insert_eq|].
  cbn. by rewrite lookup_insert_eq.
Qed.

(** The request is on its way to the router: in the goroutine of its handler or
    in one of the channels. *)
Definition underway g (c : Z) (h : HttpContext) (m : Message) : Prop :=
  hc_phase h = Sending m ∨ (hc_phase h = Waiting ∧ m ∈ on_way g c).
Lemma underway_inflight g c h m : gw_ok g → g_http g !! c = Some h → underway g c h m →
  ∃ es g' i, (length es ≤ 7)%nat ∧ Forall (λ e, internal e = true) es ∧ gw_run scrutinizer_of es g = Ok g' ∧
    g_router g' = g_router g ∧ g_inflight g' !! i = Some m ∧
    g_http g' !! c = Some (set_hc_phase Waiting h).
Proof.
  intros Hg Hh [Hp|[Hp Hm]].
  - destruct (flush g (go_chan _ Hg)) as (es1 & Hl1 & Hi1 & Hr1).
    set (g2 := set_g_chan [m] (set_g_http (<[c := set_hc_phase Waiting h]> (g_http g)) (flushed g))).
    assert (gw_step scrutinizer_of (EvEnqueue c) (flushed g) = Ok g2) as Hr2.
    { cbn [gw_step]. unfold enqueue. cbn [g_chan g_http flushed set_g_chan set_g_hand set_g_inflight].
      rewrite decide_True, Hh by done. destruct h as [r w sent phase late]. cbn in Hp. by subst phase. }
    destruct (flush g2) as (es3 & Hl3 & Hi3 & Hr3); [cbn; lia|].
    exists (es1 ++ EvEnqueue c :: es3), (flushed g2), (length (queue g)). split_and!.
    + rewrite length_app. cbn. lia.
    + apply Forall_app. split; [done|]. by constructor.
    + rewrite gw_run_app, Hr1. cbn [mbind res_bind gw_run]. rewrite Hr2. exact Hr3.
    + done.
    + change ((queue g ++ [m]) !! length (queue g) = Some m). by rewrite lookup_app_r, Nat.sub_diag by lia.
    + cbn. by rewrite lookup_insert_eq.
  - destruct (flush g (go_chan _ Hg)) as (es & Hl & Hi & Hr).
    apply list_elem_of_filter in Hm as [_ [i Hm]%list_elem_of_lookup_1]. exists es, (flushed g), i.
    split_and!; [lia|done|done|done|done|]. cbn. rewrite Hh. f_equal. destruct h; cbn in *; by subst.
Qed.

(** C16: a request whose handler has not returned can always be answered: from
    every state of the gateway, whatever else is going on, at most nine steps
    of goroutines that are there, and none of a client, lead to a state in which
    the handler has returned with the answer the router gives to its body, as
    long as the envelope of the request can be decoded, it is not a file of
    an unknown type, and the router handles it without a failure. *)
Theorem http_request_answered g c h m now r' : reach g → g_http g !! c = Some h → underway g c h m →
  Route scrutinizer_of (msg_Data m) (Some c) now (set_r_sent [] (g_router g)) = (Ok (), r') →
  answerable (msg_Data m) (Some c) (g_router g) →
  ∃ es g' data t, (length es ≤ 9)%nat ∧ Forall (λ e, internal e = true) es ∧ gw_run scrutinizer_of es g = Ok g' ∧
    r_sent r' = [mkMessage data t (Some c)] ∧
    g_http g' !! c = Some (mkHttpContext (hc_Request h) (answer_writer data new_writer) true Returned false).
Proof.
  intros Hr Hh Hu Hroute Hans. pose proof (reach_ok _ Hr) as Hg. pose proof (go_http _ Hg c h Hh) as Hok.
  assert (msg_Context m = Some c ∧ hc_sent h = false) as [Hc Hs].
  { destruct Hu as [Hp|[_ Hm]]; [by destruct (ho_sending _ _ _ Hok m Hp) as (_ & ? & _ & ?)|].
    split; [by apply list_elem_of_filter in Hm as [? _]|by apply (ho_on_way _ _ _ Hok m)]. }
  destruct (ho_open _ _ _ Hok Hs) as [Hw Hlate].
  destruct (Route_answers _ _ _ _ _ _ _ Hroute) as (ms & Hms & HF & _ & Hone). cbn in Hms.
  specialize (Hone eq_refl Hans). destruct ms as [|[data t ctx] [|? ?]]; [done| |done].
  apply Forall_inv in HF. cbn in HF. subst ctx.
  destruct (underway_inflight g c h m Hg Hh Hu) as (es & g1 & i & Hl & Hi & Hr1 & Hrt & Hin & Hh1).
  destruct (serve_answers g1 c (set_hc_phase Waiting h) i m now data t (set_r_sent [] r')) as (g2 & Hr2 & Hh2);
    [done|done|done|done| |].
  { unfold router_answer. by rewrite Hrt, Hc, Hroute, Hms. }
  exists (es ++ [EvServe i now; EvDone c]), g2, data, t. split_and!.
  - rewrite length_app. cbn. lia.
  - apply Forall_app. split; [done|]. by repeat constructor.
  - rewrite gw_run_app, Hr1. exact Hr2.
  - done.
  - rewrite Hh2. cbn. by rewrite Hw, Hlate.
Qed.
End gateway_facts.

(** ** A gateway that serves HTTP and websockets *)
#[local] Existing Instance RouterFacts.concrete_router.
#[local] Existing Instance RouterFacts.plain_addresses.
#[local] Existing Instance RouterFacts.open_mempool.
Definition api_proxy : Proxy :=
  AddNamespace (transport_Init (HttpWsHandler 0)) "/dvote" (mkProxy "0.0.0.0" 9090 "" ∅).
Definition info_body : bytes := signed_msg Byte.x09 ["getGatewayInfo"].
Definition info_request : Request := mkRequest "POST" ∅ (Ok info_body).
Definition run_gateway (es : list gw_event) : res Gateway :=
  gw_run no_scrutinizer es (new_Gateway api_proxy vote_gateway).
Definition served : list gw_event :=
  [EvAccept "/dvote" info_request 5; EvEnqueue 0; EvTake; EvGive; EvServe 0 7; EvDone 0].
Definition written {DB L} `{Graviton} (g : res (Gateway (DB := DB) (L := L))) (c : Z) : option (bool * bool * bytes) :=
  match g with Ok g => (λ h, (hc_sent h, hc_late h, w_Body (hc_Writer h))) <$> g_http g !! c | _ => None end.


Lemma info_answerable : answerable info_body (Some 0) vote_gateway.
Proof.
  assert (match json_RequestMessage info_body with
          | Ok o => match json_MetaRequest (rm_MetaRequest o) with Ok q => rq_Method q | _ => "" end
          | _ => "" end = "getGatewayInfo") as Hq by (vm_compute; reflexivity).
  assert (rg_handler <$> (r_methods vote_gateway !! "getGatewayInfo") = Some cb_info) as Hc by (vm_compute; reflexivity).
  split; [by intros ? ?|]. split; [by eexists|].
  destruct (json_RequestMessage info_body) as [outer| |]; [|done|done]. exists outer. split; [done|].
  intros inner m Hi Hm Ha. rewrite Hi in Hq. rewrite Hq in Hm. rewrite Hm in Hc. cbn in Hc. congruence.
Qed.
Lemma http_request_answered_witness : ∃ g es g' data,
  run_gateway [EvAccept "/dvote" info_request 5] = Ok g ∧ (length es ≤ 9)%nat ∧ gw_run no_scrutinizer es g = Ok g' ∧
  g_http g' !! 0 = Some (mkHttpContext info_request (answer_writer data new_writer) true Returned false).
Proof.
  set (h := mkHttpContext info_request new_writer false (Sending (api_message info_body 0 5)) false).
  set (g := open_http info_request 5 (new_Gateway api_proxy vote_gateway)).
  assert (px_Server api_proxy !! "/dvote" = Some (mixed (fn_api "/dvote") (ws_api "/dvote") 32768)) as Hp by reflexivity.
  assert (run_gateway [EvAccept "/dvote" info_request 5] = Ok g) as Hg.
  { unfold run_gateway. cbn [gw_run gw_step mbind res_bind]. unfold accept.
    change (g_proxy (new_Gateway api_proxy vote_gateway)) with api_proxy. by rewrite Hp. }
  assert ((Route no_scrutinizer info_body (Some 0) 7 (set_r_sent [] (g_router g))).1 = Ok ()) as Hr by (vm_compute; reflexivity).
  apply (run_eq (Route no_scrutinizer info_body (Some 0) 7)) in Hr.
  destruct (http_request_answered no_scrutinizer api_proxy vote_gateway g 0 h (api_message info_body 0 5) 7 _
    (ex_intro _ _ Hg) eq_refl (or_introl eq_refl) Hr info_answerable) as (es & g' & data & t & Hl & _ & Hrun & _ & Hh).
  exists g, es, g', data. exact (conj Hg (conj Hl (conj Hrun Hh))).
Defined.

(** An answer after the timeout of its request is written to a writer whose
    handler has returned, which [net/http] forbids. *)
Lemma late_answer :
  written (run_gateway [EvAccept "/dvote" info_request 5; EvEnqueue 0; EvTake; EvGive; EvTimeout 0; EvServe 0 7]) 0
    = Some (true, true, []).
Proof. vm_compute. reflexivity. Qed.

(** A server behind the proxy that cannot be reached: the handler goes on with
    the nil response. *)
Lemma endpoint_unreachable `{HttpEnv} url r w body e : hr_Body r = Ok body → http_NewRequest (hr_Method r) url = Ok () →
  (∀ hd, http_Do (hr_Method r) url hd body = Err e) → AddEndpoint url r w = Panic "nil pointer dereference".
Proof. intros Hb Hn Hd. unfold AddEndpoint. by rewrite Hb, Hn, Hd. Qed.
