(* ===== verification/EthNode.v ===== *)
(** * The Ethereum node: [chain/blockchains.go], [chain/chain.go], [service/ethereum.go]

    The table of Ethereum networks, the configuration made from it, the start of
    a local node or the connection to an external endpoint, what is known of its
    synchronisation, and the guard that restarts it.  go-ethereum, the network
    and the file system are a parameter ([EthLib]). *)

From stdpp Require Import base gmap strings list.
From Stdlib Require Import ZArith Lia.
From S2P Require Import Prelude GoLib Crypto Database Graviton Startup Json Net.
Open Scope Z_scope.

(** ** Configuration: [config/config.go] *)
Record EthCfg := mkEthCfg {
  ec_ChainType : string; ec_LightMode : bool; ec_NodePort : Z; ec_LogLevel : string; ec_DataDir : string; ec_SigningKey : string;
  ec_BootNodes : list string; ec_TrustedPeers : list string; ec_ProcessDomain : string; ec_NoWaitSync : bool }.
Record W3Cfg := mkW3Cfg {
  w3_Enabled : bool; w3_RPCHost : string; w3_RPCPort : Z; w3_Route : string; w3_W3External : string }.

(** ** Networks: [chain/blockchains.go] *)
Record Specs := mkSpecs {
  sp_Name : string;
  sp_GenesisB64 : string;
  sp_GenesisHash : string;
  sp_NetworkId : Z;
  sp_BootNodes : list string;
  sp_StartingBlock : Z;
  sp_ENSregistryAddr : string }.
Definition AvailableChains : list string := ["mainnet"; "goerli"; "xdai"; "xdaistage"; "sokol"].

(** The literal, by its lines. *)
Definition goerli_lines : list string :=
  ["ewogICJjb25maWciOnsKICAgICJjaGFpbklkIjo1LAogICAgImhvbWVzdGVhZEJsb2NrIjowLAog";
   "ICAgImVpcDE1MEJsb2NrIjowLAogICAgImVpcDE1MEhhc2giOiAiMHhiZjdlMzMxZjdmN2MxZGQy";
   "ZTA1MTU5NjY2YjNiZjhiYzdhOGEzYTllYjFkNTE4OTY5ZWFiNTI5ZGQ5Yjg4YzFhIiwKICAgICJl";
   "aXAxNTVCbG9jayI6MCwKICAgICJlaXAxNThCbG9jayI6MCwKICAgICJlaXAxNjBCbG9jayI6MCwK";
   "ICAgICJieXphbnRpdW1CbG9jayI6MCwKICAgICJjb25zdGFudGlub3BsZUJsb2NrIjowLAogICAg";
   "InBldGVyc2J1cmdCbG9jayI6MCwKICAgICJpc3RhbmJ1bEJsb2NrIjoxNTYxNjUxLAogICAgImNs";
   "aXF1ZSI6ewogICAgICAicGVyaW9kIjoxNSwKICAgICAgImVwb2NoIjozMDAwMAogICAgfQogIH0s";
   "CiAgImNvaW5iYXNlIjoiMHgwMDAwMDAwMDAwMDAwMDAwMDAwMDAwMDAwMDAwMDAwMDAwMDAwMDAw";
   "IiwKICAiZGlmZmljdWx0eSI6IjB4MSIsCiAgImV4dHJhRGF0YSI6IjB4MjI0NjZjNjU3ODY5MjA2";
   "OTczMjA2MTIwNzQ2ODY5NmU2NzIyMjAyZDIwNDE2NjcyNjkwMDAwMDAwMDAwMDAwMGUwYTJiZDQy";
   "NThkMjc2ODgzN2JhYTI2YTI4ZmU3MWRjMDc5Zjg0YzcwMDAwMDAwMDAwMDAwMDAwMDAwMDAwMDAw";
   "MDAwMDAwMDAwMDAwMDAwMDAwMDAwMDAwMDAwMDAwMDAwMDAwMDAwMDAwMDAwMDAwMDAwMDAwMDAw";
   "MDAwMDAwMDAwMDAwMDAwMDAwMDAwMDAwMDAwMDAwMDAwMDAwMDAwMDAwMDAwMDAwIiwKICAiZ2Fz";
   "TGltaXQiOiIweGEwMDAwMCIsCiAgIm1peEhhc2giOiIweDAwMDAwMDAwMDAwMDAwMDAwMDAwMDAw";
   "MDAwMDAwMDAwMDAwMDAwMDAwMDAwMDAwMDAwMDAwMDAwMDAwMDAwMDAiLAogICJub25jZSI6IjB4";
   "MCIsCiAgInRpbWVzdGFtcCI6IjB4NWM1MWE2MDciLAogICJhbGxvYyI6ewogICAgIjAwMDAwMDAw";
   "MDAwMDAwMDAwMDAwMDAwMDAwMDAwMDAwMDAwMDAwMDAiOnsKICAgICAgImJhbGFuY2UiOiIweDEi";
   "CiAgICB9LAogICAgIjAwMDAwMDAwMDAwMDAwMDAwMDAwMDAwMDAwMDAwMDAwMDAwMDAwMDEiOnsK";
   "ICAgICAgImJhbGFuY2UiOiIweDEiCiAgICB9LAogICAgIjAwMDAwMDAwMDAwMDAwMDAwMDAwMDAw";
   "MDAwMDAwMDAwMDAwMDAwMDIiOnsKICAgICAgImJhbGFuY2UiOiIweDEiCiAgICB9LAogICAgIjAw";
   "MDAwMDAwMDAwMDAwMDAwMDAwMDAwMDAwMDAwMDAwMDAwMDAwMDMiOnsKICAgICAgImJhbGFuY2Ui";
   "OiIweDEiCiAgICB9LAogICAgIjAwMDAwMDAwMDAwMDAwMDAwMDAwMDAwMDAwMDAwMDAwMDAwMDAw";
   "MDQiOnsKICAgICAgImJhbGFuY2UiOiIweDEiCiAgICB9LAogICAgIjAwMDAwMDAwMDAwMDAwMDAw";
   "MDAwMDAwMDAwMDAwMDAwMDAwMDAwMDUiOnsKICAgICAgImJhbGFuY2UiOiIweDEiCiAgICB9LAog";
   "ICAgIjAwMDAwMDAwMDAwMDAwMDAwMDAwMDAwMDAwMDAwMDAwMDAwMDAwMDYiOnsKICAgICAgImJh";
   "bGFuY2UiOiIweDEiCiAgICB9LAogICAgIjAwMDAwMDAwMDAwMDAwMDAwMDAwMDAwMDAwMDAwMDAw";
   "MDAwMDAwMDciOnsKICAgICAgImJhbGFuY2UiOiIweDEiCiAgICB9LAogICAgIjAwMDAwMDAwMDAw";
   "MDAwMDAwMDAwMDAwMDAwMDAwMDAwMDAwMDAwMDgiOnsKICAgICAgImJhbGFuY2UiOiIweDEiCiAg";
   "ICB9LAogICAgIjAwMDAwMDAwMDAwMDAwMDAwMDAwMDAwMDAwMDAwMDAwMDAwMDAwMDkiOnsKICAg";
   "ICAgImJhbGFuY2UiOiIweDEiCiAgICB9LAogICAgIjAwMDAwMDAwMDAwMDAwMDAwMDAwMDAwMDAw";
   "MDAwMDAwMDAwMDAwMGEiOnsKICAgICAgImJhbGFuY2UiOiIweDEiCiAgICB9LAogICAgIjAwMDAw";
   "MDAwMDAwMDAwMDAwMDAwMDAwMDAwMDAwMDAwMDAwMDAwMGIiOnsKICAgICAgImJhbGFuY2UiOiIw";
   "eDEiCiAgICB9LAogICAgIjAwMDAwMDAwMDAwMDAwMDAwMDAwMDAwMDAwMDAwMDAwMDAwMDAwMGMi";
   "OnsKICAgICAgImJhbGFuY2UiOiIweDEiCiAgICB9LAogICAgIjAwMDAwMDAwMDAwMDAwMDAwMDAw";
   "MDAwMDAwMDAwMDAwMDAwMDAwMGQiOnsKICAgICAgImJhbGFuY2UiOiIweDEiCiAgICB9LAogICAg";
   "IjAwMDAwMDAwMDAwMDAwMDAwMDAwMDAwMDAwMDAwMDAwMDAwMDAwMGUiOnsKICAgICAgImJhbGFu";
   "Y2UiOiIweDEiCiAgICB9LAogICAgIjAwMDAwMDAwMDAwMDAwMDAwMDAwMDAwMDAwMDAwMDAwMDAw";
   "MDAwMGYiOnsKICAgICAgImJhbGFuY2UiOiIweDEiCiAgICB9LAogICAgIjAwMDAwMDAwMDAwMDAw";
   "MDAwMDAwMDAwMDAwMDAwMDAwMDAwMDAwMTAiOnsKICAgICAgImJhbGFuY2UiOiIweDEiCiAgICB9";
   "LAogICAgIjAwMDAwMDAwMDAwMDAwMDAwMDAwMDAwMDAwMDAwMDAwMDAwMDAwMTEiOnsKICAgICAg";
   "ImJhbGFuY2UiOiIweDEiCiAgICB9LAogICAgIjAwMDAwMDAwMDAwMDAwMDAwMDAwMDAwMDAwMDAw";
   "MDAwMDAwMDAwMTIiOnsKICAgICAgImJhbGFuY2UiOiIweDEiCiAgICB9LAogICAgIjAwMDAwMDAw";
   "MDAwMDAwMDAwMDAwMDAwMDAwMDAwMDAwMDAwMDAwMTMiOnsKICAgICAgImJhbGFuY2UiOiIweDEi";
   "CiAgICB9LAogICAgIjAwMDAwMDAwMDAwMDAwMDAwMDAwMDAwMDAwMDAwMDAwMDAwMDAwMTQiOnsK";
   "ICAgICAgImJhbGFuY2UiOiIweDEiCiAgICB9LAogICAgIjAwMDAwMDAwMDAwMDAwMDAwMDAwMDAw";
   "MDAwMDAwMDAwMDAwMDAwMTUiOnsKICAgICAgImJhbGFuY2UiOiIweDEiCiAgICB9LAogICAgIjAw";
   "MDAwMDAwMDAwMDAwMDAwMDAwMDAwMDAwMDAwMDAwMDAwMDAwMTYiOnsKICAgICAgImJhbGFuY2Ui";
   "OiIweDEiCiAgICB9LAogICAgIjAwMDAwMDAwMDAwMDAwMDAwMDAwMDAwMDAwMDAwMDAwMDAwMDAw";
   "MTciOnsKICAgICAgImJhbGFuY2UiOiIweDEiCiAgICB9LAogICAgIjAwMDAwMDAwMDAwMDAwMDAw";
   "MDAwMDAwMDAwMDAwMDAwMDAwMDAwMTgiOnsKICAgICAgImJhbGFuY2UiOiIweDEiCiAgICB9LAog";
   "ICAgIjAwMDAwMDAwMDAwMDAwMDAwMDAwMDAwMDAwMDAwMDAwMDAwMDAwMTkiOnsKICAgICAgImJh";
   "bGFuY2UiOiIweDEiCiAgICB9LAogICAgIjAwMDAwMDAwMDAwMDAwMDAwMDAwMDAwMDAwMDAwMDAw";
   "MDAwMDAwMWEiOnsKICAgICAgImJhbGFuY2UiOiIweDEiCiAgICB9LAogICAgIjAwMDAwMDAwMDAw";
   "MDAwMDAwMDAwMDAwMDAwMDAwMDAwMDAwMDAwMWIiOnsKICAgICAgImJhbGFuY2UiOiIweDEiCiAg";
   "ICB9LAogICAgIjAwMDAwMDAwMDAwMDAwMDAwMDAwMDAwMDAwMDAwMDAwMDAwMDAwMWMiOnsKICAg";
   "ICAgImJhbGFuY2UiOiIweDEiCiAgICB9LAogICAgIjAwMDAwMDAwMDAwMDAwMDAwMDAwMDAwMDAw";
   "MDAwMDAwMDAwMDAwMWQiOnsKICAgICAgImJhbGFuY2UiOiIweDEiCiAgICB9LAogICAgIjAwMDAw";
   "MDAwMDAwMDAwMDAwMDAwMDAwMDAwMDAwMDAwMDAwMDAwMWUiOnsKICAgICAgImJhbGFuY2UiOiIw";
   "eDEiCiAgICB9LAogICAgIjAwMDAwMDAwMDAwMDAwMDAwMDAwMDAwMDAwMDAwMDAwMDAwMDAwMWYi";
   "OnsKICAgICAgImJhbGFuY2UiOiIweDEiCiAgICB9LAogICAgIjAwMDAwMDAwMDAwMDAwMDAwMDAw";
   "MDAwMDAwMDAwMDAwMDAwMDAwMjAiOnsKICAgICAgImJhbGFuY2UiOiIweDEiCiAgICB9LAogICAg";
   "IjAwMDAwMDAwMDAwMDAwMDAwMDAwMDAwMDAwMDAwMDAwMDAwMDAwMjEiOnsKICAgICAgImJhbGFu";
   "Y2UiOiIweDEiCiAgICB9LAogICAgIjAwMDAwMDAwMDAwMDAwMDAwMDAwMDAwMDAwMDAwMDAwMDAw";
   "MDAwMjIiOnsKICAgICAgImJhbGFuY2UiOiIweDEiCiAgICB9LAogICAgIjAwMDAwMDAwMDAwMDAw";
   "MDAwMDAwMDAwMDAwMDAwMDAwMDAwMDAwMjMiOnsKICAgICAgImJhbGFuY2UiOiIweDEiCiAgICB9";
   "LAogICAgIjAwMDAwMDAwMDAwMDAwMDAwMDAwMDAwMDAwMDAwMDAwMDAwMDAwMjQiOnsKICAgICAg";
   "ImJhbGFuY2UiOiIweDEiCiAgICB9LAogICAgIjAwMDAwMDAwMDAwMDAwMDAwMDAwMDAwMDAwMDAw";
   "MDAwMDAwMDAwMjUiOnsKICAgICAgImJhbGFuY2UiOiIweDEiCiAgICB9LAogICAgIjAwMDAwMDAw";
   "MDAwMDAwMDAwMDAwMDAwMDAwMDAwMDAwMDAwMDAwMjYiOnsKICAgICAgImJhbGFuY2UiOiIweDEi";
   "CiAgICB9LAogICAgIjAwMDAwMDAwMDAwMDAwMDAwMDAwMDAwMDAwMDAwMDAwMDAwMDAwMjciOnsK";
   "ICAgICAgImJhbGFuY2UiOiIweDEiCiAgICB9LAogICAgIjAwMDAwMDAwMDAwMDAwMDAwMDAwMDAw";
   "MDAwMDAwMDAwMDAwMDAwMjgiOnsKICAgICAgImJhbGFuY2UiOiIweDEiCiAgICB9LAogICAgIjAw";
   "MDAwMDAwMDAwMDAwMDAwMDAwMDAwMDAwMDAwMDAwMDAwMDAwMjkiOnsKICAgICAgImJhbGFuY2Ui";
   "OiIweDEiCiAgICB9LAogICAgIjAwMDAwMDAwMDAwMDAwMDAwMDAwMDAwMDAwMDAwMDAwMDAwMDAw";
   "MmEiOnsKICAgICAgImJhbGFuY2UiOiIweDEiCiAgICB9LAogICAgIjAwMDAwMDAwMDAwMDAwMDAw";
   "MDAwMDAwMDAwMDAwMDAwMDAwMDAwMmIiOnsKICAgICAgImJhbGFuY2UiOiIweDEiCiAgICB9LAog";
   "ICAgIjAwMDAwMDAwMDAwMDAwMDAwMDAwMDAwMDAwMDAwMDAwMDAwMDAwMmMiOnsKICAgICAgImJh";
   "bGFuY2UiOiIweDEiCiAgICB9LAogICAgIjAwMDAwMDAwMDAwMDAwMDAwMDAwMDAwMDAwMDAwMDAw";
   "MDAwMDAwMmQiOnsKICAgICAgImJhbGFuY2UiOiIweDEiCiAgICB9LAogICAgIjAwMDAwMDAwMDAw";
   "MDAwMDAwMDAwMDAwMDAwMDAwMDAwMDAwMDAwMmUiOnsKICAgICAgImJhbGFuY2UiOiIweDEiCiAg";
   "ICB9LAogICAgIjAwMDAwMDAwMDAwMDAwMDAwMDAwMDAwMDAwMDAwMDAwMDAwMDAwMmYiOnsKICAg";
   "ICAgImJhbGFuY2UiOiIweDEiCiAgICB9LAogICAgIjAwMDAwMDAwMDAwMDAwMDAwMDAwMDAwMDAw";
   "MDAwMDAwMDAwMDAwMzAiOnsKICAgICAgImJhbGFuY2UiOiIweDEiCiAgICB9LAogICAgIjAwMDAw";
   "MDAwMDAwMDAwMDAwMDAwMDAwMDAwMDAwMDAwMDAwMDAwMzEiOnsKICAgICAgImJhbGFuY2UiOiIw";
   "eDEiCiAgICB9LAogICAgIjAwMDAwMDAwMDAwMDAwMDAwMDAwMDAwMDAwMDAwMDAwMDAwMDAwMzIi";
   "OnsKICAgICAgImJhbGFuY2UiOiIweDEiCiAgICB9LAogICAgIjAwMDAwMDAwMDAwMDAwMDAwMDAw";
   "MDAwMDAwMDAwMDAwMDAwMDAwMzMiOnsKICAgICAgImJhbGFuY2UiOiIweDEiCiAgICB9LAogICAg";
   "IjAwMDAwMDAwMDAwMDAwMDAwMDAwMDAwMDAwMDAwMDAwMDAwMDAwMzQiOnsKICAgICAgImJhbGFu";
   "Y2UiOiIweDEiCiAgICB9LAogICAgIjAwMDAwMDAwMDAwMDAwMDAwMDAwMDAwMDAwMDAwMDAwMDAw";
   "MDAwMzUiOnsKICAgICAgImJhbGFuY2UiOiIweDEiCiAgICB9LAogICAgIjAwMDAwMDAwMDAwMDAw";
   "MDAwMDAwMDAwMDAwMDAwMDAwMDAwMDAwMzYiOnsKICAgICAgImJhbGFuY2UiOiIweDEiCiAgICB9";
   "LAogICAgIjAwMDAwMDAwMDAwMDAwMDAwMDAwMDAwMDAwMDAwMDAwMDAwMDAwMzciOnsKICAgICAg";
   "ImJhbGFuY2UiOiIweDEiCiAgICB9LAogICAgIjAwMDAwMDAwMDAwMDAwMDAwMDAwMDAwMDAwMDAw";
   "MDAwMDAwMDAwMzgiOnsKICAgICAgImJhbGFuY2UiOiIweDEiCiAgICB9LAogICAgIjAwMDAwMDAw";
   "MDAwMDAwMDAwMDAwMDAwMDAwMDAwMDAwMDAwMDAwMzkiOnsKICAgICAgImJhbGFuY2UiOiIweDEi";
   "CiAgICB9LAogICAgIjAwMDAwMDAwMDAwMDAwMDAwMDAwMDAwMDAwMDAwMDAwMDAwMDAwM2EiOnsK";
   "ICAgICAgImJhbGFuY2UiOiIweDEiCiAgICB9LAogICAgIjAwMDAwMDAwMDAwMDAwMDAwMDAwMDAw";
   "MDAwMDAwMDAwMDAwMDAwM2IiOnsKICAgICAgImJhbGFuY2UiOiIweDEiCiAgICB9LAogICAgIjAw";
   "MDAwMDAwMDAwMDAwMDAwMDAwMDAwMDAwMDAwMDAwMDAwMDAwM2MiOnsKICAgICAgImJhbGFuY2Ui";
   "OiIweDEiCiAgICB9LAogICAgIjAwMDAwMDAwMDAwMDAwMDAwMDAwMDAwMDAwMDAwMDAwMDAwMDAw";
   "M2QiOnsKICAgICAgImJhbGFuY2UiOiIweDEiCiAgICB9LAogICAgIjAwMDAwMDAwMDAwMDAwMDAw";
   "MDAwMDAwMDAwMDAwMDAwMDAwMDAwM2UiOnsKICAgICAgImJhbGFuY2UiOiIweDEiCiAgICB9LAog";
   "ICAgIjAwMDAwMDAwMDAwMDAwMDAwMDAwMDAwMDAwMDAwMDAwMDAwMDAwM2YiOnsKICAgICAgImJh";
   "bGFuY2UiOiIweDEiCiAgICB9LAogICAgIjAwMDAwMDAwMDAwMDAwMDAwMDAwMDAwMDAwMDAwMDAw";
   "MDAwMDAwNDAiOnsKICAgICAgImJhbGFuY2UiOiIweDEiCiAgICB9LAogICAgIjAwMDAwMDAwMDAw";
   "MDAwMDAwMDAwMDAwMDAwMDAwMDAwMDAwMDAwNDEiOnsKICAgICAgImJhbGFuY2UiOiIweDEiCiAg";
   "ICB9LAogICAgIjAwMDAwMDAwMDAwMDAwMDAwMDAwMDAwMDAwMDAwMDAwMDAwMDAwNDIiOnsKICAg";
   "ICAgImJhbGFuY2UiOiIweDEiCiAgICB9LAogICAgIjAwMDAwMDAwMDAwMDAwMDAwMDAwMDAwMDAw";
   "MDAwMDAwMDAwMDAwNDMiOnsKICAgICAgImJhbGFuY2UiOiIweDEiCiAgICB9LAogICAgIjAwMDAw";
   "MDAwMDAwMDAwMDAwMDAwMDAwMDAwMDAwMDAwMDAwMDAwNDQiOnsKICAgICAgImJhbGFuY2UiOiIw";
   "eDEiCiAgICB9LAogICAgIjAwMDAwMDAwMDAwMDAwMDAwMDAwMDAwMDAwMDAwMDAwMDAwMDAwNDUi";
   "OnsKICAgICAgImJhbGFuY2UiOiIweDEiCiAgICB9LAogICAgIjAwMDAwMDAwMDAwMDAwMDAwMDAw";
   "MDAwMDAwMDAwMDAwMDAwMDAwNDYiOnsKICAgICAgImJhbGFuY2UiOiIweDEiCiAgICB9LAogICAg";
   "IjAwMDAwMDAwMDAwMDAwMDAwMDAwMDAwMDAwMDAwMDAwMDAwMDAwNDciOnsKICAgICAgImJhbGFu";
   "Y2UiOiIweDEiCiAgICB9LAogICAgIjAwMDAwMDAwMDAwMDAwMDAwMDAwMDAwMDAwMDAwMDAwMDAw";
   "MDAwNDgiOnsKICAgICAgImJhbGFuY2UiOiIweDEiCiAgICB9LAogICAgIjAwMDAwMDAwMDAwMDAw";
   "MDAwMDAwMDAwMDAwMDAwMDAwMDAwMDAwNDkiOnsKICAgICAgImJhbGFuY2UiOiIweDEiCiAgICB9";
   "LAogICAgIjAwMDAwMDAwMDAwMDAwMDAwMDAwMDAwMDAwMDAwMDAwMDAwMDAwNGEiOnsKICAgICAg";
   "ImJhbGFuY2UiOiIweDEiCiAgICB9LAogICAgIjAwMDAwMDAwMDAwMDAwMDAwMDAwMDAwMDAwMDAw";
   "MDAwMDAwMDAwNGIiOnsKICAgICAgImJhbGFuY2UiOiIweDEiCiAgICB9LAogICAgIjAwMDAwMDAw";
   "MDAwMDAwMDAwMDAwMDAwMDAwMDAwMDAwMDAwMDAwNGMiOnsKICAgICAgImJhbGFuY2UiOiIweDEi";
   "CiAgICB9LAogICAgIjAwMDAwMDAwMDAwMDAwMDAwMDAwMDAwMDAwMDAwMDAwMDAwMDAwNGQiOnsK";
   "ICAgICAgImJhbGFuY2UiOiIweDEiCiAgICB9LAogICAgIjAwMDAwMDAwMDAwMDAwMDAwMDAwMDAw";
   "MDAwMDAwMDAwMDAwMDAwNGUiOnsKICAgICAgImJhbGFuY2UiOiIweDEiCiAgICB9LAogICAgIjAw";
   "MDAwMDAwMDAwMDAwMDAwMDAwMDAwMDAwMDAwMDAwMDAwMDAwNGYiOnsKICAgICAgImJhbGFuY2Ui";
   "OiIweDEiCiAgICB9LAogICAgIjAwMDAwMDAwMDAwMDAwMDAwMDAwMDAwMDAwMDAwMDAwMDAwMDAw";
   "NTAiOnsKICAgICAgImJhbGFuY2UiOiIweDEiCiAgICB9LAogICAgIjAwMDAwMDAwMDAwMDAwMDAw";
   "MDAwMDAwMDAwMDAwMDAwMDAwMDAwNTEiOnsKICAgICAgImJhbGFuY2UiOiIweDEiCiAgICB9LAog";
   "ICAgIjAwMDAwMDAwMDAwMDAwMDAwMDAwMDAwMDAwMDAwMDAwMDAwMDAwNTIiOnsKICAgICAgImJh";
   "bGFuY2UiOiIweDEiCiAgICB9LAogICAgIjAwMDAwMDAwMDAwMDAwMDAwMDAwMDAwMDAwMDAwMDAw";
   "MDAwMDAwNTMiOnsKICAgICAgImJhbGFuY2UiOiIweDEiCiAgICB9LAogICAgIjAwMDAwMDAwMDAw";
   "MDAwMDAwMDAwMDAwMDAwMDAwMDAwMDAwMDAwNTQiOnsKICAgICAgImJhbGFuY2UiOiIweDEiCiAg";
   "ICB9LAogICAgIjAwMDAwMDAwMDAwMDAwMDAwMDAwMDAwMDAwMDAwMDAwMDAwMDAwNTUiOnsKICAg";
   "ICAgImJhbGFuY2UiOiIweDEiCiAgICB9LAogICAgIjAwMDAwMDAwMDAwMDAwMDAwMDAwMDAwMDAw";
   "MDAwMDAwMDAwMDAwNTYiOnsKICAgICAgImJhbGFuY2UiOiIweDEiCiAgICB9LAogICAgIjAwMDAw";
   "MDAwMDAwMDAwMDAwMDAwMDAwMDAwMDAwMDAwMDAwMDAwNTciOnsKICAgICAgImJhbGFuY2UiOiIw";
   "eDEiCiAgICB9LAogICAgIjAwMDAwMDAwMDAwMDAwMDAwMDAwMDAwMDAwMDAwMDAwMDAwMDAwNTgi";
   "OnsKICAgICAgImJhbGFuY2UiOiIweDEiCiAgICB9LAogICAgIjAwMDAwMDAwMDAwMDAwMDAwMDAw";
   "MDAwMDAwMDAwMDAwMDAwMDAwNTkiOnsKICAgICAgImJhbGFuY2UiOiIweDEiCiAgICB9LAogICAg";
   "IjAwMDAwMDAwMDAwMDAwMDAwMDAwMDAwMDAwMDAwMDAwMDAwMDAwNWEiOnsKICAgICAgImJhbGFu";
   "Y2UiOiIweDEiCiAgICB9LAogICAgIjAwMDAwMDAwMDAwMDAwMDAwMDAwMDAwMDAwMDAwMDAwMDAw";
   "MDAwNWIiOnsKICAgICAgImJhbGFuY2UiOiIweDEiCiAgICB9LAogICAgIjAwMDAwMDAwMDAwMDAw";
   "MDAwMDAwMDAwMDAwMDAwMDAwMDAwMDAwNWMiOnsKICAgICAgImJhbGFuY2UiOiIweDEiCiAgICB9";
   "LAogICAgIjAwMDAwMDAwMDAwMDAwMDAwMDAwMDAwMDAwMDAwMDAwMDAwMDAwNWQiOnsKICAgICAg";
   "ImJhbGFuY2UiOiIweDEiCiAgICB9LAogICAgIjAwMDAwMDAwMDAwMDAwMDAwMDAwMDAwMDAwMDAw";
   "MDAwMDAwMDAwNWUiOnsKICAgICAgImJhbGFuY2UiOiIweDEiCiAgICB9LAogICAgIjAwMDAwMDAw";
   "MDAwMDAwMDAwMDAwMDAwMDAwMDAwMDAwMDAwMDAwNWYiOnsKICAgICAgImJhbGFuY2UiOiIweDEi";
   "CiAgICB9LAogICAgIjAwMDAwMDAwMDAwMDAwMDAwMDAwMDAwMDAwMDAwMDAwMDAwMDAwNjAiOnsK";
   "ICAgICAgImJhbGFuY2UiOiIweDEiCiAgICB9LAogICAgIjAwMDAwMDAwMDAwMDAwMDAwMDAwMDAw";
   "MDAwMDAwMDAwMDAwMDAwNjEiOnsKICAgICAgImJhbGFuY2UiOiIweDEiCiAgICB9LAogICAgIjAw";
   "MDAwMDAwMDAwMDAwMDAwMDAwMDAwMDAwMDAwMDAwMDAwMDAwNjIiOnsKICAgICAgImJhbGFuY2Ui";
   "OiIweDEiCiAgICB9LAogICAgIjAwMDAwMDAwMDAwMDAwMDAwMDAwMDAwMDAwMDAwMDAwMDAwMDAw";
   "NjMiOnsKICAgICAgImJhbGFuY2UiOiIweDEiCiAgICB9LAogICAgIjAwMDAwMDAwMDAwMDAwMDAw";
   "MDAwMDAwMDAwMDAwMDAwMDAwMDAwNjQiOnsKICAgICAgImJhbGFuY2UiOiIweDEiCiAgICB9LAog";
   "ICAgIjAwMDAwMDAwMDAwMDAwMDAwMDAwMDAwMDAwMDAwMDAwMDAwMDAwNjUiOnsKICAgICAgImJh";
   "bGFuY2UiOiIweDEiCiAgICB9LAogICAgIjAwMDAwMDAwMDAwMDAwMDAwMDAwMDAwMDAwMDAwMDAw";
   "MDAwMDAwNjYiOnsKICAgICAgImJhbGFuY2UiOiIweDEiCiAgICB9LAogICAgIjAwMDAwMDAwMDAw";
   "MDAwMDAwMDAwMDAwMDAwMDAwMDAwMDAwMDAwNjciOnsKICAgICAgImJhbGFuY2UiOiIweDEiCiAg";
   "ICB9LAogICAgIjAwMDAwMDAwMDAwMDAwMDAwMDAwMDAwMDAwMDAwMDAwMDAwMDAwNjgiOnsKICAg";
   "ICAgImJhbGFuY2UiOiIweDEiCiAgICB9LAogICAgIjAwMDAwMDAwMDAwMDAwMDAwMDAwMDAwMDAw";
   "MDAwMDAwMDAwMDAwNjkiOnsKICAgICAgImJhbGFuY2UiOiIweDEiCiAgICB9LAogICAgIjAwMDAw";
   "MDAwMDAwMDAwMDAwMDAwMDAwMDAwMDAwMDAwMDAwMDAwNmEiOnsKICAgICAgImJhbGFuY2UiOiIw";
   "eDEiCiAgICB9LAogICAgIjAwMDAwMDAwMDAwMDAwMDAwMDAwMDAwMDAwMDAwMDAwMDAwMDAwNmIi";
   "OnsKICAgICAgImJhbGFuY2UiOiIweDEiCiAgICB9LAogICAgIjAwMDAwMDAwMDAwMDAwMDAwMDAw";
   "MDAwMDAwMDAwMDAwMDAwMDAwNmMiOnsKICAgICAgImJhbGFuY2UiOiIweDEiCiAgICB9LAogICAg";
   "IjAwMDAwMDAwMDAwMDAwMDAwMDAwMDAwMDAwMDAwMDAwMDAwMDAwNmQiOnsKICAgICAgImJhbGFu";
   "Y2UiOiIweDEiCiAgICB9LAogICAgIjAwMDAwMDAwMDAwMDAwMDAwMDAwMDAwMDAwMDAwMDAwMDAw";
   "MDAwNmUiOnsKICAgICAgImJhbGFuY2UiOiIweDEiCiAgICB9LAogICAgIjAwMDAwMDAwMDAwMDAw";
   "MDAwMDAwMDAwMDAwMDAwMDAwMDAwMDAwNmYiOnsKICAgICAgImJhbGFuY2UiOiIweDEiCiAgICB9";
   "LAogICAgIjAwMDAwMDAwMDAwMDAwMDAwMDAwMDAwMDAwMDAwMDAwMDAwMDAwNzAiOnsKICAgICAg";
   "ImJhbGFuY2UiOiIweDEiCiAgICB9LAogICAgIjAwMDAwMDAwMDAwMDAwMDAwMDAwMDAwMDAwMDAw";
   "MDAwMDAwMDAwNzEiOnsKICAgICAgImJhbGFuY2UiOiIweDEiCiAgICB9LAogICAgIjAwMDAwMDAw";
   "MDAwMDAwMDAwMDAwMDAwMDAwMDAwMDAwMDAwMDAwNzIiOnsKICAgICAgImJhbGFuY2UiOiIweDEi";
   "CiAgICB9LAogICAgIjAwMDAwMDAwMDAwMDAwMDAwMDAwMDAwMDAwMDAwMDAwMDAwMDAwNzMiOnsK";
   "ICAgICAgImJhbGFuY2UiOiIweDEiCiAgICB9LAogICAgIjAwMDAwMDAwMDAwMDAwMDAwMDAwMDAw";
   "MDAwMDAwMDAwMDAwMDAwNzQiOnsKICAgICAgImJhbGFuY2UiOiIweDEiCiAgICB9LAogICAgIjAw";
   "MDAwMDAwMDAwMDAwMDAwMDAwMDAwMDAwMDAwMDAwMDAwMDAwNzUiOnsKICAgICAgImJhbGFuY2Ui";
   "OiIweDEiCiAgICB9LAogICAgIjAwMDAwMDAwMDAwMDAwMDAwMDAwMDAwMDAwMDAwMDAwMDAwMDAw";
   "NzYiOnsKICAgICAgImJhbGFuY2UiOiIweDEiCiAgICB9LAogICAgIjAwMDAwMDAwMDAwMDAwMDAw";
   "MDAwMDAwMDAwMDAwMDAwMDAwMDAwNzciOnsKICAgICAgImJhbGFuY2UiOiIweDEiCiAgICB9LAog";
   "ICAgIjAwMDAwMDAwMDAwMDAwMDAwMDAwMDAwMDAwMDAwMDAwMDAwMDAwNzgiOnsKICAgICAgImJh";
   "bGFuY2UiOiIweDEiCiAgICB9LAogICAgIjAwMDAwMDAwMDAwMDAwMDAwMDAwMDAwMDAwMDAwMDAw";
   "MDAwMDAwNzkiOnsKICAgICAgImJhbGFuY2UiOiIweDEiCiAgICB9LAogICAgIjAwMDAwMDAwMDAw";
   "MDAwMDAwMDAwMDAwMDAwMDAwMDAwMDAwMDAwN2EiOnsKICAgICAgImJhbGFuY2UiOiIweDEiCiAg";
   "ICB9LAogICAgIjAwMDAwMDAwMDAwMDAwMDAwMDAwMDAwMDAwMDAwMDAwMDAwMDAwN2IiOnsKICAg";
   "ICAgImJhbGFuY2UiOiIweDEiCiAgICB9LAogICAgIjAwMDAwMDAwMDAwMDAwMDAwMDAwMDAwMDAw";
   "MDAwMDAwMDAwMDAwN2MiOnsKICAgICAgImJhbGFuY2UiOiIweDEiCiAgICB9LAogICAgIjAwMDAw";
   "MDAwMDAwMDAwMDAwMDAwMDAwMDAwMDAwMDAwMDAwMDAwN2QiOnsKICAgICAgImJhbGFuY2UiOiIw";
   "eDEiCiAgICB9LAogICAgIjAwMDAwMDAwMDAwMDAwMDAwMDAwMDAwMDAwMDAwMDAwMDAwMDAwN2Ui";
   "OnsKICAgICAgImJhbGFuY2UiOiIweDEiCiAgICB9LAogICAgIjAwMDAwMDAwMDAwMDAwMDAwMDAw";
   "MDAwMDAwMDAwMDAwMDAwMDAwN2YiOnsKICAgICAgImJhbGFuY2UiOiIweDEiCiAgICB9LAogICAg";
   "IjAwMDAwMDAwMDAwMDAwMDAwMDAwMDAwMDAwMDAwMDAwMDAwMDAwODAiOnsKICAgICAgImJhbGFu";
   "Y2UiOiIweDEiCiAgICB9LAogICAgIjAwMDAwMDAwMDAwMDAwMDAwMDAwMDAwMDAwMDAwMDAwMDAw";
   "MDAwODEiOnsKICAgICAgImJhbGFuY2UiOiIweDEiCiAgICB9LAogICAgIjAwMDAwMDAwMDAwMDAw";
   "MDAwMDAwMDAwMDAwMDAwMDAwMDAwMDAwODIiOnsKICAgICAgImJhbGFuY2UiOiIweDEiCiAgICB9";
   "LAogICAgIjAwMDAwMDAwMDAwMDAwMDAwMDAwMDAwMDAwMDAwMDAwMDAwMDAwODMiOnsKICAgICAg";
   "ImJhbGFuY2UiOiIweDEiCiAgICB9LAogICAgIjAwMDAwMDAwMDAwMDAwMDAwMDAwMDAwMDAwMDAw";
   "MDAwMDAwMDAwODQiOnsKICAgICAgImJhbGFuY2UiOiIweDEiCiAgICB9LAogICAgIjAwMDAwMDAw";
   "MDAwMDAwMDAwMDAwMDAwMDAwMDAwMDAwMDAwMDAwODUiOnsKICAgICAgImJhbGFuY2UiOiIweDEi";
   "CiAgICB9LAogICAgIjAwMDAwMDAwMDAwMDAwMDAwMDAwMDAwMDAwMDAwMDAwMDAwMDAwODYiOnsK";
   "ICAgICAgImJhbGFuY2UiOiIweDEiCiAgICB9LAogICAgIjAwMDAwMDAwMDAwMDAwMDAwMDAwMDAw";
   "MDAwMDAwMDAwMDAwMDAwODciOnsKICAgICAgImJhbGFuY2UiOiIweDEiCiAgICB9LAogICAgIjAw";
   "MDAwMDAwMDAwMDAwMDAwMDAwMDAwMDAwMDAwMDAwMDAwMDAwODgiOnsKICAgICAgImJhbGFuY2Ui";
   "OiIweDEiCiAgICB9LAogICAgIjAwMDAwMDAwMDAwMDAwMDAwMDAwMDAwMDAwMDAwMDAwMDAwMDAw";
   "ODkiOnsKICAgICAgImJhbGFuY2UiOiIweDEiCiAgICB9LAogICAgIjAwMDAwMDAwMDAwMDAwMDAw";
   "MDAwMDAwMDAwMDAwMDAwMDAwMDAwOGEiOnsKICAgICAgImJhbGFuY2UiOiIweDEiCiAgICB9LAog";
   "ICAgIjAwMDAwMDAwMDAwMDAwMDAwMDAwMDAwMDAwMDAwMDAwMDAwMDAwOGIiOnsKICAgICAgImJh";
   "bGFuY2UiOiIweDEiCiAgICB9LAogICAgIjAwMDAwMDAwMDAwMDAwMDAwMDAwMDAwMDAwMDAwMDAw";
   "MDAwMDAwOGMiOnsKICAgICAgImJhbGFuY2UiOiIweDEiCiAgICB9LAogICAgIjAwMDAwMDAwMDAw";
   "MDAwMDAwMDAwMDAwMDAwMDAwMDAwMDAwMDAwOGQiOnsKICAgICAgImJhbGFuY2UiOiIweDEiCiAg";
   "ICB9LAogICAgIjAwMDAwMDAwMDAwMDAwMDAwMDAwMDAwMDAwMDAwMDAwMDAwMDAwOGUiOnsKICAg";
   "ICAgImJhbGFuY2UiOiIweDEiCiAgICB9LAogICAgIjAwMDAwMDAwMDAwMDAwMDAwMDAwMDAwMDAw";
   "MDAwMDAwMDAwMDAwOGYiOnsKICAgICAgImJhbGFuY2UiOiIweDEiCiAgICB9LAogICAgIjAwMDAw";
   "MDAwMDAwMDAwMDAwMDAwMDAwMDAwMDAwMDAwMDAwMDAwOTAiOnsKICAgICAgImJhbGFuY2UiOiIw";
   "eDEiCiAgICB9LAogICAgIjAwMDAwMDAwMDAwMDAwMDAwMDAwMDAwMDAwMDAwMDAwMDAwMDAwOTEi";
   "OnsKICAgICAgImJhbGFuY2UiOiIweDEiCiAgICB9LAogICAgIjAwMDAwMDAwMDAwMDAwMDAwMDAw";
   "MDAwMDAwMDAwMDAwMDAwMDAwOTIiOnsKICAgICAgImJhbGFuY2UiOiIweDEiCiAgICB9LAogICAg";
   "IjAwMDAwMDAwMDAwMDAwMDAwMDAwMDAwMDAwMDAwMDAwMDAwMDAwOTMiOnsKICAgICAgImJhbGFu";
   "Y2UiOiIweDEiCiAgICB9LAogICAgIjAwMDAwMDAwMDAwMDAwMDAwMDAwMDAwMDAwMDAwMDAwMDAw";
   "MDAwOTQiOnsKICAgICAgImJhbGFuY2UiOiIweDEiCiAgICB9LAogICAgIjAwMDAwMDAwMDAwMDAw";
   "MDAwMDAwMDAwMDAwMDAwMDAwMDAwMDAwOTUiOnsKICAgICAgImJhbGFuY2UiOiIweDEiCiAgICB9";
   "LAogICAgIjAwMDAwMDAwMDAwMDAwMDAwMDAwMDAwMDAwMDAwMDAwMDAwMDAwOTYiOnsKICAgICAg";
   "ImJhbGFuY2UiOiIweDEiCiAgICB9LAogICAgIjAwMDAwMDAwMDAwMDAwMDAwMDAwMDAwMDAwMDAw";
   "MDAwMDAwMDAwOTciOnsKICAgICAgImJhbGFuY2UiOiIweDEiCiAgICB9LAogICAgIjAwMDAwMDAw";
   "MDAwMDAwMDAwMDAwMDAwMDAwMDAwMDAwMDAwMDAwOTgiOnsKICAgICAgImJhbGFuY2UiOiIweDEi";
   "CiAgICB9LAogICAgIjAwMDAwMDAwMDAwMDAwMDAwMDAwMDAwMDAwMDAwMDAwMDAwMDAwOTkiOnsK";
   "ICAgICAgImJhbGFuY2UiOiIweDEiCiAgICB9LAogICAgIjAwMDAwMDAwMDAwMDAwMDAwMDAwMDAw";
   "MDAwMDAwMDAwMDAwMDAwOWEiOnsKICAgICAgImJhbGFuY2UiOiIweDEiCiAgICB9LAogICAgIjAw";
   "MDAwMDAwMDAwMDAwMDAwMDAwMDAwMDAwMDAwMDAwMDAwMDAwOWIiOnsKICAgICAgImJhbGFuY2Ui";
   "OiIweDEiCiAgICB9LAogICAgIjAwMDAwMDAwMDAwMDAwMDAwMDAwMDAwMDAwMDAwMDAwMDAwMDAw";
   "OWMiOnsKICAgICAgImJhbGFuY2UiOiIweDEiCiAgICB9LAogICAgIjAwMDAwMDAwMDAwMDAwMDAw";
   "MDAwMDAwMDAwMDAwMDAwMDAwMDAwOWQiOnsKICAgICAgImJhbGFuY2UiOiIweDEiCiAgICB9LAog";
   "ICAgIjAwMDAwMDAwMDAwMDAwMDAwMDAwMDAwMDAwMDAwMDAwMDAwMDAwOWUiOnsKICAgICAgImJh";
   "bGFuY2UiOiIweDEiCiAgICB9LAogICAgIjAwMDAwMDAwMDAwMDAwMDAwMDAwMDAwMDAwMDAwMDAw";
   "MDAwMDAwOWYiOnsKICAgICAgImJhbGFuY2UiOiIweDEiCiAgICB9LAogICAgIjAwMDAwMDAwMDAw";
   "MDAwMDAwMDAwMDAwMDAwMDAwMDAwMDAwMDAwYTAiOnsKICAgICAgImJhbGFuY2UiOiIweDEiCiAg";
   "ICB9LAogICAgIjAwMDAwMDAwMDAwMDAwMDAwMDAwMDAwMDAwMDAwMDAwMDAwMDAwYTEiOnsKICAg";
   "ICAgImJhbGFuY2UiOiIweDEiCiAgICB9LAogICAgIjAwMDAwMDAwMDAwMDAwMDAwMDAwMDAwMDAw";
   "MDAwMDAwMDAwMDAwYTIiOnsKICAgICAgImJhbGFuY2UiOiIweDEiCiAgICB9LAogICAgIjAwMDAw";
   "MDAwMDAwMDAwMDAwMDAwMDAwMDAwMDAwMDAwMDAwMDAwYTMiOnsKICAgICAgImJhbGFuY2UiOiIw";
   "eDEiCiAgICB9LAogICAgIjAwMDAwMDAwMDAwMDAwMDAwMDAwMDAwMDAwMDAwMDAwMDAwMDAwYTQi";
   "OnsKICAgICAgImJhbGFuY2UiOiIweDEiCiAgICB9LAogICAgIjAwMDAwMDAwMDAwMDAwMDAwMDAw";
   "MDAwMDAwMDAwMDAwMDAwMDAwYTUiOnsKICAgICAgImJhbGFuY2UiOiIweDEiCiAgICB9LAogICAg";
   "IjAwMDAwMDAwMDAwMDAwMDAwMDAwMDAwMDAwMDAwMDAwMDAwMDAwYTYiOnsKICAgICAgImJhbGFu";
   "Y2UiOiIweDEiCiAgICB9LAogICAgIjAwMDAwMDAwMDAwMDAwMDAwMDAwMDAwMDAwMDAwMDAwMDAw";
   "MDAwYTciOnsKICAgICAgImJhbGFuY2UiOiIweDEiCiAgICB9LAogICAgIjAwMDAwMDAwMDAwMDAw";
   "MDAwMDAwMDAwMDAwMDAwMDAwMDAwMDAwYTgiOnsKICAgICAgImJhbGFuY2UiOiIweDEiCiAgICB9";
   "LAogICAgIjAwMDAwMDAwMDAwMDAwMDAwMDAwMDAwMDAwMDAwMDAwMDAwMDAwYTkiOnsKICAgICAg";
   "ImJhbGFuY2UiOiIweDEiCiAgICB9LAogICAgIjAwMDAwMDAwMDAwMDAwMDAwMDAwMDAwMDAwMDAw";
   "MDAwMDAwMDAwYWEiOnsKICAgICAgImJhbGFuY2UiOiIweDEiCiAgICB9LAogICAgIjAwMDAwMDAw";
   "MDAwMDAwMDAwMDAwMDAwMDAwMDAwMDAwMDAwMDAwYWIiOnsKICAgICAgImJhbGFuY2UiOiIweDEi";
   "CiAgICB9LAogICAgIjAwMDAwMDAwMDAwMDAwMDAwMDAwMDAwMDAwMDAwMDAwMDAwMDAwYWMiOnsK";
   "ICAgICAgImJhbGFuY2UiOiIweDEiCiAgICB9LAogICAgIjAwMDAwMDAwMDAwMDAwMDAwMDAwMDAw";
   "MDAwMDAwMDAwMDAwMDAwYWQiOnsKICAgICAgImJhbGFuY2UiOiIweDEiCiAgICB9LAogICAgIjAw";
   "MDAwMDAwMDAwMDAwMDAwMDAwMDAwMDAwMDAwMDAwMDAwMDAwYWUiOnsKICAgICAgImJhbGFuY2Ui";
   "OiIweDEiCiAgICB9LAogICAgIjAwMDAwMDAwMDAwMDAwMDAwMDAwMDAwMDAwMDAwMDAwMDAwMDAw";
   "YWYiOnsKICAgICAgImJhbGFuY2UiOiIweDEiCiAgICB9LAogICAgIjAwMDAwMDAwMDAwMDAwMDAw";
   "MDAwMDAwMDAwMDAwMDAwMDAwMDAwYjAiOnsKICAgICAgImJhbGFuY2UiOiIweDEiCiAgICB9LAog";
   "ICAgIjAwMDAwMDAwMDAwMDAwMDAwMDAwMDAwMDAwMDAwMDAwMDAwMDAwYjEiOnsKICAgICAgImJh";
   "bGFuY2UiOiIweDEiCiAgICB9LAogICAgIjAwMDAwMDAwMDAwMDAwMDAwMDAwMDAwMDAwMDAwMDAw";
   "MDAwMDAwYjIiOnsKICAgICAgImJhbGFuY2UiOiIweDEiCiAgICB9LAogICAgIjAwMDAwMDAwMDAw";
   "MDAwMDAwMDAwMDAwMDAwMDAwMDAwMDAwMDAwYjMiOnsKICAgICAgImJhbGFuY2UiOiIweDEiCiAg";
   "ICB9LAogICAgIjAwMDAwMDAwMDAwMDAwMDAwMDAwMDAwMDAwMDAwMDAwMDAwMDAwYjQiOnsKICAg";
   "ICAgImJhbGFuY2UiOiIweDEiCiAgICB9LAogICAgIjAwMDAwMDAwMDAwMDAwMDAwMDAwMDAwMDAw";
   "MDAwMDAwMDAwMDAwYjUiOnsKICAgICAgImJhbGFuY2UiOiIweDEiCiAgICB9LAogICAgIjAwMDAw";
   "MDAwMDAwMDAwMDAwMDAwMDAwMDAwMDAwMDAwMDAwMDAwYjYiOnsKICAgICAgImJhbGFuY2UiOiIw";
   "eDEiCiAgICB9LAogICAgIjAwMDAwMDAwMDAwMDAwMDAwMDAwMDAwMDAwMDAwMDAwMDAwMDAwYjci";
   "OnsKICAgICAgImJhbGFuY2UiOiIweDEiCiAgICB9LAogICAgIjAwMDAwMDAwMDAwMDAwMDAwMDAw";
   "MDAwMDAwMDAwMDAwMDAwMDAwYjgiOnsKICAgICAgImJhbGFuY2UiOiIweDEiCiAgICB9LAogICAg";
   "IjAwMDAwMDAwMDAwMDAwMDAwMDAwMDAwMDAwMDAwMDAwMDAwMDAwYjkiOnsKICAgICAgImJhbGFu";
   "Y2UiOiIweDEiCiAgICB9LAogICAgIjAwMDAwMDAwMDAwMDAwMDAwMDAwMDAwMDAwMDAwMDAwMDAw";
   "MDAwYmEiOnsKICAgICAgImJhbGFuY2UiOiIweDEiCiAgICB9LAogICAgIjAwMDAwMDAwMDAwMDAw";
   "MDAwMDAwMDAwMDAwMDAwMDAwMDAwMDAwYmIiOnsKICAgICAgImJhbGFuY2UiOiIweDEiCiAgICB9";
   "LAogICAgIjAwMDAwMDAwMDAwMDAwMDAwMDAwMDAwMDAwMDAwMDAwMDAwMDAwYmMiOnsKICAgICAg";
   "ImJhbGFuY2UiOiIweDEiCiAgICB9LAogICAgIjAwMDAwMDAwMDAwMDAwMDAwMDAwMDAwMDAwMDAw";
   "MDAwMDAwMDAwYmQiOnsKICAgICAgImJhbGFuY2UiOiIweDEiCiAgICB9LAogICAgIjAwMDAwMDAw";
   "MDAwMDAwMDAwMDAwMDAwMDAwMDAwMDAwMDAwMDAwYmUiOnsKICAgICAgImJhbGFuY2UiOiIweDEi";
   "CiAgICB9LAogICAgIjAwMDAwMDAwMDAwMDAwMDAwMDAwMDAwMDAwMDAwMDAwMDAwMDAwYmYiOnsK";
   "ICAgICAgImJhbGFuY2UiOiIweDEiCiAgICB9LAogICAgIjAwMDAwMDAwMDAwMDAwMDAwMDAwMDAw";
   "MDAwMDAwMDAwMDAwMDAwYzAiOnsKICAgICAgImJhbGFuY2UiOiIweDEiCiAgICB9LAogICAgIjAw";
   "MDAwMDAwMDAwMDAwMDAwMDAwMDAwMDAwMDAwMDAwMDAwMDAwYzEiOnsKICAgICAgImJhbGFuY2Ui";
   "OiIweDEiCiAgICB9LAogICAgIjAwMDAwMDAwMDAwMDAwMDAwMDAwMDAwMDAwMDAwMDAwMDAwMDAw";
   "YzIiOnsKICAgICAgImJhbGFuY2UiOiIweDEiCiAgICB9LAogICAgIjAwMDAwMDAwMDAwMDAwMDAw";
   "MDAwMDAwMDAwMDAwMDAwMDAwMDAwYzMiOnsKICAgICAgImJhbGFuY2UiOiIweDEiCiAgICB9LAog";
   "ICAgIjAwMDAwMDAwMDAwMDAwMDAwMDAwMDAwMDAwMDAwMDAwMDAwMDAwYzQiOnsKICAgICAgImJh";
   "bGFuY2UiOiIweDEiCiAgICB9LAogICAgIjAwMDAwMDAwMDAwMDAwMDAwMDAwMDAwMDAwMDAwMDAw";
   "MDAwMDAwYzUiOnsKICAgICAgImJhbGFuY2UiOiIweDEiCiAgICB9LAogICAgIjAwMDAwMDAwMDAw";
   "MDAwMDAwMDAwMDAwMDAwMDAwMDAwMDAwMDAwYzYiOnsKICAgICAgImJhbGFuY2UiOiIweDEiCiAg";
   "ICB9LAogICAgIjAwMDAwMDAwMDAwMDAwMDAwMDAwMDAwMDAwMDAwMDAwMDAwMDAwYzciOnsKICAg";
   "ICAgImJhbGFuY2UiOiIweDEiCiAgICB9LAogICAgIjAwMDAwMDAwMDAwMDAwMDAwMDAwMDAwMDAw";
   "MDAwMDAwMDAwMDAwYzgiOnsKICAgICAgImJhbGFuY2UiOiIweDEiCiAgICB9LAogICAgIjAwMDAw";
   "MDAwMDAwMDAwMDAwMDAwMDAwMDAwMDAwMDAwMDAwMDAwYzkiOnsKICAgICAgImJhbGFuY2UiOiIw";
   "eDEiCiAgICB9LAogICAgIjAwMDAwMDAwMDAwMDAwMDAwMDAwMDAwMDAwMDAwMDAwMDAwMDAwY2Ei";
   "OnsKICAgICAgImJhbGFuY2UiOiIweDEiCiAgICB9LAogICAgIjAwMDAwMDAwMDAwMDAwMDAwMDAw";
   "MDAwMDAwMDAwMDAwMDAwMDAwY2IiOnsKICAgICAgImJhbGFuY2UiOiIweDEiCiAgICB9LAogICAg";
   "IjAwMDAwMDAwMDAwMDAwMDAwMDAwMDAwMDAwMDAwMDAwMDAwMDAwY2MiOnsKICAgICAgImJhbGFu";
   "Y2UiOiIweDEiCiAgICB9LAogICAgIjAwMDAwMDAwMDAwMDAwMDAwMDAwMDAwMDAwMDAwMDAwMDAw";
   "MDAwY2QiOnsKICAgICAgImJhbGFuY2UiOiIweDEiCiAgICB9LAogICAgIjAwMDAwMDAwMDAwMDAw";
   "MDAwMDAwMDAwMDAwMDAwMDAwMDAwMDAwY2UiOnsKICAgICAgImJhbGFuY2UiOiIweDEiCiAgICB9";
   "LAogICAgIjAwMDAwMDAwMDAwMDAwMDAwMDAwMDAwMDAwMDAwMDAwMDAwMDAwY2YiOnsKICAgICAg";
   "ImJhbGFuY2UiOiIweDEiCiAgICB9LAogICAgIjAwMDAwMDAwMDAwMDAwMDAwMDAwMDAwMDAwMDAw";
   "MDAwMDAwMDAwZDAiOnsKICAgICAgImJhbGFuY2UiOiIweDEiCiAgICB9LAogICAgIjAwMDAwMDAw";
   "MDAwMDAwMDAwMDAwMDAwMDAwMDAwMDAwMDAwMDAwZDEiOnsKICAgICAgImJhbGFuY2UiOiIweDEi";
   "CiAgICB9LAogICAgIjAwMDAwMDAwMDAwMDAwMDAwMDAwMDAwMDAwMDAwMDAwMDAwMDAwZDIiOnsK";
   "ICAgICAgImJhbGFuY2UiOiIweDEiCiAgICB9LAogICAgIjAwMDAwMDAwMDAwMDAwMDAwMDAwMDAw";
   "MDAwMDAwMDAwMDAwMDAwZDMiOnsKICAgICAgImJhbGFuY2UiOiIweDEiCiAgICB9LAogICAgIjAw";
   "MDAwMDAwMDAwMDAwMDAwMDAwMDAwMDAwMDAwMDAwMDAwMDAwZDQiOnsKICAgICAgImJhbGFuY2Ui";
   "OiIweDEiCiAgICB9LAogICAgIjAwMDAwMDAwMDAwMDAwMDAwMDAwMDAwMDAwMDAwMDAwMDAwMDAw";
   "ZDUiOnsKICAgICAgImJhbGFuY2UiOiIweDEiCiAgICB9LAogICAgIjAwMDAwMDAwMDAwMDAwMDAw";
   "MDAwMDAwMDAwMDAwMDAwMDAwMDAwZDYiOnsKICAgICAgImJhbGFuY2UiOiIweDEiCiAgICB9LAog";
   "ICAgIjAwMDAwMDAwMDAwMDAwMDAwMDAwMDAwMDAwMDAwMDAwMDAwMDAwZDciOnsKICAgICAgImJh";
   "bGFuY2UiOiIweDEiCiAgICB9LAogICAgIjAwMDAwMDAwMDAwMDAwMDAwMDAwMDAwMDAwMDAwMDAw";
   "MDAwMDAwZDgiOnsKICAgICAgImJhbGFuY2UiOiIweDEiCiAgICB9LAogICAgIjAwMDAwMDAwMDAw";
   "MDAwMDAwMDAwMDAwMDAwMDAwMDAwMDAwMDAwZDkiOnsKICAgICAgImJhbGFuY2UiOiIweDEiCiAg";
   "ICB9LAogICAgIjAwMDAwMDAwMDAwMDAwMDAwMDAwMDAwMDAwMDAwMDAwMDAwMDAwZGEiOnsKICAg";
   "ICAgImJhbGFuY2UiOiIweDEiCiAgICB9LAogICAgIjAwMDAwMDAwMDAwMDAwMDAwMDAwMDAwMDAw";
   "MDAwMDAwMDAwMDAwZGIiOnsKICAgICAgImJhbGFuY2UiOiIweDEiCiAgICB9LAogICAgIjAwMDAw";
   "MDAwMDAwMDAwMDAwMDAwMDAwMDAwMDAwMDAwMDAwMDAwZGMiOnsKICAgICAgImJhbGFuY2UiOiIw";
   "eDEiCiAgICB9LAogICAgIjAwMDAwMDAwMDAwMDAwMDAwMDAwMDAwMDAwMDAwMDAwMDAwMDAwZGQi";
   "OnsKICAgICAgImJhbGFuY2UiOiIweDEiCiAgICB9LAogICAgIjAwMDAwMDAwMDAwMDAwMDAwMDAw";
   "MDAwMDAwMDAwMDAwMDAwMDAwZGUiOnsKICAgICAgImJhbGFuY2UiOiIweDEiCiAgICB9LAogICAg";
   "IjAwMDAwMDAwMDAwMDAwMDAwMDAwMDAwMDAwMDAwMDAwMDAwMDAwZGYiOnsKICAgICAgImJhbGFu";
   "Y2UiOiIweDEiCiAgICB9LAogICAgIjAwMDAwMDAwMDAwMDAwMDAwMDAwMDAwMDAwMDAwMDAwMDAw";
   "MDAwZTAiOnsKICAgICAgImJhbGFuY2UiOiIweDEiCiAgICB9LAogICAgIjAwMDAwMDAwMDAwMDAw";
   "MDAwMDAwMDAwMDAwMDAwMDAwMDAwMDAwZTEiOnsKICAgICAgImJhbGFuY2UiOiIweDEiCiAgICB9";
   "LAogICAgIjAwMDAwMDAwMDAwMDAwMDAwMDAwMDAwMDAwMDAwMDAwMDAwMDAwZTIiOnsKICAgICAg";
   "ImJhbGFuY2UiOiIweDEiCiAgICB9LAogICAgIjAwMDAwMDAwMDAwMDAwMDAwMDAwMDAwMDAwMDAw";
   "MDAwMDAwMDAwZTMiOnsKICAgICAgImJhbGFuY2UiOiIweDEiCiAgICB9LAogICAgIjAwMDAwMDAw";
   "MDAwMDAwMDAwMDAwMDAwMDAwMDAwMDAwMDAwMDAwZTQiOnsKICAgICAgImJhbGFuY2UiOiIweDEi";
   "CiAgICB9LAogICAgIjAwMDAwMDAwMDAwMDAwMDAwMDAwMDAwMDAwMDAwMDAwMDAwMDAwZTUiOnsK";
   "ICAgICAgImJhbGFuY2UiOiIweDEiCiAgICB9LAogICAgIjAwMDAwMDAwMDAwMDAwMDAwMDAwMDAw";
   "MDAwMDAwMDAwMDAwMDAwZTYiOnsKICAgICAgImJhbGFuY2UiOiIweDEiCiAgICB9LAogICAgIjAw";
   "MDAwMDAwMDAwMDAwMDAwMDAwMDAwMDAwMDAwMDAwMDAwMDAwZTciOnsKICAgICAgImJhbGFuY2Ui";
   "OiIweDEiCiAgICB9LAogICAgIjAwMDAwMDAwMDAwMDAwMDAwMDAwMDAwMDAwMDAwMDAwMDAwMDAw";
   "ZTgiOnsKICAgICAgImJhbGFuY2UiOiIweDEiCiAgICB9LAogICAgIjAwMDAwMDAwMDAwMDAwMDAw";
   "MDAwMDAwMDAwMDAwMDAwMDAwMDAwZTkiOnsKICAgICAgImJhbGFuY2UiOiIweDEiCiAgICB9LAog";
   "ICAgIjAwMDAwMDAwMDAwMDAwMDAwMDAwMDAwMDAwMDAwMDAwMDAwMDAwZWEiOnsKICAgICAgImJh";
   "bGFuY2UiOiIweDEiCiAgICB9LAogICAgIjAwMDAwMDAwMDAwMDAwMDAwMDAwMDAwMDAwMDAwMDAw";
   "MDAwMDAwZWIiOnsKICAgICAgImJhbGFuY2UiOiIweDEiCiAgICB9LAogICAgIjAwMDAwMDAwMDAw";
   "MDAwMDAwMDAwMDAwMDAwMDAwMDAwMDAwMDAwZWMiOnsKICAgICAgImJhbGFuY2UiOiIweDEiCiAg";
   "ICB9LAogICAgIjAwMDAwMDAwMDAwMDAwMDAwMDAwMDAwMDAwMDAwMDAwMDAwMDAwZWQiOnsKICAg";
   "ICAgImJhbGFuY2UiOiIweDEiCiAgICB9LAogICAgIjAwMDAwMDAwMDAwMDAwMDAwMDAwMDAwMDAw";
   "MDAwMDAwMDAwMDAwZWUiOnsKICAgICAgImJhbGFuY2UiOiIweDEiCiAgICB9LAogICAgIjAwMDAw";
   "MDAwMDAwMDAwMDAwMDAwMDAwMDAwMDAwMDAwMDAwMDAwZWYiOnsKICAgICAgImJhbGFuY2UiOiIw";
   "eDEiCiAgICB9LAogICAgIjAwMDAwMDAwMDAwMDAwMDAwMDAwMDAwMDAwMDAwMDAwMDAwMDAwZjAi";
   "OnsKICAgICAgImJhbGFuY2UiOiIweDEiCiAgICB9LAogICAgIjAwMDAwMDAwMDAwMDAwMDAwMDAw";
   "MDAwMDAwMDAwMDAwMDAwMDAwZjEiOnsKICAgICAgImJhbGFuY2UiOiIweDEiCiAgICB9LAogICAg";
   "IjAwMDAwMDAwMDAwMDAwMDAwMDAwMDAwMDAwMDAwMDAwMDAwMDAwZjIiOnsKICAgICAgImJhbGFu";
   "Y2UiOiIweDEiCiAgICB9LAogICAgIjAwMDAwMDAwMDAwMDAwMDAwMDAwMDAwMDAwMDAwMDAwMDAw";
   "MDAwZjMiOnsKICAgICAgImJhbGFuY2UiOiIweDEiCiAgICB9LAogICAgIjAwMDAwMDAwMDAwMDAw";
   "MDAwMDAwMDAwMDAwMDAwMDAwMDAwMDAwZjQiOnsKICAgICAgImJhbGFuY2UiOiIweDEiCiAgICB9";
   "LAogICAgIjAwMDAwMDAwMDAwMDAwMDAwMDAwMDAwMDAwMDAwMDAwMDAwMDAwZjUiOnsKICAgICAg";
   "ImJhbGFuY2UiOiIweDEiCiAgICB9LAogICAgIjAwMDAwMDAwMDAwMDAwMDAwMDAwMDAwMDAwMDAw";
   "MDAwMDAwMDAwZjYiOnsKICAgICAgImJhbGFuY2UiOiIweDEiCiAgICB9LAogICAgIjAwMDAwMDAw";
   "MDAwMDAwMDAwMDAwMDAwMDAwMDAwMDAwMDAwMDAwZjciOnsKICAgICAgImJhbGFuY2UiOiIweDEi";
   "CiAgICB9LAogICAgIjAwMDAwMDAwMDAwMDAwMDAwMDAwMDAwMDAwMDAwMDAwMDAwMDAwZjgiOnsK";
   "ICAgICAgImJhbGFuY2UiOiIweDEiCiAgICB9LAogICAgIjAwMDAwMDAwMDAwMDAwMDAwMDAwMDAw";
   "MDAwMDAwMDAwMDAwMDAwZjkiOnsKICAgICAgImJhbGFuY2UiOiIweDEiCiAgICB9LAogICAgIjAw";
   "MDAwMDAwMDAwMDAwMDAwMDAwMDAwMDAwMDAwMDAwMDAwMDAwZmEiOnsKICAgICAgImJhbGFuY2Ui";
   "OiIweDEiCiAgICB9LAogICAgIjAwMDAwMDAwMDAwMDAwMDAwMDAwMDAwMDAwMDAwMDAwMDAwMDAw";
   "ZmIiOnsKICAgICAgImJhbGFuY2UiOiIweDEiCiAgICB9LAogICAgIjAwMDAwMDAwMDAwMDAwMDAw";
   "MDAwMDAwMDAwMDAwMDAwMDAwMDAwZmMiOnsKICAgICAgImJhbGFuY2UiOiIweDEiCiAgICB9LAog";
   "ICAgIjAwMDAwMDAwMDAwMDAwMDAwMDAwMDAwMDAwMDAwMDAwMDAwMDAwZmQiOnsKICAgICAgImJh";
   "bGFuY2UiOiIweDEiCiAgICB9LAogICAgIjAwMDAwMDAwMDAwMDAwMDAwMDAwMDAwMDAwMDAwMDAw";
   "MDAwMDAwZmUiOnsKICAgICAgImJhbGFuY2UiOiIweDEiCiAgICB9LAogICAgIjAwMDAwMDAwMDAw";
   "MDAwMDAwMDAwMDAwMDAwMDAwMDAwMDAwMDAwZmYiOnsKICAgICAgImJhbGFuY2UiOiIweDEiCiAg";
   "ICB9LAogICAgIjRjMmFlNDgyNTkzNTA1ZjAxNjNjZGVmYzA3M2U4MWM2M2NkYTQxMDciOiB7CiAg";
   "ICAgICJiYWxhbmNlIjogIjB4MTUyZDAyYzdlMTRhZjY4MDAwMDAiCiAgICB9LAogICAgImE4ZThm";
   "MTQ3MzI2NThlNGI1MWU4NzExOTMxMDUzYThhNjliYWYyYjEiOiB7CiAgICAgICJiYWxhbmNlIjog";
   "IjB4MTUyZDAyYzdlMTRhZjY4MDAwMDAiCiAgICB9LAogICAgImQ5YTUxNzlmMDkxZDg1MDUxZDNj";
   "OTgyNzg1ZWZkMTQ1NWNlYzg2OTkiOiB7CiAgICAgICJiYWxhbmNlIjogIjB4ODQ1OTUxNjE0MDE0";
   "ODRhMDAwMDAwIgogICAgfSwKICAgICJlMGEyYmQ0MjU4ZDI3Njg4MzdiYWEyNmEyOGZlNzFkYzA3";
   "OWY4NGM3IjogewogICAgICAiYmFsYW5jZSI6ICIweDRhNDdlM2MxMjQ0OGY0YWQwMDAwMDAiCiAg";
   "ICB9CiAgfSwKICAibnVtYmVyIjoiMHgwIiwKICAiZ2FzVXNlZCI6IjB4MCIsCiAgInBhcmVudEhh";
   "c2giOiIweDAwMDAwMDAwMDAwMDAwMDAwMDAwMDAwMDAwMDAwMDAwMDAwMDAwMDAwMDAwMDAwMDAw";
   "MDAwMDAwMDAwMDAwMDAiCn0K"].
Definition goerli_GenesisB64 : string := String.concat (b2s newline) goerli_lines.

(** What [init] hands to [node.New]. *)
Record NodeConfig (E : Type) := mkNodeConfig {
  nc_Host : string; nc_Port : Z; nc_IPCPath : string; nc_DataDir : string; nc_ListenAddr : string;
  nc_NAT : option string; nc_BootstrapNodes : list E }.
Arguments mkNodeConfig {E}.
Arguments nc_Host {E}.
Arguments nc_Port {E}.
Arguments nc_BootstrapNodes {E}.
Inductive SyncMode := FastSync | LightSync.
#[export] Instance SyncMode_eq_dec : EqDecision SyncMode.
Proof. solve_decision. Defined.

(** [W] is everything outside of the program: the node, the key store, the
    external endpoint, the ports and the file system. *)
Class EthLib (W : Type) := {
  (** [go-ethereum/params], [p2p/enode], [p2p/nat], [core]. *)
  MainnetBootnodes : list string;
  GoerliBootnodes : list string;
  enode : Type;
  enode_ParseV4 : string → res enode;
  nat_Parse : string → res ();
  core_Genesis : Type;
  Genesis_UnmarshalJSON : bytes → res core_Genesis;
  (** [node], [cmd/utils]. *)
  node_New : NodeConfig enode → GM W ();
  node_Start : GM W ();
  node_Close : GM W ();
  RegisterEthService : SyncMode → Z → option core_Genesis → GM W ();
  AddPeer : enode → GM W ();
  AddTrustedPeer : enode → GM W ();
  PeerCount : GM W Z;
  (** [eth/downloader] and the backend: the highest and the current block of the
      download, the block at the head. *)
  Synchronising : GM W bool;
  Progress_HighestBlock : GM W Z;
  Progress_CurrentBlock : GM W Z;
  CurrentBlock : GM W Z;
  (** [accounts/keystore]: the store of a directory is opened. *)
  NewKeyStore : string → GM W ();
  NewPlaintextKeyStore : string → GM W ();
  Accounts : GM W nat;
  NewAccount : GM W ();
  UnlockFirst : GM W ();
  ImportECDSA : string → GM W ();
  (** [ethclient]: highest and current block, or none when it is synchronised. *)
  ethclient_DialContext : string → GM W ();
  NetworkID : string → GM W (option Z);
  SyncProgress : string → GM W (option (Z * Z));
  HeaderByNumber : string → GM W Z;
  (** [util.PublicIP], [math/rand], [net.Listen] and [os]. *)
  PublicIP : GM W string;
  rand_Intn : Z → GM W Z;
  net_Listen : Z → GM W ();
  os_RemoveAll : string → GM W ();
  stat_is_socket : string → GM W bool }.
Definition ErrAccountAlreadyExists : error := "account already exists".

(** [strings.NewReplacer("[", "", "]", "")]. *)
Definition is_bracket (c : byte) : bool := match c with Byte.x5b | Byte.x5d => true | _ => false end.
Definition no_brackets (s : string) : string := b2s (filter (λ c, is_bracket c = false) (s2b s)).
(** [len(l) > 0 && len(l[0]) > 32]. *)
Definition custom_list (l : list string) : bool :=
  match l with [] => false | x :: _ => bool_decide (32 < slen x) end.
Definition HasSuffix (s p : string) : bool :=
  bool_decide (drop (length (s2b s) - length (s2b p)) (s2b s) = s2b p).

Section chain.
Context {W : Type} `{!EthLib W}.
Abbreviation MW := (GM W).

Definition mainnet : Specs :=
  mkSpecs "mainnet" "" "" 1 MainnetBootnodes 10230300 "0x00000000000C2E074eC69A0dFb2997BA6C7d2e1e".
Definition xdai : Specs := mkSpecs "xdai" "" "" 100 [] 12017322 "0x00cEBf9E1E81D3CC17fbA0a49306EBA77a8F26cD".
Definition xdaistage : Specs := mkSpecs "xdaistage" "" "" 100 [] 12017322 "0x9e638E90c8CdFaC1297EF261859E25c9d8438F1a".
Definition sokol : Specs := mkSpecs "sokol" "" "" 77 [] 16506649 "0x43541c49308bF2956d3893836F5AF866fd78A295".
Definition goerli : Specs :=
  mkSpecs "goerli" goerli_GenesisB64 "0xbf7e331f7f7c1dd2e05159666b3bf8bc7a8a3a9eb1d518969eab529dd9b88c1a" 5
    GoerliBootnodes 2814315 "0x00000000000C2E074eC69A0dFb2997BA6C7d2e1e".
Definition SpecsFor (name : string) : res Specs :=
  if decide (name = "mainnet") then Ok mainnet
  else if decide (name = "goerli") then Ok goerli
  else if decide (name = "xdai") then Ok xdai
  else if decide (name = "xdaistage") then Ok xdaistage
  else if decide (name = "sokol") then Ok sokol
  else Err "chain name not found".

(** ** [chain/chain.go] *)
Record EthChainConfig := mkEthChainConfig {
  cc_RPCHost : string; cc_RPCPort : Z; cc_NodePort : Z; cc_NetworkId : Z; cc_NetworkGenesis : bytes;
  cc_BootstrapNodes : list string; cc_TrustedPeers : list enode; cc_KeyStore : string; cc_DataDir : string;
  cc_IPCPath : string; cc_LightMode : bool; cc_W3external : string }.
Definition set_cc_RPCPort v (c : EthChainConfig) : EthChainConfig :=
  mkEthChainConfig (cc_RPCHost c) v (cc_NodePort c) (cc_NetworkId c) (cc_NetworkGenesis c) (cc_BootstrapNodes c)
    (cc_TrustedPeers c) (cc_KeyStore c) (cc_DataDir c) (cc_IPCPath c) (cc_LightMode c) (cc_W3external c).
(** A trusted peer that does not parse is left out. *)
Fixpoint parse_peers (l : list string) : res (list enode) :=
  match l with
  | [] => Ok []
  | b :: l' =>
      match enode_ParseV4 (no_brackets b) with
      | Ok n => ns ← parse_peers l'; Ok (n :: ns)
      | Err _ => parse_peers l'
      | Panic w => Panic w
      end
  end.
Definition NewConfig (ethCfg : EthCfg) (w3Cfg : W3Cfg) : res EthChainConfig :=
  chainSpecs ← SpecsFor (ec_ChainType ethCfg);
  genesis ← b64_DecodeString (sp_GenesisB64 chainSpecs);
  let boot := if custom_list (ec_BootNodes ethCfg) then map no_brackets (ec_BootNodes ethCfg)
              else sp_BootNodes chainSpecs in
  peers ← (if custom_list (ec_TrustedPeers ethCfg) then parse_peers (ec_TrustedPeers ethCfg) else Ok []);
  let dir := ec_DataDir ethCfg in
  Ok (mkEthChainConfig (w3_RPCHost w3Cfg) (w3_RPCPort w3Cfg) (ec_NodePort ethCfg) (sp_NetworkId chainSpecs) genesis
        boot peers (dir +:+ "/keystore") (dir +:+ "/data") (dir +:+ "/ipc") (ec_LightMode ethCfg) (w3_W3External w3Cfg)).

(** [eth.Config]; [eth.DefaultConfig] is that of the main network. *)
Record eth_Config := mketh_Config { ef_NetworkId : Z; ef_Genesis : option core_Genesis; ef_SyncMode : SyncMode }.
Definition eth_DefaultConfig : eth_Config := mketh_Config 1 None FastSync.
Record EthChainContext := mkEthChainContext {
  ex_DefaultConfig : EthChainConfig;
  ex_Config : eth_Config;
  (** Whether [API] and [LAPI] are set. *)
  ex_API : bool;
  ex_LAPI : bool }.
Definition is_external (c : EthChainConfig) : bool := bool_decide (cc_W3external c ≠ "").

(** Empty addresses are left out, one that does not parse is an error. *)
Fixpoint parse_boot (l : list string) : res (list enode) :=
  match l with
  | [] => Ok []
  | url :: l' =>
      if decide (url = "") then parse_boot l'
      else n ← enode_ParseV4 url; ns ← parse_boot l'; Ok (n :: ns)
  end.
Definition ethConfig_of (c : EthChainConfig) : res eth_Config :=
  if is_external c then Ok eth_DefaultConfig
  else
    let mode := if cc_LightMode c then LightSync else FastSync in
    if decide (1 < cc_NetworkId c) then
      g ← Genesis_UnmarshalJSON (cc_NetworkGenesis c);
      Ok (mketh_Config (u64 (cc_NetworkId c)) (Some g) mode)
    else Ok (mketh_Config 1 None mode).
Definition Init (c : EthChainConfig) : MW EthChainContext :=
  myPublicIP ← try_ PublicIP;
  nat ← (match myPublicIP with
         | Ok ip => _ ← lift (nat_Parse ("extip:" +:+ ip)); mret (Some ip)
         | _ => mret None
         end : MW (option string));
  boot ← lift (parse_boot (cc_BootstrapNodes c));
  _ ← node_New (mkNodeConfig (cc_RPCHost c) (cc_RPCPort c) (cc_IPCPath c) (cc_DataDir c)
                  (":" +:+ sprintf_d (cc_NodePort c)) nat boot);
  ethConfig ← lift (ethConfig_of c);
  _ ← NewKeyStore (cc_KeyStore c);
  mret (mkEthChainContext c ethConfig false false).

(** [log.Fatal]. *)
Definition Fatal {A} (msg : string) : MW A := lift (Panic msg).
Definition fatally {A} (m : MW A) : MW A := λ w,
  match m w with (Err e, w') => (Panic e, w') | r => r end.

(** [for i := 0; i < EthereumDialMaxRetry; i++]. *)
Definition EthereumDialMaxRetry : nat := 10.
Fixpoint dial (n : nat) (url : string) : MW () :=
  match n with
  | O => Fatal "cannot create a client connection"
  | S n =>
      r ← try_ (ethclient_DialContext url);
      match r with Ok _ => mret () | _ => dial n url end
  end.
Definition createAccount : MW () := _ ← NewAccount; logged UnlockFirst.

(** A port is drawn until one can be listened on: [fuel] draws at most are followed. *)
Fixpoint random_port (fuel : nat) : MW Z :=
  match fuel with
  | O => Fatal "no port tried is free"
  | S n =>
      r ← rand_Intn 50000;
      ln ← try_ (net_Listen (1025 + r));
      match ln with Ok _ => mret (1025 + r) | _ => random_port n end
  end.
(** The port of the configuration after the start. *)
Definition rpc_port (fuel : nat) (c : EthChainConfig) : MW Z :=
  if bool_decide (0 ≤ cc_RPCPort c) && bool_decide (cc_RPCHost c ≠ "") && bool_decide (cc_RPCPort c = 0) then random_port fuel
  else mret (cc_RPCPort c).
Definition start_local (fuel : nat) (c : EthChainConfig) : MW EthChainConfig :=
  _ ← fatally node_Start;
  port ← rpc_port fuel c;
  _ ← for_each (cc_TrustedPeers c) (λ p, _ ← AddPeer p; AddTrustedPeer p);
  mret (set_cc_RPCPort port c).
Definition start_external (c : EthChainConfig) : MW () :=
  _ ← dial EthereumDialMaxRetry (cc_W3external c);
  nid ← fatally (NetworkID (cc_W3external c));
  match nid with
  | None => Fatal "cannot get network ID from external web3"
  | Some nid => if decide (i64 nid = i64 (cc_NetworkId c)) then mret ()
                else Fatal "web3 external network ID do not match the expected"
  end.
Definition Start (fuel : nat) (e : EthChainContext) : MW EthChainContext :=
  let cfg := ex_Config e in
  _ ← RegisterEthService (ef_SyncMode cfg) (ef_NetworkId cfg) (ef_Genesis cfg);
  n ← Accounts;
  _ ← (if decide (n < 1)%nat then logged createAccount else logged UnlockFirst);
  let api := bool_decide (ef_SyncMode cfg = FastSync) in
  let lapi := bool_decide (ef_SyncMode cfg = LightSync) in
  let c := ex_DefaultConfig e in
  if is_external c then _ ← start_external c; mret (mkEthChainContext c cfg api lapi)
  else c' ← start_local fuel c; mret (mkEthChainContext c' cfg api lapi).

(** ** Synchronisation *)
Record EthSyncInfo := mkEthSyncInfo {
  si_Height : Z; si_MaxHeight : Z; si_Synced : bool; si_Peers : Z; si_Mode : string }.
Definition info_external (url : string) : MW EthSyncInfo :=
  _ ← dial EthereumDialMaxRetry url;
  sp ← SyncProgress url;
  match sp with
  | Some (highest, current) => mret (mkEthSyncInfo current highest false 1 "external")
  | None =>
      number ← HeaderByNumber url;
      let height := u64 (i64 number) in
      mret (mkEthSyncInfo height height (bool_decide (0 < height)) 1 "external")
  end.
(** The two local modes differ in the backend they ask. *)
Definition info_local (mode : string) : MW EthSyncInfo :=
  busy ← Synchronising;
  highest ← Progress_HighestBlock;
  height ← (if busy then Progress_CurrentBlock else CurrentBlock);
  peers ← PeerCount;
  let stalled := bool_decide (highest = 0) || bool_decide (height = 0) || bool_decide (peers = 0) in
  mret (mkEthSyncInfo height highest (negb busy && negb stalled) peers mode).
Definition SyncInfo (e : EthChainContext) : MW EthSyncInfo :=
  let c := ex_DefaultConfig e in
  if is_external c then info_external (cc_W3external c)
  else if cc_LightMode c then
    if ex_LAPI e then info_local "light" else lift (Panic "nil pointer dereference")
  else if ex_API e then info_local "fast"
  else lift (Err "cannot get sync info, unknown error").

(** One round of [SyncGuard], and of [PrintInfo] with the height it saw before
    (its new height, and the speed it prints when not synchronised). *)
Definition behind (si : EthSyncInfo) : bool :=
  si_Synced si && bool_decide (u64 (si_Height si + 200) < si_MaxHeight si).
Definition SyncGuard (e : EthChainContext) : MW () :=
  r ← try_ (SyncInfo e);
  match r with
  | Ok si => if behind si then _ ← fatally node_Close; fatally node_Start else mret ()
  | _ => mret ()
  end.
Definition PrintInfo (e : EthChainContext) (seconds lastHeight : Z) : MW (Z * option Z) :=
  r ← try_ (SyncInfo e);
  match r with
  | Ok si => mret (si_Height si, if si_Synced si then None else Some (u64 (si_Height si - lastHeight) / seconds))
  | _ => mret (lastHeight, None)
  end.

(** ** [service/ethereum.go] *)
Definition ValidChains : list string := ["goerli"; "mainnet"].
(** The web3 route, by the kind of endpoint. *)
Definition add_web3 (route w3uri : string) (pxy : Proxy) : MW Proxy :=
  if HasPrefix w3uri "http" then
    mret (AddMixedHandler route (fn_endpoint w3uri) (ws_http_bridge w3uri) Web3WsReadLimit pxy)
  else if HasPrefix w3uri "ws" then
    mret (AddWsHandler (route +:+ "ws") (ws_ws_bridge w3uri Web3WsReadLimit) Web3WsReadLimit pxy)
  else if HasSuffix w3uri ".ipc" then
    socket ← stat_is_socket w3uri;
    if (socket : bool) then mret (AddHandler route (fn_ipc w3uri) pxy)
    else lift (Err "IPC path is not a socket")
  else mret pxy.
Definition import_key (key : string) : MW () :=
  r ← try_ (ImportECDSA key);
  match (r : res ()) with
  | Err e => if decide (e = ErrAccountAlreadyExists) then mret () else lift (Err e)
  | _ => mret ()
  end.
Definition Ethereum (fuel : nat) (ethconfig : EthCfg) (w3config : W3Cfg) (pxy : option Proxy) (key : string) :
    MW (EthChainContext * option Proxy) :=
  if negb (bool_decide (ec_ChainType ethconfig ∈ ValidChains)) && bool_decide (w3_W3External w3config = "") then
    lift (Err "ethereum chain type is not supported in native mode by go-ethereum")
  else
    w3cfg ← lift (NewConfig ethconfig w3config);
    node ← Init w3cfg;
    _ ← logged (os_RemoveAll (ec_DataDir ethconfig +:+ "/keystore/tmp"));
    _ ← NewPlaintextKeyStore (ec_DataDir ethconfig +:+ "/keyStore/tmp");
    _ ← import_key key;
    node ← Start fuel node;
    let c := ex_DefaultConfig node in
    let w3uri := if is_external c then cc_W3external c
                 else "http://" +:+ cc_RPCHost c +:+ ":" +:+ sprintf_d (cc_RPCPort c) in
    match pxy with
    | Some p => if w3_Enabled w3config then p' ← add_web3 (w3_Route w3config) w3uri p; mret (node, Some p')
                else mret (node, pxy)
    | None => mret (node, None)
    end.
End chain.
