(* ===== verification/EthNodeFacts.v ===== *)
(** * The Ethereum node: which chain it is on, and what its synchronisation says

    A node that came up is on the chain its configuration names: an external
    endpoint has answered with that network, a local node runs with the genesis
    of that network.  A node said to be synchronised has a block and a peer; the
    guard that restarts a node ends the process instead. *)

From stdpp Require Import base gmap strings list.
From Stdlib Require Import ZArith Lia.
From S2P Require Import Prelude GoLib Crypto Database Graviton Startup Json Net EthNode.
Open Scope Z_scope.

(** The chain a genesis document is of: [config.chainId]. *)
Definition chain_id (text : bytes) : option string :=
  j ← read_json (b2s text);
  c ← Json.field "config" j;
  n ← Json.field "chainId" c;
  match n with JNumber d => Some d | _ => None end.

Section facts.
Context {W : Type} `{!EthLib W}.

Lemma SpecsFor_cases name sp : SpecsFor name = Ok sp →
  name ∈ AvailableChains ∧ sp_Name sp = name ∧ 1 ≤ sp_NetworkId sp ∧ i64 (sp_NetworkId sp) = sp_NetworkId sp ∧
  u64 (sp_NetworkId sp) = sp_NetworkId sp.
Proof.
  unfold SpecsFor. repeat (case_decide; [intros [= <-]; subst; repeat split; try done; set_solver|]). done.
Qed.
Lemma SpecsFor_available name : name ∈ AvailableChains → ∃ sp, SpecsFor name = Ok sp.
Proof.
  unfold AvailableChains. rewrite !elem_of_cons, elem_of_nil.
  intros [->|[->|[->|[->|[->|[]]]]]]; by eexists.
Qed.

(** The chains a local node is allowed for: the main one, for which go-ethereum
    has the genesis, or one whose genesis is in the source. *)
Definition genesis_known (sp : Specs) : bool :=
  bool_decide (sp_NetworkId sp = 1) ||
  match b64_DecodeString (sp_GenesisB64 sp) with
  | Ok text => bool_decide (chain_id text = Some (sprintf_d (sp_NetworkId sp)))
  | _ => false
  end.
Lemma goerli_genesis : genesis_known goerli = true.
Proof. unfold genesis_known. by vm_compute. Qed.
Lemma ValidChains_genesis name sp : name ∈ ValidChains → SpecsFor name = Ok sp → genesis_known sp = true.
Proof.
  unfold ValidChains. rewrite !elem_of_cons, elem_of_nil. intros [->|[->|[]]].
  - intros [= <-]. apply goerli_genesis.
  - by intros [= <-].
Qed.

(** ** From the configuration to the node *)
Lemma NewConfig_spec ec w3 c : NewConfig ec w3 = Ok c →
  ∃ sp, SpecsFor (ec_ChainType ec) = Ok sp ∧ b64_DecodeString (sp_GenesisB64 sp) = Ok (cc_NetworkGenesis c) ∧
    cc_NetworkId c = sp_NetworkId sp ∧ cc_W3external c = w3_W3External w3 ∧ cc_LightMode c = ec_LightMode ec ∧
    cc_RPCPort c = w3_RPCPort w3.
Proof.
  unfold NewConfig. intros (sp & Hsp & (g & Hg & (peers & _ & [= <-])%res_bind_Ok)%res_bind_Ok)%res_bind_Ok.
  exists sp. by rewrite Hg.
Qed.
Lemma Init_spec c w e w' : Init c w = (Ok e, w') →
  ex_DefaultConfig e = c ∧ ethConfig_of c = Ok (ex_Config e) ∧ ex_API e = false ∧ ex_LAPI e = false.
Proof.
  unfold Init. intros (? & w1 & _ & (nat & w2 & _ & (boot & w3 & _ & (? & w4 & _ & H)%GM_bind_Ok)%GM_bind_Ok)%GM_bind_Ok)%GM_bind_Ok.
  apply GM_bind_Ok in H as (cfg & w5 & Hc & (? & w6 & _ & [= <- <-])%GM_bind_Ok).
  injection Hc as Hc <-. done.
Qed.
Lemma start_local_spec fuel c w c' w' : start_local fuel c w = (Ok c', w') → ∃ port, c' = set_cc_RPCPort port c.
Proof.
  unfold start_local. intros (? & w1 & _ & (port & w2 & _ & (? & w3 & _ & [= <- <-])%GM_bind_Ok)%GM_bind_Ok)%GM_bind_Ok.
  by exists port.
Qed.
Lemma start_external_spec c w w' : start_external c w = (Ok (), w') →
  ∃ nid w1 w2, NetworkID (cc_W3external c) w1 = (Ok (Some nid), w2) ∧ i64 nid = i64 (cc_NetworkId c).
Proof.
  unfold start_external. intros (? & w1 & _ & (nid & w2 & Hn & H)%GM_bind_Ok)%GM_bind_Ok.
  destruct nid as [nid|]; [|done]. case_decide; [|done].
  exists nid, w1, w2. split; [|done]. unfold fatally in Hn. by destruct (NetworkID _ w1) as [[] ?].
Qed.
(** What a started node keeps of the one made by [Init]. *)
Definition started (e : EthChainContext) : Prop :=
  ex_API e = bool_decide (ef_SyncMode (ex_Config e) = FastSync) ∧
  ex_LAPI e = bool_decide (ef_SyncMode (ex_Config e) = LightSync).
Lemma Start_spec fuel e w e' w' : Start fuel e w = (Ok e', w') →
  (∃ port, ex_DefaultConfig e' = set_cc_RPCPort port (ex_DefaultConfig e)) ∧ ex_Config e' = ex_Config e ∧ started e' ∧
  (is_external (ex_DefaultConfig e) = true → ∃ w1 w2, start_external (ex_DefaultConfig e) w1 = (Ok (), w2)).
Proof.
  unfold Start. intros (? & w1 & _ & (n & w2 & _ & (? & w3 & _ & H)%GM_bind_Ok)%GM_bind_Ok)%GM_bind_Ok.
  destruct (is_external _) eqn:Hx.
  - apply GM_bind_Ok in H as ([] & w4 & Hs & [= <- <-]). split_and!; try done; [|eauto].
    exists (cc_RPCPort (ex_DefaultConfig e)). by destruct (ex_DefaultConfig e).
  - apply GM_bind_Ok in H as (c' & w4 & Hs & [= <- <-]). split_and!; try done. by eapply start_local_spec.
Qed.
Lemma Ethereum_spec fuel ec w3 pxy key w node pxy' w' : Ethereum fuel ec w3 pxy key w = (Ok (node, pxy'), w') →
  (ec_ChainType ec ∈ ValidChains ∨ w3_W3External w3 ≠ "") ∧
  ∃ c e w1 w2 w3' w4, NewConfig ec w3 = Ok c ∧ Init c w1 = (Ok e, w2) ∧ Start fuel e w3' = (Ok node, w4).
Proof.
  unfold Ethereum. case_match eqn:Hg; [done|].
  intros (c & w0 & Hc & (e & w1 & He & (? & w2 & _ & (? & w4 & _ & (? & w5 & _ & (n & w6 & Hn & H)%GM_bind_Ok)%GM_bind_Ok)%GM_bind_Ok)%GM_bind_Ok)%GM_bind_Ok)%GM_bind_Ok.
  injection Hc as Hc <-. split.
  - apply andb_false_iff in Hg as [Hg|Hg]; [left|right].
    + apply negb_false_iff in Hg. by apply bool_decide_eq_true in Hg.
    + by apply bool_decide_eq_false in Hg.
  - assert (n = node) as ->; [|by repeat eexists].
    destruct pxy as [p|]; [destruct (w3_Enabled w3)|].
    + by apply GM_bind_Ok in H as (? & ? & _ & [= -> _ _]).
    + by injection H.
    + by injection H.
Qed.

(** C18: A node that the service reports as started is on the chain that the
    configuration names.  With an external endpoint, that endpoint has
    answered with the network of the chain.  Without one, the node runs with
    the network of the chain, and with a genesis that go-ethereum read from a
    document whose [chainId] is that network, or with go-ethereum's own for the
    main network. *)
Theorem ethereum_right_chain fuel ec w3 pxy key w node pxy' w' :
  Ethereum fuel ec w3 pxy key w = (Ok (node, pxy'), w') →
  ∃ sp, SpecsFor (ec_ChainType ec) = Ok sp ∧
    if decide (w3_W3External w3 = "") then
      ef_NetworkId (ex_Config node) = sp_NetworkId sp ∧
      ((sp_NetworkId sp = 1 ∧ ef_Genesis (ex_Config node) = None) ∨
       ∃ text g, ef_Genesis (ex_Config node) = Some g ∧ Genesis_UnmarshalJSON text = Ok g ∧
         chain_id text = Some (sprintf_d (sp_NetworkId sp)))
    else ∃ nid w1 w2, NetworkID (w3_W3External w3) w1 = (Ok (Some nid), w2) ∧ i64 nid = sp_NetworkId sp.
Proof.
  intros (Hok & c & e & w1 & w2 & w3' & w4 & Hc & He & Hs)%Ethereum_spec.
  apply NewConfig_spec in Hc as (sp & Hsp & Hb & Hid & Hx & _). apply Init_spec in He as (<- & He & _).
  apply Start_spec in Hs as (_ & Hcfg & _ & Hext). exists sp. split; [done|].
  pose proof (SpecsFor_cases _ _ Hsp) as (_ & _ & Hpos & Hi & Hu).
  rewrite Hcfg. unfold ethConfig_of, is_external in *. rewrite Hx in *. destruct (decide (w3_W3External w3 = "")) as [Hd|Hd].
  - rewrite bool_decide_eq_false_2 in He by (intros Hn; by apply Hn). destruct Hok as [Hok|]; [|done].
    pose proof (ValidChains_genesis _ _ Hok Hsp) as Hg. unfold genesis_known in Hg. rewrite Hb in Hg.
    rewrite Hid in He. case_decide.
    + apply res_bind_Ok in He as (g & Hu' & [= <-]). simpl. split; [done|]. right.
      rewrite bool_decide_eq_false_2 in Hg by lia. apply bool_decide_eq_true in Hg. eauto.
    + injection He as <-. simpl. split; [lia|]. left. split; [lia|done].
  - rewrite bool_decide_eq_true_2 in Hext by done. destruct (Hext eq_refl) as (? & ? & Hs).
    apply start_external_spec in Hs as (nid & u1 & u2 & Hn & Hi'). rewrite Hx, Hid, Hi in *. eauto.
Qed.

(** ** Synchronisation *)
Lemma info_external_synced url w si w' : info_external url w = (Ok si, w') → si_Synced si = true →
  0 < si_Height si ∧ si_Height si = si_MaxHeight si ∧ si_Peers si = 1.
Proof.
  unfold info_external. intros (? & w1 & _ & (sp & w2 & _ & H)%GM_bind_Ok)%GM_bind_Ok.
  destruct sp as [[hi cur]|]; [by injection H as <- <-|].
  apply GM_bind_Ok in H as (n & w3 & _ & [= <- <-]). simpl. intros ?%bool_decide_eq_true. done.
Qed.
Lemma info_local_synced mode w si w' : info_local mode w = (Ok si, w') → si_Synced si = true →
  si_Height si ≠ 0 ∧ si_MaxHeight si ≠ 0 ∧ si_Peers si ≠ 0.
Proof.
  unfold info_local. intros (busy & w1 & _ & (hi & w2 & _ & (h & w3 & _ & (p & w4 & _ & [= <- <-])%GM_bind_Ok)%GM_bind_Ok)%GM_bind_Ok)%GM_bind_Ok.
  simpl. rewrite andb_true_iff, !negb_true_iff, !orb_false_iff, !bool_decide_eq_false. tauto.
Qed.
(** A node said to be synchronised has seen a block and has a peer. *)
Lemma synced_info e w si w' : SyncInfo e w = (Ok si, w') → si_Synced si = true →
  si_Height si ≠ 0 ∧ si_MaxHeight si ≠ 0 ∧ si_Peers si ≠ 0.
Proof.
  unfold SyncInfo. intros Hi Hs. repeat case_match; try done;
    [destruct (info_external_synced _ _ _ _ Hi Hs) as (? & ? & ?); lia|by eapply info_local_synced..].
Qed.
(** After a start the backend that the mode asks for is there. *)
Lemma started_info e : started e → ethConfig_of (ex_DefaultConfig e) = Ok (ex_Config e) →
  SyncInfo e =
    if is_external (ex_DefaultConfig e) then info_external (cc_W3external (ex_DefaultConfig e))
    else info_local (if cc_LightMode (ex_DefaultConfig e) then "light" else "fast").
Proof.
  intros [Ha Hl] He. unfold SyncInfo. destruct (is_external _) eqn:Hx; [done|].
  unfold ethConfig_of in He. rewrite Hx in He.
  assert (ef_SyncMode (ex_Config e) = if cc_LightMode (ex_DefaultConfig e) then LightSync else FastSync) as Hm.
  { case_decide; [apply res_bind_Ok in He as (g & _ & [= <-])|injection He as <-]; done. }
  rewrite Ha, Hl, Hm. by destruct (cc_LightMode _).
Qed.

(** "Node can only be started once": a closed node does not start. *)
Class NodeOnce := law_start_once w w1 : node_Close w = (Ok (), w1) → ∃ err w2, node_Start w1 = (Err err, w2).
(** So a round of the guard that restarts the node ends the process. *)
Lemma guard_restart_fatal `{!NodeOnce} e w si w1 w2 : SyncInfo e w = (Ok si, w1) → behind si = true →
  node_Close w1 = (Ok (), w2) → ∃ err w3, SyncGuard e w = (Panic err, w3).
Proof.
  intros Hi Hb Hc. destruct (law_start_once _ _ Hc) as (err & w3 & Hs). exists err, w3.
  unfold SyncGuard. rewrite GM_run. unfold try_ at 1. rewrite Hi, Hb, GM_run. unfold fatally. by rewrite Hc, Hs.
Qed.

(** ** The port *)
Class RandRange := law_rand_Intn n w r w' : rand_Intn n w = (Ok r, w') → 0 ≤ r < n.
Lemma random_port_range `{!RandRange} fuel w p w' : random_port fuel w = (Ok p, w') → 1025 ≤ p < 51025.
Proof.
  revert w. induction fuel as [|n IH]; intros w; [done|]. simpl.
  intros (r & w1 & Hr%law_rand_Intn & (ln & w2 & _ & Hg)%GM_bind_Ok)%GM_bind_Ok.
  destruct ln; [injection Hg as <- <-; lia|by eapply IH..].
Qed.
(** The loop ends with the first port that can be listened on. *)
Lemma random_port_found fuel w r w1 w2 :
  rand_Intn 50000 w = (Ok r, w1) → net_Listen (1025 + r) w1 = (Ok (), w2) → random_port (S fuel) w = (Ok (1025 + r), w2).
Proof. intros Hr Hl. simpl. rewrite GM_run, Hr, GM_run. unfold try_. by rewrite Hl. Qed.
(** With port 0 the configuration names a port after the start that is not the
    one the node was made with. *)
Lemma zero_port_differs `{!RandRange} fuel e w e' w' : Start fuel e w = (Ok e', w') →
  is_external (ex_DefaultConfig e) = false → cc_RPCHost (ex_DefaultConfig e) ≠ "" → cc_RPCPort (ex_DefaultConfig e) = 0 →
  1025 ≤ cc_RPCPort (ex_DefaultConfig e').
Proof.
  unfold Start. intros (? & w1 & _ & (n & w2 & _ & (? & w3 & _ & Hg)%GM_bind_Ok)%GM_bind_Ok)%GM_bind_Ok Hx Hh Hp.
  rewrite Hx in Hg. apply GM_bind_Ok in Hg as (c' & w4 & Hs & [= <- <-]). simpl.
  unfold start_local in Hs. apply GM_bind_Ok in Hs as (? & w5 & _ & (p & w6 & Hr & (? & w7 & _ & [= <- <-])%GM_bind_Ok)%GM_bind_Ok).
  simpl. unfold rpc_port in Hr. rewrite Hp, (bool_decide_eq_true_2 (_ ≠ _) Hh) in Hr. apply random_port_range in Hr. lia.
Qed.
End facts.

(** ** A library in which every call succeeds

    The genesis is kept as the chain it is of; the endpoint is that of network
    77; a node starts while it is fresh. *)
Definition plain_eth : EthLib bool := {|
  MainnetBootnodes := ["enode://a@1.2.3.4:30303"];
  GoerliBootnodes := ["enode://b@1.2.3.5:30303"];
  enode := string;
  enode_ParseV4 s := if HasPrefix s "enode://" then Ok s else Err "invalid enode";
  nat_Parse _ := Ok ();
  core_Genesis := option string;
  Genesis_UnmarshalJSON text := match read_json (b2s text) with Some _ => Ok (chain_id text) | None => Err "invalid json" end;
  node_New _ := modify (λ _, true);
  node_Start w := if w then (Ok (), w) else (Err "node not started", w);
  node_Close := modify (λ _, false);
  RegisterEthService _ _ _ := mret ();
  AddPeer _ := mret ();
  AddTrustedPeer _ := mret ();
  PeerCount := mret 3;
  Synchronising := mret false;
  Progress_HighestBlock := mret 1000;
  Progress_CurrentBlock := mret 700;
  CurrentBlock := mret 700;
  NewKeyStore _ := mret ();
  NewPlaintextKeyStore _ := mret ();
  Accounts := mret 0%nat;
  NewAccount := mret ();
  UnlockFirst := mret ();
  ImportECDSA _ := lift (Err ErrAccountAlreadyExists);
  ethclient_DialContext _ := mret ();
  NetworkID _ := mret (Some 77);
  SyncProgress _ := mret None;
  HeaderByNumber _ := mret 16506650;
  PublicIP := lift (Err "no route");
  rand_Intn _ := mret 7;
  net_Listen _ := mret ();
  os_RemoveAll _ := mret ();
  stat_is_socket _ := mret true |}.
#[local] Existing Instance plain_eth.
Definition eth_cfg (chain : string) : EthCfg := mkEthCfg chain false 30303 "" "/d/ethereum" "" [] [] "voting-process.vocdoni.eth" false.
Definition w3_cfg (external : string) : W3Cfg := mkW3Cfg true "127.0.0.1" 9091 "/web3" external.

(** A local node of goerli, a node that uses an endpoint of sokol; a local node
    of sokol and one that uses an endpoint of another network are refused. *)
Lemma ethereum_examples :
  (λ ce : string * string, is_ok (Ethereum 1 (eth_cfg ce.1) (w3_cfg ce.2) None "key" false).1)
    <$> [("goerli", ""); ("mainnet", ""); ("sokol", "ws://sokol"); ("sokol", ""); ("xdai", "ws://sokol"); ("ropsten", "ws://x")]
  = [true; true; true; false; false; false].
Proof. by vm_compute. Qed.
Lemma ethereum_right_chain_witness : ∃ node pxy' w' sp,
  Ethereum 1 (eth_cfg "goerli") (w3_cfg "") None "key" false = (Ok (node, pxy'), w') ∧
  SpecsFor "goerli" = Ok sp ∧ ef_NetworkId (ex_Config node) = sp_NetworkId sp.
Proof.
  assert (is_ok (Ethereum 1 (eth_cfg "goerli") (w3_cfg "") None "key" false).1 = true) as Hok by (by vm_compute).
  destruct (Ethereum 1 (eth_cfg "goerli") (w3_cfg "") None "key" false) as [[[node pxy']|e|e] w'] eqn:E;
    [|discriminate Hok..].
  destruct (ethereum_right_chain 1 (eth_cfg "goerli") (w3_cfg "") None "key" false node pxy' w' E) as (sp & Hs & Hn & _).
  exists node, pxy', w', sp. exact (conj eq_refl (conj Hs Hn)).
Defined.
Instance plain_once : NodeOnce (W := bool).
Proof. intros w w1 [= <-]. by eexists _, _. Qed.
Lemma guard_restart_example : ∃ e w err w', SyncInfo e true = (Ok (mkEthSyncInfo 700 1000 true 3 "fast"), w) ∧
  SyncGuard e true = (Panic err, w').
Proof.
  set (e := mkEthChainContext (mkEthChainConfig "127.0.0.1" 9091 30303 1 [] [] [] "" "" "" false "") eth_DefaultConfig true false).
  destruct (guard_restart_fatal e true (mkEthSyncInfo 700 1000 true 3 "fast") true false eq_refl eq_refl eq_refl) as (err & w' & Hs).
  by exists e, true, err, w'.
Qed.
