(* ===== verification/Config.v ===== *)
(** * The configuration: [config/config.go], [newConfig] of [cmd/dvotenode/dvotenode.go]

    The flags with their defaults, the keys they are bound to, the directories
    derived from the chain, the file of the settings and the decoding into the
    configuration of the node.  Viper, YAML and the file system are a parameter
    ([ViperLib]); viper's documented precedence is the class [ViperLaws] of
    ConfigFacts.v. *)

From stdpp Require Import base gmap strings list.
From Stdlib Require Import ZArith Lia.
From S2P Require Import Prelude GoLib Startup Net EthNode.
Open Scope Z_scope.

(** ** [config/config.go] *)
Record API := mkAPI {
  ap_Route : string; ap_File : bool; ap_Census : bool; ap_Tendermint : bool; ap_Vote : bool; ap_Results : bool;
  ap_AllowPrivate : bool; ap_AllowedAddrs : string; ap_ListenPort : Z; ap_ListenHost : string;
  ap_SslDomain : string; ap_SslDirCert : string; ap_Websockets : bool; ap_WebsocketsReadLimit : Z; ap_HTTP : bool }.
Record IPFSCfg := mkIPFSCfg {
  ip_ConfigPath : string; ip_Daemon : string; ip_NoInit : bool; ip_SyncKey : string; ip_SyncPeers : list string }.
Record EthEventCfg := mkEthEventCfg { ee_CensusSync : bool; ee_SubscribeOnly : bool }.
Record MetricsCfg := mkMetricsCfg { mt_Enabled : bool; mt_RefreshInterval : Z }.
Record DvoteCfg := mkDvoteCfg {
  dc_W3Config : W3Cfg; dc_VochainConfig : VochainCfg; dc_Ipfs : IPFSCfg; dc_EthConfig : EthCfg;
  dc_EthEventConfig : EthEventCfg; dc_API : API; dc_Metrics : MetricsCfg; dc_LogLevel : string;
  dc_LogOutput : string; dc_LogErrorFile : string; dc_DataDir : string; dc_SaveConfig : bool; dc_Mode : string;
  dc_Dev : bool }.
Definition ValidMode (c : DvoteCfg) : bool := bool_decide (dc_Mode c ∈ ["gateway"; "oracle"; "miner"; "web3"]).
Record Error := mkError { er_Critical : bool; er_Message : string }.
Definition no_Error : Error := mkError false "".
Definition noncritical (msg : string) : Error := mkError false msg.

(** ** The flags and their keys *)
Inductive value :=
  | VString (s : string)
  | VBool (b : bool)
  | VInt (z : Z)
  | VStrings (l : list string).
Definition flag_table (home : string) : list (string * value) :=
  [("dataDir", VString (home +:+ "/.dvote")); ("vochain", VString "main"); ("dev", VBool false);
   ("logLevel", VString "info"); ("logOutput", VString "stdout"); ("logErrorFile", VString "");
   ("saveConfig", VBool false); ("mode", VString "gateway"); ("apiws", VBool true); ("apihttp", VBool true);
   ("fileApi", VBool true); ("censusApi", VBool true); ("voteApi", VBool true); ("tendermintApi", VBool true);
   ("resultsApi", VBool true); ("apiRoute", VString "/"); ("apiAllowPrivate", VBool false);
   ("apiAllowedAddrs", VString ""); ("listenHost", VString "0.0.0.0"); ("listenPort", VInt 9090);
   ("apiWsReadLimit", VInt Web3WsReadLimit); ("sslDomain", VString ""); ("ethSigningKey", VString "");
   ("ethChain", VString "xdai"); ("ethChainLightMode", VBool false); ("ethNodePort", VInt 30303);
   ("ethBootNodes", VStrings []); ("ethTrustedPeers", VStrings []);
   ("ethProcessDomain", VString "voting-process.vocdoni.eth"); ("ethNoWaitSync", VBool false);
   ("ethCensusSync", VBool true); ("ethSubscribeOnly", VBool true); ("w3External", VString "");
   ("w3Enabled", VBool false); ("w3Route", VString "/web3"); ("w3RPCPort", VInt 9091);
   ("w3RPCHost", VString "127.0.0.1"); ("ipfsNoInit", VBool false); ("ipfsSyncKey", VString "");
   ("ipfsSyncPeers", VStrings []); ("vochainP2PListen", VString "0.0.0.0:26656");
   ("vochainPublicAddr", VString ""); ("vochainRPCListen", VString "127.0.0.1:26657");
   ("vochainCreateGenesis", VBool false); ("vochainGenesis", VString ""); ("vochainLogLevel", VString "error");
   ("vochainPeers", VStrings []); ("vochainSeeds", VStrings []); ("vochainMinerKey", VString "");
   ("vochainNodeKey", VString ""); ("vochainNoWaitSync", VBool false); ("vochainSeedMode", VBool false);
   ("vochainMempoolSize", VInt 20000); ("keyKeeperIndex", VInt 0); ("importPreviousCensus", VBool false);
   ("metricsEnabled", VBool false); ("metricsRefreshInterval", VInt 5)].
Definition first_binds : list (string * string) := [("dataDir", "dataDir"); ("vochain", "vochain"); ("dev", "dev")].
Definition bind_table : list (string * string) :=
  [("mode", "mode"); ("logLevel", "logLevel"); ("logErrorFile", "logErrorFile"); ("logOutput", "logOutput");
   ("saveConfig", "saveConfig"); ("api.Websockets", "apiws"); ("api.WebsocketsReadLimit", "apiWsReadLimit");
   ("api.Http", "apihttp"); ("api.File", "fileApi"); ("api.Census", "censusApi"); ("api.Vote", "voteApi");
   ("api.Results", "resultsApi"); ("api.Tendermint", "tendermintApi"); ("api.Route", "apiRoute");
   ("api.AllowPrivate", "apiAllowPrivate"); ("api.AllowedAddrs", "apiAllowedAddrs");
   ("api.ListenHost", "listenHost"); ("api.ListenPort", "listenPort"); ("api.Ssl.Domain", "sslDomain");
   ("ethConfig.SigningKey", "ethSigningKey"); ("ethConfig.ChainType", "ethChain");
   ("ethConfig.LightMode", "ethChainLightMode"); ("ethConfig.NodePort", "ethNodePort");
   ("ethConfig.BootNodes", "ethBootNodes"); ("ethConfig.TrustedPeers", "ethTrustedPeers");
   ("ethConfig.ProcessDomain", "ethProcessDomain"); ("ethConfig.NoWaitSync", "ethNoWaitSync");
   ("ethEventConfig.CensusSync", "ethCensusSync"); ("ethEventConfig.SubscribeOnly", "ethSubscribeOnly");
   ("w3Config.W3External", "w3External"); ("w3Config.Route", "w3Route"); ("w3Config.enabled", "w3Enabled");
   ("w3Config.RPCPort", "w3RPCPort"); ("w3Config.RPCHost", "w3RPCHost"); ("ipfs.NoInit", "ipfsNoInit");
   ("ipfs.SyncKey", "ipfsSyncKey"); ("ipfs.SyncPeers", "ipfsSyncPeers");
   ("vochainConfig.P2PListen", "vochainP2PListen"); ("vochainConfig.PublicAddr", "vochainPublicAddr");
   ("vochainConfig.RPCListen", "vochainRPCListen"); ("vochainConfig.LogLevel", "vochainLogLevel");
   ("vochainConfig.Peers", "vochainPeers"); ("vochainConfig.Seeds", "vochainSeeds");
   ("vochainConfig.CreateGenesis", "vochainCreateGenesis"); ("vochainConfig.Genesis", "vochainGenesis");
   ("vochainConfig.MinerKey", "vochainMinerKey"); ("vochainConfig.NodeKey", "vochainNodeKey");
   ("vochainConfig.NoWaitSync", "vochainNoWaitSync"); ("vochainConfig.SeedMode", "vochainSeedMode");
   ("vochainConfig.MempoolSize", "vochainMempoolSize"); ("vochainConfig.KeyKeeperIndex", "keyKeeperIndex");
   ("vochainConfig.ImportPreviousCensus", "importPreviousCensus"); ("metrics.Enabled", "metricsEnabled");
   ("metrics.RefreshInterval", "metricsRefreshInterval")].

(** Keys are compared without case. *)
Definition lower_byte (c : byte) : byte :=
  if (65 <=? b2z c) && (b2z c <=? 90) then default c (Byte.of_N (Z.to_N (b2z c + 32))) else c.
Definition lower (s : string) : string := b2s (map lower_byte (s2b s)).

(** A viper: what was set, the flag each key is bound to, and what was read from
    the file. *)
Record Viper := mkViper { v_set : gmap string value; v_bound : gmap string string; v_config : gmap string value }.
Definition viper_New : Viper := mkViper ∅ ∅ ∅.
Definition BindPFlag (key flag : string) (v : Viper) : Viper :=
  mkViper (v_set v) (<[lower key := flag]> (v_bound v)) (v_config v).
Definition viper_Set (key : string) (x : value) (v : Viper) : Viper :=
  mkViper (<[lower key := x]> (v_set v)) (v_bound v) (v_config v).
Definition bind_all (l : list (string * string)) (v : Viper) : Viper := foldl (λ v kf, BindPFlag kf.1 kf.2 v) v l.

(** The flags as declared, those given on the command line, and the values of
    the environment by key. *)
Record Sources := mkSources { sr_flags : gmap string value; sr_given : gmap string value; sr_env : gmap string value }.
Class ViperLib := {
  (** The value of a key, and all the keys with their values. *)
  viper_Get : Sources → Viper → string → option value;
  AllSettings : Sources → Viper → gmap string value;
  (** What a flag of a type is read as: a list as the text that [pflag] prints. *)
  pflag_value : value → value;
  cast_ToString : value → string;
  cast_ToBool : value → bool;
  (** [mapstructure], into the types of the fields; an integer by its width. *)
  decode_string : value → option string;
  decode_bool : value → option bool;
  decode_int : Z → value → option Z;
  decode_strings : value → option (list string);
  yaml_Marshal : gmap string value → bytes;
  yaml_Unmarshal : bytes → res (gmap string value);
  UserHomeDir : res string;
  os_MkdirAll : string → res ();
  (** Whether the file of a path can be written. *)
  os_OpenFile : string → res ();
  signer_Generate : res string }.

Section config.
Context `{ViperLib}.
(** The files, by path. *)
Abbreviation MF := (GM (gmap string bytes)).
Variable src : Sources.
Definition get (v : Viper) (key : string) : option value := viper_Get src v (lower key).
Definition GetString (v : Viper) (key : string) : string := default "" (cast_ToString <$> get v key).
Definition GetBool (v : Viper) (key : string) : bool := default false (cast_ToBool <$> get v key).

(** ** Decoding into the configuration

    A field keeps its value when the key is nowhere or does not decode. *)
Definition field_or {A} (dec : value → option A) (v : Viper) (key : string) (old : A) : A :=
  default old (get v key ≫= dec).
Abbreviation str := (field_or decode_string).
Abbreviation boo := (field_or decode_bool).
Abbreviation num := (field_or (decode_int 64)).
Abbreviation strs := (field_or decode_strings).
Definition decode_W3Cfg (v : Viper) (c : W3Cfg) : W3Cfg :=
  mkW3Cfg
    (boo v "w3Config.Enabled" (w3_Enabled c)) (str v "w3Config.RPCHost" (w3_RPCHost c))
    (num v "w3Config.RPCPort" (w3_RPCPort c)) (str v "w3Config.Route" (w3_Route c))
    (str v "w3Config.W3External" (w3_W3External c)).
Definition decode_VochainCfg (v : Viper) (c : VochainCfg) : VochainCfg :=
  mkVochainCfg
    (str v "vochainConfig.Chain" (vc_Chain c)) (boo v "vochainConfig.Dev" (vc_Dev c))
    (str v "vochainConfig.LogLevel" (vc_LogLevel c)) (str v "vochainConfig.LogOutput" (vc_LogOutput c))
    (str v "vochainConfig.RPCListen" (vc_RPCListen c)) (str v "vochainConfig.P2PListen" (vc_P2PListen c))
    (str v "vochainConfig.PublicAddr" (vc_PublicAddr c)) (str v "vochainConfig.DataDir" (vc_DataDir c))
    (str v "vochainConfig.Genesis" (vc_Genesis c)) (boo v "vochainConfig.CreateGenesis" (vc_CreateGenesis c))
    (strs v "vochainConfig.Peers" (vc_Peers c)) (strs v "vochainConfig.Seeds" (vc_Seeds c))
    (boo v "vochainConfig.SeedMode" (vc_SeedMode c)) (str v "vochainConfig.MinerKey" (vc_MinerKey c))
    (str v "vochainConfig.NodeKey" (vc_NodeKey c)) (boo v "vochainConfig.NoWaitSync" (vc_NoWaitSync c))
    (boo v "vochainConfig.SaveConfig" (vc_SaveConfig c)) (num v "vochainConfig.MempoolSize" (vc_MempoolSize c))
    (field_or (decode_int 8) v "vochainConfig.KeyKeeperIndex" (vc_KeyKeeperIndex c))
    (boo v "vochainConfig.ImportPreviousCensus" (vc_ImportPreviousCensus c))
    (boo v "vochainConfig.TendermintMetrics" (vc_TendermintMetrics c)).
Definition decode_IPFSCfg (v : Viper) (c : IPFSCfg) : IPFSCfg :=
  mkIPFSCfg
    (str v "ipfs.ConfigPath" (ip_ConfigPath c)) (str v "ipfs.Daemon" (ip_Daemon c))
    (boo v "ipfs.NoInit" (ip_NoInit c)) (str v "ipfs.SyncKey" (ip_SyncKey c))
    (strs v "ipfs.SyncPeers" (ip_SyncPeers c)).
Definition decode_EthCfg (v : Viper) (c : EthCfg) : EthCfg :=
  mkEthCfg
    (str v "ethConfig.ChainType" (ec_ChainType c)) (boo v "ethConfig.LightMode" (ec_LightMode c))
    (num v "ethConfig.NodePort" (ec_NodePort c)) (str v "ethConfig.LogLevel" (ec_LogLevel c))
    (str v "ethConfig.DataDir" (ec_DataDir c)) (str v "ethConfig.SigningKey" (ec_SigningKey c))
    (strs v "ethConfig.BootNodes" (ec_BootNodes c)) (strs v "ethConfig.TrustedPeers" (ec_TrustedPeers c))
    (str v "ethConfig.ProcessDomain" (ec_ProcessDomain c)) (boo v "ethConfig.NoWaitSync" (ec_NoWaitSync c)).
Definition decode_EthEventCfg (v : Viper) (c : EthEventCfg) : EthEventCfg :=
  mkEthEventCfg
    (boo v "ethEventConfig.CensusSync" (ee_CensusSync c))
    (boo v "ethEventConfig.SubscribeOnly" (ee_SubscribeOnly c)).
Definition decode_API (v : Viper) (c : API) : API :=
  mkAPI
    (str v "api.Route" (ap_Route c)) (boo v "api.File" (ap_File c)) (boo v "api.Census" (ap_Census c))
    (boo v "api.Tendermint" (ap_Tendermint c)) (boo v "api.Vote" (ap_Vote c)) (boo v "api.Results" (ap_Results c))
    (boo v "api.AllowPrivate" (ap_AllowPrivate c)) (str v "api.AllowedAddrs" (ap_AllowedAddrs c))
    (num v "api.ListenPort" (ap_ListenPort c)) (str v "api.ListenHost" (ap_ListenHost c))
    (str v "api.Ssl.Domain" (ap_SslDomain c)) (str v "api.Ssl.DirCert" (ap_SslDirCert c))
    (boo v "api.Websockets" (ap_Websockets c)) (num v "api.WebsocketsReadLimit" (ap_WebsocketsReadLimit c))
    (boo v "api.HTTP" (ap_HTTP c)).
Definition decode_MetricsCfg (v : Viper) (c : MetricsCfg) : MetricsCfg :=
  mkMetricsCfg
    (boo v "metrics.Enabled" (mt_Enabled c)) (num v "metrics.RefreshInterval" (mt_RefreshInterval c)).
Definition Unmarshal (v : Viper) (c : DvoteCfg) : DvoteCfg :=
  mkDvoteCfg
    (decode_W3Cfg v (dc_W3Config c)) (decode_VochainCfg v (dc_VochainConfig c)) (decode_IPFSCfg v (dc_Ipfs c))
    (decode_EthCfg v (dc_EthConfig c)) (decode_EthEventCfg v (dc_EthEventConfig c)) (decode_API v (dc_API c))
    (decode_MetricsCfg v (dc_Metrics c)) (str v "LogLevel" (dc_LogLevel c)) (str v "LogOutput" (dc_LogOutput c))
    (str v "LogErrorFile" (dc_LogErrorFile c)) (str v "DataDir" (dc_DataDir c))
    (boo v "SaveConfig" (dc_SaveConfig c)) (str v "Mode" (dc_Mode c)) (boo v "Dev" (dc_Dev c)).
(** The fields of the configuration, by key. *)
Inductive kind := KString | KBool | KInt (width : Z) | KStrings.
Definition config_fields : list (string * kind) :=
  [("w3Config.Enabled", KBool); ("w3Config.RPCHost", KString); ("w3Config.RPCPort", KInt 64);
   ("w3Config.Route", KString); ("w3Config.W3External", KString); ("vochainConfig.Chain", KString);
   ("vochainConfig.Dev", KBool); ("vochainConfig.LogLevel", KString); ("vochainConfig.LogOutput", KString);
   ("vochainConfig.RPCListen", KString); ("vochainConfig.P2PListen", KString);
   ("vochainConfig.PublicAddr", KString); ("vochainConfig.DataDir", KString); ("vochainConfig.Genesis", KString);
   ("vochainConfig.CreateGenesis", KBool); ("vochainConfig.Peers", KStrings); ("vochainConfig.Seeds", KStrings);
   ("vochainConfig.SeedMode", KBool); ("vochainConfig.MinerKey", KString); ("vochainConfig.NodeKey", KString);
   ("vochainConfig.NoWaitSync", KBool); ("vochainConfig.SaveConfig", KBool);
   ("vochainConfig.MempoolSize", KInt 64); ("vochainConfig.KeyKeeperIndex", KInt 8);
   ("vochainConfig.ImportPreviousCensus", KBool); ("vochainConfig.TendermintMetrics", KBool);
   ("ipfs.ConfigPath", KString); ("ipfs.Daemon", KString); ("ipfs.NoInit", KBool); ("ipfs.SyncKey", KString);
   ("ipfs.SyncPeers", KStrings); ("ethConfig.ChainType", KString); ("ethConfig.LightMode", KBool);
   ("ethConfig.NodePort", KInt 64); ("ethConfig.LogLevel", KString); ("ethConfig.DataDir", KString);
   ("ethConfig.SigningKey", KString); ("ethConfig.BootNodes", KStrings); ("ethConfig.TrustedPeers", KStrings);
   ("ethConfig.ProcessDomain", KString); ("ethConfig.NoWaitSync", KBool); ("ethEventConfig.CensusSync", KBool);
   ("ethEventConfig.SubscribeOnly", KBool); ("api.Route", KString); ("api.File", KBool); ("api.Census", KBool);
   ("api.Tendermint", KBool); ("api.Vote", KBool); ("api.Results", KBool); ("api.AllowPrivate", KBool);
   ("api.AllowedAddrs", KString); ("api.ListenPort", KInt 64); ("api.ListenHost", KString);
   ("api.Ssl.Domain", KString); ("api.Ssl.DirCert", KString); ("api.Websockets", KBool);
   ("api.WebsocketsReadLimit", KInt 64); ("api.HTTP", KBool); ("metrics.Enabled", KBool);
   ("metrics.RefreshInterval", KInt 64); ("LogLevel", KString); ("LogOutput", KString); ("LogErrorFile", KString);
   ("DataDir", KString); ("SaveConfig", KBool); ("Mode", KString); ("Dev", KBool)].
Definition decodes (k : kind) (x : value) : bool :=
  match k with
  | KString => bool_decide (is_Some (decode_string x))
  | KBool => bool_decide (is_Some (decode_bool x))
  | KInt w => bool_decide (is_Some (decode_int w x))
  | KStrings => bool_decide (is_Some (decode_strings x))
  end.
Definition unmarshal_ok (v : Viper) : bool :=
  forallb (λ fk : string * kind, match get v fk.1 with Some x => decodes fk.2 x | None => true end) config_fields.

(** ** [newConfig]

    The flags are read where they are declared, before they are parsed: the
    configuration starts from the defaults. *)
Definition base_config (dir chain : string) (dev : bool) : DvoteCfg :=
  mkDvoteCfg
    (mkW3Cfg false "127.0.0.1" 9091 "/web3" "")
    (mkVochainCfg chain false "error" "" "127.0.0.1:26657" "0.0.0.0:26656" "" "" "" false [] [] false "" "" false false
       20000 0 false false)
    (mkIPFSCfg "" "" false "" [])
    (mkEthCfg "xdai" false 30303 "" "" "" [] [] "voting-process.vocdoni.eth" false)
    (mkEthEventCfg true true)
    (mkAPI "/" true true true true true false "" 9090 "0.0.0.0" "" "" true Web3WsReadLimit true)
    (mkMetricsCfg false 5) "info" "stdout" "" dir false "gateway" dev.
Definition set_signing_key (key : string) (c : DvoteCfg) : DvoteCfg :=
  let e := dc_EthConfig c in
  mkDvoteCfg (dc_W3Config c) (dc_VochainConfig c) (dc_Ipfs c)
    (mkEthCfg (ec_ChainType e) (ec_LightMode e) (ec_NodePort e) (ec_LogLevel e) (ec_DataDir e) key (ec_BootNodes e)
       (ec_TrustedPeers e) (ec_ProcessDomain e) (ec_NoWaitSync e))
    (dc_EthEventConfig c) (dc_API c) (dc_Metrics c) (dc_LogLevel c) (dc_LogOutput c) (dc_LogErrorFile c) (dc_DataDir c)
    (dc_SaveConfig c) (dc_Mode c) (dc_Dev c).
Definition set_SaveConfig b (c : DvoteCfg) : DvoteCfg :=
  mkDvoteCfg (dc_W3Config c) (dc_VochainConfig c) (dc_Ipfs c) (dc_EthConfig c) (dc_EthEventConfig c) (dc_API c)
    (dc_Metrics c) (dc_LogLevel c) (dc_LogOutput c) (dc_LogErrorFile c) (dc_DataDir c) b (dc_Mode c) (dc_Dev c).

(** The three settings needed before the file can be found. *)
Definition first_viper : Viper := bind_all first_binds viper_New.
Definition data_dir : string :=
  let dir := GetString first_viper "dataDir" in
  let chain := GetString first_viper "vochain" in
  if decide (chain = "main") then dir else dir +:+ "/" +:+ chain.
(** The directories that are set, and all the keys that are bound. *)
Definition set_keys (dir : string) (dev : bool) (v : Viper) : Viper :=
  viper_Set "vochainConfig.Dev" (VBool dev)
    (viper_Set "vochainConfig.DataDir" (VString (dir +:+ "/vochain"))
       (viper_Set "ipfs.ConfigPath" (VString (dir +:+ "/ipfs"))
          (viper_Set "ethConfig.Datadir" (VString (dir +:+ "/ethereum"))
             (viper_Set "api.Ssl.DirCert" (VString (dir +:+ "/tls")) v)))).
Definition bound_viper : Viper :=
  set_keys data_dir (GetBool first_viper "dev") (bind_all bind_table first_viper).

Definition write_settings (path : string) (v : Viper) : MF () :=
  _ ← lift (os_OpenFile path);
  modify (<[path := yaml_Marshal (AllSettings src v)]>).
(** [viper.SafeWriteConfig]: the file must not be there. *)
Definition SafeWriteConfig (path : string) (v : Viper) : MF () :=
  fs ← get_st;
  if decide (is_Some (fs !! path)) then lift (Err "Config File already exists") else write_settings path v.
(** [viper.WriteConfig]: the file must have been found. *)
Definition WriteConfig (path : string) (v : Viper) : MF () :=
  fs ← get_st;
  if decide (is_Some (fs !! path)) then write_settings path v else lift (Err "Config File Not Found").
(** The file is created, or read. *)
Definition load_file (dir : string) (v : Viper) : MF (Viper * Error) :=
  let path := dir +:+ "/dvote.yml" in
  fs ← get_st;
  match fs !! path with
  | None =>
      let err := match os_MkdirAll dir with
                 | Ok _ => noncritical "creating new config file"
                 | _ => noncritical "cannot create data directory"
                 end in
      r ← try_ (SafeWriteConfig path v);
      mret (v, match r with Ok _ => err | _ => noncritical "cannot write config file into config dir" end)
  | Some text =>
      mret (match yaml_Unmarshal text with
            | Ok m => (mkViper (v_set v) (v_bound v) m, no_Error)
            | _ => (v, noncritical "cannot read loaded config file")
            end)
  end.
(** A key that is too short is replaced, and the settings are saved. *)
Definition save_config (dir : string) (v : Viper) (c : DvoteCfg) (err : Error) : MF (option DvoteCfg * Error) :=
  if dc_SaveConfig c then
    r ← try_ (WriteConfig (dir +:+ "/dvote.yml") (viper_Set "saveConfig" (VBool false) v));
    mret (Some c, match r with Ok _ => err | _ => noncritical "cannot overwrite config file into config dir" end)
  else mret (Some c, err).
Definition config_of (v : Viper) : DvoteCfg :=
  Unmarshal v (base_config data_dir (GetString first_viper "vochain") (GetBool first_viper "dev")).
Definition read_config : MF (option DvoteCfg * Error) :=
  let dir := data_dir in
  '(v, err) ← load_file dir bound_viper;
  let c := config_of v in
  let err := if unmarshal_ok v then err else noncritical "cannot unmarshal loaded config file" in
  if decide (slen (ec_SigningKey (dc_EthConfig c)) < 32) then
    match signer_Generate with
    | Ok priv => save_config dir (viper_Set "ethConfig.signingKey" (VString priv) v)
                   (set_SaveConfig true (set_signing_key priv c)) err
    | _ => mret (Some c, noncritical "cannot generate signing key")
    end
  else save_config dir v c err.
End config.

(** [given] are the flags of the command line, [env] the values of the
    environment. *)
Definition sources (home : string) (given env : gmap string value) : Sources :=
  mkSources (list_to_map (flag_table home)) given env.
Definition newConfig `{ViperLib} (given env : gmap string value) : GM (gmap string bytes) (option DvoteCfg * Error) :=
  match UserHomeDir with
  | Ok home => read_config (sources home given env)
  | _ => mret (None, mkError true "cannot get user home directory")
  end.
