(* ===== verification/ConfigFacts.v ===== *)
(** * The configuration: precedence, persistence and the directories

    Every flag of the command line reaches its field whatever the file and the
    environment say; a node started again from the file it saved has the
    configuration it had. *)

From stdpp Require Import base gmap strings list.
From Stdlib Require Import ZArith Lia.
From S2P Require Import Prelude GoLib Startup Net EthNode Config Concrete.
Open Scope Z_scope.

(** Viper's order: an explicit call to [Set], a flag that was given, the
    environment, the file, the default of the flag. *)
Definition precedence (of_flag : value → value) (src : Sources) (v : Viper) (k : string) : option value :=
  match v_set v !! k with
  | Some x => Some x
  | None =>
      match v_bound v !! k ≫= λ f, sr_given src !! f with
      | Some x => Some (of_flag x)
      | None =>
          match sr_env src !! k with
          | Some x => Some x
          | None =>
              match v_config v !! k with
              | Some x => Some x
              | None => of_flag <$> (v_bound v !! k ≫= λ f, sr_flags src !! f)
              end
          end
      end
  end.
Definition known_key (v : Viper) (k : string) : bool :=
  bool_decide (is_Some (v_set v !! k)) || bool_decide (is_Some (v_bound v !! k)) || bool_decide (is_Some (v_config v !! k)).
Class ViperLaws `{ViperLib} := {
  law_Get src v k : viper_Get src v k = precedence pflag_value src v k;
  law_AllSettings src v k : AllSettings src v !! k = if known_key v k then viper_Get src v k else None;
  law_yaml m : yaml_Unmarshal (yaml_Marshal m) = Ok m;
  law_decode_string s : decode_string (VString s) = Some s;
  law_decode_bool b : decode_bool (VBool b) = Some b;
  (** 32 bytes, in hexadecimal. *)
  law_Generate priv : signer_Generate = Ok priv → slen priv = 64 }.

#[local] Opaque flag_table bind_table config_fields.

(** ** The tables *)
Definition binds : list (string * string) := first_binds ++ bind_table.
Lemma flag_names home : (flag_table home).*1 = (flag_table "").*1.
Proof. reflexivity. Qed.
(** Every flag is bound to one key, and every key but the name of the chain,
    which is read on its own, is that of a field. *)
Lemma flags_bound home : (flag_table home).*1 ⊆ binds.*2 ∧ binds.*2 ⊆ (flag_table home).*1 ∧
  NoDup (binds.*2) ∧ NoDup ((λ kf : string * string, lower kf.1) <$> binds).
Proof.
  rewrite flag_names.
  assert (bool_decide (Forall (.∈ binds.*2) (flag_table "").*1) && bool_decide (Forall (.∈ (flag_table "").*1) binds.*2) &&
          bool_decide (NoDup binds.*2) && bool_decide (NoDup ((λ kf : string * string, lower kf.1) <$> binds)) = true) as Hb
    by (by vm_compute).
  rewrite !andb_true_iff, !bool_decide_eq_true, !list.Forall_forall in Hb. naive_solver.
Qed.
Lemma keys_are_fields : ∀ kf, kf ∈ binds → kf.1 ≠ "vochain" → lower kf.1 ∈ (λ fk : string * kind, lower fk.1) <$> config_fields.
Proof.
  assert (bool_decide (Forall (λ kf : string * string, kf.1 = "vochain" ∨
    lower kf.1 ∈ (λ fk : string * kind, lower fk.1) <$> config_fields) binds) = true) as Hb by (by vm_compute).
  apply bool_decide_eq_true in Hb. rewrite list.Forall_forall in Hb. naive_solver.
Qed.

Definition set_names : list string :=
  [lower "vochainConfig.Dev"; lower "vochainConfig.DataDir"; lower "ipfs.ConfigPath"; lower "ethConfig.Datadir";
   lower "api.Ssl.DirCert"].

Section facts.
Context `{ViperLaws}.

(** ** Layers *)
Lemma bind_all_set l v : v_set (bind_all l v) = v_set v ∧ v_config (bind_all l v) = v_config v.
Proof. revert v. induction l as [|kf l IH]; intros v; [done|]. simpl. by destruct (IH (BindPFlag kf.1 kf.2 v)). Qed.
Lemma bind_all_notin l v k : k ∉ (λ kf : string * string, lower kf.1) <$> l → v_bound (bind_all l v) !! k = v_bound v !! k.
Proof.
  revert v. induction l as [|kf l IH]; intros v Hk; [done|]. simpl in *. apply not_elem_of_cons in Hk as [Hk Hl].
  rewrite IH by done. by apply lookup_insert_ne.
Qed.
Lemma bind_all_bound l v k f : NoDup ((λ kf : string * string, lower kf.1) <$> l) → (k, f) ∈ l →
  v_bound (bind_all l v) !! lower k = Some f.
Proof.
  revert v. induction l as [|kf l IH]; intros v Hd Hin; [by apply elem_of_nil in Hin|].
  simpl in *. apply NoDup_cons in Hd as [Hn Hd]. apply elem_of_cons in Hin as [<-|Hin]; [|by apply IH].
  rewrite bind_all_notin by done. by apply lookup_insert_eq.
Qed.
Lemma bind_all_app l l' v : bind_all (l ++ l') v = bind_all l' (bind_all l v).
Proof. apply foldl_app. Qed.
Lemma bound_all src : v_bound (bound_viper src) = v_bound (bind_all binds viper_New).
Proof. unfold bound_viper, first_viper, binds. rewrite bind_all_app. reflexivity. Qed.
Lemma set_keys_config dir dev v : v_config (set_keys dir dev v) = v_config v.
Proof. done. Qed.
Lemma set_keys_set dir dev v k : k ∉ set_names → v_set (set_keys dir dev v) !! k = v_set v !! k.
Proof.
  unfold set_names. rewrite !not_elem_of_cons. intros (H1 & H2 & H3 & H4 & H5 & _).
  unfold set_keys, viper_Set. cbn [v_set]. rewrite !lookup_insert_ne by congruence. done.
Qed.
Lemma bound_viper_config src : v_config (bound_viper src) = ∅.
Proof.
  unfold bound_viper. rewrite set_keys_config, (proj2 (bind_all_set _ _)). unfold first_viper.
  by rewrite (proj2 (bind_all_set _ _)).
Qed.
Lemma bound_viper_set src k : k ∉ set_names → v_set (bound_viper src) !! k = None.
Proof.
  intros Hk. unfold bound_viper. rewrite set_keys_set, (proj1 (bind_all_set _ _)) by done. unfold first_viper.
  by rewrite (proj1 (bind_all_set _ _)).
Qed.
Lemma bound_keys_not_set k f : (k, f) ∈ binds → lower k ∉ set_names.
Proof.
  assert (bool_decide (Forall (λ kf : string * string, lower kf.1 ∉ set_names) binds) = true) as Hb by (by vm_compute).
  apply bool_decide_eq_true in Hb. rewrite list.Forall_forall in Hb. apply (Hb (k, f)).
Qed.
(** The file changes nothing but the third layer. *)
Lemma load_file_layers src dir v fs v' err fs' : load_file src dir v fs = (Ok (v', err), fs') →
  v_set v' = v_set v ∧ v_bound v' = v_bound v.
Proof.
  unfold load_file. rewrite GM_run. simpl. case_match eqn:Hf.
  - destruct (yaml_Unmarshal _); by intros [= <- _ _].
  - intros (r & s & _ & [= <- _ _])%GM_bind_Ok. done.
Qed.

(** ** A second run

    Two settings may differ: the key, and the wish to save. *)
Definition save_key : string := lower "saveConfig".
Definition signing_key : string := lower "ethConfig.signingKey".
Definition same_but (src : Sources) (v : Viper) (src' : Sources) (v' : Viper) : Prop :=
  ∀ k, k ≠ save_key → k ≠ signing_key → viper_Get src v k = viper_Get src' v' k.
Lemma field_ext {A} (dec : value → option A) src v src' v' key old : same_but src v src' v' →
  lower key ≠ save_key → lower key ≠ signing_key → field_or src dec v key old = field_or src' dec v' key old.
Proof. intros Hk H1 H2. unfold field_or, get. by rewrite Hk. Qed.
Lemma Unmarshal_ext src v src' v' c : same_but src v src' v' →
  Unmarshal src v c =
    set_SaveConfig (field_or src decode_bool v "SaveConfig" (dc_SaveConfig c))
      (set_signing_key (field_or src decode_string v "ethConfig.SigningKey" (ec_SigningKey (dc_EthConfig c)))
         (Unmarshal src' v' c)).
Proof.
  intros Hs. unfold Unmarshal, set_signing_key, set_SaveConfig. cbn -[field_or].
  unfold decode_W3Cfg, decode_VochainCfg, decode_IPFSCfg, decode_EthCfg, decode_EthEventCfg, decode_API, decode_MetricsCfg.
  repeat first [reflexivity | apply (field_ext _ _ _ _ _ _ _ Hs); [by vm_compute..] | f_equal].
Qed.

(** The flags that say which file is meant are given again, the others not. *)
Definition first_flags : list string := ["dataDir"; "vochain"; "dev"].
Definition again (given : gmap string value) : gmap string value := filter (λ kv, kv.1 ∈ first_flags) given.
Lemma again_in given f : f ∈ first_flags → again given !! f = given !! f.
Proof. intros Hf. unfold again. rewrite map_lookup_filter. destruct (given !! f); simpl; [|done]. by rewrite option_guard_True. Qed.
Lemma again_out given f : f ∉ first_flags → again given !! f = None.
Proof. intros Hf. unfold again. rewrite map_lookup_filter. destruct (given !! f); simpl; [|done]. by rewrite option_guard_False. Qed.
Lemma again_some given f x : again given !! f = Some x → given !! f = Some x.
Proof. unfold again. by intros [? _]%map_lookup_filter_Some. Qed.

Section two_runs.
Context (home : string) (given : gmap string value).
Abbreviation src1 := (sources home given ∅).
Abbreviation src2 := (sources home (again given) ∅).
Lemma first_again key : key ∈ first_flags → get src2 first_viper key = get src1 first_viper key.
Proof.
  intros Hk. unfold get. rewrite !law_Get. unfold precedence.
  assert (v_set first_viper !! lower key = None ∧ v_bound first_viper !! lower key = Some key) as [-> ->].
  { unfold first_flags in Hk. rewrite !elem_of_cons, elem_of_nil in Hk. destruct Hk as [->|[->|[->|[]]]]; split; vm_compute; reflexivity. }
  simpl. by rewrite again_in.
Qed.
Lemma GetString_again key : key ∈ first_flags → GetString src2 first_viper key = GetString src1 first_viper key.
Proof. intros Hk. unfold GetString. by rewrite first_again. Qed.
Lemma dev_again : GetBool src2 first_viper "dev" = GetBool src1 first_viper "dev".
Proof. unfold GetBool. rewrite first_again; [done|]. unfold first_flags. set_solver. Qed.
Lemma data_dir_again : data_dir src2 = data_dir src1.
Proof. unfold data_dir. by rewrite !GetString_again by (unfold first_flags; set_solver). Qed.
Lemma bound_viper_again : bound_viper src2 = bound_viper src1.
Proof. unfold bound_viper. by rewrite data_dir_again, dev_again. Qed.

End two_runs.

(** What the second run sees, when [w] was saved. *)
Section seen.
Context (flags given : gmap string value) (v w : Viper).
Hypothesis v_config_empty : v_config v = ∅.
Hypothesis w_config_empty : v_config w = ∅.
Hypothesis w_bound : v_bound w = v_bound v.
Definition seen : Viper := mkViper (v_set v) (v_bound v) (AllSettings (mkSources flags given ∅) w).
Lemma seen_same k : v_set w !! k = v_set v !! k →
  viper_Get (mkSources flags (again given) ∅) seen k = viper_Get (mkSources flags given ∅) v k.
Proof.
  intros Hw. rewrite !law_Get. unfold precedence at 1 2, seen. cbn [v_set v_bound v_config sr_given sr_env sr_flags].
  rewrite law_AllSettings, law_Get. unfold known_key, precedence. cbn [sr_given sr_env sr_flags].
  rewrite Hw, w_bound, w_config_empty, v_config_empty.
  destruct (v_set v !! k); [done|]. rewrite !lookup_empty.
  destruct (v_bound v !! k) as [f|]; cbn; [|done].
  destruct (again given !! f) eqn:Ha; [by rewrite (again_some _ _ _ Ha)|].
  destruct (given !! f); [done|]. by destruct (flags !! f).
Qed.
Lemma seen_saved k f x : v_set w !! k = Some x → v_set v !! k = None → v_bound v !! k = Some f →
  f ∉ first_flags → viper_Get (mkSources flags (again given) ∅) seen k = Some x.
Proof.
  intros Hw Hn Hb Hf. rewrite law_Get. unfold precedence, seen. cbn [v_set v_bound v_config sr_given sr_env sr_flags].
  rewrite Hn, Hb. cbn. rewrite (again_out _ _ Hf), law_AllSettings, law_Get.
  unfold known_key, precedence. by rewrite Hw.
Qed.
End seen.

(** ** The first run *)
Definition signing_of (c : DvoteCfg) : string := ec_SigningKey (dc_EthConfig c).
Record saved (src : Sources) (v : Viper) (c : DvoteCfg) (w : Viper) : Prop := {
  saved_bound : v_bound w = v_bound v;
  saved_config : v_config w = ∅;
  saved_other k : k ≠ save_key → k ≠ signing_key → v_set w !! k = v_set v !! k;
  saved_signing :
    v_set w !! signing_key = Some (VString (signing_of c)) ∨
    v_set w !! signing_key = v_set v !! signing_key ∧ signing_of c = signing_of (config_of src v);
  saved_save :
    v_set w !! save_key = Some (VBool false) ∨
    v_set w !! save_key = v_set v !! save_key ∧ dc_SaveConfig (config_of src v) = false;
  saved_key : 32 ≤ slen (signing_of c);
  saved_rest : set_SaveConfig false c = set_SaveConfig false (set_signing_key (signing_of c) (config_of src v)) }.
Lemma set_own_key c : set_signing_key (signing_of c) c = c.
Proof. by destruct c as [? ? ? []]. Qed.
Lemma keys_differ : save_key ≠ signing_key.
Proof. by vm_compute. Qed.
Lemma viper_Set_bound key x v : v_bound (viper_Set key x v) = v_bound v.
Proof. done. Qed.
Lemma viper_Set_config key x v : v_config (viper_Set key x v) = v_config v.
Proof. done. Qed.
Lemma write_settings_run src path v fs : os_OpenFile path = Ok () →
  write_settings src path v fs = (Ok (), <[path := yaml_Marshal (AllSettings src v)]> fs).
Proof. intros Ho. unfold write_settings. rewrite GM_run. unfold lift. by rewrite Ho. Qed.
Lemma WriteConfig_run src path v fs m : os_OpenFile path = Ok () → fs !! path = Some m →
  WriteConfig src path v fs = (Ok (), <[path := yaml_Marshal (AllSettings src v)]> fs).
Proof.
  intros Ho Hf. unfold WriteConfig. rewrite GM_run. unfold get_st. rewrite decide_True by (by rewrite Hf).
  by apply write_settings_run.
Qed.
Lemma SafeWriteConfig_run src path v fs : os_OpenFile path = Ok () → fs !! path = None →
  SafeWriteConfig src path v fs = (Ok (), <[path := yaml_Marshal (AllSettings src v)]> fs).
Proof.
  intros Ho Hf. unfold SafeWriteConfig. rewrite GM_run. unfold get_st. rewrite decide_False by (rewrite Hf; by intros []).
  by apply write_settings_run.
Qed.
Definition config_file (src : Sources) : string := data_dir src +:+ "/dvote.yml".
Lemma load_file_first src v fs : fs !! config_file src = None → os_OpenFile (config_file src) = Ok () →
  ∃ err, load_file src (data_dir src) v fs = (Ok (v, err), <[config_file src := yaml_Marshal (AllSettings src v)]> fs).
Proof.
  intros Hf Ho. eexists. unfold load_file. rewrite GM_run. unfold get_st. fold (config_file src). rewrite Hf.
  rewrite GM_run. unfold try_. by rewrite SafeWriteConfig_run.
Qed.
Lemma save_config_run src v c err fs m : os_OpenFile (config_file src) = Ok () → fs !! config_file src = Some m →
  save_config src (data_dir src) v c err fs =
    (Ok (Some c, err), if dc_SaveConfig c then
       <[config_file src := yaml_Marshal (AllSettings src (viper_Set "saveConfig" (VBool false) v))]> fs else fs).
Proof.
  intros Ho Hf. unfold save_config. destruct (dc_SaveConfig c); [|done].
  rewrite GM_run. unfold try_. fold (config_file src). by rewrite (WriteConfig_run _ _ _ _ _ Ho Hf).
Qed.
Lemma first_run src fs priv : fs !! config_file src = None → os_OpenFile (config_file src) = Ok () → signer_Generate = Ok priv →
  ∃ c w err, read_config src fs = (Ok (Some c, err), <[config_file src := yaml_Marshal (AllSettings src w)]> fs) ∧
    saved src (bound_viper src) c w.
Proof.
  intros Hf Ho Hg. destruct (load_file_first src (bound_viper src) fs Hf Ho) as [err Hl].
  unfold read_config. rewrite GM_run, Hl. pose proof keys_differ as Hd. pose proof (bound_viper_config src) as Hc.
  generalize dependent (bound_viper src). intros v Hl Hc. set (c := config_of src v).
  case_decide as Hk.
  - rewrite Hg. erewrite save_config_run by (done || by apply lookup_insert_eq). rewrite insert_insert_eq.
    do 3 eexists. split; [reflexivity|]. split; [by rewrite !viper_Set_bound|by rewrite !viper_Set_config|..].
    + intros k H1 H2. cbn [v_set viper_Set]. by rewrite !lookup_insert_ne.
    + left. cbn [v_set viper_Set]. rewrite lookup_insert_ne by done. by rewrite lookup_insert_eq.
    + left. apply lookup_insert_eq.
    + change (32 ≤ slen priv). rewrite (law_Generate _ Hg). lia.
    + done.
  - erewrite save_config_run by (done || by apply lookup_insert_eq). fold (signing_of c) in Hk.
    destruct (dc_SaveConfig c) eqn:Hs.
    + rewrite insert_insert_eq. do 3 eexists. split; [reflexivity|]. split; [by rewrite !viper_Set_bound|by rewrite !viper_Set_config|..].
      * intros k H1 H2. cbn [v_set viper_Set]. by rewrite !lookup_insert_ne.
      * right. split; [|done]. cbn [v_set viper_Set]. by rewrite lookup_insert_ne.
      * left. apply lookup_insert_eq.
      * lia.
      * by rewrite set_own_key.
    + do 3 eexists. split; [reflexivity|]. split; [done|done|done|by right|by right|lia|by rewrite set_own_key].
Qed.

(** ** The second run *)
Lemma signing_bound src : v_bound (bound_viper src) !! signing_key = Some "ethSigningKey".
Proof. rewrite bound_all. by vm_compute. Qed.
Lemma save_bound src : v_bound (bound_viper src) !! save_key = Some "saveConfig".
Proof. rewrite bound_all. by vm_compute. Qed.
Lemma saved_not_set src : v_set (bound_viper src) !! signing_key = None ∧ v_set (bound_viper src) !! save_key = None.
Proof.
  assert (bool_decide (signing_key ∉ set_names ∧ save_key ∉ set_names) = true) as Hb by (by vm_compute).
  apply bool_decide_eq_true in Hb as [??]. split; by apply bound_viper_set.
Qed.
Section second.
Context (home : string) (given : gmap string value) (c : DvoteCfg) (w : Viper).
Abbreviation src1 := (sources home given ∅).
Abbreviation src2 := (sources home (again given) ∅).
Abbreviation first := (bound_viper src1).
Hypothesis w_saved : saved src1 first c w.
Definition second : Viper := mkViper (v_set first) (v_bound first) (AllSettings src1 w).
Lemma second_same k : v_set w !! k = v_set first !! k → viper_Get src2 second k = viper_Get src1 first k.
Proof.
  apply (seen_same _ given first w (bound_viper_config src1)); [by eapply saved_config|by eapply saved_bound].
Qed.
Lemma second_saved k f x : v_set w !! k = Some x → v_set first !! k = None → v_bound first !! k = Some f →
  f ∉ first_flags → viper_Get src2 second k = Some x.
Proof. apply (seen_saved _ given first w). Qed.
Lemma second_key : field_or src2 decode_string second "ethConfig.SigningKey" "" = signing_of c.
Proof.
  unfold field_or, get. change (lower "ethConfig.SigningKey") with signing_key.
  destruct (saved_signing _ _ _ _ w_saved) as [Hs|[Hs ->]].
  - rewrite (second_saved _ _ _ Hs (proj1 (saved_not_set _)) (signing_bound _)) by (unfold first_flags; set_solver).
    cbn. by rewrite law_decode_string.
  - by rewrite (second_same _ Hs).
Qed.
Lemma second_save : field_or src2 decode_bool second "SaveConfig" false = false.
Proof.
  unfold field_or, get. change (lower "SaveConfig") with save_key.
  destruct (saved_save _ _ _ _ w_saved) as [Hs|[Hs Hk]].
  - rewrite (second_saved _ _ _ Hs (proj2 (saved_not_set _)) (save_bound _)) by (unfold first_flags; set_solver).
    cbn. by rewrite law_decode_bool.
  - by rewrite (second_same _ Hs).
Qed.
Lemma second_config : config_of src2 second = set_SaveConfig false c.
Proof.
  assert (same_but src2 second src1 first) as Hext.
  { intros k H1 H2. apply second_same. by apply (saved_other _ _ _ _ w_saved). }
  unfold config_of. rewrite data_dir_again, dev_again, GetString_again by (unfold first_flags; set_solver).
  rewrite (Unmarshal_ext _ _ _ _ _ Hext). cbn [base_config dc_SaveConfig dc_EthConfig ec_SigningKey].
  rewrite second_key, second_save, (saved_rest _ _ _ _ w_saved). done.
Qed.
Lemma second_run fs : fs !! config_file src1 = Some (yaml_Marshal (AllSettings src1 w)) →
  ∃ err, read_config src2 fs = (Ok (Some (set_SaveConfig false c), err), fs).
Proof.
  intros Hf. unfold read_config. rewrite data_dir_again, bound_viper_again, GM_run.
  unfold load_file. rewrite GM_run. unfold get_st. fold (config_file src1). rewrite Hf, law_yaml. cbn [mret GM_ret].
  fold second. rewrite second_config. pose proof (saved_key _ _ _ _ w_saved).
  rewrite decide_False by (unfold signing_of in *; cbn; lia). by eexists.
Qed.
End second.


(** ** Precedence *)

(** The settings that the configuration is decoded from: a flag that was given
    has its value in them whatever the file and the environment hold. *)
Lemma given_flag_wins src fs v err fs' k f x :
  load_file src (data_dir src) (bound_viper src) fs = (Ok (v, err), fs') → (k, f) ∈ binds → sr_given src !! f = Some x →
  get src v k = Some (pflag_value x).
Proof.
  intros [Hs Hb]%load_file_layers Hin Hx. unfold get. rewrite law_Get. unfold precedence.
  rewrite Hs, bound_viper_set by (by eapply bound_keys_not_set).
  rewrite Hb, bound_all, (bind_all_bound _ _ _ f) by (done || apply (flags_bound "")). cbn. by rewrite Hx.
Qed.
Lemma set_keys_dirs dir dev v : let l := v_set (set_keys dir dev v) in
  l !! lower "vochainConfig.DataDir" = Some (VString (dir +:+ "/vochain")) ∧
  l !! lower "ethConfig.DataDir" = Some (VString (dir +:+ "/ethereum")) ∧
  l !! lower "ipfs.ConfigPath" = Some (VString (dir +:+ "/ipfs")).
Proof.
  unfold set_keys, viper_Set. cbn [v_set]. change (lower "ethConfig.DataDir") with (lower "ethConfig.Datadir").
  split_and!; rewrite ?(lookup_insert_ne _ (lower "vochainConfig.Dev")) by (by vm_compute);
    rewrite ?(lookup_insert_ne _ (lower "vochainConfig.DataDir")) by (by vm_compute);
    rewrite ?(lookup_insert_ne _ (lower "ipfs.ConfigPath")) by (by vm_compute); apply lookup_insert_eq.
Qed.
(** The directories of the services are below that of the chain, whatever the
    file says. *)
Lemma service_dirs src fs v err fs' : load_file src (data_dir src) (bound_viper src) fs = (Ok (v, err), fs') →
  vc_DataDir (dc_VochainConfig (config_of src v)) = data_dir src +:+ "/vochain" ∧
  ec_DataDir (dc_EthConfig (config_of src v)) = data_dir src +:+ "/ethereum" ∧
  ip_ConfigPath (dc_Ipfs (config_of src v)) = data_dir src +:+ "/ipfs".
Proof.
  intros [Hs _]%load_file_layers. unfold config_of, Unmarshal. cbn [dc_VochainConfig dc_EthConfig dc_Ipfs].
  unfold decode_VochainCfg, decode_EthCfg, decode_IPFSCfg. cbn [vc_DataDir ec_DataDir ip_ConfigPath].
  unfold field_or, get. rewrite !law_Get. unfold precedence. rewrite Hs.
  destruct (set_keys_dirs (data_dir src) (GetBool src first_viper "dev") (bind_all bind_table first_viper)) as (E1 & E2 & E3).
  unfold bound_viper. rewrite E1, E2, E3. cbn [mbind option_bind]. by rewrite !law_decode_string.
Qed.
End facts.

(** ** A library with these laws

    Settings are written as the number they are counted by. *)
#[local] Instance value_eq_dec : EqDecision value.
Proof. solve_decision. Defined.
#[local] Program Instance value_countable : Countable value :=
  inj_countable'
    (λ x, match x with VString s => inl (inl s) | VBool b => inl (inr b) | VInt z => inr (inl z) | VStrings l => inr (inr l) end)
    (λ y, match y with inl (inl s) => VString s | inl (inr b) => VBool b | inr (inl z) => VInt z | inr (inr l) => VStrings l end) _.
Next Obligation. by intros []. Qed.
Definition units {A} (m : gmap string A) : gmap string () := (λ _, ()) <$> m.
Definition all_settings (src : Sources) (v : Viper) : gmap string value :=
  map_imap (λ k _, precedence id src v k) (units (v_set v) ∪ units (v_bound v) ∪ units (v_config v)).
Definition plain_viper : ViperLib := {|
  viper_Get := precedence id;
  AllSettings := all_settings;
  pflag_value := id;
  cast_ToString x := match x with VString s => s | _ => "" end;
  cast_ToBool x := match x with VBool b => b | _ => false end;
  decode_string x := match x with VString s => Some s | _ => None end;
  decode_bool x := match x with VBool b => Some b | _ => None end;
  decode_int _ x := match x with VInt z => Some z | _ => None end;
  decode_strings x := match x with VStrings l => Some l | _ => None end;
  yaml_Marshal := enc;
  yaml_Unmarshal := dec;
  UserHomeDir := Ok "/root";
  os_MkdirAll _ := Ok ();
  os_OpenFile _ := Ok ();
  signer_Generate := Ok (b2s (replicate 64 Byte.x61)) |}.
#[local] Existing Instance plain_viper.
#[local] Instance plain_laws : ViperLaws.
Proof.
  split; try done.
  - intros src v k. cbn. unfold all_settings, known_key, units. rewrite map_lookup_imap, !lookup_union, !lookup_fmap.
    by destruct (v_set v !! k), (v_bound v !! k), (v_config v !! k).
  - intros m. apply dec_enc.
  - by intros priv [= <-].
Qed.
(** The first run of a node of the chain [dev], in developer mode. *)
Definition dev_flags : gmap string value :=
  <["vochain" := VString "dev"]> (<["dev" := VBool true]> (<["mode" := VString "oracle"]> ∅)).

(** Two settings are taken before the file is read.  A second run without the
    flag [dev] reads the developer mode from the file, but the chain does not get
    it; and the directory of the configuration is that without the chain. *)
Definition outcome (r : res (option DvoteCfg * Error)) : option (bool * bool * string * string) :=
  match r with
  | Ok (Some c, _) => Some (dc_Dev c, vc_Dev (dc_VochainConfig c), dc_DataDir c, vc_DataDir (dc_VochainConfig c))
  | _ => None
  end.
Lemma settings_before_file :
  let '(r1, fs) := newConfig dev_flags ∅ ∅ in
  outcome r1 = Some (true, true, "/root/.dvote", "/root/.dvote/dev/vochain") ∧
  outcome (newConfig {[ "vochain" := VString "dev" ]} ∅ fs).1 = Some (true, false, "/root/.dvote", "/root/.dvote/dev/vochain").
Proof. vm_compute. by split. Qed.
