(* ===== verification/NodeMain.v ===== *)
(** * A node from its configuration: [main] of [cmd/dvotenode/dvotenode.go],
      [service/proxy.go], [service/storage.go], [service/ethevents.go], [service/api.go]

    Which services a mode starts, in which order and on what.  The Ethereum node,
    the proxy, the transports and the router are those of EthNode.v, Net.v and
    Router.v; the file system, the servers and the services that are only asked
    to start are a parameter ([NodeEnv]).  A nil pointer is [None]; the end of
    the process ([log.Fatal]) is a panic. *)

From stdpp Require Import base gmap strings list.
From Stdlib Require Import ZArith Lia.
From S2P Require Import Prelude GoLib Types StateDB Crypto Codec State Transaction App Keys Database.
From S2P Require Import Scrutinizer Graviton Trie Api Census VochainInfo Node Router Startup Ens Net EthNode Config.
Open Scope Z_scope.

(** The services that are started: whether they came up, and what they return. *)
Class NodeEnv (W DB L : Type) `{CryptoLib} `{!Graviton} := {
  (** [Proxy.Init]: the listener and, with a domain, the certificate. *)
  proxy_Init : string → Z → string → GM W ();
  (** The IPFS node of a directory; its synchronisation by key and peers. *)
  data_Init : string → GM W ();
  ipfssync_Start : string → string → list string → GM W ();
  (** [service.Census] on a directory. *)
  census_Init : string → GM W Manager;
  (** [service.Vochain]: with the scrutinizer or not, waiting for the
      synchronisation or not, with metrics or not, with a census manager or not. *)
  service_Vochain : VochainCfg → bool → bool → bool → bool → GM W (Node DB L * VochainInfo);
  NewKeyKeeper : string → ethereum.SignKeys → Z → GM W ();
  (** [NewEthEvents] on a contract and an endpoint, and the subscription from a
      block on. *)
  NewEthEvents : string → string → GM W ();
  SubscribeEthereumEventLogs : option Z → GM W () }.

Section main.
Context {W DB L : Type} `{StateDB DB} `{AminoLib} `{CryptoLib} `{TxJSON} `{!EventListener DB L}.
Context `{ScrutinizerCodec} `{!Graviton} `{CensusEnv} `{RouterEnv} `{AddressText} `{Mempool}.
Context `{!EcdsaKeys} `{!EnsLib W} `{!EthLib W} `{!NodeEnv W DB L}.
(** What a router holds where [vocapp] is nil. *)
Variable nil_app : Node DB L.
Abbreviation MW := (GM W).
Abbreviation Router := (Router (DB := DB) (L := L)).

(** ** Services *)
Definition Proxy_service (host : string) (port : Z) (tlsDomain : string) : MW Proxy :=
  _ ← proxy_Init host port tlsDomain;
  mret (HandleFunc "/ping" (only_http fn_ping) (mkProxy host port tlsDomain ∅)).
(** [metrics.NewAgent]. *)
Definition NewAgent (path : string) : Proxy → Proxy := AddHandler path fn_metrics.
(** Whether there is a storage. *)
Definition IPFS (c : IPFSCfg) : MW bool :=
  if ip_NoInit c then mret false
  else
    _ ← data_Init (ip_ConfigPath c);
    _ ← (if decide (ip_SyncKey c = "") then mret ()
         else ipfssync_Start (ip_ConfigPath c +:+ "/.ipfsSync") (ip_SyncKey c)
                (match ip_SyncPeers c with p :: _ => if decide (8 < slen p) then ip_SyncPeers c else [] | [] => [] end));
    mret true.
Definition EthEvents (ethProcDomain w3uri networkName : string) (startBlock : option Z) : MW () :=
  specs ← lift (SpecsFor networkName);
  contractAddr ← ens.EnsResolve (sp_ENSregistryAddr specs) ethProcDomain w3uri;
  _ ← NewEthEvents contractAddr w3uri;
  SubscribeEthereumEventLogs startBlock.

(** The transport that the configuration asks for. *)
Definition api_transport (c : API) : res Transport :=
  if ap_Websockets c && ap_HTTP c then Ok (HttpWsHandler (ap_WebsocketsReadLimit c))
  else if ap_Websockets c then Ok (WebsocketHandle (ap_WebsocketsReadLimit c))
  else if ap_HTTP c then Ok HttpHandler
  else Err "no transports available. At least one of HTTP and WS should be enabled".
Definition nil {A} (o : option A) : res A := match o with Some a => Ok a | None => Panic "nil pointer dereference" end.
(** A call on the router that was made. *)
Definition enable (on : bool) (m : GM Router ()) (r : Router) : res Router :=
  if on then match m r with (Ok _, r') => Ok r' | (Err e, _) => Err e | (Panic w, _) => Panic w end else Ok r.
(** The census manager and the chain are dereferenced by the calls that need
    them. *)
Definition service_API (c : API) (pxy : option Proxy) (storage : bool) (cm : option Manager)
    (vochain : option (Node DB L * VochainInfo)) (sc : bool) (signer : ethereum.SignKeys) : res (Proxy * Router) :=
  htransport ← api_transport c;
  p ← nil pxy;
  let p := AddNamespace (transport_Init htransport) (ap_Route c +:+ "dvote") p in
  r ← NewRouter signer (ap_AllowPrivate c) nil_app;
  r ← enable (ap_File c) EnableFileAPI r;
  r ← (if ap_Census c then m ← nil cm; enable true (EnableCensusAPI storage m) r else Ok r);
  r ← (if ap_Vote c then v ← nil vochain; enable true (EnableVoteAPI v.1 v.2 sc) r else Ok r);
  Ok (p, r).

(** ** [main] *)
Record DvoteNode := mkDvoteNode {
  dn_signer : option ethereum.SignKeys;
  dn_pxy : option Proxy;
  dn_metrics : bool;
  dn_storage : bool;
  dn_cm : option Manager;
  dn_eth : option EthChainContext;
  dn_vochain : option (Node DB L * VochainInfo);
  dn_scrutinizer : bool;
  dn_keykeeper : bool;
  (** The endpoint of the Ethereum events. *)
  dn_events : option string;
  dn_api : option Router }.
Definition mode_in (c : DvoteCfg) (l : list string) : bool := bool_decide (dc_Mode c ∈ l).
Definition is_gateway (c : DvoteCfg) : bool := mode_in c ["gateway"].
Definition is_oracle (c : DvoteCfg) : bool := mode_in c ["oracle"].

Definition allowed_addrs (c : API) : list bytes :=
  if ap_AllowPrivate c && negb (bool_decide (ap_AllowedAddrs c = ""))
  then map (λ a, HexToAddress (b2s a)) (split_on Byte.x2c (s2b (ap_AllowedAddrs c))) else [].
Definition start_signer (c : DvoteCfg) : MW (option ethereum.SignKeys) :=
  if mode_in c ["gateway"; "oracle"; "web3"] then
    let signer := foldl (λ k a, ethereum.AddAuthKey a k) ethereum.NewSignKeys (allowed_addrs (dc_API c)) in
    let key := ec_SigningKey (dc_EthConfig c) in
    if decide (slen key ≠ 32) then signer ← fatally (lift (ethkeys.AddHexKey key signer)); mret (Some signer)
    else Fatal "no private key or wrong key (size != 16 bytes)"
  else mret None.
Definition wants_proxy (c : DvoteCfg) : bool :=
  mode_in c ["gateway"; "web3"] || mt_Enabled (dc_Metrics c) ||
  is_oracle c && negb (bool_decide (w3_W3External (dc_W3Config c) = "")).
Definition start_proxy (c : DvoteCfg) : MW (option Proxy) :=
  if wants_proxy c then
    let a := dc_API c in
    pxy ← fatally (Proxy_service (ap_ListenHost a) (ap_ListenPort a) (ap_SslDomain a));
    mret (Some (if mt_Enabled (dc_Metrics c) then NewAgent "/metrics" pxy else pxy))
  else mret None.
Definition with_remote (storage : bool) (m : Manager) : Manager :=
  mkManager (m_StorageDir m) (m_AuthWindow m) (m_Census m) (m_Trees m) storage (m_importQueue m) (m_queueSize m)
    (m_failedQueue m) (m_disk m) (m_config m).
Definition start_storage (c : DvoteCfg) : MW (bool * option Manager) :=
  if is_gateway c then
    storage ← fatally (IPFS (dc_Ipfs c));
    if ap_Census (dc_API c) then
      cm ← fatally (census_Init (dc_DataDir c +:+ "/census"));
      mret (storage, Some (with_remote storage cm))
    else mret (storage, None)
  else mret (false, None).
Definition wants_ethereum (c : DvoteCfg) : bool :=
  is_gateway c && w3_Enabled (dc_W3Config c) || mode_in c ["oracle"; "web3"].
Definition start_ethereum (fuel : nat) (c : DvoteCfg) (pxy : option Proxy) : MW (option EthChainContext * option Proxy) :=
  if wants_ethereum c then
    '(node, pxy) ← fatally (Ethereum fuel (dc_EthConfig c) (dc_W3Config c) pxy (ec_SigningKey (dc_EthConfig c)));
    mret (Some node, pxy)
  else mret (None, pxy).
Definition wants_vochain (c : DvoteCfg) : bool :=
  is_gateway c && ap_Vote (dc_API c) || mode_in c ["miner"; "oracle"].
(** The route to Tendermint, when its port can be told. *)
Definition tendermint_route (c : DvoteCfg) (pxy : option Proxy) : res (option Proxy) :=
  if is_gateway c && ap_Tendermint (dc_API c) then
    match split_on Byte.x3a (s2b (vc_RPCListen (dc_VochainConfig c))) with
    | [_; port] =>
        p ← nil pxy;
        Ok (Some (AddWsHandler "/tendermint"
                    (ws_ws_bridge ("ws://127.0.0.1:" +:+ b2s port +:+ "/websocket") VochainWsReadLimit) VochainWsReadLimit p))
    | _ => Ok pxy
    end
  else Ok pxy.
Definition start_vochain (c : DvoteCfg) (cm : option Manager) (pxy : option Proxy) :
    MW (option (Node DB L * VochainInfo) * option Proxy) :=
  let a := dc_API c in
  if negb (ap_Vote a) && ap_Census a then Fatal "census API needs the vote API enabled"
  else if wants_vochain c then
    v ← fatally (service_Vochain (dc_VochainConfig c) (is_gateway c && ap_Results a)
                   (negb (vc_NoWaitSync (dc_VochainConfig c))) (mt_Enabled (dc_Metrics c)) (bool_decide (is_Some cm)));
    pxy ← lift (tendermint_route c pxy);
    mret (Some v, pxy)
  else mret (None, pxy).
Definition wants_keykeeper (c : DvoteCfg) : bool :=
  is_oracle c && bool_decide (0 < vc_KeyKeeperIndex (dc_VochainConfig c)).
Definition start_keykeeper (c : DvoteCfg) (signer : option ethereum.SignKeys) : MW bool :=
  if wants_keykeeper c then
    s ← lift (nil signer);
    _ ← fatally (NewKeyKeeper (vc_DataDir (dc_VochainConfig c) +:+ "/keykeeper") s (vc_KeyKeeperIndex (dc_VochainConfig c)));
    mret true
  else mret false.

(** The loop until the node is synchronised: [fuel] rounds are followed. *)
Definition eth_ready (requiredPeers : Z) (r : res EthSyncInfo) : bool :=
  match r with
  | Ok si => si_Synced si && bool_decide (requiredPeers ≤ si_Peers si) && bool_decide (0 < si_Height si)
  | _ => false
  end.
Fixpoint wait_ethereum (fuel : nat) (requiredPeers : Z) (node : EthChainContext) : MW () :=
  match fuel with
  | O => Fatal "still waiting"
  | S n => r ← try_ (SyncInfo node); if eth_ready requiredPeers r then mret () else wait_ethereum n requiredPeers node
  end.
(** [net.JoinHostPort]: a host with a colon is put in brackets. *)
Definition JoinHostPort (host port : string) : string :=
  (if decide (Byte.x3a ∈ s2b host) then "[" +:+ host +:+ "]" else host) +:+ ":" +:+ port.
Definition events_uri (c : W3Cfg) : res string :=
  if decide (w3_W3External c = "") then Ok ("ws://" +:+ JoinHostPort (w3_RPCHost c) (sprintf_d (w3_RPCPort c)))
  else if HasPrefix (w3_W3External c) "ws" || HasSuffix (w3_W3External c) "ipc" then Ok (w3_W3External c)
  else Panic "web3 external must be websocket or IPC for event subscription".
Definition init_block (c : DvoteCfg) : option Z :=
  if ee_SubscribeOnly (dc_EthEventConfig c) then None
  else Some (match SpecsFor (ec_ChainType (dc_EthConfig c)) with Ok sp => sp_StartingBlock sp | _ => 0 end).
Definition start_events (fuel : nat) (c : DvoteCfg) (node : option EthChainContext) : MW (option string) :=
  if (is_gateway c && w3_Enabled (dc_W3Config c) || is_oracle c) && negb (ec_NoWaitSync (dc_EthConfig c)) then
    let requiredPeers := if decide (w3_W3External (dc_W3Config c) = "") then 2 else 1 in
    e ← lift (nil node);
    _ ← wait_ethereum fuel requiredPeers e;
    if is_oracle c then
      w3uri ← lift (events_uri (dc_W3Config c));
      _ ← fatally (EthEvents (ec_ProcessDomain (dc_EthConfig c)) w3uri (ec_ChainType (dc_EthConfig c)) (init_block c));
      mret (Some w3uri)
    else mret None
  else mret None.
Definition wants_api (c : DvoteCfg) : bool :=
  is_gateway c && (ap_File (dc_API c) || ap_Census (dc_API c) || ap_Vote (dc_API c)).
Definition main (fuel : nat) (c : DvoteCfg) : MW DvoteNode :=
  if negb (ValidMode c) then Fatal "mode is invalid"
  else
    signer ← start_signer c;
    pxy ← start_proxy c;
    '(storage, cm) ← start_storage c;
    '(eth, pxy) ← start_ethereum fuel c pxy;
    '(vochain, pxy) ← start_vochain c cm pxy;
    kk ← start_keykeeper c signer;
    events ← start_events fuel c eth;
    let sc := wants_vochain c && is_gateway c && ap_Results (dc_API c) in
    if wants_api c then
      s ← lift (nil signer);
      '(p, r) ← fatally (lift (service_API (dc_API c) pxy storage cm vochain sc s));
      mret (mkDvoteNode signer (Some p) (mt_Enabled (dc_Metrics c)) storage cm eth vochain sc kk events (Some r))
    else mret (mkDvoteNode signer pxy (mt_Enabled (dc_Metrics c)) storage cm eth vochain sc kk events None).
End main.
