(* ===== verification/NodeMainFacts.v ===== *)
(** * A node from its configuration: what comes up

    When the services it asks for come up, a node of any mode comes up with
    exactly the services of its mode, none of which is given a nil pointer it
    dereferences, and its API offers exactly the methods of the interfaces that
    are switched on. *)

From stdpp Require Import base gmap strings list.
From Stdlib Require Import ZArith Lia.
From S2P Require Import Prelude GoLib Types StateDB Crypto Codec State Transaction App Keys Database.
From S2P Require Import Scrutinizer Graviton Trie Api Census VochainInfo Node Router Startup Ens Net EthNode Config NodeMain.
From S2P Require Import IavlState Concrete Safety Results CensusConcrete RouterFacts SubPubFacts EthNodeFacts NetFacts.
Open Scope Z_scope.

(** ** The methods of the interfaces *)
Definition public (h : Callback) : registeredMethod := mkRegisteredMethod true h.
Definition private (h : Callback) : registeredMethod := mkRegisteredMethod false h.
Definition file_methods : list (string * registeredMethod) :=
  [("fetchFile", public cb_fetchFile); ("addFile", private cb_addFile); ("pinList", private cb_pinList);
   ("pinFile", private cb_pinFile); ("unpinFile", private cb_unpinFile)].
Definition census_api_methods : list (string * registeredMethod) :=
  [("getRoot", public cb_censusLocal); ("dump", private cb_censusLocal); ("dumpPlain", private cb_censusLocal);
   ("getSize", public cb_censusLocal); ("genProof", public cb_censusLocal); ("checkProof", public cb_censusLocal);
   ("addCensus", private cb_censusLocal); ("addClaim", private cb_censusLocal); ("addClaimBulk", private cb_censusLocal);
   ("publish", private cb_censusLocal); ("importRemote", private cb_censusLocal); ("getCensusList", private cb_censusLocal)].
Definition vote_methods : list (string * registeredMethod) :=
  [("submitRawTx", private cb_submitRawTx); ("submitEnvelope", public cb_submitEnvelope);
   ("getEnvelopeStatus", public cb_getEnvelopeStatus); ("getEnvelope", public cb_getEnvelope);
   ("getEnvelopeHeight", public cb_getEnvelopeHeight); ("getProcessList", public cb_getProcessList);
   ("getEnvelopeList", public cb_getEnvelopeList); ("getBlockHeight", public cb_getBlockHeight);
   ("getProcessKeys", public cb_getProcessKeys); ("getBlockStatus", public cb_getBlockStatus);
   ("getProcessCount", public cb_getProcessCount)].
Definition result_methods : list (string * registeredMethod) :=
  [("getResults", public cb_getResults); ("getProcListResults", public cb_getProcListResults);
   ("getProcListLiveResults", public cb_getProcListLiveResults);
   ("getScrutinizerEntities", public cb_getScrutinizerEntities);
   ("getScrutinizerEntityCount", public cb_getScrutinizerEntityCount)].
Definition info_methods : list (string * registeredMethod) := [("getGatewayInfo", public cb_info)].
Definition when {A} (b : bool) (l : list A) : list A := if b then l else [].
(** What the API of a configuration offers, with a scrutinizer or without. *)
Definition api_methods (c : API) (sc : bool) : list (string * registeredMethod) :=
  when (ap_Vote c) (when sc result_methods ++ vote_methods) ++ when (ap_Census c) census_api_methods ++
  when (ap_File c) file_methods ++ info_methods.
Lemma api_methods_nodup c sc : NoDup (api_methods c sc).*1.
Proof.
  unfold api_methods. apply (proj1 (bool_decide_eq_true _)).
  destruct (ap_Vote c), (ap_Census c), (ap_File c), sc; by vm_compute.
Qed.

Section router.
Context {DB L : Type} `{StateDB DB} `{AminoLib} `{CryptoLib} `{TxJSON} `{!EventListener DB L}.
Context `{ScrutinizerCodec} `{!Graviton} `{CensusEnv} `{RouterEnv} `{AddressText} `{Mempool}.
Abbreviation Router := (Router (DB := DB) (L := L)).
Implicit Types r : Router.

(** Registrations one after the other, then the rest of the call. *)
Fixpoint register_then (l : list (string * registeredMethod)) (k : GM Router ()) : GM Router () :=
  match l with [] => k | (name, m) :: l' => register name m ≫= λ _, register_then l' k end.
Definition adds (l : list (string * registeredMethod)) r r' : Prop :=
  ∀ n, r_methods r' !! n = (list_to_map l ∪ r_methods r) !! n.
Lemma register_then_run l k r : NoDup l.*1 → (∀ n, n ∈ l.*1 → r_methods r !! n = None) →
  ∃ r', register_then l k r = k r' ∧ adds l r r'.
Proof.
  revert r. induction l as [|[name m] l IH]; intros r Hd Hf.
  - exists r. split; [done|]. intros n. by rewrite left_id_L by apply _.
  - cbn in Hd. apply NoDup_cons in Hd as [Hn Hd].
    destruct (IH (set_r_methods (<[name := m]> (r_methods r)) r)) as (r' & Hr & Hm); [done| |].
    { intros n Hin. cbn [r_methods set_r_methods]. rewrite lookup_insert_ne by (intros ->; done).
      apply Hf. cbn. by apply elem_of_cons; right. }
    exists r'. split.
    + cbn [register_then]. rewrite GM_run. unfold register. rewrite GM_run. unfold get_st.
      rewrite decide_False; [exact Hr|]. cbn. rewrite Hf by (cbn; by apply elem_of_cons; left). by intros [].
    + intros n. rewrite Hm. cbn [r_methods set_r_methods list_to_map foldr uncurry fst snd].
      rewrite !lookup_union. destruct (decide (n = name)) as [->|Hne].
      * rewrite !lookup_insert_eq, not_elem_of_list_to_map_1 by done. by destruct (r_methods r !! name).
      * by rewrite !lookup_insert_ne by done.
Qed.
Lemma register_last name m r : (register name m ≫= λ _, mret ()) r = register name m r.
Proof. rewrite GM_run. by destruct (register name m r) as [[[]| |]]. Qed.
Lemma register_next (k k' : GM Router ()) name m r : (∀ r', k r' = k' r') →
  (register name m ≫= λ _, k) r = (register name m ≫= λ _, k') r.
Proof. intros Hk. rewrite !GM_run. destruct (register name m r) as [[[]| |]]; [apply Hk|done..]. Qed.
Ltac registrations :=
  unfold registerPublic, registerPrivate; cbn [register_then];
  repeat first [apply register_next; intros ? | symmetry; apply register_last].
Lemma EnableFileAPI_all r : EnableFileAPI r = register_then file_methods (mret ()) (set_r_APIs (r_APIs r ++ ["file"]) r).
Proof. unfold EnableFileAPI. rewrite GM_run. unfold modify, file_methods. registrations. Qed.
Lemma EnableCensusAPI_all storage cm r :
  EnableCensusAPI storage cm r =
    register_then census_api_methods (mret ()) (set_r_census (with_storage storage cm) (set_r_APIs (r_APIs r ++ ["census"]) r)).
Proof. unfold EnableCensusAPI. rewrite GM_run. unfold modify. rewrite GM_run. unfold census_api_methods. registrations. Qed.
Lemma EnableVoteAPI_all s vi (sc : bool) r :
  EnableVoteAPI s vi sc r =
    register_then vote_methods
      (if sc then modify (λ r, set_r_APIs (r_APIs r ++ ["results"]) r) ≫= λ _, register_then result_methods (mret ()) else mret ())
      (set_r_vocinfo vi (set_r_vocapp s (set_r_APIs (r_APIs r ++ ["vote"]) r))).
Proof.
  unfold EnableVoteAPI. rewrite GM_run. unfold modify at 1, vote_methods. registrations.
  destruct sc; [|done]. rewrite !GM_run. unfold modify, result_methods. registrations.
Qed.
(** What a call that enables an interface adds. *)
Definition fresh (l : list (string * registeredMethod)) r : Prop := ∀ n, n ∈ l.*1 → r_methods r !! n = None.
Lemma register_adds l r0 r : bool_decide (NoDup l.*1) = true → r_methods r0 = r_methods r → fresh l r →
  ∃ r', register_then l (mret ()) r0 = (Ok (), r') ∧ adds l r r'.
Proof.
  intros Hd%bool_decide_eq_true Hm Hf. unfold fresh in Hf. unfold adds. rewrite <- Hm in *.
  by apply register_then_run.
Qed.
Lemma EnableFileAPI_adds r : fresh file_methods r → ∃ r', EnableFileAPI r = (Ok (), r') ∧ adds file_methods r r'.
Proof. rewrite EnableFileAPI_all. by apply register_adds; [vm_compute|]. Qed.
Lemma EnableCensusAPI_adds storage cm r : fresh census_api_methods r →
  ∃ r', EnableCensusAPI storage cm r = (Ok (), r') ∧ adds census_api_methods r r'.
Proof. rewrite EnableCensusAPI_all. by apply register_adds; [vm_compute|]. Qed.
Lemma adds_fresh l l' r r' : adds l r r' → fresh l' r → (∀ n, n ∈ l'.*1 → n ∉ l.*1) → fresh l' r'.
Proof.
  intros Ha Hf Hd n Hn. rewrite Ha, lookup_union, Hf, not_elem_of_list_to_map_1 by auto. done.
Qed.
Lemma adds_trans l1 l2 r r1 r2 : adds l1 r r1 → adds l2 r1 r2 → adds (l2 ++ l1) r r2.
Proof. intros Ha Hb n. by rewrite Hb, list_to_map_app, <- (assoc_L _), lookup_union, Ha, <- lookup_union. Qed.
Lemma EnableVoteAPI_adds s vi sc r : fresh (when sc result_methods ++ vote_methods) r →
  ∃ r', EnableVoteAPI s vi sc r = (Ok (), r') ∧ adds (when sc result_methods ++ vote_methods) r r'.
Proof.
  intros Hf. rewrite EnableVoteAPI_all.
  destruct (register_then_run vote_methods
    (if sc then modify (λ r, set_r_APIs (r_APIs r ++ ["results"]) r) ≫= λ _, register_then result_methods (mret ()) else mret ())
    (set_r_vocinfo vi (set_r_vocapp s (set_r_APIs (r_APIs r ++ ["vote"]) r)))) as (r1 & Hr & Ha).
  { apply (proj1 (bool_decide_eq_true _)). by vm_compute. }
  { intros n Hn. apply Hf. rewrite fmap_app. apply elem_of_app. by right. }
  rewrite Hr. destruct sc; [|by exists r1].
  rewrite GM_run. unfold modify.
  destruct (register_adds result_methods (set_r_APIs (r_APIs r1 ++ ["results"]) r1) r1) as (r2 & Hr2 & Ha2); [by vm_compute|done| |].
  { eapply (adds_fresh _ _ _ _ Ha).
    - intros n Hn. apply Hf. rewrite fmap_app. apply elem_of_app. by left.
    - apply (proj1 (list.Forall_forall _ _)), (proj1 (bool_decide_eq_true _)). by vm_compute. }
  exists r2. split; [exact Hr2|]. exact (adds_trans _ _ _ _ _ Ha Ha2).
Qed.

(** ** The API *)
Definition offers (l : list (string * registeredMethod)) r : Prop := ∀ n, r_methods r !! n = (list_to_map l : gmap _ _) !! n.
Lemma offers_adds l l' r r' : offers l r → adds l' r r' → offers (l' ++ l) r'.
Proof. intros Ho Ha n. by rewrite Ha, list_to_map_app, !lookup_union, Ho. Qed.
Lemma offers_fresh l l' r : offers l r → NoDup (l' ++ l).*1 → fresh l' r.
Proof.
  intros Ho Hd n Hn. rewrite Ho. apply not_elem_of_list_to_map_1. rewrite fmap_app in Hd.
  apply NoDup_app in Hd as (_ & Hd & _). auto.
Qed.
Lemma NewRouter_offers signer allow s : ∃ r, NewRouter signer allow s = Ok r ∧ offers info_methods r.
Proof. eexists. split; [reflexivity|]. intros n. reflexivity. Qed.
(** One interface: switched on, with what it needs, its call adds its methods. *)
Lemma enable_offers (on : bool) m l acc r : offers acc r → NoDup (when on l ++ acc).*1 →
  (fresh l r → ∃ r', m r = (Ok (), r') ∧ adds l r r') → ∃ r', enable on m r = Ok r' ∧ offers (when on l ++ acc) r'.
Proof.
  intros Ho Hd Hm. unfold enable. destruct on; [|by exists r].
  destruct (Hm (offers_fresh _ _ _ Ho Hd)) as (r' & -> & Ha). exists r'. split; [done|]. by eapply offers_adds.
Qed.
Lemma NoDup_tail {A} (f : A → string) l l' : NoDup (f <$> (l ++ l')) → NoDup (f <$> l').
Proof. rewrite fmap_app. by intros (_ & _ & Hd)%NoDup_app. Qed.
Lemma census_offers c storage cm acc r : offers acc r → NoDup (when (ap_Census c) census_api_methods ++ acc).*1 →
  (ap_Census c = true → is_Some cm) →
  ∃ r', (if ap_Census c then m ← nil cm; enable true (EnableCensusAPI storage m) r else Ok r) = Ok r' ∧
    offers (when (ap_Census c) census_api_methods ++ acc) r'.
Proof.
  intros Ho Hd Hs. destruct (ap_Census c); [|by exists r]. destruct (Hs eq_refl) as [m ->].
  apply (enable_offers true (EnableCensusAPI storage m) _ _ _ Ho Hd (EnableCensusAPI_adds storage m r)).
Qed.
Lemma vote_offers c v sc acc r : offers acc r → NoDup (when (ap_Vote c) (when sc result_methods ++ vote_methods) ++ acc).*1 →
  (ap_Vote c = true → is_Some v) →
  ∃ r', (if ap_Vote c then v ← nil v; enable true (EnableVoteAPI v.1 v.2 sc) r else Ok r) = Ok r' ∧
    offers (when (ap_Vote c) (when sc result_methods ++ vote_methods) ++ acc) r'.
Proof.
  intros Ho Hd Hs. destruct (ap_Vote c); [|by exists r]. destruct (Hs eq_refl) as [[s vi] ->].
  apply (enable_offers true (EnableVoteAPI s vi sc) _ _ _ Ho Hd (EnableVoteAPI_adds s vi sc r)).
Qed.
Lemma service_API_ok nil_app c p storage cm v sc signer : ap_Websockets c || ap_HTTP c = true →
  (ap_Census c = true → is_Some cm) → (ap_Vote c = true → is_Some v) →
  ∃ p' r, service_API nil_app c (Some p) storage cm v sc signer = Ok (p', r) ∧ offers (api_methods c sc) r ∧
    is_Some (px_Server p' !! (ap_Route c +:+ "dvote")).
Proof.
  intros Ht Hc Hv. assert (∃ t, api_transport c = Ok t) as [t Hapi].
  { unfold api_transport. destruct (ap_Websockets c), (ap_HTTP c); [by eexists..|done]. }
  pose proof (api_methods_nodup c sc) as Hd3. pose proof (NoDup_tail _ _ _ Hd3) as Hd2. pose proof (NoDup_tail _ _ _ Hd2) as Hd1.
  destruct (NewRouter_offers signer (ap_AllowPrivate c) nil_app) as (r0 & Hr0 & Ho0).
  destruct (enable_offers (ap_File c) EnableFileAPI _ _ _ Ho0 Hd1 (EnableFileAPI_adds r0)) as (r1 & Hr1 & Ho1).
  destruct (census_offers c storage cm _ _ Ho1 Hd2 Hc) as (r2 & Hr2 & Ho2).
  destruct (vote_offers c v sc _ _ Ho2 Hd3 Hv) as (r3 & Hr3 & Ho3).
  exists (AddNamespace (transport_Init t) (ap_Route c +:+ "dvote") p), r3. split_and!; [|done|].
  - unfold service_API. rewrite Hapi, Hr0. cbn [mbind res_bind nil]. rewrite Hr1. cbn [mbind res_bind].
    cbn [mbind res_bind] in Hr2, Hr3. rewrite Hr2. cbn [mbind res_bind]. by rewrite Hr3.
  - destruct t; cbn; rewrite lookup_insert_eq; by eexists.
Qed.
End router.

(** ** The stages of [main] *)
Section main.
Context {W DB L : Type} `{StateDB DB} `{AminoLib} `{CryptoLib} `{TxJSON} `{!EventListener DB L}.
Context `{ScrutinizerCodec} `{!Graviton} `{CensusEnv} `{RouterEnv} `{AddressText} `{Mempool}.
Context `{!EcdsaKeys} `{!EnsLib W} `{!EthLib W} `{!NodeEnv W DB L}.
Implicit Types (c : DvoteCfg) (w : W).

Definition has {A} (o : option A) : bool := match o with Some _ => true | None => false end.
Definition required_peers c : Z := if decide (w3_W3External (dc_W3Config c) = "") then 2 else 1.
(** Every service that is asked to start does. *)
Record all_start (fuel : nat) c : Prop := {
  up_proxy h p d w : ∃ w', proxy_Init h p d w = (Ok (), w');
  up_data dir w : ∃ w', data_Init dir w = (Ok (), w');
  up_sync dir key peers w : ∃ w', ipfssync_Start dir key peers w = (Ok (), w');
  up_census dir w : ∃ m w', census_Init dir w = (Ok m, w');
  up_vochain cfg results wait ma cm w : ∃ v w', service_Vochain cfg results wait ma cm w = (Ok v, w');
  up_keykeeper dir k i w : ∃ w', NewKeyKeeper dir k i w = (Ok (), w');
  up_ethereum pxy w : ∃ e pxy' w',
    Ethereum fuel (dc_EthConfig c) (dc_W3Config c) pxy (ec_SigningKey (dc_EthConfig c)) w = (Ok (e, pxy'), w') ∧
    ∀ w, ∃ w', wait_ethereum fuel (required_peers c) e w = (Ok (), w');
  up_events uri w : ∃ w',
    EthEvents (ec_ProcessDomain (dc_EthConfig c)) uri (ec_ChainType (dc_EthConfig c)) (init_block c) w = (Ok (), w') }.
(** What [main] refuses. *)
Record config_ok c : Prop := {
  ok_mode : ValidMode c = true;
  ok_key : mode_in c ["gateway"; "oracle"; "web3"] = true →
    slen (ec_SigningKey (dc_EthConfig c)) ≠ 32 ∧ is_Some (HexToECDSA (TrimHex (ec_SigningKey (dc_EthConfig c))));
  ok_census : ap_Census (dc_API c) = true → ap_Vote (dc_API c) = true;
  ok_events : is_oracle c = true → is_ok (events_uri (dc_W3Config c)) = true;
  ok_transport : is_gateway c = true → ap_Websockets (dc_API c) || ap_HTTP (dc_API c) = true }.

Lemma fatally_run {A} (m : GM W A) w a w' : m w = (Ok a, w') → fatally m w = (Ok a, w').
Proof. intros Hm. unfold fatally. by rewrite Hm. Qed.
Lemma Ethereum_proxy fuel ec cfg pxy key w e pxy' w' : Ethereum fuel ec cfg pxy key w = (Ok (e, pxy'), w') → has pxy' = has pxy.
Proof.
  unfold Ethereum. case_match; [done|].
  intros (c & w0 & _ & (n & w1 & _ & (? & w2 & _ & (? & w4 & _ & (? & w5 & _ & (m & w6 & _ & Hp)%GM_bind_Ok)%GM_bind_Ok)%GM_bind_Ok)%GM_bind_Ok)%GM_bind_Ok)%GM_bind_Ok.
  destruct pxy as [p|]; [destruct (w3_Enabled cfg)|].
  - by apply GM_bind_Ok in Hp as (? & ? & _ & [= _ <- _]).
  - by injection Hp as _ <- _.
  - by injection Hp as _ <- _.
Qed.

Section stages.
Context (fuel : nat) (c : DvoteCfg) (Hup : all_start fuel c) (Hok : config_ok c).
Lemma start_signer_ok w : ∃ s, start_signer c w = (Ok s, w) ∧ has s = mode_in c ["gateway"; "oracle"; "web3"].
Proof.
  unfold start_signer. destruct (mode_in c _) eqn:Hm; [|by exists None].
  destruct (ok_key _ Hok Hm) as [Hl [k Hk]]. rewrite decide_True by done.
  eexists (Some _). split; [|reflexivity]. rewrite GM_run. unfold fatally, lift, ethkeys.AddHexKey. by rewrite Hk.
Qed.
Lemma start_proxy_ok w : ∃ pxy w', start_proxy c w = (Ok pxy, w') ∧ has pxy = wants_proxy c.
Proof.
  unfold start_proxy. destruct (wants_proxy c); [|by eexists None, _].
  destruct (up_proxy _ _ Hup (ap_ListenHost (dc_API c)) (ap_ListenPort (dc_API c)) (ap_SslDomain (dc_API c)) w) as [w' Hp].
  eexists (Some _), w'. split; [|done]. rewrite GM_run. unfold fatally, Proxy_service. by rewrite GM_run, Hp.
Qed.
Lemma IPFS_ok i w : ∃ w', IPFS i w = (Ok (negb (ip_NoInit i)), w').
Proof.
  unfold IPFS. destruct (ip_NoInit i); [by eexists|].
  destruct (up_data _ _ Hup (ip_ConfigPath i) w) as [w1 H1']. rewrite GM_run, H1', GM_run.
  case_decide; [by eexists|].
  destruct (up_sync _ _ Hup (ip_ConfigPath i +:+ "/.ipfsSync") (ip_SyncKey i)
    (match ip_SyncPeers i with p :: _ => if decide (8 < slen p) then ip_SyncPeers i else [] | [] => [] end) w1) as [w2 H2'].
  exists w2. by rewrite H2'.
Qed.
Lemma start_storage_ok w : ∃ st cm w', start_storage c w = (Ok (st, cm), w') ∧
  st = is_gateway c && negb (ip_NoInit (dc_Ipfs c)) ∧ has cm = is_gateway c && ap_Census (dc_API c).
Proof.
  unfold start_storage. destruct (is_gateway c); [|by eexists _, None, _].
  destruct (IPFS_ok (dc_Ipfs c) w) as [w1 H1']. rewrite GM_run, (fatally_run _ _ _ _ H1').
  destruct (ap_Census (dc_API c)); [|by eexists _, None, _].
  destruct (up_census _ _ Hup (dc_DataDir c +:+ "/census") w1) as (m & w2 & H2').
  rewrite GM_run, (fatally_run _ _ _ _ H2'). by eexists _, (Some _), _.
Qed.
Lemma start_ethereum_ok pxy w : ∃ e pxy' w', start_ethereum fuel c pxy w = (Ok (e, pxy'), w') ∧ has e = wants_ethereum c ∧
  has pxy' = has pxy ∧
  (∀ n, e = Some n → ∀ w, ∃ w', wait_ethereum fuel (required_peers c) n w = (Ok (), w')).
Proof.
  unfold start_ethereum. destruct (wants_ethereum c); [|by eexists None, _, _].
  destruct (up_ethereum _ _ Hup pxy w) as (e & pxy' & w' & He & Hw).
  rewrite GM_run, (fatally_run _ _ _ _ He). eexists (Some e), pxy', w'. split_and!; try done.
  - by eapply Ethereum_proxy.
  - by intros n [= <-].
Qed.
Lemma tendermint_route_ok pxy : (is_gateway c = true → has pxy = true) →
  ∃ pxy', tendermint_route c pxy = Ok pxy' ∧ has pxy' = has pxy.
Proof.
  intros Hp. unfold tendermint_route. destruct (is_gateway c); [|by exists pxy].
  destruct (ap_Tendermint (dc_API c)); [|by exists pxy]. cbn [andb].
  destruct (split_on _ _) as [|? [|? [|]]]; try by exists pxy.
  destruct pxy as [p|]; [by eexists (Some _)|]. by specialize (Hp eq_refl).
Qed.
Lemma start_vochain_ok cm pxy w : (is_gateway c = true → has pxy = true) →
  ∃ v pxy' w', start_vochain c cm pxy w = (Ok (v, pxy'), w') ∧ has v = wants_vochain c ∧ has pxy' = has pxy.
Proof.
  intros Hp. unfold start_vochain.
  destruct (negb (ap_Vote (dc_API c)) && ap_Census (dc_API c)) eqn:Hb.
  { apply andb_true_iff in Hb as [Hb Hc]. by rewrite (ok_census _ Hok Hc) in Hb. }
  destruct (wants_vochain c); [|by eexists None, _, _].
  destruct (up_vochain _ _ Hup (dc_VochainConfig c) (is_gateway c && ap_Results (dc_API c))
    (negb (vc_NoWaitSync (dc_VochainConfig c))) (mt_Enabled (dc_Metrics c)) (bool_decide (is_Some cm)) w) as (v & w1 & Hv).
  destruct (tendermint_route_ok pxy Hp) as (pxy' & Ht & Hh).
  rewrite GM_run, (fatally_run _ _ _ _ Hv), GM_run. unfold lift. rewrite Ht. by eexists (Some _), _, _.
Qed.
Lemma start_keykeeper_ok s w : (is_oracle c = true → has s = true) → ∃ w', start_keykeeper c s w = (Ok (wants_keykeeper c), w').
Proof.
  intros Hs. unfold start_keykeeper. destruct (wants_keykeeper c) eqn:Hk; [|by eexists].
  unfold wants_keykeeper in Hk. apply andb_true_iff in Hk as [Ho _]. specialize (Hs Ho). destruct s as [s|]; [|done].
  destruct (up_keykeeper _ _ Hup (vc_DataDir (dc_VochainConfig c) +:+ "/keykeeper") s (vc_KeyKeeperIndex (dc_VochainConfig c)) w)
    as [w' Hw]. exists w'. rewrite GM_run. cbn [nil lift]. by rewrite GM_run, (fatally_run _ _ _ _ Hw).
Qed.
Definition wants_events : bool := is_oracle c && negb (ec_NoWaitSync (dc_EthConfig c)).
Lemma start_events_ok e w : has e = wants_ethereum c →
  (∀ n, e = Some n → ∀ w, ∃ w', wait_ethereum fuel (required_peers c) n w = (Ok (), w')) →
  ∃ u w', start_events fuel c e w = (Ok u, w') ∧ has u = wants_events.
Proof.
  intros He Hw. unfold start_events, wants_events. destruct (ec_NoWaitSync (dc_EthConfig c)).
  { rewrite !andb_false_r. by eexists None, _. }
  rewrite !andb_true_r. destruct (is_gateway c && w3_Enabled (dc_W3Config c) || is_oracle c) eqn:Hb.
  - assert (∃ n, e = Some n) as [n ->].
    { destruct e as [n|]; [by exists n|]. exfalso. cbn in He. symmetry in He. revert He. unfold wants_ethereum.
      apply orb_true_iff in Hb as [->|Hb]; [done|]. unfold is_oracle, mode_in in *. apply bool_decide_eq_true in Hb.
      rewrite (bool_decide_eq_true_2 (dc_Mode c ∈ ["oracle"; "web3"])) by set_solver. by rewrite orb_true_r. }
    destruct (Hw n eq_refl w) as [w1 H1']. rewrite GM_run. cbn [nil lift]. fold (required_peers c). rewrite GM_run, H1'.
    destruct (is_oracle c) eqn:Ho; [|by eexists None, _].
    pose proof (ok_events _ Hok Ho) as Hu. destruct (events_uri (dc_W3Config c)) as [u| |] eqn:Heu; try done.
    rewrite GM_run. unfold lift.
    destruct (up_events _ _ Hup u w1) as [w2 H2'].
    rewrite GM_run, (fatally_run _ _ _ _ H2'). by eexists (Some _), _.
  - apply orb_false_iff in Hb as [_ ->]. by eexists None, _.
Qed.
End stages.

(** The services of a configuration, by mode. *)
Record services_of c (n : DvoteNode (DB := DB) (L := L)) : Prop := {
  so_signer : has (dn_signer n) = mode_in c ["gateway"; "oracle"; "web3"];
  so_proxy : has (dn_pxy n) = wants_proxy c;
  so_storage : dn_storage n = is_gateway c && negb (ip_NoInit (dc_Ipfs c));
  so_census : has (dn_cm n) = is_gateway c && ap_Census (dc_API c);
  so_ethereum : has (dn_eth n) = wants_ethereum c;
  so_vochain : has (dn_vochain n) = wants_vochain c;
  so_scrutinizer : dn_scrutinizer n = is_gateway c && ap_Vote (dc_API c) && ap_Results (dc_API c);
  so_keykeeper : dn_keykeeper n = wants_keykeeper c;
  so_events : has (dn_events n) = wants_events c;
  so_api : match dn_api n with
           | Some r => wants_api c = true ∧ offers (api_methods (dc_API c) (dn_scrutinizer n)) r
           | None => wants_api c = false
           end }.
Lemma mode_sub c l l' : l ⊆ l' → mode_in c l = true → mode_in c l' = true.
Proof. unfold mode_in. rewrite !bool_decide_eq_true. set_solver. Qed.
Lemma gateway_proxy c : is_gateway c = true → wants_proxy c = true.
Proof. intros Hg. unfold wants_proxy. by rewrite (mode_sub c ["gateway"] ["gateway"; "web3"]) by (done || set_solver). Qed.
Lemma gateway_scrutinizer c : wants_vochain c && is_gateway c && ap_Results (dc_API c) =
  is_gateway c && ap_Vote (dc_API c) && ap_Results (dc_API c).
Proof.
  unfold wants_vochain. destruct (is_gateway c) eqn:Hg; [|by rewrite andb_false_r].
  unfold is_gateway, mode_in in *. apply bool_decide_eq_true, list_elem_of_singleton in Hg.
  rewrite (bool_decide_eq_false_2 (dc_Mode c ∈ ["miner"; "oracle"])) by (rewrite Hg; set_solver).
  by rewrite orb_false_r, andb_true_r.
Qed.

End main.

(** ** A library in which every service comes up *)
#[local] Existing Instance RouterFacts.plain_addresses.
#[local] Existing Instance EthNodeFacts.plain_eth.
#[local] Instance plain_names : EnsLib bool := {|
  idna_ToUnicode s := Ok s;
  ethclient_Dial _ w := (true, w);
  NewEnsRegistryWithFallbackCaller _ := Ok ();
  NewEntityResolverCaller _ := Ok ();
  Registry_Resolver _ _ w := (Ok [], w);
  Resolver_Addr _ h w := (Ok (take 20 h), w);
  Resolver_Text _ _ _ w := (Ok "", w) |}.
#[local] Instance plain_env : NodeEnv bool IavlState () := {|
  proxy_Init _ _ _ := mret ();
  data_Init _ := mret ();
  ipfssync_Start _ _ _ := mret ();
  census_Init _ := mret new_Manager;
  service_Vochain _ _ _ _ _ := mret (chain, NewVochainInfo);
  NewKeyKeeper _ _ _ := mret ();
  NewEthEvents _ _ := mret ();
  SubscribeEthereumEventLogs _ := mret () |}.
Definition hex_key : string := b2s (replicate 63 Byte.x30 ++ [Byte.x36]).
Definition node_cfg (mode chain external : string) : DvoteCfg :=
  set_signing_key hex_key
    (mkDvoteCfg (mkW3Cfg true "127.0.0.1" 9091 "/web3" external)
       (mkVochainCfg "main" false "error" "" "127.0.0.1:26657" "0.0.0.0:26656" "" "/d/vochain" "" false [] [] false "" "" false
          false 20000 1 false false)
       (mkIPFSCfg "/d/ipfs" "" false "" []) (mkEthCfg chain false 30303 "" "/d/ethereum" "" [] [] "voting-process.vocdoni.eth" false)
       (mkEthEventCfg true true)
       (mkAPI "/" true true true true true false "" 9090 "0.0.0.0" "" "/d/tls" true Web3WsReadLimit true)
       (mkMetricsCfg false 5) "info" "stdout" "" "/d" false mode false).
Definition oracle_cfg : DvoteCfg := node_cfg "oracle" "sokol" "ws://sokol".
Lemma oracle_config_ok : config_ok oracle_cfg.
Proof.
  split; try (vm_compute; reflexivity); try done.
Qed.
(** The node of the configuration comes up and is synchronised at once. *)
Definition eth_comes_up (c : DvoteCfg) (pxy : option Proxy) (w : bool) : bool :=
  match Ethereum 1 (dc_EthConfig c) (dc_W3Config c) pxy (ec_SigningKey (dc_EthConfig c)) w with
  | (Ok (e, _), _) => is_ok (wait_ethereum 1 (required_peers c) e true).1 && is_ok (wait_ethereum 1 (required_peers c) e false).1
  | _ => false
  end.
Lemma is_ok_run {A} (m : GM bool A) w : is_ok (m w).1 = true → ∃ a w', m w = (Ok a, w').
Proof. destruct (m w) as [[a| |] w'] eqn:E; try done. by exists a, w'. Qed.
Lemma eth_up c : (∀ pxy w, eth_comes_up c pxy w = true) → ∀ pxy w, ∃ e pxy' w',
  Ethereum 1 (dc_EthConfig c) (dc_W3Config c) pxy (ec_SigningKey (dc_EthConfig c)) w = (Ok (e, pxy'), w') ∧
  ∀ w, ∃ w', wait_ethereum 1 (required_peers c) e w = (Ok (), w').
Proof.
  intros Hc pxy w. specialize (Hc pxy w). unfold eth_comes_up in Hc.
  destruct (Ethereum _ _ _ _ _ _) as [[[e pxy']| |] w'] eqn:E; try done. exists e, pxy', w'. split; [done|].
  apply andb_true_iff in Hc as [H1 H2]. intros u.
  destruct u; [apply is_ok_run in H1 as ([] & w1 & H1)|apply is_ok_run in H2 as ([] & w1 & H2)]; by exists w1.
Qed.
Lemma oracle_all_start : all_start 1 oracle_cfg.
Proof.
  split; [intros; by eexists..|intros; by eexists _, _|intros; by eexists _, _|intros; by eexists| |].
  - apply eth_up. intros [p|] []; vm_compute; reflexivity.
  - intros uri w. eexists. vm_compute. reflexivity.
Qed.
